(* ===== verification/_CoqProject ===== *)
-Q . S2P
Prelude.v
GoStd.v
Crypto.v
Model.v
Pool.v
Repository.v
RepositoryInv.v
RepositoryThm.v
Snapshot.v
Interface.v
Auth.v
Enrollment.v
Room.v
Handler.v
HandlerThm.v
HandlerEnroll.v
PathSelector.v
NetIP.v
NetIP6.v
Wgnt.v
Routes.v
RoutesThm.v
Reconcile.v
ReconcileThm.v
NetURL.v
Json.v
TimeFmt.v
Wire.v
WireThm.v
Ipc.v
IpcCodec.v
Service.v
DataPlane.v
ServiceThm.v
IpcThm.v
SessionThm.v
NetURLThm.v
Client.v
Link.v
ClientThm.v
WatchThm.v
Relay.v
RelayHost.v
RelayThm.v
RelayHostThm.v
RelayDemo.v
RelayAgentThm.v
RoomURL.v
Endpoint.v
EndpointThm.v
Identity.v
IdentityThm.v
Sockaddr.v
Native.v
NativeThm.v
NativeHandles.v
IPHelper.v
IPHelperThm.v
Vpnctl.v
VpnctlThm.v
Server.v
Installer.v
InstallerThm.v
Pipe.v
PipeThm.v
