(* ===== verification/Prelude.v ===== *)
(** * IPv6Mesh: a verification library

    IPv6Mesh is a virtual private network of nodes that reach each other over
    IPv6.  A control server keeps the networks, nodes, addresses, invitations and
    endpoints and hands every node a snapshot of its network; a privileged local
    service on each node joins a network, applies the snapshots to a WireGuard
    adapter and to the routes of the host, and answers the local command line
    over a pipe.  This library translates the core of the Go sources under [src/]
    into Rocq functions and proves what makes them correct.

    ** The parts and where they are

    The control server:
    - [Model.v]: the records and validators of [internal/control/model.go] and
      [validation.go]; [Pool.v]: the address pool of [internal/address/pool.go];
    - [Repository.v]: the in-memory repository of [internal/db/repository.go],
      one definition per method, with its transactions; [RepositoryInv.v] and
      [RepositoryThm.v] hold its invariant and its theorems, [Snapshot.v] the
      snapshot builder;
    - [Interface.v]: the contract of [internal/control/repository_contract.go]
      as a class with laws, and the repository as its instance;
    - [Auth.v]: tokens and sessions of [internal/auth/tokens.go];
      [Enrollment.v]: [internal/enrollment/service.go], over the contract;
    - [Room.v]: the room coordinator and join limiter of
      [internal/control/room.go]; [Handler.v]: every HTTP resource of
      [internal/control/http.go], with [HandlerThm.v] and [HandlerEnroll.v];
    - [Server.v]: configuration and start-up of [cmd/control-server].

    Between server and node:
    - [Wire.v], [WireThm.v]: the JSON bodies of the control API with their
      decoders; [Client.v], [ClientThm.v], [WatchThm.v]: the HTTP and event
      clients of [internal/control] ([client.go], [room_client.go],
      [admin_client.go], [events.go]), which [Link.v] connects to the handler;
    - [IpcCodec.v], [IpcThm.v]: the JSON text of the local protocol and the
      client and server ends of a call; [Pipe.v], [PipeThm.v]: the client and the
      server of the named pipe ([internal/ipc]), the server as a machine whose
      loop, connections and closing interleave.

    The node:
    - [PathSelector.v]: the state machine of [internal/path/selector.go];
    - [Wgnt.v]: keys, configurations and the adapter interface of
      [internal/wgnt/api.go]; [Native.v], [NativeThm.v], [NativeHandles.v]: the
      client of the WireGuard driver in [adapter_windows.go], down to the bytes
      it exchanges; [Sockaddr.v]: socket addresses in memory;
    - [Routes.v], [RoutesThm.v]: the route reconciler of
      [internal/netwin/route_reconciler.go], over a backend; [IPHelper.v],
      [IPHelperThm.v]: the backend of [iphelper_windows.go];
    - [Reconcile.v], [ReconcileThm.v]: planning and applying of snapshots in
      [internal/reconcile/snapshot.go], over the adapter and a route manager;
    - [Endpoint.v], [EndpointThm.v]: endpoint discovery and its report
      ([internal/endpoint]); [Identity.v], [IdentityThm.v]: the device identity
      and its file ([internal/identity/store.go]);
    - [Ipc.v]: data and validation of [internal/ipc/protocol.go]; [Service.v],
      [ServiceThm.v]: the local service of [internal/service/service.go] over any
      collaborators; [DataPlane.v], [SessionThm.v]: its control client
      ([control_client.go]) and data plane ([service_windows.go]), put together
      as [cmd/vpn-service] does it;
    - [RoomURL.v]: the address of a room ([internal/room/address.go]);
      [Vpnctl.v], [VpnctlThm.v]: the command line of [cmd/vpnctl];
      [Installer.v], [InstallerThm.v]: the run of [cmd/ipv6mesh-installer].

    The relay host: [Relay.v] (configuration and WireGuard translation of
    [internal/relay]), [RelayHost.v] (its Linux route and WireGuard managers, the
    runtime and [cmd/relay-agent]), with [RelayThm.v], [RelayHostThm.v],
    [RelayAgentThm.v], and in [RelayDemo.v] a host to run it on.

    Shared: this file (errors, the state and error monad, stable sorting, string
    order), [GoStd.v] (what the program uses of the Go library: bytes, trimming,
    time, contexts, addresses and their text), [Crypto.v] (SHA-256 and base64),
    [NetIP.v], [NetIP6.v] (prefixes, ports, decimal numbers, IPv6 text),
    [NetURL.v], [NetURLThm.v] ([net/url]), [Json.v] ([encoding/json]: parser,
    printer, field matching), [TimeFmt.v] (RFC 3339 text).

    ** Conventions

    A method is a function from its state to a result and the state it leaves,
    which is kept on the error path too.  Mutexes make methods sequential, so an
    execution is a sequence of calls.  Clock readings, random reads, generated
    identifiers, the outcome of decoding a JSON body and of a WebSocket upgrade
    are arguments; a context is what a call sees of it: nil, live or done.  Maps
    are [gmap]s, and where the order of a [range] matters it is an argument that
    is any permutation.  Integers are [Z] and wrap at their width where the code
    can overflow ([ConfigVersion], counters, 32-bit addresses).  Memory that is
    shared with the operating system is a list of bytes with the offsets of the
    64-bit layout.  Values that Go copies defensively are immutable here, so a
    clone is the identity on them.  Code outside the repository is a class of
    operations on an arbitrary system type: routes and addresses of the host
    ([Backend]), WireGuard ([Adapter]), the driver library ([WireGuardNT]), the
    Windows tables ([IPHelperAPI]), the commands [ip] and [wg], files and data
    protection, the pipe and the console, with their documented behaviour as laws
    and an instance, often one that fails on a schedule.  Nil receivers are not
    modelled.

    ** What the theorems show

    - The repository: the invariant of every reachable state (exact inverse
      indexes, live references, unique addresses inside the pool), atomic
      transactions, invitations used at most once and never after revocation,
      versions that advance with every change of the configuration, so that equal
      versions mean equal data planes, and snapshots that hold exactly the active
      peers with distinct addresses and keys.
    - The pool and enrollment: the allocators find a free address whenever there
      is one, terminate, and enrollment as a whole gives one or changes nothing.
    - Credentials and the HTTP API: session lifetime and revocation, the format
      of tokens and headers; requests keep every component consistent, refused
      credentials have no effect, a node session reaches only its own node, an
      enrollment is usable at once, the limiter keeps its bounds; a server that
      starts uses exactly its configuration.
    - The wire: what the handler answers is what the clients return, for joining,
      snapshots and events; local requests and responses survive their encoding;
      under every interleaving the pipe server handles requests one by one, answers
      each caller with its own answer, and closes every connection.
    - The node: the selector's bounds, failover and recovery; the route
      reconciler never removes what it does not own and reconciles or restores;
      plans are exactly the snapshots, every snapshot the server can build for
      nodes with WireGuard keys can be planned, and applying keeps record and
      system in agreement; the service refines a machine with three phases, and
      service, control client, applier and system stay in agreement; an identity
      is never replaced; discovered endpoints are ranked and reported.
    - Windows: configurations survive the driver's memory layout, the status of
      an adapter is read inside the buffer, the open handles are exactly the ones
      in the tables, and the IP helper is a backend as the reconciler needs it.
    - The command line accepts exactly its grammar, and its requests reach the
      service unchanged; the installer's wizard leaves a device that joined and is
      connected as asked, over a pipe that loses calls and answers.
    - The relay: accepted configurations are accepted by every layer below, a
      start gives the host the configured interface, and a run that ends without
      error leaves routes and addresses as they were.

    ** Bounds and fuel

    The loops over an address pool run on fuel [Size pool], which the theorems
    show to be enough (the result never depends on it running out); the parsers
    of JSON, URLs and IPv6 text run on the length of their input.  The peers of a
    driver's status are read on the length of the buffer, and the request for a
    configuration is repeated at most [2^25] times, more often than the size can
    grow; [Status_total] shows that both end.  The installer repeats a call at most
    61 times, as often as its thirty seconds allow.  Theorems about configuration
    versions assume histories shorter than [2^63] steps, those about adapter
    identifiers fewer than [2^64].

    ** Not modelled

    The PostgreSQL repository (the SQL engine decides its behaviour), service
    control, data protection and access control lists of Windows, the payload of
    the installer, HTTP listeners, timeouts and shutdown, and the flags and exit
    codes of the [main] functions: they are system calls or library code, with
    little logic of their own.  [time.ParseDuration] and full Unicode case
    folding are arguments where they decide something. *)

From stdpp Require Export base decidable option list strings gmap fin_maps.
From Stdlib Require Export ZArith Lia Bool.
From Stdlib Require Export Permutation Sorted.

(** ** Error values

    The sentinel errors of the packages.  Sentinels of [internal/control]
    (which [internal/db] aliases) keep their Go names; the ones of the other
    packages carry the package as a prefix when the name is used twice. *)
Inductive sentinel :=
(* internal/control *)
| ErrValidation | ErrNotFound | ErrConflict | ErrInviteExpired | ErrInviteConsumed
| ErrInviteRevoked | ErrDatabaseUnavailable | ErrInvalidContext
| errInvalidJSON | ErrInvalidInviteToken | ErrInvalidRequest | ErrRequestTooLarge | ErrCommitUnknown
| ErrRoomModeDisabled | ErrRoomNotReady | ErrRoomAlreadyExists
| ErrInvalidClient | ErrControlHTTP | ErrControlUnauthorized | ErrControlForbidden | ErrControlNotFound
| ErrControlConflict | ErrControlUnavailable | ErrControlInvalidResponse
(* internal/address *)
| ErrInvalidPool | ErrPoolExhausted
(* internal/auth *)
| ErrUnauthorized | ErrMissingCredential | ErrMalformedCredential | ErrInvalidCredential
| ErrInvalidBootstrapToken | ErrSessionExpired | ErrInvalidSessionTTL | ErrWrongNetwork
| ErrRevokedNetwork | ErrInsufficientPermission
(* internal/enrollment *)
| enrollment_ErrInvalidInviteToken | enrollment_ErrInvalidRequest
(* internal/path *)
| path_ErrInvalidOptions | path_ErrInvalidState | ErrOutOfOrderObservation
(* internal/wgnt *)
| wgnt_ErrInvalidConfig | wgnt_ErrInvalidHandle
(* internal/netwin *)
| ErrInvalidRoute | ErrDefaultRoute | ErrInvalidBackend
(* internal/reconcile *)
| reconcile_ErrInvalidOptions | ErrInvalidSnapshot | ErrStaleSnapshot
(* internal/room *)
| ErrInvalidHostIPv6
(* internal/service *)
| service_ErrInvalidOptions | ErrInvalidIdentity | ErrControlClient
(* internal/ipc *)
| ipc_ErrInvalidRequest | ipc_ErrInvalidResponse | ErrMessageTooLarge
(* internal/identity *)
| ErrUnsupportedPlatform | ErrCorruptIdentity
(* internal/endpoint *)
| ErrInvalidEnumerator | ErrInvalidReporter
(* internal/relay *)
| relay_ErrInvalidConfig | ErrDuplicatePeer | ErrDuplicateAddress | ErrInvalidRuntime
(* cmd/control-server *)
| server_ErrInvalidConfig | ErrRepositoryUnavailable
(* cmd/vpnctl *)
| ErrControlCommand
(* context *)
| Canceled | DeadlineExceeded.

#[global] Instance sentinel_eq_dec : EqDecision sentinel.
Proof. solve_decision. Defined.

(** A Go [error] that is not nil: a sentinel, the three structured errors of the
    program, [fmt.Errorf] with a wrapped error, [errors.Join], a [net.Error] and
    an [url.Error] of the standard library, or an error of a dependency (a
    driver, the operating system) known by a number. Message texts other than
    those of [ValidationError] are not kept. *)
Inductive error :=
| ESentinel (s : sentinel)
| EValidation (model field reason : string)
| EPoolExhausted (cidr : string)
| EHTTP (status : Z) (code : string)
| ENet (timeout : bool)
| EURL (e : error)
| EWrap (e : error)
| EJoin (e1 e2 : error)
| EForeign (code : nat).

#[global] Instance error_eq_dec : EqDecision error.
Proof. solve_decision. Defined.

Coercion ESentinel : sentinel >-> error.

(** [errors.Is]: the target is found along [Unwrap]. [ValidationError] unwraps
    to [ErrValidation], [PoolExhaustedError] to [ErrPoolExhausted], [HTTPError]
    is [ErrControlHTTP] and what its [Is] says of its status. *)
Definition http_error_is (status : Z) (target : sentinel) : bool :=
  bool_decide (target = ErrControlHTTP) ||
  (if (status =? 401)%Z then bool_decide (target = ErrControlUnauthorized)
   else if (status =? 403)%Z then bool_decide (target = ErrControlForbidden)
   else if (status =? 404)%Z then bool_decide (target = ErrControlNotFound)
   else if (status =? 409)%Z then bool_decide (target = ErrControlConflict)
   else if (status =? 503)%Z || (status =? 502)%Z || (status =? 504)%Z then bool_decide (target = ErrControlUnavailable)
   else false).
Fixpoint error_is (e : error) (target : sentinel) : bool :=
  match e with
  | ESentinel s => bool_decide (s = target)
  | EValidation _ _ _ => bool_decide (ErrValidation = target)
  | EPoolExhausted _ => bool_decide (ErrPoolExhausted = target)
  | EHTTP status _ => http_error_is status target
  | ENet _ => false
  | EURL e => error_is e target
  | EWrap e => error_is e target
  | EJoin e1 e2 => error_is e1 target || error_is e2 target
  | EForeign _ => false
  end.

(** [errors.Join] on possibly nil errors; it wraps a single error too. *)
Definition errors_Join (a b : option error) : option error :=
  match a, b with
  | None, None => None
  | Some e, None | None, Some e => Some (EWrap e)
  | Some e, Some e' => Some (EJoin e e')
  end.
Lemma errors_Join_None a b : errors_Join a b = None ↔ a = None ∧ b = None.
Proof. destruct a, b; naive_solver. Qed.

(** ** Results and the state monad

    A fallible function returns [result A]; a function that only returns an
    [error] returns [option error] with [None] for nil. A method on a mutable
    object is a function from its state to a result and the state it leaves,
    which is kept on the error path too: Go does not undo writes. *)
Inductive result (A : Type) :=
| Ok (a : A)
| Err (e : error).
Arguments Ok {A} a.
Arguments Err {A} e.

#[export] Instance result_bind : MBind result := λ A B f r, match r with Ok a => f a | Err e => Err e end.
Definition is_ok {A} (r : result A) : bool := match r with Ok _ => true | Err _ => false end.
Definition error_of {A} (r : result A) : option error := match r with Ok _ => None | Err e => Some e end.

Definition M (S A : Type) : Type := S → result A * S.

Definition ret {S A} (a : A) : M S A := λ s, (Ok a, s).
Definition throw {S A} (e : error) : M S A := λ s, (Err e, s).
Definition bind {S A B} (m : M S A) (k : A → M S B) : M S B :=
  λ s, match m s with
       | (Ok a, s') => k a s'
       | (Err e, s') => (Err e, s')
       end.
Definition get {S} : M S S := λ s, (Ok s, s).
Definition put {S} (s : S) : M S unit := λ _, (Ok tt, s).
Definition check {S} (e : option error) : M S unit :=
  match e with None => ret tt | Some e => throw e end.
Definition lift {S A} (r : result A) : M S A :=
  match r with Ok a => ret a | Err e => throw e end.

Declare Scope go_scope.
Delimit Scope go_scope with go.
Notation "'let!' x := m 'in' k" := (bind m (λ x, k))
  (at level 10, x name, m at level 100, k at level 200) : go_scope.
Notation "m ';;' k" := (bind m (λ _, k))
  (at level 100, k at level 200, right associativity) : go_scope.
(** [if err := e1; err != nil { return err }; e2] for functions that return an
    error only. *)
Notation "e1 '>>?' e2" := (match e1 with Some err => Some err | None => e2 end)
  (at level 60, right associativity) : go_scope.
Open Scope go_scope.

(** Evaluation of the monad on a state; [monad] is the database that runs a
    method up to its first test. *)
Section Monad.
Context {S A B : Type}.

Lemma bind_check e (k : unit → M S A) s :
  bind (check e) k s = match e with Some err => (Err err, s) | None => k tt s end.
Proof. by destruct e. Qed.
Lemma bind_lift (r : result B) (k : B → M S A) s :
  bind (lift r) k s = match r with Ok b => k b s | Err err => (Err err, s) end.
Proof. by destruct r. Qed.
Lemma bind_get (k : S → M S A) s : bind get k s = k s s.
Proof. done. Qed.
Lemma bind_put s' (k : unit → M S A) s : bind (put s') k s = k tt s'.
Proof. done. Qed.
Lemma bind_ret b (k : B → M S A) s : bind (ret b) k s = k b s.
Proof. done. Qed.
Lemma bind_throw e (k : B → M S A) s : bind (throw e) k s = (Err e, s).
Proof. done. Qed.
Lemma run_ret (a : A) (s : S) : ret a s = (Ok a, s).
Proof. done. Qed.
Lemma run_throw e (s : S) : throw (A := A) e s = (Err e, s).
Proof. done. Qed.
Lemma run_put (s s' : S) : put s' s = (Ok tt, s').
Proof. done. Qed.
Lemma run_check e (s : S) :
  check e s = match e with Some err => (Err err, s) | None => (Ok tt, s) end.
Proof. by destruct e. Qed.
Lemma run_lift (r : result A) (s : S) : lift r s = (r, s).
Proof. by destruct r. Qed.

End Monad.

Create HintDb monad.
#[export] Hint Rewrite @bind_check @bind_lift @bind_get @bind_put @bind_ret @bind_throw
  @run_ret @run_throw @run_put @run_check @run_lift : monad.

(** The two ways a method ends: [E] holds of the error and the state it leaves,
    or [Q] of the result and the state. *)
Definition outcome {S A} (E : error → S → Prop) (Q : A → S → Prop) (x : result A * S) : Prop :=
  match x.1 with Ok a => Q a x.2 | Err e => E e x.2 end.

Lemma outcome_ok {S A} (E : error → S → Prop) (Q : A → S → Prop) a s : outcome E Q (Ok a, s) ↔ Q a s.
Proof. done. Qed.
Lemma outcome_err {S A} (E : error → S → Prop) (Q : A → S → Prop) e s : outcome E Q (Err e, s) ↔ E e s.
Proof. done. Qed.

Lemma outcome_snd {S A} (E : error → S → Prop) (Q : A → S → Prop) (P : S → Prop) (x : result A * S) :
  outcome E Q x → (∀ e s, E e s → P s) → (∀ a s, Q a s → P s) → P x.2.
Proof. destruct x as [[a|e] s]; unfold outcome; simpl; eauto. Qed.

(** [run_m] evaluates the goal along its guards: every test of the method is a
    case, and the cases that contradict a hypothesis are closed. *)
Ltac run_m :=
  repeat first
    [ progress autorewrite with monad; cbv beta zeta; cbn [fst snd]
    | case_match; try discriminate ].

(** Linear arithmetic with division and modulo by constants. *)
Ltac divlia := Z.to_euclidean_division_equations; lia.

(** ** Stable sorting

    [sort.SliceStable]: the model is insertion from the right, which keeps the
    order of equivalent elements; [sort.Strings] is the same with [String.ltb]. *)
Section Sort.
Context {A : Type} (less : A → A → bool).

Fixpoint sort_insert (x : A) (l : list A) : list A :=
  match l with
  | [] => [x]
  | y :: l' => if less y x then y :: sort_insert x l' else x :: l
  end.

Fixpoint SliceStable (l : list A) : list A :=
  match l with
  | [] => []
  | x :: l' => sort_insert x (SliceStable l')
  end.

(** A [less] function that [sort.SliceStable] accepts: a strict weak order. *)
Class StrictWeak := {
  less_asym : ∀ x y, less x y = true → less y x = false;
  less_negtrans : ∀ x y z, less x y = false → less y z = false → less x z = false
}.

Lemma sort_insert_perm x l : sort_insert x l ≡ₚ x :: l.
Proof.
  induction l as [|y l IH]; simpl; [done|].
  destruct (less y x); [|done]. rewrite IH. apply Permutation_swap.
Qed.

Lemma SliceStable_perm l : SliceStable l ≡ₚ l.
Proof.
  induction l as [|x l IH]; simpl; [done|]. by rewrite sort_insert_perm, IH.
Qed.

Lemma SliceStable_length l : length (SliceStable l) = length l.
Proof. by rewrite (SliceStable_perm l). Qed.

Lemma SliceStable_elem x l : x ∈ SliceStable l ↔ x ∈ l.
Proof. by rewrite (SliceStable_perm l). Qed.

(** Nothing later in the result is [less] than something earlier. *)
Definition sorted_by (l : list A) : Prop := StronglySorted (λ x y, less y x = false) l.

Context `{!StrictWeak}.

Lemma sort_insert_sorted x l : sorted_by l → sorted_by (sort_insert x l).
Proof.
  induction 1 as [|y l Hl IH Hy]; simpl; [repeat constructor|].
  destruct (less y x) eqn:E; constructor; try done.
  - rewrite (Forall_forall (λ z, less z y = false)) in *.
    intros z Hz. rewrite sort_insert_perm in Hz.
    apply elem_of_cons in Hz as [->|Hz]; [by apply less_asym|auto].
  - by constructor.
  - constructor; [done|]. rewrite Forall_forall in *.
    intros z Hz. eapply less_negtrans; eauto.
Qed.

Lemma SliceStable_sorted l : sorted_by (SliceStable l).
Proof. induction l; simpl; [constructor|by apply sort_insert_sorted]. Qed.

Lemma sort_insert_id x l : Forall (λ y, less y x = false) l → sort_insert x l = x :: l.
Proof. destruct 1 as [|y l Hy]; simpl; [done|by rewrite Hy]. Qed.

(** Sorting what is sorted changes nothing: the second sort in the snapshot
    builder and the re-sort of stored endpoints are the identity. *)
Lemma SliceStable_id l : sorted_by l → SliceStable l = l.
Proof.
  induction 1 as [|x l Hl IH Hx]; simpl; [done|].
  rewrite IH. by apply sort_insert_id.
Qed.

End Sort.

(** ** Strings as byte sequences *)
Definition sltb : string → string → bool := String.ltb.

Lemma sltb_spec s1 s2 : sltb s1 s2 = negb (String.leb s2 s1).
Proof.
  unfold sltb, String.ltb, String.leb. rewrite String.compare_antisym.
  by destruct (String.compare s2 s1).
Qed.

Lemma sltb_irrefl s : sltb s s = false.
Proof.
  rewrite sltb_spec. assert (String.le s s) as H by reflexivity.
  unfold String.le in H. by destruct (String.leb s s).
Qed.

Lemma sltb_total s1 s2 : s1 ≠ s2 → sltb s1 s2 = true ∨ sltb s2 s1 = true.
Proof.
  intros Hne. unfold sltb, String.ltb. rewrite (String.compare_antisym s2 s1).
  destruct (String.compare s1 s2) eqn:E; simpl; auto.
  apply String.compare_eq_iff in E. congruence.
Qed.

#[global] Instance sltb_StrictWeak : StrictWeak sltb.
Proof.
  split.
  - intros x y. rewrite !sltb_spec, negb_true_iff, negb_false_iff.
    destruct (String.leb_total x y); congruence.
  - intros x y z. rewrite !sltb_spec, !negb_false_iff. intros Hyx Hzy.
    assert (String.le z x) as H; [|by unfold String.le in H; destruct (String.leb z x)].
    transitivity y; unfold String.le; by rewrite ?Hyx, ?Hzy.
Qed.

Lemma sltb_antisym s1 s2 : sltb s1 s2 = false → sltb s2 s1 = false → s1 = s2.
Proof.
  intros H1 H2. destruct (decide (s1 = s2)) as [|Hne]; [done|].
  destruct (sltb_total _ _ Hne); congruence.
Qed.

(** A lexicographic comparison by a first key and then a second one, the shape
    of every multi-key [less] of the program, is a strict weak order. *)
Definition lex_less {A K} `{EqDecision K} (key : A → K) (lt : K → K → bool)
    (rest : A → A → bool) (x y : A) : bool :=
  if decide (key x = key y) then rest x y else lt (key x) (key y).

Class StrictTotal {K} (lt : K → K → bool) := {
  st_weak :: StrictWeak lt;
  st_total : ∀ x y, lt x y = false → lt y x = false → x = y
}.

#[global] Instance sltb_StrictTotal : StrictTotal sltb.
Proof. split; [apply _|apply sltb_antisym]. Qed.

#[global] Instance Zltb_StrictTotal : StrictTotal Z.ltb.
Proof.
  split; [split|]; intros *; rewrite ?Z.ltb_lt, ?Z.ltb_ge; lia.
Qed.

#[global] Instance lex_less_StrictWeak {A K} `{EqDecision K} (key : A → K) lt rest :
  StrictTotal lt → StrictWeak rest → StrictWeak (lex_less key lt rest).
Proof.
  intros Hlt Hrest. split; unfold lex_less.
  - intros x y. repeat case_decide; try congruence.
    + apply (less_asym rest).
    + apply (less_asym lt).
  - intros x y z. repeat case_decide; try congruence.
    + apply (less_negtrans rest).
    + intros Hxy Hyz. assert (key x = key y); [|congruence].
      apply st_total; congruence.
    + apply (less_negtrans lt).
Qed.

#[global] Instance key_less_StrictWeak {A K} (key : A → K) lt :
  StrictWeak lt → StrictWeak (λ x y, lt (key x) (key y)).
Proof.
  intros Hlt. split; intros *; [apply (less_asym lt)|apply (less_negtrans lt)].
Qed.

(** ** Lists *)
Lemma NoDup_fmap_inj_on {A B} (f : A → B) (l : list A) :
  NoDup l → (∀ x y, x ∈ l → y ∈ l → f x = f y → x = y) → NoDup (f <$> l).
Proof.
  induction 1 as [|x l Hx Hl IH]; intros Hinj; csimpl; constructor.
  - intros (y & Hy & Hyl)%list_elem_of_fmap. apply Hx.
    rewrite (Hinj x y); [done|by left|by right|done].
  - apply IH. intros ?????. apply Hinj; [by right|by right|done].
Qed.

Lemma NoDup_omap_inj_on {A B} (f : A → option B) (l : list A) :
  NoDup l → (∀ x y b, x ∈ l → y ∈ l → f x = Some b → f y = Some b → x = y) → NoDup (omap f l).
Proof.
  induction 1 as [|x l Hx Hl IH]; intros Hinj; csimpl; [constructor|].
  assert (NoDup (omap f l)) by (apply IH; intros ??????; apply (Hinj x0 y b); try done; by right).
  destruct (f x) as [b|] eqn:E; [|done]. constructor; [|done].
  intros (y & Hy & Hfy)%list_elem_of_omap. apply Hx.
  rewrite (Hinj x y b); [done|by left|by right|done|done].
Qed.

Lemma StronglySorted_filter {A} (R : A → A → Prop) (P : A → Prop) `{!∀ x, Decision (P x)} l :
  StronglySorted R l → StronglySorted R (filter P l).
Proof.
  induction 1 as [|x l Hl IH Hx]; [constructor|].
  rewrite filter_cons. case_decide; [|done]. constructor; [done|].
  rewrite Forall_forall in *. intros y [_ Hy]%list_elem_of_filter. auto.
Qed.

Lemma StronglySorted_seqZ m n : StronglySorted Z.lt (seqZ m n).
Proof.
  destruct (Z.lt_ge_cases n 0) as [Hn|Hn]; [rewrite seqZ_nil by lia; constructor|].
  revert m. pattern n. apply natlike_ind; [|clear n Hn|done].
  - intros m. rewrite seqZ_nil by lia. constructor.
  - intros n Hn IH m. rewrite seqZ_cons by lia. rewrite Z.pred_succ. constructor; [done|].
    apply Forall_forall. intros x. rewrite elem_of_seqZ. lia.
Qed.

Lemma NoDup_fmap_filter {A B} (f : A → B) (P : A → Prop) `{!∀ x, Decision (P x)} l :
  NoDup (f <$> l) → NoDup (f <$> filter P l).
Proof.
  induction l as [|x l IH]; csimpl; [done|]. rewrite NoDup_cons, filter_cons. intros [Hx Hl].
  case_decide; csimpl; [|auto]. constructor; [|auto].
  intros (y & Hy & [_ Hl']%list_elem_of_filter)%list_elem_of_fmap. apply Hx. rewrite Hy.
  by apply list_elem_of_fmap_2.
Qed.

Lemma StronglySorted_omap {A B} (R : A → A → Prop) (R' : B → B → Prop) (f : A → option B) l :
  StronglySorted R l → (∀ x y p q, R x y → f x = Some p → f y = Some q → R' p q) →
  StronglySorted R' (omap f l).
Proof.
  intros Hl HR. induction Hl as [|x l Hl IH Hx]; csimpl; [constructor|].
  destruct (f x) as [p|] eqn:E; [|done]. constructor; [done|].
  apply Forall_forall. intros q (y & Hy & Hq)%list_elem_of_omap.
  rewrite Forall_forall in Hx. eauto.
Qed.

Lemma StronglySorted_impl {A} (R R' : A → A → Prop) l :
  StronglySorted R l → (∀ x y, R x y → R' x y) → StronglySorted R' l.
Proof.
  intros Hl HR. induction Hl as [|x l Hl IH Hx]; constructor; [done|].
  eapply Forall_impl; [exact Hx|]. eauto.
Qed.

(** Sorting distinct strings gives a strictly increasing list. *)
Lemma SliceStable_strict l :
  NoDup l → StronglySorted (λ x y, sltb x y = true) (SliceStable sltb l).
Proof.
  intros Hl. pose proof (SliceStable_sorted sltb l) as Hs.
  assert (NoDup (SliceStable sltb l)) as Hnd by (by rewrite SliceStable_perm).
  induction Hs as [|x k Hk IH Hx]; [constructor|]. apply NoDup_cons in Hnd as [Hxk Hnd].
  constructor; [auto|]. rewrite Forall_forall in *. intros y Hy. specialize (Hx y Hy).
  destruct (sltb_total x y) as [|]; [by intros ->|done|congruence].
Qed.

Lemma StronglySorted_irrefl_NoDup {A} (R : A → A → Prop) l :
  (∀ x, ¬ R x x) → StronglySorted R l → NoDup l.
Proof.
  intros Hirr. induction 1 as [|x l Hl IH Hx]; constructor; [|done].
  rewrite Forall_forall in Hx. intros Hin. by eapply Hirr, Hx.
Qed.

Lemma StronglySorted_fmap {A B} (R : A → A → Prop) (R' : B → B → Prop) (f : A → B) l :
  StronglySorted R l → (∀ x y, R x y → R' (f x) (f y)) → StronglySorted R' (f <$> l).
Proof.
  intros Hl HR. induction Hl as [|x l Hl IH Hx]; csimpl; constructor; [done|].
  apply Forall_fmap. eapply Forall_impl; [exact Hx|]. intros y. apply HR.
Qed.

(** ** Inversion and invariants of the monad *)
Lemma bind_Ok_inv {S A B} (m : M S A) (k : A → M S B) s b s' :
  bind m k s = (Ok b, s') → ∃ a s1, m s = (Ok a, s1) ∧ k a s1 = (Ok b, s').
Proof. unfold bind. destruct (m s) as [[a|e] s1]; [|done]. eauto. Qed.

Lemma bind_keeps {S A B} (P : S → Prop) (m : M S A) (k : A → M S B) s :
  P (m s).2 → (∀ a s', P s' → P (k a s').2) → P (bind m k s).2.
Proof. unfold bind. destruct (m s) as [[a|e] s']; simpl; auto. Qed.
