(* ===== verification/GoStd.v ===== *)
(** * The part of the Go standard library the program uses

    Strings are byte sequences ([string] with [ascii] as a byte), [time.Time]
    is a number of nanoseconds since the zero time (January 1, year 1, UTC),
    [time.Duration] a number of nanoseconds, [net.IP] a list of byte values
    with [nil] and the empty slice identified, and [netip.Addr] the type [Addr].
    The functions follow the Go 1.23 sources of [strings], [time], [net],
    [net/netip] and [encoding/base64]. *)

From S2P Require Import Prelude.
From Stdlib Require Import Ascii Wf_nat.
From stdpp Require Import pretty.

Open Scope Z_scope.

(** ** Machine integers *)
Definition MaxInt64 : Z := 2^63 - 1.
Definition int64 (v : Z) : Prop := - 2^63 ≤ v ≤ MaxInt64.
Definition wrap64 (z : Z) : Z := (z + 2^63) mod 2^64 - 2^63.
Definition uint32 (z : Z) : Z := z mod 2^32.
Definition uint64 (z : Z) : Z := z mod 2^64.

(** ** Strings *)
Definition bytes (s : string) : list ascii := String.list_ascii_of_string s.
Definition of_bytes (l : list ascii) : string := String.string_of_list_ascii l.
Definition code (c : ascii) : Z := Z.of_N (N_of_ascii c).
Definition chr (z : Z) : ascii := ascii_of_N (Z.to_N z).

(** [unicode.IsSpace] on the UTF-8 encoding of a rune of one, two or three
    bytes; no white space rune is longer. *)
Definition space1 (a : ascii) : bool :=
  let x := code a in (9 <=? x) && (x <=? 13) || (x =? 32).
Definition space2 (a b : ascii) : bool :=
  (code a =? 194) && ((code b =? 133) || (code b =? 160)).
Definition space3 (a b c : ascii) : bool :=
  let '(x, y, z) := (code a, code b, code c) in
  (x =? 225) && (y =? 154) && (z =? 128)
  || (x =? 226) && (y =? 128) &&
     ((128 <=? z) && (z <=? 138) || (z =? 168) || (z =? 169) || (z =? 175))
  || (x =? 226) && (y =? 129) && (z =? 159)
  || (x =? 227) && (y =? 128) && (z =? 128).

Section Trim.
Context (sp1 : ascii → bool) (sp2 : ascii → ascii → bool) (sp3 : ascii → ascii → ascii → bool).
Fixpoint trim_front (l : list ascii) : list ascii :=
  match l with
  | [] => []
  | a :: r1 =>
    if sp1 a then trim_front r1 else
    match r1 with
    | [] => l
    | b :: r2 =>
      if sp2 a b then trim_front r2 else
      match r2 with
      | [] => l
      | c :: r3 => if sp3 a b c then trim_front r3 else l
      end
    end
  end.
End Trim.

Definition trim_left (l : list ascii) : list ascii := trim_front space1 space2 space3 l.
Definition trim_right (l : list ascii) : list ascii :=
  reverse (trim_front space1 (λ a b, space2 b a) (λ a b c, space3 c b a) (reverse l)).

(** [strings.TrimSpace]. *)
Definition TrimSpace (s : string) : string := of_bytes (trim_right (trim_left (bytes s))).

(** [strings.TrimSpace(s) == ""], the test behind every required field. *)
Definition blank (s : string) : bool := bool_decide (TrimSpace s = "").

Definition HasPrefix (s p : string) : bool := String.prefix p s.
Definition HasSuffix (s p : string) : bool :=
  String.prefix (of_bytes (reverse (bytes p))) (of_bytes (reverse (bytes s))).
Definition TrimPrefix (s p : string) : string :=
  if HasPrefix s p then of_bytes (drop (length (bytes p)) (bytes s)) else s.
Definition TrimSuffix (s p : string) : string :=
  if HasSuffix s p then of_bytes (take (length (bytes s) - length (bytes p)) (bytes s)) else s.

(** [strings.Split(s, sep)] for a separator of one byte. *)
Fixpoint split_bytes (sep : ascii) (l : list ascii) : list (list ascii) :=
  match l with
  | [] => [[]]
  | c :: l' =>
    if bool_decide (c = sep) then [] :: split_bytes sep l'
    else match split_bytes sep l' with
         | [] => [[c]]
         | w :: ws => (c :: w) :: ws
         end
  end.
Definition Split (s : string) (sep : ascii) : list string := of_bytes <$> split_bytes sep (bytes s).

Definition ContainsAny (s : string) (chars : list ascii) : bool :=
  existsb (λ c, bool_decide (c ∈ chars)) (bytes s).

(** [strings.Contains], on bytes and on strings. *)
Fixpoint contains (sub l : list ascii) : bool :=
  bool_decide (take (length sub) l = sub) || match l with [] => false | _ :: l' => contains sub l' end.
Definition Contains (s sub : string) : bool := contains (bytes sub) (bytes s).

(** [strings.IndexByte]: [None] for -1. *)
Fixpoint index_byte (c : ascii) (l : list ascii) : option nat :=
  match l with
  | [] => None
  | d :: l' => if bool_decide (d = c) then Some 0%nat else S <$> index_byte c l'
  end.
Definition IndexByte (s : string) (c : ascii) : option nat := index_byte c (bytes s).

(** [strings.ToLower] where the result is compared with ASCII text: the ASCII
    letters, and the two other runes that lower to an ASCII letter, U+0130 (to
    [i]) and U+212A (to [k]).  Every other rune lowers to a non-ASCII rune and
    is left as it is here. *)
Definition lower1 (c : ascii) : ascii :=
  if (65 <=? code c) && (code c <=? 90) then chr (code c + 32) else c.
Fixpoint lower_bytes (l : list ascii) : list ascii :=
  match l with
  | [] => []
  | a :: r1 =>
    match r1 with
    | b :: r2 =>
      if (code a =? 196) && (code b =? 176) then "i"%char :: lower_bytes r2 else
      match r2 with
      | c :: r3 =>
        if (code a =? 226) && (code b =? 132) && (code c =? 170) then "k"%char :: lower_bytes r3
        else lower1 a :: lower_bytes r1
      | [] => lower1 a :: lower_bytes r1
      end
    | [] => lower1 a :: lower_bytes r1
    end
  end.
Definition ToLower (s : string) : string := of_bytes (lower_bytes (bytes s)).

(** ** Time *)
Abbreviation Time := Z (only parsing).
Abbreviation Duration := Z (only parsing).
Definition IsZero (t : Time) : bool := t =? 0.
Definition Before (t u : Time) : bool := t <? u.
Definition After (t u : Time) : bool := u <? t.
Definition Second : Duration := 1000000000.
Definition Minute : Duration := 60 * Second.
(** [t.Sub(u)] saturates at the ends of [Duration]. *)
Definition time_Sub (t u : Time) : Duration := Z.max (-2^63) (Z.min MaxInt64 (t - u)).
(** [t.Truncate(d)] rounds down to a multiple of [d] since the zero time. *)
Definition Truncate (t : Time) (d : Duration) : Time := if d <=? 0 then t else t - t mod d.

(** ** Paths and addresses of requests

    [url.PathUnescape]: percent escapes are decoded, nothing else; [None] for an
    invalid escape. *)
Definition unhex (c : ascii) : option Z :=
  let v := code c in
  if (48 <=? v) && (v <=? 57) then Some (v - 48)
  else if (97 <=? v) && (v <=? 102) then Some (v - 87)
  else if (65 <=? v) && (v <=? 70) then Some (v - 55)
  else None.
Fixpoint unescape_bytes (l : list ascii) : option (list ascii) :=
  match l with
  | [] => Some []
  | c :: l' =>
    if bool_decide (c = "%"%char) then
      match l' with
      | a :: b :: l'' =>
        match unhex a, unhex b, unescape_bytes l'' with
        | Some x, Some y, Some r => Some (chr (16 * x + y) :: r)
        | _, _, _ => None
        end
      | _ => None
      end
    else match unescape_bytes l' with Some r => Some (c :: r) | None => None end
  end.
Definition PathUnescape (s : string) : option string := of_bytes <$> unescape_bytes (bytes s).

(** [strings.LastIndexByte]. *)
Fixpoint last_index (c : ascii) (l : list ascii) : option nat :=
  match l with
  | [] => None
  | d :: l' => match last_index c l' with
               | Some i => Some (S i)
               | None => if bool_decide (d = c) then Some 0%nat else None
               end
  end.

(** [net.SplitHostPort]: the host and the port, [None] for an address error. *)
Definition SplitHostPort (hostport : string) : option (string * string) :=
  let l := bytes hostport in
  match last_index ":"%char l with
  | None => None
  | Some i =>
    let finish (host : list ascii) (j k : nat) :=
      if bool_decide (is_Some (index_byte "["%char (drop j l))) then None
      else if bool_decide (is_Some (index_byte "]"%char (drop k l))) then None
      else Some (of_bytes host, of_bytes (drop (i + 1) l)) in
    if bool_decide (head l = Some "["%char) then
      match index_byte "]"%char l with
      | None => None
      | Some stop =>
        if bool_decide ((stop + 1)%nat = i) then finish (take (stop - 1) (drop 1 l)) 1%nat (stop + 1)%nat else None
      end
    else
      let host := take i l in
      if bool_decide (is_Some (index_byte ":"%char host)) then None else finish host 0%nat 0%nat
  end.

(** ** Contexts

    A [context.Context] as an operation sees it: nil, still live, or done with
    its [Err()]. *)
Inductive Context :=
| nilContext
| liveContext
| doneContext (err : sentinel).

(** ** IP addresses as byte slices ([net.IP]) *)
Abbreviation IP := (list Z) (only parsing).

Fixpoint be_value (l : list Z) : Z :=
  match l with
  | [] => 0
  | b :: l' => Z.lor (Z.shiftl b (8 * Z.of_nat (length l'))) (be_value l')
  end.
Fixpoint put_be (n : nat) (v : Z) : list Z :=
  match n with
  | O => []
  | S n' => Z.land (Z.shiftr v (8 * Z.of_nat n')) 255 :: put_be n' v
  end.

Definition v4InV6Prefix : list Z := [0; 0; 0; 0; 0; 0; 0; 0; 0; 0; 255; 255].

Definition To4 (ip : IP) : IP :=
  if bool_decide (length ip = 4%nat) then ip
  else if bool_decide (length ip = 16%nat) && bool_decide (take 12 ip = v4InV6Prefix) then drop 12 ip
  else [].
Definition To16 (ip : IP) : IP :=
  if bool_decide (length ip = 4%nat) then v4InV6Prefix ++ ip
  else if bool_decide (length ip = 16%nat) then ip else [].
Definition is_nil (ip : IP) : bool := bool_decide (ip = []).

Definition IP_Equal (a b : IP) : bool :=
  if bool_decide (length a = length b) then bool_decide (a = b)
  else if bool_decide (length a = 4%nat) && bool_decide (length b = 16%nat) then
    bool_decide (take 12 b = v4InV6Prefix) && bool_decide (a = drop 12 b)
  else if bool_decide (length a = 16%nat) && bool_decide (length b = 4%nat) then
    bool_decide (take 12 a = v4InV6Prefix) && bool_decide (drop 12 a = b)
  else false.

(** ** [netip.Addr] *)
Inductive Addr :=
| AddrZero
| Addr4 (v : Z)
| Addr6 (v : Z) (zone : string).

#[global] Instance Addr_eq_dec : EqDecision Addr.
Proof. solve_decision. Defined.

Definition Is4 (a : Addr) : bool := match a with Addr4 _ => true | _ => false end.
Definition Is6 (a : Addr) : bool := match a with Addr6 _ _ => true | _ => false end.
Definition Addr_IsValid (a : Addr) : bool := match a with AddrZero => false | _ => true end.
Definition Is4In6 (a : Addr) : bool :=
  match a with Addr6 v _ => Z.shiftr v 32 =? 65535 | _ => false end.
(** [Is4In6] addresses are unmapped before these tests, as since Go 1.22.5. *)
Definition unmap4 (a : Addr) : Addr :=
  if Is4In6 a then match a with Addr6 v _ => Addr4 (Z.land v (2^32 - 1)) | _ => a end else a.
Definition IsLoopback (a : Addr) : bool :=
  match unmap4 a with
  | Addr4 v => Z.shiftr v 24 =? 127 | Addr6 v _ => v =? 1 | AddrZero => false end.
Definition IsMulticast (a : Addr) : bool :=
  match unmap4 a with
  | Addr4 v => Z.shiftr v 28 =? 14 | Addr6 v _ => Z.shiftr v 120 =? 255 | AddrZero => false end.
Definition IsLinkLocalUnicast (a : Addr) : bool :=
  match unmap4 a with
  | Addr4 v => Z.shiftr v 16 =? 169 * 256 + 254
  | Addr6 v _ => Z.shiftr v 118 =? 0xfe80 / 64
  | AddrZero => false
  end.
Definition IsPrivate (a : Addr) : bool :=
  match unmap4 a with
  | Addr4 v => (Z.shiftr v 24 =? 10) || (Z.shiftr v 20 =? 172 * 16 + 1) || (Z.shiftr v 16 =? 192 * 256 + 168)
  | Addr6 v _ => Z.shiftr v 121 =? 0xfc / 2
  | AddrZero => false
  end.
Definition IsUnspecified (a : Addr) : bool :=
  bool_decide (a = Addr4 0) || bool_decide (a = Addr6 0 "").
Definition IsGlobalUnicast (a : Addr) : bool :=
  Addr_IsValid a
  && negb (bool_decide (a = Addr4 0) || bool_decide (a = Addr4 (2^32 - 1)))
  && negb (bool_decide (a = Addr6 0 ""))
  && negb (IsLoopback a) && negb (IsMulticast a) && negb (IsLinkLocalUnicast a).

Definition AddrFrom4 (ip : IP) : Addr := Addr4 (be_value ip).
Definition AddrFrom16 (ip : IP) : Addr := Addr6 (be_value ip) "".
Definition As4 (a : Addr) : IP := match a with Addr4 v => put_be 4 v | _ => [] end.
Definition As16 (a : Addr) : IP :=
  match a with
  | Addr4 v => v4InV6Prefix ++ put_be 4 v | Addr6 v _ => put_be 16 v | AddrZero => put_be 16 0 end.

(** *** Printing *)
Definition digit (d : Z) : ascii := chr (if d <? 10 then 48 + d else 87 + d).
Definition dec_byte (b : Z) : list ascii :=
  if b <? 10 then [digit b]
  else if b <? 100 then [digit (b / 10); digit (b mod 10)]
  else [digit (b / 100); digit (b / 10 mod 10); digit (b mod 10)].
Definition dotted (ip : IP) : list ascii :=
  match ip with
  | [a; b; c; d] =>
    dec_byte a ++ "."%char :: dec_byte b ++ "."%char :: dec_byte c ++ "."%char :: dec_byte d
  | _ => []
  end.
Definition hex16 (v : Z) : list ascii :=
  let ds := [Z.shiftr v 12; Z.land (Z.shiftr v 8) 15; Z.land (Z.shiftr v 4) 15; Z.land v 15] in
  digit <$> (if v <? 16 then drop 3 ds else if v <? 256 then drop 2 ds
             else if v <? 4096 then drop 1 ds else ds).

Definition groups (v : Z) : list Z :=
  (λ i, Z.land (Z.shiftr v (112 - 16 * Z.of_nat i)) 65535) <$> seq 0 8.
Fixpoint zero_run (l : list Z) : nat :=
  match l with 0 :: l' => S (zero_run l') | _ => 0%nat end.
(** The first longest run of at least two zero groups: start and end. *)
Definition longest_run (gs : list Z) : option (nat * nat) :=
  fold_left (λ best i,
    let n := zero_run (drop i gs) in
    let cur := match best with Some (s, e) => (e - s)%nat | None => 0%nat end in
    if bool_decide (2 ≤ n)%nat && bool_decide (cur < n)%nat then Some (i, i + n)%nat else best)
  (seq 0 8) None.
Fixpoint colons (ws : list (list ascii)) : list ascii :=
  match ws with [] => [] | [w] => w | w :: ws' => w ++ ":"%char :: colons ws' end.
Definition append6 (v : Z) : list ascii :=
  let gs := groups v in
  match longest_run gs with
  | None => colons (hex16 <$> gs)
  | Some (s, e) => colons (hex16 <$> take s gs) ++ ":"%char :: ":"%char :: colons (hex16 <$> drop e gs)
  end.
Definition zone_suffix (z : string) : list ascii :=
  if bool_decide (z = "") then [] else "%"%char :: bytes z.
Definition Addr_String (a : Addr) : string :=
  match a with
  | AddrZero => "invalid IP"
  | Addr4 v => of_bytes (dotted (put_be 4 v))
  | Addr6 v z =>
    if Is4In6 a then
      of_bytes (bytes "::ffff:" ++ dotted (put_be 4 (Z.land v (2^32 - 1))) ++ zone_suffix z)
    else of_bytes (append6 v ++ zone_suffix z)
  end.

Definition hex_byte (b : Z) : list ascii := [digit (b / 16); digit (b mod 16)].
Definition hex_encode (l : list Z) : string := of_bytes (l ≫= hex_byte).

Definition IP_String (ip : IP) : string :=
  if bool_decide (ip = []) then "<nil>"
  else if negb (bool_decide (length ip = 4%nat ∨ length ip = 16%nat)) then "?" +:+ hex_encode ip
  else if bool_decide (length (To4 ip) = 4%nat) then Addr_String (AddrFrom4 (To4 ip))
  else Addr_String (AddrFrom16 ip).

(** *** Parsing *)
Definition digit_val (c : ascii) : option Z :=
  if (48 <=? code c) && (code c <=? 57) then Some (code c - 48) else None.
Definition hex_val (c : ascii) : option Z :=
  if (48 <=? code c) && (code c <=? 57) then Some (code c - 48)
  else if (97 <=? code c) && (code c <=? 102) then Some (code c - 87)
  else if (65 <=? code c) && (code c <=? 70) then Some (code c - 55)
  else None.

(** [parseIPv4Fields]: the value and number of digits of the current octet, and
    the octets already read, last first. *)
Fixpoint parse4_fields (l : list ascii) (val : Z) (digLen : nat) (acc : list Z) : option (list Z) :=
  match l with
  | [] => if bool_decide (length acc = 3%nat) then Some (reverse (val :: acc)) else None
  | c :: l' =>
    match digit_val c with
    | Some d =>
      if bool_decide (digLen = 1%nat) && (val =? 0) then None
      else let val := val * 10 + d in
           if 255 <? val then None else parse4_fields l' val (S digLen) acc
    | None =>
      if bool_decide (c = "."%char) then
        if bool_decide (digLen = 0%nat) || bool_decide (l' = []) then None
        else if bool_decide (length acc = 3%nat) then None
        else parse4_fields l' 0 0 (val :: acc)
      else None
    end
  end.
Definition parseIPv4 (l : list ascii) : option (list Z) := parse4_fields l 0 0 [].

(** The hex digits at the front of a group: value, number of digits, rest. *)
Fixpoint hex_digits (l : list ascii) (acc : Z) (off : nat) : option (Z * nat * list ascii) :=
  match l with
  | [] => Some (acc, off, [])
  | c :: l' =>
    match hex_val c with
    | None => Some (acc, off, l)
    | Some d => if bool_decide (3 < off)%nat then None else hex_digits l' (acc * 16 + d) (S off)
    end
  end.

(** The loop of [parseIPv6]; [ip] holds the bytes saved, in order, and [fuel]
    bounds the iterations, of which there are at most eight. *)
Fixpoint parse6_loop (fuel : nat) (s : list ascii) (ellipsis : option nat) (ip : list Z)
    : option (list ascii * option nat * list Z) :=
  match fuel with
  | O => Some (s, ellipsis, ip)
  | S fuel =>
    if bool_decide (16 ≤ length ip)%nat then Some (s, ellipsis, ip) else
    match hex_digits s 0 0 with
    | None => None
    | Some (acc, off, rest) =>
      if bool_decide (off = 0%nat) then None else
      match rest with
      | "."%char :: _ =>
        if bool_decide (ellipsis = None) && negb (bool_decide (length ip = 12%nat)) then None
        else if bool_decide (16 < length ip + 4)%nat then None
        else match parseIPv4 s with
             | None => None
             | Some fields => Some ([], ellipsis, ip ++ fields)
             end
      | _ =>
        let ip := ip ++ [acc / 256; acc mod 256] in
        match rest with
        | [] => Some ([], ellipsis, ip)
        | ":"%char :: [] => None
        | ":"%char :: ":"%char :: rest' =>
          if bool_decide (ellipsis = None) then
            match rest' with
            | [] => Some ([], Some (length ip), ip)
            | _ => parse6_loop fuel rest' (Some (length ip)) ip
            end
          else None
        | ":"%char :: rest' => parse6_loop fuel rest' ellipsis ip
        | _ => None
        end
      end
    end
  end.

Definition parseIPv6_body (s : list ascii) : option (list Z) :=
  let run s ellipsis :=
    match parse6_loop 9 s ellipsis [] with
    | None => None
    | Some (rest, ellipsis, ip) =>
      if negb (bool_decide (rest = [])) then None
      else match ellipsis with
           | None => if bool_decide (length ip < 16)%nat then None else Some ip
           | Some e =>
             if bool_decide (length ip < 16)%nat
             then Some (take e ip ++ replicate (16 - length ip) 0 ++ drop e ip)
             else None
           end
    end in
  match s with
  | ":"%char :: ":"%char :: [] => Some (replicate 16 0)
  | ":"%char :: ":"%char :: s' => run s' (Some 0%nat)
  | _ => run s None
  end.

Definition parseIPv6 (l : list ascii) : option Addr :=
  match index_byte "%"%char l with
  | None => ip ← parseIPv6_body l; Some (Addr6 (be_value ip) "")
  | Some i =>
    let zone := of_bytes (drop (S i) l) in
    if bool_decide (zone = "") then None
    else ip ← parseIPv6_body (take i l); Some (Addr6 (be_value ip) zone)
  end.

(** The first of [.], [:] and [%] decides the family. *)
Fixpoint parse_family (l whole : list ascii) : option Addr :=
  match l with
  | [] => None
  | c :: l' =>
    if bool_decide (c = "."%char) then ip ← parseIPv4 whole; Some (AddrFrom4 ip)
    else if bool_decide (c = ":"%char) then parseIPv6 whole
    else if bool_decide (c = "%"%char) then None
    else parse_family l' whole
  end.
Definition ParseAddr (s : string) : option Addr := parse_family (bytes s) (bytes s).

Definition Zone (a : Addr) : string := match a with Addr6 _ z => z | _ => "" end.
Definition ParseIP (s : string) : IP :=
  match ParseAddr s with
  | Some a => if bool_decide (Zone a = "") then As16 a else []
  | None => []
  end.

(** [dtoi] and [net.ParseCIDR]; a [net.IPNet] keeps its mask as the pair that
    [Mask.Size] returns. *)
Fixpoint dtoi (l : list ascii) (n : Z) : option Z :=
  match l with
  | [] => Some n
  | c :: l' =>
    match digit_val c with
    | None => None
    | Some d => let n := n * 10 + d in if 16777215 <=? n then None else dtoi l' n
    end
  end.

Record IPNet := { net_IP : IP; mask_ones : Z; mask_bits : Z }.

Definition mask_value (ones bits : Z) : Z := 2^bits - 2^(bits - ones).

Definition ParseCIDR (s : string) : option (IP * IPNet) :=
  match index_byte "/"%char (bytes s) with
  | None => None
  | Some i =>
    let mask := drop (S i) (bytes s) in
    match ParseAddr (of_bytes (take i (bytes s))), mask with
    | None, _ | _, [] => None
    | Some a, _ =>
      if negb (bool_decide (Zone a = "")) then None else
      match dtoi mask 0 with
      | None => None
      | Some n =>
        let bits := if Is4 a then 32 else 128 in
        if bits <? n then None else
        let ip :=
          match a with
          | Addr4 v => put_be 4 (Z.land v (mask_value n 32))
          | Addr6 v _ => put_be 16 (Z.land v (mask_value n 128))
          | AddrZero => []
          end in
        Some (As16 a, {| net_IP := ip; mask_ones := n; mask_bits := bits |})
      end
    end
  end.

(** [IPNet.Contains]. *)
Definition IPNet_Contains (n : IPNet) (ip : IP) : bool :=
  let nn := if is_nil (To4 (net_IP n)) then net_IP n else To4 (net_IP n) in
  let ip := if is_nil (To4 ip) then ip else To4 ip in
  let m := if bool_decide (length nn = 4%nat)
           then Z.land (mask_value (mask_ones n) (mask_bits n)) (2^32 - 1)
           else mask_value (mask_ones n) (mask_bits n) in
  bool_decide (length nn = 4%nat ∨ mask_bits n = 128)
  && bool_decide (length ip = length nn) && (Z.land (be_value nn) m =? Z.land (be_value ip) m).

(** [IPNet.String] of a network that [ParseCIDR] returned. *)
Definition IPNet_String (n : IPNet) : string :=
  IP_String (net_IP n) +:+ "/" +:+ pretty (Z.to_N (mask_ones n)).

(** ** Lemmas *)

Lemma bytes_of_bytes l : bytes (of_bytes l) = l.
Proof. apply String.list_ascii_of_string_of_list_ascii. Qed.
Lemma of_bytes_bytes s : of_bytes (bytes s) = s.
Proof. apply String.string_of_list_ascii_of_string. Qed.
Lemma of_bytes_nil l : of_bytes l = "" ↔ l = [].
Proof. by destruct l. Qed.

(** *** [TrimSpace] *)
Section TrimFacts.
Context (sp1 : ascii → bool) (sp2 : ascii → ascii → bool) (sp3 : ascii → ascii → ascii → bool).

(** The list starts with no white space rune. *)
Definition trimmed (l : list ascii) : bool :=
  match l with
  | [] => true
  | [a] => negb (sp1 a)
  | [a; b] => negb (sp1 a) && negb (sp2 a b)
  | a :: b :: c :: _ => negb (sp1 a) && negb (sp2 a b) && negb (sp3 a b c)
  end.

(** One round of trimming: nothing to trim, or a shorter list is left. *)
Lemma trim_front_step l :
  (trim_front sp1 sp2 sp3 l = l ∧ trimmed l = true) ∨
  ∃ k, k `suffix_of` l ∧ (length k < length l)%nat ∧
       trim_front sp1 sp2 sp3 l = trim_front sp1 sp2 sp3 k.
Proof.
  destruct l as [|a l1]; [by left|]. cbn [trim_front].
  destruct (sp1 a) eqn:E1.
  { right. exists l1. split; [by apply suffix_cons_r|split; [simpl; lia|done]]. }
  destruct l1 as [|b l2]; [left; simpl; by rewrite E1|].
  destruct (sp2 a b) eqn:E2.
  { right. exists l2. split; [by do 2 apply suffix_cons_r|split; [simpl; lia|done]]. }
  destruct l2 as [|c l3]; [left; simpl; by rewrite E1, E2|].
  destruct (sp3 a b c) eqn:E3; [|left; simpl; by rewrite E1, E2, E3].
  right. exists l3. split; [by do 3 apply suffix_cons_r|split; [simpl; lia|done]].
Qed.

Lemma trim_front_spec l :
  trimmed (trim_front sp1 sp2 sp3 l) = true ∧ trim_front sp1 sp2 sp3 l `suffix_of` l.
Proof.
  induction l as [l IH] using (well_founded_induction (well_founded_ltof _ (@length ascii))).
  destruct (trim_front_step l) as [[-> H]|(k & Hk & Hlt & ->)]; [done|].
  destruct (IH k Hlt) as [? ?]. split; [done|]. by etrans.
Qed.

Lemma trim_front_id l : trimmed l = true → trim_front sp1 sp2 sp3 l = l.
Proof.
  destruct l as [|a [|b [|c l]]]; simpl; [done|..]; repeat case_match; done.
Qed.

Lemma trimmed_prefix k l : k `prefix_of` l → trimmed l = true → trimmed k = true.
Proof.
  intros [m ->]. destruct k as [|a [|b [|c k]]]; [done|destruct m as [|? [|]]|destruct m|];
    cbn; rewrite ?andb_true_iff; tauto.
Qed.

(** A byte that is in no white space rune survives. *)
Lemma trim_front_keeps x l :
  (∀ a, sp1 a = true → a ≠ x) → (∀ a b, sp2 a b = true → a ≠ x ∧ b ≠ x) →
  (∀ a b c, sp3 a b c = true → a ≠ x ∧ b ≠ x ∧ c ≠ x) → x ∈ l → x ∈ trim_front sp1 sp2 sp3 l.
Proof.
  intros H1 H2 H3. induction l as [l IH] using (well_founded_induction (well_founded_ltof _ (@length ascii))).
  assert (∀ k, (length k < length l)%nat → x ∈ k → x ∈ trim_front sp1 sp2 sp3 k) as IH' by exact IH.
  intros Hx. destruct l as [|a l1]; [done|]. cbn [trim_front].
  destruct (sp1 a) eqn:E1.
  { apply IH'; [simpl; lia|]. apply elem_of_cons in Hx as [->|Hx]; [by destruct (H1 _ E1)|done]. }
  destruct l1 as [|b l2]; [done|]. destruct (sp2 a b) eqn:E2.
  { destruct (H2 _ _ E2). apply IH'; [simpl; lia|]. by rewrite !elem_of_cons in Hx; destruct Hx as [->|[->|Hx]]. }
  destruct l2 as [|c l3]; [done|]. destruct (sp3 a b c) eqn:E3; [|done]. destruct (H3 _ _ _ E3) as (?&?&?).
  apply IH'; [simpl; lia|]. by rewrite !elem_of_cons in Hx; destruct Hx as [->|[->|[->|Hx]]].
Qed.
End TrimFacts.

Lemma blank_elem x s :
  (∀ a, space1 a = true → a ≠ x) → (∀ a b, space2 a b = true → a ≠ x ∧ b ≠ x) →
  (∀ a b c, space3 a b c = true → a ≠ x ∧ b ≠ x ∧ c ≠ x) → x ∈ bytes s → blank s = false.
Proof.
  intros H1 H2 H3 Hx. unfold blank, TrimSpace. apply bool_decide_eq_false_2. rewrite of_bytes_nil.
  assert (x ∈ trim_right (trim_left (bytes s))) as Hin; [|by intros Hnil; rewrite Hnil in Hin; apply not_elem_of_nil in Hin].
  unfold trim_right, trim_left. rewrite elem_of_reverse. apply trim_front_keeps; [done|..].
  - intros a b Hab. by destruct (H2 b a Hab).
  - intros a b c Habc. by destruct (H3 c b a Habc) as (?&?&?).
  - rewrite elem_of_reverse. by apply trim_front_keeps.
Qed.

(** A string with a dot is not blank. *)
Lemma blank_dot s : "."%char ∈ bytes s → blank s = false.
Proof.
  apply blank_elem.
  - intros a Ha ->. done.
  - intros a b Hab. split; intros ->; unfold space2 in Hab; change (code ".") with 46 in Hab; [done|].
    by rewrite andb_false_r in Hab.
  - intros a b c Habc. unfold space3 in Habc. split_and!; intros ->; change (code ".") with 46 in Habc; simpl in Habc;
      rewrite ?andb_false_r in Habc; done.
Qed.

Lemma trim_right_prefix l : trim_right l `prefix_of` l.
Proof.
  unfold trim_right. rewrite prefix_suffix_reverse.
  rewrite reverse_involutive. apply trim_front_spec.
Qed.

Lemma TrimSpace_idemp s : TrimSpace (TrimSpace s) = TrimSpace s.
Proof.
  unfold TrimSpace. rewrite bytes_of_bytes. f_equal.
  set (l := trim_left (bytes s)).
  assert (trim_left (trim_right l) = trim_right l) as ->.
  { apply trim_front_id. eapply trimmed_prefix; [apply trim_right_prefix|].
    apply trim_front_spec. }
  unfold trim_right at 1 3. f_equal. unfold trim_right. rewrite reverse_involutive.
  apply trim_front_id, trim_front_spec.
Qed.

Lemma blank_TrimSpace s : blank (TrimSpace s) = blank s.
Proof. unfold blank. by rewrite TrimSpace_idemp. Qed.

Lemma not_blank_nonempty s : blank s = false → s ≠ "".
Proof. by intros H ->. Qed.

(** *** Big-endian values *)
Definition is_byte (b : Z) : Prop := 0 ≤ b < 256.

Lemma put_be_length n v : length (put_be n v) = n.
Proof. induction n; simpl; congruence. Qed.

Lemma put_be_byte n v : Forall is_byte (put_be n v).
Proof.
  induction n; simpl; constructor; [|done]. unfold is_byte.
  change 255 with (Z.ones 8). rewrite Z.land_ones by lia. apply Z.mod_pos_bound. lia.
Qed.

Lemma lor_shiftl_add a b k : 0 ≤ k → 0 ≤ b < 2^k → Z.lor (Z.shiftl a k) b = a * 2^k + b.
Proof.
  intros Hk Hb. rewrite <- Z.shiftl_mul_pow2 by done.
  assert (Z.land (Z.shiftl a k) b = 0) as H0.
  { apply Z.bits_inj'. intros i Hi. rewrite Z.land_spec, Z.bits_0.
    destruct (Z.lt_ge_cases i k); [by rewrite Z.shiftl_spec_low|].
    rewrite <- (Z.mod_small b (2^k)) by done.
    by rewrite Z.mod_pow2_bits_high, andb_false_r. }
  rewrite <- Z.lxor_lor by done. symmetry. by apply Z.add_nocarry_lxor.
Qed.

Lemma be_value_put_be n v : be_value (put_be n v) = v mod 2^(8 * Z.of_nat n).
Proof.
  induction n as [|n IH]; [by rewrite Z.mod_1_r|].
  cbn [put_be be_value]. rewrite put_be_length, IH.
  rewrite lor_shiftl_add by (try apply Z.mod_pos_bound; lia).
  change 255 with (Z.ones 8). rewrite Z.land_ones, Z.shiftr_div_pow2 by lia.
  replace (8 * Z.of_nat (S n)) with (8 * Z.of_nat n + 8) by lia.
  rewrite Z.pow_add_r, Z.rem_mul_r by lia. lia.
Qed.

Lemma be_value_bound l : Forall is_byte l → 0 ≤ be_value l < 2^(8 * Z.of_nat (length l)).
Proof.
  induction 1 as [|b l Hb Hl IH]; [done|]. cbn [be_value length].
  rewrite lor_shiftl_add by lia. unfold is_byte in Hb.
  replace (8 * Z.of_nat (S (length l))) with (8 + 8 * Z.of_nat (length l)) by lia.
  rewrite Z.pow_add_r by lia. nia.
Qed.

Lemma put_be_mod n m v : (n ≤ m)%nat → put_be n (v mod 2^(8 * Z.of_nat m)) = put_be n v.
Proof.
  intros Hle. induction n as [|n IH]; [done|]. cbn [put_be]. f_equal; [|apply IH; lia].
  apply Z.bits_inj'. intros i Hi. rewrite !Z.land_spec, !Z.shiftr_spec by lia.
  change 255 with (Z.ones 8). destruct (Z.lt_ge_cases i 8).
  - rewrite Z.mod_pow2_bits_low by lia. done.
  - rewrite Z.ones_spec_high, !andb_false_r by lia. done.
Qed.

Lemma put_be_be_value l : Forall is_byte l → put_be (length l) (be_value l) = l.
Proof.
  induction 1 as [|b l Hb Hl IH]; [done|]. cbn [length put_be be_value].
  pose proof (be_value_bound l Hl). rewrite lor_shiftl_add by lia.
  set (P := 2^(8 * Z.of_nat (length l))) in *. f_equal.
  - change 255 with (Z.ones 8). rewrite Z.land_ones, Z.shiftr_div_pow2 by lia. fold P.
    rewrite Z.div_add_l, Z.div_small, Z.add_0_r by lia. by apply Z.mod_small.
  - rewrite <- (put_be_mod _ (length l)), Z.add_comm by lia. fold P.
    rewrite Z.mod_add, Z.mod_small by lia. done.
Qed.

Lemma be_value_inj l k :
  Forall is_byte l → Forall is_byte k → length l = length k → be_value l = be_value k → l = k.
Proof.
  intros Hl Hk Hlen Heq. rewrite <- (put_be_be_value l), <- (put_be_be_value k) by done. congruence.
Qed.

(** *** [To4] and [Equal] *)
Lemma To4_cases ip : To4 ip = [] ∨ length (To4 ip) = 4%nat.
Proof.
  unfold To4. case_bool_decide; [by right|]. case_match eqn:E; [|by left].
  apply andb_true_iff in E as [E _]. apply bool_decide_eq_true in E.
  right. rewrite length_drop, E. done.
Qed.

Lemma To4_length ip : is_nil (To4 ip) = false → length (To4 ip) = 4%nat.
Proof. unfold is_nil. destruct (To4_cases ip) as [->|?]; [done|auto]. Qed.

Lemma To4_not_nil ip : is_nil (To4 ip) = false → is_nil ip = false.
Proof. destruct ip; [done|]. intros _. unfold is_nil. by rewrite bool_decide_eq_false_2. Qed.

Lemma To4_4 ip : length ip = 4%nat → To4 ip = ip.
Proof. intros H. unfold To4. by rewrite bool_decide_eq_true_2. Qed.

Lemma To4_byte ip : Forall is_byte ip → Forall is_byte (To4 ip).
Proof.
  intros H. unfold To4. case_bool_decide; [done|]. case_match; [|constructor].
  by apply Forall_drop.
Qed.

Lemma is_nil_4 ip : length ip = 4%nat → is_nil ip = false.
Proof. intros H. unfold is_nil. case_bool_decide as E; [by rewrite E in H|done]. Qed.

(** Comparing a stored four-byte address with any form of an IPv4 address. *)
Lemma IP_Equal_To4 a b :
  length a = 4%nat → is_nil (To4 b) = false → IP_Equal a b = bool_decide (a = To4 b).
Proof.
  intros Ha Hb. unfold IP_Equal, To4, is_nil in *.
  destruct (decide (length b = 4%nat)) as [E|E].
  - rewrite (bool_decide_eq_true_2 (length a = length b)) by congruence.
    by rewrite (bool_decide_eq_true_2 (length b = 4%nat)).
  - rewrite (bool_decide_eq_false_2 (length a = length b)) by congruence.
    rewrite (bool_decide_eq_true_2 (length a = 4%nat)) by done.
    rewrite (bool_decide_eq_false_2 (length b = 4%nat)) in * by done.
    destruct (bool_decide (length b = 16%nat)); simpl in *; [|done].
    by destruct (bool_decide (take 12 b = v4InV6Prefix)).
Qed.

Lemma IP_Equal_4 a b :
  length a = 4%nat → length b = 4%nat → IP_Equal a b = bool_decide (a = b).
Proof. intros Ha Hb. unfold IP_Equal. by rewrite bool_decide_eq_true_2 by congruence. Qed.

Lemma As16_To4 v : To4 (v4InV6Prefix ++ put_be 4 v) = put_be 4 v.
Proof.
  unfold To4. rewrite length_app, put_be_length.
  rewrite bool_decide_eq_false_2, bool_decide_eq_true_2 by done.
  by rewrite take_app_length', drop_app_length' by done.
Qed.

(** *** Masks *)
Lemma land_mask x ones :
  0 ≤ ones ≤ 32 → 0 ≤ x < 2^32 → Z.land x (mask_value ones 32) = x - x mod 2^(32 - ones).
Proof.
  intros Ho Hx. unfold mask_value. set (k := 32 - ones).
  replace (2^32 - 2^k) with (Z.shiftl (Z.ones ones) k).
  2:{ rewrite Z.shiftl_mul_pow2, Z.ones_equiv by lia.
      replace 32 with (ones + k) by lia. rewrite Z.pow_add_r by lia. lia. }
  assert (Z.land x (Z.shiftl (Z.ones ones) k) = Z.shiftl (Z.land (Z.shiftr x k) (Z.ones ones)) k) as ->.
  { apply Z.bits_inj'. intros i Hi. rewrite Z.land_spec.
    destruct (Z.lt_ge_cases i k).
    - rewrite !Z.shiftl_spec_low by lia. apply andb_false_r.
    - rewrite !Z.shiftl_spec, Z.land_spec, Z.shiftr_spec by lia. f_equal. f_equal. lia. }
  rewrite Z.land_ones, Z.shiftl_mul_pow2, Z.shiftr_div_pow2 by lia.
  pose proof (Z.div_mod x (2^k)). assert (0 < 2^k) by (apply Z.pow_pos_nonneg; lia).
  rewrite Z.mod_small; [lia|]. split; [apply Z.div_pos; lia|].
  apply Z.div_lt_upper_bound; [lia|]. rewrite <- Z.pow_add_r by lia.
  replace (k + ones) with 32 by lia. lia.
Qed.

(** The IPv4 networks that [ParseCIDR] returns. *)
Lemma ParseCIDR_ipv4 s ip n :
  ParseCIDR s = Some (ip, n) → mask_bits n = 32 →
  ∃ v, To4 ip = put_be 4 v ∧ net_IP n = put_be 4 (Z.land v (mask_value (mask_ones n) 32)) ∧
       0 ≤ mask_ones n ≤ 32.
Proof.
  assert (∀ l k r, 0 ≤ k → dtoi l k = Some r → 0 ≤ r) as Hnn.
  { clear. induction l as [|c l IH]; simpl; intros k r Hk Hr; [congruence|].
    unfold digit_val in Hr. repeat case_match; simplify_eq. eapply IH; [|done]. lia. }
  unfold ParseCIDR. intros H Hbits. repeat case_match; simplify_eq/=; try done.
  eexists; split; [apply As16_To4|]. split; [done|]. split; [|lia].
  by apply (Hnn (a0 :: l) 0).
Qed.

(** *** Splitting *)
Fixpoint join_bytes (sep : ascii) (ws : list (list ascii)) : list ascii :=
  match ws with
  | [] => []
  | [w] => w
  | w :: ws => w ++ sep :: join_bytes sep ws
  end.

Lemma split_bytes_nosep sep l : sep ∉ l → split_bytes sep l = [l].
Proof.
  induction l as [|c l IH]; [done|]. rewrite not_elem_of_cons. intros [Hc Hl]. simpl.
  rewrite bool_decide_eq_false_2 by done. by rewrite IH.
Qed.

Lemma split_bytes_app sep a b : sep ∉ a → split_bytes sep (a ++ sep :: b) = a :: split_bytes sep b.
Proof.
  induction a as [|c a IH]; [by simpl; rewrite bool_decide_eq_true_2|].
  rewrite not_elem_of_cons. intros [Hc Ha]. simpl. rewrite bool_decide_eq_false_2 by done. by rewrite IH.
Qed.

Lemma split_bytes_spec sep l :
  l = join_bytes sep (split_bytes sep l) ∧ Forall (λ w, sep ∉ w) (split_bytes sep l) ∧ split_bytes sep l ≠ [].
Proof.
  induction l as [|c l (IH & Hf & Hne)]; simpl.
  { split_and!; [done|repeat constructor; by apply not_elem_of_nil|done]. }
  case_bool_decide as Hc.
  - subst c. split_and!; [|constructor; [by apply not_elem_of_nil|done]|done].
    simpl. destruct (split_bytes sep l); [done|]. simpl. by rewrite IH at 1.
  - destruct (split_bytes sep l) as [|w ws]; [done|]. apply Forall_cons in Hf as [Hw Hf].
    split_and!; [|constructor; [by rewrite not_elem_of_cons|done]|done].
    rewrite IH at 1. destruct ws; simpl; done.
Qed.

Lemma bytes_app s t : bytes (s +:+ t) = bytes s ++ bytes t.
Proof. induction s as [|c s IH]; simpl; [done|]. by f_equal. Qed.

Lemma bytes_inj s t : bytes s = bytes t → s = t.
Proof. intros H. by rewrite <- (of_bytes_bytes s), <- (of_bytes_bytes t), H. Qed.

Lemma ContainsAny_false s chars : ContainsAny s chars = false ↔ ∀ c, c ∈ chars → c ∉ bytes s.
Proof.
  unfold ContainsAny. rewrite <- not_true_iff_false, existsb_exists. split.
  - intros H c Hc Hin. apply H. exists c. rewrite bool_decide_eq_true. by rewrite <- list_elem_of_In.
  - intros H (c & Hin & Hc%bool_decide_eq_true). eapply H; [done|]. by apply list_elem_of_In.
Qed.

Lemma index_byte_Some c l i :
  index_byte c l = Some i ↔ ∃ a b, l = a ++ c :: b ∧ length a = i ∧ c ∉ a.
Proof.
  revert i. induction l as [|d l IH]; intros i; simpl.
  { split; [done|]. by intros ([] & b & ? & _). }
  case_bool_decide as Hd.
  - subst d. split.
    + intros [= <-]. exists [], l. split_and!; [done|done|by apply not_elem_of_nil].
    + intros ([|e a] & b & Heq & <- & Hn); [done|]. simpl in *. simplify_eq. set_solver.
  - rewrite fmap_Some. setoid_rewrite IH. split.
    + intros (j & (a & b & -> & <- & Hn) & ->). exists (d :: a), b. split_and!; [done|done|by rewrite not_elem_of_cons].
    + intros ([|e a] & b & Heq & <- & Hn); simplify_eq/=. exists (length a). split; [|done].
      exists a, b. split_and!; [done|done|]. by apply not_elem_of_cons in Hn as [_ ?].
Qed.

Lemma index_byte_None c l : index_byte c l = None ↔ c ∉ l.
Proof.
  split.
  - intros H Hin. apply list_elem_of_split in Hin as (a & b & Heq).
    destruct (decide (c ∈ a)) as [Ha|Ha].
    + clear -H Heq Ha. revert H. rewrite Heq. clear Heq. induction a as [|d a IH]; [by apply not_elem_of_nil in Ha|].
      simpl. case_bool_decide; [done|]. apply elem_of_cons in Ha as [->|Ha]; [done|].
      intros H'%fmap_None. auto.
    + assert (index_byte c l = Some (length a)); [|congruence]. apply index_byte_Some. eauto.
  - intros Hn. destruct (index_byte c l) as [i|] eqn:E; [|done].
    apply index_byte_Some in E as (a & b & -> & _). set_solver.
Qed.
