(* ===== verification/Crypto.v ===== *)
(** * Digests and encodings of the Go standard library

    [crypto/sha256] (FIPS 180-4), [encoding/hex] and [encoding/base64], as the
    program uses them: [auth.HashToken], [auth.ValidateBootstrapToken],
    [wgnt.ParseKey] and the raw-URL tokens.  They are executable, so the
    witnesses of the development compute real digests and keys. *)

From S2P Require Import Prelude GoStd.
From Stdlib Require Import Ascii.

Open Scope Z_scope.

(** ** SHA-256 *)
Definition add32 (a b : Z) : Z := Z.land (a + b) 4294967295.
Definition rotr (x n : Z) : Z := Z.lor (Z.shiftr x n) (Z.land (Z.shiftl x (32 - n)) 4294967295).
Definition Ch (x y z : Z) : Z := Z.lxor (Z.land x y) (Z.land (Z.lxor x 4294967295) z).
Definition Maj (x y z : Z) : Z := Z.lxor (Z.lxor (Z.land x y) (Z.land x z)) (Z.land y z).
Definition bsig0 (x : Z) : Z := Z.lxor (Z.lxor (rotr x 2) (rotr x 13)) (rotr x 22).
Definition bsig1 (x : Z) : Z := Z.lxor (Z.lxor (rotr x 6) (rotr x 11)) (rotr x 25).
Definition ssig0 (x : Z) : Z := Z.lxor (Z.lxor (rotr x 7) (rotr x 18)) (Z.shiftr x 3).
Definition ssig1 (x : Z) : Z := Z.lxor (Z.lxor (rotr x 17) (rotr x 19)) (Z.shiftr x 10).

(** The constants of FIPS 180-4 from their definition: the first 32 bits of the
    fractional parts of the cube roots of the first 64 primes, and of the square
    roots of the first 8. *)
Fixpoint cube_root (bits : nat) (root n : Z) : Z :=
  match bits with
  | O => root
  | S bits =>
    let next := root + 2 ^ Z.of_nat bits in
    cube_root bits (if next * next * next <=? n then next else root) n
  end.
Definition is_prime (n : Z) : bool :=
  forallb (λ d, negb (n mod d =? 0)) (seqZ 2 (n - 2)).
Definition primes64 : list Z := filter (λ n, is_prime n = true) (seqZ 2 310).

Definition K256 : list Z :=
  Eval vm_compute in (λ n, cube_root 36 0 (n * 2 ^ 96) mod 2 ^ 32) <$> primes64.
Definition H256 : list Z :=
  Eval vm_compute in (λ n, Z.sqrt (n * 2 ^ 64) mod 2 ^ 32) <$> take 8 primes64.

Definition sha_pad (m : list Z) : list Z :=
  let n := Z.of_nat (length m) in
  m ++ [128] ++ replicate (Z.to_nat ((55 - n) mod 64)) 0 ++ put_be 8 (8 * n).

Fixpoint words (l : list Z) : list Z :=
  match l with a :: b :: c :: d :: l' => be_value [a; b; c; d] :: words l' | _ => [] end.

(** The message schedule, newest word first: [n] words are added. *)
Fixpoint schedule (n : nat) (w : list Z) : list Z :=
  match n with
  | O => w
  | S n =>
    let at_ i := nth i w 0 in
    schedule n (add32 (add32 (ssig1 (at_ 1%nat)) (at_ 6%nat)) (add32 (ssig0 (at_ 14%nat)) (at_ 15%nat)) :: w)
  end.

Definition sha_round (h : list Z) (kw : Z * Z) : list Z :=
  match h with
  | [a; b; c; d; e; f; g; hh] =>
    let t1 := add32 (add32 hh (bsig1 e)) (add32 (Ch e f g) (add32 (fst kw) (snd kw))) in
    let t2 := add32 (bsig0 a) (Maj a b c) in
    [add32 t1 t2; a; b; c; add32 d t1; e; f; g]
  | _ => h
  end.

Definition compress (h : list Z) (block : list Z) : list Z :=
  let w := reverse (schedule 48 (reverse (words block))) in
  zip_with add32 h (fold_left sha_round (zip K256 w) h).

Fixpoint sha_blocks (fuel : nat) (h m : list Z) : list Z :=
  match fuel with
  | O => h
  | S fuel => match m with [] => h | _ => sha_blocks fuel (compress h (take 64 m)) (drop 64 m) end
  end.

(** [sha256.Sum256]: the fuel is the number of 64-byte blocks plus one. *)
Definition Sum256 (m : list Z) : list Z :=
  let p := sha_pad m in
  sha_blocks (S (length p / 64)) H256 p ≫= put_be 4.

Definition byte_values (s : string) : list Z := code <$> bytes s.

(** ** Base64 *)
Definition std_val (c : ascii) : option Z :=
  let x := code c in
  if (65 <=? x) && (x <=? 90) then Some (x - 65)
  else if (97 <=? x) && (x <=? 122) then Some (x - 71)
  else if (48 <=? x) && (x <=? 57) then Some (x + 4)
  else if x =? 43 then Some 62 else if x =? 47 then Some 63 else None.
Definition std_char (v : Z) : ascii :=
  if v <? 26 then chr (v + 65) else if v <? 52 then chr (v + 71)
  else if v <? 62 then chr (v - 4) else if v =? 62 then "+"%char else "/"%char.
Definition url_char (v : Z) : ascii :=
  if v =? 62 then "-"%char else if v =? 63 then "_"%char else std_char v.

(** [StdEncoding.DecodeString] skips carriage returns and line feeds anywhere,
    and does not check the unused bits of the last digit (it is not strict). *)
Definition strip_crlf (l : list ascii) : list ascii :=
  filter (λ c, code c ≠ 10 ∧ code c ≠ 13) l.

Fixpoint decode_quanta (l : list ascii) : option (list Z) :=
  match l with
  | [] => Some []
  | a :: b :: c :: d :: l' =>
    x ← std_val a; y ← std_val b;
    if bool_decide (c = "="%char) then
      if bool_decide (d = "="%char) && bool_decide (l' = []) then Some [4 * x + y / 16] else None
    else
      z ← std_val c;
      if bool_decide (d = "="%char) then
        if bool_decide (l' = []) then Some [4 * x + y / 16; 16 * (y mod 16) + z / 4] else None
      else
        w ← std_val d; rest ← decode_quanta l';
        Some (4 * x + y / 16 :: 16 * (y mod 16) + z / 4 :: 64 * (z mod 4) + w :: rest)
  | _ => None
  end.
Definition StdDecode (s : string) : option (list Z) := decode_quanta (strip_crlf (bytes s)).

Fixpoint encode_quanta (char : Z → ascii) (pad : bool) (l : list Z) : list ascii :=
  match l with
  | [] => []
  | [a] => char (a / 4) :: char (16 * (a mod 4)) :: (if pad then ["="; "="]%char else [])
  | [a; b] => char (a / 4) :: char (16 * (a mod 4) + b / 16) :: char (4 * (b mod 16))
              :: (if pad then ["="]%char else [])
  | a :: b :: c :: l' =>
    char (a / 4) :: char (16 * (a mod 4) + b / 16) :: char (4 * (b mod 16) + c / 64) :: char (c mod 64)
    :: encode_quanta char pad l'
  end.
Definition StdEncode (l : list Z) : string := of_bytes (encode_quanta std_char true l).
Definition RawURLEncode (l : list Z) : string := of_bytes (encode_quanta url_char false l).

(** The digest of the empty message and of [abc], from FIPS 180-4. *)
Example Sum256_abc :
  hex_encode (Sum256 (byte_values "abc"))
  = "ba7816bf8f01cfea414140de5dae2223b00361a396177a9cb410ff61f20015ad".
Proof. vm_compute. reflexivity. Qed.

Example StdDecode_example : StdDecode "aGk=" = Some [104; 105].
Proof. vm_compute. reflexivity. Qed.

(** ** Base64 round trip *)
Lemma code_chr v : 0 ≤ v < 256 → code (chr v) = v.
Proof. intros H. unfold code, chr. rewrite N_ascii_embedding; lia. Qed.

Lemma sextet_cases (P : Z → Prop) : Forall P (seqZ 0 64) → ∀ v, 0 ≤ v < 64 → P v.
Proof. intros HP v Hv. rewrite Forall_forall in HP. apply HP, elem_of_seqZ. lia. Qed.

Lemma std_val_char v : 0 ≤ v < 64 → std_val (std_char v) = Some v.
Proof. revert v. apply sextet_cases. repeat constructor. Qed.

Lemma std_char_plain v :
  0 ≤ v < 64 → code (std_char v) ≠ 10 ∧ code (std_char v) ≠ 13 ∧ std_char v ≠ "="%char.
Proof. revert v. apply sextet_cases. repeat constructor; done. Qed.

(** Induction over a list three elements at a time. *)
Lemma list_ind3 {A} (P : list A → Prop) :
  P [] → (∀ a, P [a]) → (∀ a b, P [a; b]) → (∀ a b c l, P l → P (a :: b :: c :: l)) → ∀ l, P l.
Proof.
  intros H0 H1 H2 H3. fix IH 1. intros [|a [|b [|c l]]]; [apply H0|apply H1|apply H2|apply H3, IH].
Qed.

Ltac sextets :=
  repeat match goal with
  | |- context [std_val (std_char ?v)] => rewrite (std_val_char v) by divlia
  | |- context [bool_decide (std_char ?v = _)] =>
    rewrite (bool_decide_eq_false_2 (std_char v = _))
      by (apply std_char_plain; divlia)
  end.

(** What holds of every digit, and of the padding, holds of an encoding. *)
Lemma encode_quanta_Forall (P : ascii → Prop) char pad l :
  (∀ v, 0 ≤ v < 64 → P (char v)) → (pad = true → P "="%char) → Forall is_byte l → Forall P (encode_quanta char pad l).
Proof.
  intros Hc Hp. induction l as [|a|a b|a b c l IH] using list_ind3; intros Hb; decompose_Forall_hyps; unfold is_byte in *;
    cbn [encode_quanta]; repeat constructor; try (apply Hc; divlia); try (destruct pad; repeat constructor; by apply Hp); auto.
Qed.

Lemma decode_encode_quanta l :
  Forall is_byte l → decode_quanta (encode_quanta std_char true l) = Some l.
Proof.
  induction l as [|a|a b|a b c l IH] using list_ind3; intros Hl; decompose_Forall_hyps; [done|..];
    unfold is_byte in *; cbn -[std_val std_char]; sextets; cbn; rewrite ?IH by done;
    cbn; repeat f_equal; divlia.
Qed.

Lemma strip_crlf_encode l :
  Forall is_byte l → strip_crlf (encode_quanta std_char true l) = encode_quanta std_char true l.
Proof.
  unfold strip_crlf.
  induction l as [|a|a b|a b c l IH] using list_ind3; intros Hl; decompose_Forall_hyps; [done|..];
    cbn [encode_quanta]; rewrite !filter_cons_True, ?IH;
    try (split; apply std_char_plain; unfold is_byte in *; divlia); done.
Qed.

(** A key survives printing and parsing. *)
Lemma StdDecode_StdEncode l : Forall is_byte l → StdDecode (StdEncode l) = Some l.
Proof.
  intros Hl. unfold StdDecode, StdEncode.
  rewrite bytes_of_bytes, strip_crlf_encode by done. by apply decode_encode_quanta.
Qed.
