(* ===== verification/Model.v ===== *)
(** * Control-plane models and validation

    [internal/control/model.go] and [internal/control/validation.go]: the
    persisted objects as records (a field [F] of the Go struct [Network] is
    [nw_F], and so on), and the validation functions, which return the first
    invalid field as a [ValidationError] or nil.  A pointer to a time is an
    [option].  Strings stay strings, as in Go, where the role, status and
    family types are aliases of [string]. *)

From S2P Require Import Prelude GoStd.

Open Scope Z_scope.

(** ** Models *)
Definition RoleOwner : string := "owner".
Definition RoleAdmin : string := "admin".
Definition RoleMember : string := "member".

Definition MembershipPending : string := "pending".
Definition MembershipActive : string := "active".
Definition MembershipSuspended : string := "suspended".
Definition MembershipRevoked : string := "revoked".

Definition FamilyIPv4 : string := "ipv4".
Definition FamilyIPv6 : string := "ipv6".

Definition RelayAssignmentActive : string := "active".
Definition RelayAssignmentExpired : string := "expired".
Definition RelayAssignmentRevoked : string := "revoked".

Record Network := {
  nw_ID : string;
  nw_Name : string;
  nw_IPv4Pool : string;
  nw_OwnerID : string;
  nw_ConfigVersion : Z;
  nw_CreatedAt : Time
}.

Record Node := {
  nd_ID : string;
  nd_DisplayName : string;
  nd_PublicKey : string;
  nd_Platform : string;
  nd_ClientVersion : string;
  nd_LastSeen : Time
}.

Record Membership := {
  mb_NetworkID : string;
  mb_NodeID : string;
  mb_VirtualIPv4 : IP;
  mb_Role : string;
  mb_Status : string
}.

Record EndpointCandidate := {
  ep_NodeID : string;
  ep_Address : IP;
  ep_Port : Z;
  ep_Family : string;
  ep_Interface : string;
  ep_Priority : Z;
  ep_ObservedAt : Time
}.

Record Invite := {
  iv_ID : string;
  iv_NetworkID : string;
  iv_TokenHash : string;
  iv_ExpiresAt : Time;
  iv_ConsumedAt : option Time;
  iv_RevokedAt : option Time;
  iv_ConsumedByNodeID : string;
  iv_CreatedAt : Time
}.

Record RelayAssignment := {
  ra_ID : string;
  ra_NetworkID : string;
  ra_NodeID : string;
  ra_RelayNodeID : string;
  ra_Address : IP;
  ra_Port : Z;
  ra_Family : string;
  ra_Status : string;
  ra_AssignedAt : Time;
  ra_ExpiresAt : option Time
}.

Record Peer := {
  pr_NodeID : string;
  pr_DisplayName : string;
  pr_PublicKey : string;
  pr_VirtualIPv4 : IP;
  pr_Node : Node;
  pr_Membership : Membership;
  pr_Endpoints : list EndpointCandidate
}.

Record NetworkSnapshot := {
  sn_NetworkID : string;
  sn_Generation : Z;
  sn_ConfigVersion : Z;
  sn_LocalNodeID : string;
  sn_LocalVirtualIPv4 : IP;
  sn_Peers : list Peer;
  sn_RelayAssignment : option RelayAssignment;
  sn_Relay : option RelayAssignment;
  sn_GeneratedAt : Time
}.

#[global] Instance Network_eq_dec : EqDecision Network.
Proof. solve_decision. Defined.
#[global] Instance Node_eq_dec : EqDecision Node.
Proof. solve_decision. Defined.
#[global] Instance Membership_eq_dec : EqDecision Membership.
Proof. solve_decision. Defined.
#[global] Instance EndpointCandidate_eq_dec : EqDecision EndpointCandidate.
Proof. solve_decision. Defined.
#[global] Instance Invite_eq_dec : EqDecision Invite.
Proof. solve_decision. Defined.
#[global] Instance RelayAssignment_eq_dec : EqDecision RelayAssignment.
Proof. solve_decision. Defined.

(** [Invite.IsExpired]: expiration is inclusive. *)
Definition IsExpired (i : Invite) (now : Time) : bool := negb (Before now (iv_ExpiresAt i)).

(** Field updates used by the repositories. *)
Definition nw_with_version (n : Network) (v : Z) : Network :=
  {| nw_ID := nw_ID n; nw_Name := nw_Name n; nw_IPv4Pool := nw_IPv4Pool n;
     nw_OwnerID := nw_OwnerID n; nw_ConfigVersion := v; nw_CreatedAt := nw_CreatedAt n |}.
Definition nd_with_LastSeen (n : Node) (t : Time) : Node :=
  {| nd_ID := nd_ID n; nd_DisplayName := nd_DisplayName n; nd_PublicKey := nd_PublicKey n;
     nd_Platform := nd_Platform n; nd_ClientVersion := nd_ClientVersion n; nd_LastSeen := t |}.
Definition nd_with_ClientVersion (n : Node) (v : string) : Node :=
  {| nd_ID := nd_ID n; nd_DisplayName := nd_DisplayName n; nd_PublicKey := nd_PublicKey n;
     nd_Platform := nd_Platform n; nd_ClientVersion := v; nd_LastSeen := nd_LastSeen n |}.
Definition mb_with_IP (m : Membership) (ip : IP) : Membership :=
  {| mb_NetworkID := mb_NetworkID m; mb_NodeID := mb_NodeID m; mb_VirtualIPv4 := ip;
     mb_Role := mb_Role m; mb_Status := mb_Status m |}.
Definition ep_with_Address (e : EndpointCandidate) (a : IP) : EndpointCandidate :=
  {| ep_NodeID := ep_NodeID e; ep_Address := a; ep_Port := ep_Port e; ep_Family := ep_Family e;
     ep_Interface := ep_Interface e; ep_Priority := ep_Priority e; ep_ObservedAt := ep_ObservedAt e |}.
Definition iv_consumed (i : Invite) (t : Time) (node : string) : Invite :=
  {| iv_ID := iv_ID i; iv_NetworkID := iv_NetworkID i; iv_TokenHash := iv_TokenHash i;
     iv_ExpiresAt := iv_ExpiresAt i; iv_ConsumedAt := Some t; iv_RevokedAt := iv_RevokedAt i;
     iv_ConsumedByNodeID := node; iv_CreatedAt := iv_CreatedAt i |}.
Definition iv_revoked (i : Invite) (t : Time) : Invite :=
  {| iv_ID := iv_ID i; iv_NetworkID := iv_NetworkID i; iv_TokenHash := iv_TokenHash i;
     iv_ExpiresAt := iv_ExpiresAt i; iv_ConsumedAt := iv_ConsumedAt i; iv_RevokedAt := Some t;
     iv_ConsumedByNodeID := iv_ConsumedByNodeID i; iv_CreatedAt := iv_CreatedAt i |}.
Definition iv_without_node (i : Invite) : Invite :=
  {| iv_ID := iv_ID i; iv_NetworkID := iv_NetworkID i; iv_TokenHash := iv_TokenHash i;
     iv_ExpiresAt := iv_ExpiresAt i; iv_ConsumedAt := iv_ConsumedAt i; iv_RevokedAt := iv_RevokedAt i;
     iv_ConsumedByNodeID := ""; iv_CreatedAt := iv_CreatedAt i |}.

(** ** Validation *)
Definition maxPostgresInteger : Z := 2^31 - 1.

Definition invalid (model field reason : string) : error := EValidation model field reason.

Definition required (model field value : string) : option error :=
  if blank value then Some (invalid model field "is required") else None.

Definition ValidateNetwork (n : Network) : option error :=
  required "network" "id" (nw_ID n) >>?
  required "network" "name" (nw_Name n) >>?
  required "network" "owner_id" (nw_OwnerID n) >>?
  match ParseCIDR (nw_IPv4Pool n) with
  | None => Some (invalid "network" "ipv4_pool" "must be an IPv4 network")
  | Some (poolIP, pool) =>
    if is_nil (To4 poolIP) then Some (invalid "network" "ipv4_pool" "must be an IPv4 network")
    else if negb (IP_Equal poolIP (net_IP pool)) then
      Some (invalid "network" "ipv4_pool" "must not contain host bits")
    else if negb (mask_bits pool =? 32) then
      Some (invalid "network" "ipv4_pool" "must use a 32-bit mask")
    else if nw_ConfigVersion n <? 0 then
      Some (invalid "network" "config_version" "must not be negative")
    else if IsZero (nw_CreatedAt n) then Some (invalid "network" "created_at" "is required")
    else None
  end.

Definition ValidateNode (n : Node) : option error :=
  required "node" "id" (nd_ID n) >>?
  required "node" "display_name" (nd_DisplayName n) >>?
  required "node" "public_key" (nd_PublicKey n) >>?
  required "node" "platform" (nd_Platform n) >>?
  required "node" "client_version" (nd_ClientVersion n) >>?
  None.

Definition role_supported (r : string) : bool :=
  bool_decide (r = RoleOwner) || bool_decide (r = RoleAdmin) || bool_decide (r = RoleMember).
Definition status_supported (s : string) : bool :=
  bool_decide (s = MembershipPending) || bool_decide (s = MembershipActive)
  || bool_decide (s = MembershipSuspended) || bool_decide (s = MembershipRevoked).

Definition ValidateMembership (m : Membership) : option error :=
  required "membership" "network_id" (mb_NetworkID m) >>?
  required "membership" "node_id" (mb_NodeID m) >>?
  if is_nil (mb_VirtualIPv4 m) || is_nil (To4 (mb_VirtualIPv4 m)) then
    Some (invalid "membership" "virtual_ipv4" "must be an IPv4 address")
  else if negb (role_supported (mb_Role m)) then
    Some (invalid "membership" "role" "is not supported")
  else if negb (status_supported (mb_Status m)) then
    Some (invalid "membership" "status" "is not supported")
  else None.

Definition ValidateIPv4InPool (address : IP) (ipv4Pool : string) : option error :=
  if is_nil address || is_nil (To4 address) then
    Some (invalid "membership" "virtual_ipv4" "must be an IPv4 address")
  else
  match ParseCIDR ipv4Pool with
  | None => Some (invalid "network" "ipv4_pool" "must be a canonical IPv4 network")
  | Some (poolIP, pool) =>
    if is_nil (To4 poolIP) || negb (IP_Equal poolIP (net_IP pool)) then
      Some (invalid "network" "ipv4_pool" "must be a canonical IPv4 network")
    else if negb (mask_bits pool =? 32) then
      Some (invalid "network" "ipv4_pool" "must use a 32-bit mask")
    else if negb (IPNet_Contains pool (To4 address)) then
      Some (invalid "membership" "virtual_ipv4" "must belong to network ipv4_pool")
    else None
  end.

Definition validateEndpointAddress (model : string) (address : IP) (family : string) : option error :=
  if is_nil address then Some (invalid model "address" "is required")
  else if bool_decide (family = FamilyIPv4) then
    if is_nil (To4 address) then Some (invalid model "address" "must be IPv4 for family ipv4") else None
  else if bool_decide (family = FamilyIPv6) then
    if is_nil (To16 address) || negb (is_nil (To4 address)) then
      Some (invalid model "address" "must be IPv6 for family ipv6") else None
  else Some (invalid model "family" "must be ipv4 or ipv6").

Definition ValidateEndpointCandidate (e : EndpointCandidate) : option error :=
  required "endpoint_candidate" "node_id" (ep_NodeID e) >>?
  validateEndpointAddress "endpoint_candidate" (ep_Address e) (ep_Family e) >>?
  if ep_Port e =? 0 then Some (invalid "endpoint_candidate" "port" "must be between 1 and 65535")
  else if blank (ep_Interface e) then Some (invalid "endpoint_candidate" "interface" "is required")
  else if (ep_Priority e <? 0) || (maxPostgresInteger <? ep_Priority e) then
    Some (invalid "endpoint_candidate" "priority" "must be between 0 and 2147483647")
  else if IsZero (ep_ObservedAt e) then Some (invalid "endpoint_candidate" "observed_at" "is required")
  else None.

Definition ValidateInvite (i : Invite) : option error :=
  required "invite" "id" (iv_ID i) >>?
  required "invite" "network_id" (iv_NetworkID i) >>?
  required "invite" "token_hash" (iv_TokenHash i) >>?
  if IsZero (iv_CreatedAt i) then Some (invalid "invite" "created_at" "is required")
  else if IsZero (iv_ExpiresAt i) || negb (After (iv_ExpiresAt i) (iv_CreatedAt i)) then
    Some (invalid "invite" "expires_at" "must be after created_at")
  else if match iv_ConsumedAt i with Some t => Before t (iv_CreatedAt i) | None => false end then
    Some (invalid "invite" "consumed_at" "must not precede created_at")
  else if match iv_RevokedAt i with Some t => Before t (iv_CreatedAt i) | None => false end then
    Some (invalid "invite" "revoked_at" "must not precede created_at")
  else if match iv_ConsumedAt i, iv_RevokedAt i with Some _, Some _ => true | _, _ => false end then
    Some (invalid "invite" "lifecycle" "cannot be both consumed and revoked")
  else if negb (bool_decide (iv_ConsumedByNodeID i = "")) && negb (bool_decide (is_Some (iv_ConsumedAt i))) then
    Some (invalid "invite" "consumed_by_node_id" "requires consumed_at")
  else None.

Definition relay_status_supported (s : string) : bool :=
  bool_decide (s = RelayAssignmentActive) || bool_decide (s = RelayAssignmentExpired)
  || bool_decide (s = RelayAssignmentRevoked).

Definition ValidateRelayAssignment (a : RelayAssignment) : option error :=
  required "relay_assignment" "id" (ra_ID a) >>?
  required "relay_assignment" "network_id" (ra_NetworkID a) >>?
  required "relay_assignment" "node_id" (ra_NodeID a) >>?
  required "relay_assignment" "relay_node_id" (ra_RelayNodeID a) >>?
  if bool_decide (ra_NodeID a = ra_RelayNodeID a) then
    Some (invalid "relay_assignment" "relay_node_id" "must differ from node_id")
  else
  validateEndpointAddress "relay_assignment" (ra_Address a) (ra_Family a) >>?
  if ra_Port a =? 0 then Some (invalid "relay_assignment" "port" "must be between 1 and 65535")
  else if negb (relay_status_supported (ra_Status a)) then
    Some (invalid "relay_assignment" "status" "is not supported")
  else if IsZero (ra_AssignedAt a) then Some (invalid "relay_assignment" "assigned_at" "is required")
  else if match ra_ExpiresAt a with Some t => negb (After t (ra_AssignedAt a)) | None => false end then
    Some (invalid "relay_assignment" "expires_at" "must be after assigned_at")
  else None.

Definition IsFreshEndpoint (e : EndpointCandidate) (now : Time) (maxAge : Duration) : bool :=
  if (maxAge <? 0) || IsZero (ep_ObservedAt e) || After (ep_ObservedAt e) now then false
  else negb (Before (ep_ObservedAt e) (now + - maxAge)).

(** ** Properties *)

Lemma required_None m f v : required m f v = None ↔ blank v = false.
Proof. unfold required. by destruct (blank v). Qed.

(** A pool that the validators accept, as a number and a prefix length. *)
Record canonical_pool (cidr : string) (base ones : Z) : Prop := {
  cp_parse : ∃ ip n, ParseCIDR cidr = Some (ip, n) ∧ is_nil (To4 ip) = false ∧
    IP_Equal ip (net_IP n) = true ∧ mask_bits n = 32 ∧ mask_ones n = ones ∧ net_IP n = put_be 4 base;
  cp_ones : 0 ≤ ones ≤ 32;
  cp_base : 0 ≤ base ∧ base + 2^(32 - ones) ≤ 2^32;
  cp_aligned : base mod 2^(32 - ones) = 0
}.

Lemma IP_Equal_sym_4 a b : length b = 4%nat → is_nil (To4 a) = false → IP_Equal a b = bool_decide (To4 a = b).
Proof.
  intros Hb Ha. unfold IP_Equal, To4, is_nil in *.
  destruct (decide (length a = 4%nat)) as [E|E].
  - rewrite (bool_decide_eq_true_2 (length a = length b)) by congruence.
    by rewrite (bool_decide_eq_true_2 (length a = 4%nat)).
  - rewrite (bool_decide_eq_false_2 (length a = length b)) by congruence.
    rewrite (bool_decide_eq_true_2 (length b = 4%nat)) by done.
    rewrite (bool_decide_eq_false_2 (length a = 4%nat)) in * by done. simpl.
    destruct (bool_decide (length a = 16%nat)); simpl in *; [|done].
    by destruct (bool_decide (take 12 a = v4InV6Prefix)).
Qed.

(** Host bits are absent exactly when the base is a multiple of the size of
    the network. *)
Lemma canonical_pool_intro cidr ip n :
  ParseCIDR cidr = Some (ip, n) → is_nil (To4 ip) = false → IP_Equal ip (net_IP n) = true →
  mask_bits n = 32 → ∃ base, canonical_pool cidr base (mask_ones n).
Proof.
  intros Hp Hnil Heq Hbits.
  destruct (ParseCIDR_ipv4 _ _ _ Hp Hbits) as (v & Hv & Hnet & Hones).
  rewrite IP_Equal_sym_4, bool_decide_eq_true, Hv in Heq
    by (rewrite ?Hnet, ?put_be_length; done).
  set (k := 32 - mask_ones n). assert (0 < 2^k) by (apply Z.pow_pos_nonneg; lia).
  set (b := v mod 2^32). assert (0 ≤ b < 2^32) by (apply Z.mod_pos_bound; lia).
  assert (b mod 2^k = 0) as Hal.
  { assert (b = Z.land b (mask_value (mask_ones n) 32)) as Hb.
    { transitivity (be_value (put_be 4 v)); [by rewrite be_value_put_be|].
      rewrite Heq, Hnet, be_value_put_be. unfold b. apply Z.bits_inj'. intros i Hi.
      change (8 * Z.of_nat 4) with 32. rewrite <- !Z.land_ones by lia.
      rewrite !Z.land_spec. destruct (Z.testbit v i), (Z.testbit (Z.ones 32) i); simpl;
        by rewrite ?andb_true_r, ?andb_false_r. }
    rewrite land_mask in Hb by lia. fold k in Hb. lia. }
  exists b. split.
  - exists ip, n. repeat split; try done.
    + by rewrite IP_Equal_sym_4, bool_decide_eq_true, Hv by (rewrite ?Hnet, ?put_be_length; done).
    + rewrite <- Heq. unfold b. symmetry. apply (put_be_mod 4 4). lia.
  - done.
  - fold k. split; [lia|].
    assert (2^32 = 2^k * 2^(mask_ones n)) as Hpow by (rewrite <- Z.pow_add_r by lia; f_equal; lia).
    assert (b = 2^k * (b / 2^k)) as Hq by (rewrite (Z.div_mod b (2^k)) at 1; lia).
    set (q := b / 2^k) in *. set (P := 2^k) in *. clearbody P q.
    assert (q < 2^(mask_ones n)) by nia. nia.
  - done.
Qed.

(** [ValidateNetwork] accepts only canonical IPv4 pools. *)
Lemma ValidateNetwork_pool n :
  ValidateNetwork n = None → ∃ base ones, canonical_pool (nw_IPv4Pool n) base ones.
Proof.
  unfold ValidateNetwork. intros H. repeat (case_match; simplify_eq).
  eapply canonical_pool_intro in H3 as [base ?]; eauto; [..|lia].
  by apply negb_false_iff.
Qed.

Lemma ValidateNetwork_fields n :
  ValidateNetwork n = None → blank (nw_ID n) = false ∧ 0 ≤ nw_ConfigVersion n.
Proof.
  unfold ValidateNetwork. intros H. repeat (case_match; simplify_eq).
  split; [by eapply required_None|lia].
Qed.

(** An address belongs to a canonical pool exactly when its value lies between
    the network and the broadcast address. *)
Lemma ValidateIPv4InPool_range cidr base ones ip :
  canonical_pool cidr base ones → Forall is_byte (To4 ip) → is_nil (To4 ip) = false →
  ValidateIPv4InPool ip cidr = None ↔ base ≤ be_value (To4 ip) < base + 2^(32 - ones).
Proof.
  intros [(poolIP & n & Hp & Hnil & Heq & Hbits & <- & Hnet) Hones Hbase Hal] Hb Hip.
  unfold ValidateIPv4InPool. rewrite Hp, Hnil, Heq, Hbits, Hip. simpl.
  rewrite (To4_not_nil _ Hip). simpl. pose proof (To4_length _ Hip) as Hlen.
  set (a := To4 ip) in *. assert (To4 a = a) as Ha by (by apply To4_4).
  assert (To4 (net_IP n) = net_IP n) as Hn by (apply To4_4; by rewrite Hnet, put_be_length).
  unfold IPNet_Contains. rewrite Ha, Hn, (is_nil_4 a), (is_nil_4 (net_IP n))
    by (rewrite ?Hnet, ?put_be_length; done).
  assert (length (net_IP n) = 4%nat) as Hl by (by rewrite Hnet, put_be_length).
  rewrite Hl, Hlen, !bool_decide_eq_true_2 by auto. simpl.
  rewrite Hnet, be_value_put_be. change (8 * Z.of_nat 4) with 32.
  pose proof (be_value_bound a Hb) as Hab. rewrite Hlen in Hab. change (2 ^ (8 * Z.of_nat 4)) with (2^32) in Hab.
  rewrite Hbits. set (k := 32 - mask_ones n) in *.
  assert (0 < 2^k) by (apply Z.pow_pos_nonneg; lia).
  rewrite (Z.mod_small base) by lia.
  assert (Z.land (mask_value (mask_ones n) 32) (2^32 - 1) = mask_value (mask_ones n) 32) as ->.
  { change (2^32 - 1) with (Z.ones 32). rewrite Z.land_ones by lia. apply Z.mod_small.
    unfold mask_value. fold k. assert (2^k ≤ 2^32) by (apply Z.pow_le_mono_r; lia). lia. }
  rewrite !land_mask by lia. fold k. rewrite Hal.
  pose proof (Z.mod_pos_bound (be_value a) (2^k)) as Hm.
  destruct (Z.eqb_spec (base - 0) (be_value a - be_value a mod 2^k)) as [E|E]; simpl;
    split; intros Hg; try done; [lia|].
  exfalso. apply E.
  assert ((be_value a - base) mod 2^k = be_value a mod 2^k) as <-
    by (by rewrite Zminus_mod, Hal, Z.sub_0_r, Zmod_mod).
  rewrite Z.mod_small; lia.
Qed.

(** Freshness: the observation lies in the closed window of [maxAge] before
    [now]. *)
Lemma IsFreshEndpoint_spec e now maxAge :
  IsFreshEndpoint e now maxAge = true ↔
  0 ≤ maxAge ∧ ep_ObservedAt e ≠ 0 ∧ now - maxAge ≤ ep_ObservedAt e ≤ now.
Proof. unfold IsFreshEndpoint, IsZero, After, Before. case_match; split; intros; try done; lia. Qed.
