(* ===== verification/Pool.v ===== *)
(** * Virtual IPv4 pools

    [internal/address/pool.go]: an immutable IPv4 CIDR, its usable host range,
    and the deterministic and random searches for a free address.  [uint32]
    and [uint64] arithmetic is written with its wrap-around; the proofs show
    that no wrap-around happens for a pool that [NewPool] returns.  The random
    source is an argument: what the reader yields is an arbitrary integer or an
    error, and [rand.Int(random, limit)] reduces it to [0, limit). *)

From S2P Require Import Prelude GoStd Model.

Open Scope Z_scope.

(** ** Data *)
Record Pool := {
  cidr : string;
  network : Z;
  prefix : Z;
  first : Z;
  last : Z;
  usableCount : Z;
  valid : bool
}.

(** The representations of occupied addresses that [addOccupied] accepts. *)
Inductive occupied_value :=
| OccIP (ip : IP)
| OccString (s : string)
| OccIPs (ips : list IP)
| OccStrings (ss : list string)
| OccSet (ss : list string)
| OccBools (ss : list (string * bool))
| OccOther.

(** ** Operations *)
Definition NewPool (s : string) : result Pool :=
  match ParseCIDR s with
  | None => Err (EWrap ErrInvalidPool)
  | Some (ip, net) =>
    let ip4 := To4 ip in
    let networkIP := To4 (net_IP net) in
    if is_nil ip4 || is_nil networkIP then Err (EWrap ErrInvalidPool)
    else if negb (mask_bits net =? 32) || negb (IP_Equal ip4 networkIP) then Err (EWrap ErrInvalidPool)
    else
      let networkValue := be_value networkIP in
      let size := 2^(32 - mask_ones net) in
      let p f l u :=
        {| cidr := IPNet_String net; network := networkValue; prefix := mask_ones net;
           first := f; last := l; usableCount := u; valid := true |} in
      Ok (if 2 <? size
          then p (uint32 (networkValue + 1)) (uint32 (networkValue + uint32 (size - 2))) (size - 2)
          else p 0 0 0)
  end.

Definition CIDR (p : Pool) : string := cidr p.

Definition Size (p : Pool) : Z := if valid p then usableCount p else 0.

Definition Contains (p : Pool) (ip : IP) : bool :=
  if negb (valid p) || is_nil ip || is_nil (To4 ip) then false
  else
    let value := be_value (To4 ip) in
    let mask := if 0 <? prefix p then uint32 (Z.shiftl (2^32 - 1) (32 - prefix p)) else 0 in
    Z.land value mask =? Z.land (network p) mask.

Definition Usable (p : Pool) (ip : IP) : bool :=
  if negb (valid p) || is_nil ip || is_nil (To4 ip) || (usableCount p =? 0) then false
  else let value := be_value (To4 ip) in (first p <=? value) && (value <=? last p).

Section ForEach.
Context {S : Type} (visit : IP → S → option error * S).

(** The loop [for value := first; ; value++]; [None] when the fuel runs out. *)
Fixpoint each_loop (fuel : nat) (lastValue value : Z) (s : S) : option (option error * S) :=
  match fuel with
  | O => None
  | Datatypes.S fuel =>
    match visit (put_be 4 value) s with
    | (Some e, s') => Some (Some e, s')
    | (None, s') =>
      if value =? lastValue then Some (None, s')
      else each_loop fuel lastValue (uint32 (value + 1)) s'
    end
  end.

Definition ForEachCandidate (p : Pool) (s : S) : option (option error * S) :=
  if negb (valid p) then Some (Some (ErrInvalidPool : error), s)
  else if usableCount p =? 0 then Some (None, s)
  else each_loop (Z.to_nat (usableCount p)) (last p) (first p) s.

(** The reference traversal: the addresses in a list, until one fails. *)
Fixpoint visit_all (vs : list Z) (s : S) : option error * S :=
  match vs with
  | [] => (None, s)
  | v :: vs' =>
    match visit (put_be 4 v) s with
    | (Some e, s') => (Some e, s')
    | (None, s') => visit_all vs' s'
    end
  end.
End ForEach.

Definition Candidates (p : Pool) : list IP :=
  if negb (valid p) || (usableCount p =? 0) || (2^20 <? usableCount p) then []
  else match ForEachCandidate (λ ip acc, (None, acc ++ [ip])) p [] with
       | Some (_, acc) => acc
       | None => []
       end.

Definition CandidatesWithError (p : Pool) : result (list IP) :=
  if negb (valid p) then Err ErrInvalidPool
  else if 2^20 <? usableCount p then Err (EWrap ErrInvalidPool)
  else Ok (Candidates p).

Definition add_ip (used : gset Z) (ip : IP) : gset Z :=
  if is_nil (To4 ip) then used else {[be_value (To4 ip)]} ∪ used.
Definition add_string (used : gset Z) (s : string) : gset Z := add_ip used (ParseIP (TrimSpace s)).
Definition addOccupied (used : gset Z) (v : occupied_value) : gset Z :=
  match v with
  | OccIP ip => add_ip used ip
  | OccString s => add_string used s
  | OccIPs ips => fold_left add_ip ips used
  | OccStrings ss | OccSet ss => fold_left add_string ss used
  | OccBools ss => fold_left (λ u (kv : string * bool), if kv.2 then add_string u kv.1 else u) ss used
  | OccOther => used
  end.
Definition used_of (occupied : list occupied_value) : gset Z := fold_left addOccupied occupied ∅.

(** [errStop] of the package, an error no caller sees. *)
Definition errStop : error := EForeign 0.

Definition Next (p : Pool) (occupied : list occupied_value) : option (result IP) :=
  if negb (valid p) then Some (Err ErrInvalidPool)
  else
    let used := used_of occupied in
    match ForEachCandidate
            (λ ip (result : option IP),
               if bool_decide (be_value (To4 ip) ∈ used) then (None, result) else (Some errStop, Some ip))
            p None with
    | None => None
    | Some (err, found) =>
      Some match err, found with
           | Some e, _ => if bool_decide (e = errStop)
                          then match found with Some ip => Ok ip | None => Err (EPoolExhausted (cidr p)) end
                          else Err e
           | None, Some ip => Ok ip
           | None, None => Err (EPoolExhausted (cidr p))
           end
    end.

(** The loop of [RandomNext] over [offset]. *)
Fixpoint random_loop (fuel : nat) (p : Pool) (used : gset Z) (startOffset offset : Z) : result IP :=
  match fuel with
  | O => Err (EPoolExhausted (cidr p))
  | S fuel =>
    let candidateOffset := uint64 (startOffset + offset) mod usableCount p in
    let value := uint32 (first p + uint32 candidateOffset) in
    if bool_decide (value ∈ used) then random_loop fuel p used startOffset (offset + 1)
    else Ok (put_be 4 value)
  end.

(** [rand.Int]: any value of [0, limit) can be drawn, and no other. *)
Definition rand_Int (entropy : result Z) (limit : Z) : result Z :=
  match entropy with Ok z => Ok (z mod limit) | Err e => Err e end.

Definition RandomNext (entropy : result Z) (p : Pool) (occupied : list occupied_value) : result IP :=
  if negb (valid p) then Err ErrInvalidPool
  else if usableCount p =? 0 then Err (EPoolExhausted (cidr p))
  else
    let used := used_of occupied in
    match rand_Int entropy (usableCount p) with
    | Err e => Err (EWrap e)
    | Ok start => random_loop (Z.to_nat (usableCount p)) p used start 0
    end.

(** ** Well-formed pools *)

(** The pool of the network [base] with [ones] prefix bits. *)
Record pool_wf (p : Pool) (base ones : Z) : Prop := {
  pw_valid : valid p = true;
  pw_ones : 0 ≤ ones ≤ 32;
  pw_base : 0 ≤ base ∧ base + 2^(32 - ones) ≤ 2^32;
  pw_aligned : base mod 2^(32 - ones) = 0;
  pw_network : network p = base;
  pw_prefix : prefix p = ones;
  pw_count : usableCount p = Z.max 0 (2^(32 - ones) - 2);
  pw_range : 0 < usableCount p → first p = base + 1 ∧ last p = base + usableCount p
}.

(** The values of the usable hosts in ascending order. *)
Definition hosts (p : Pool) : list Z := seqZ (first p) (usableCount p).

Lemma pool_pos k : 0 ≤ k → 1 ≤ 2^k.
Proof. intros. assert (0 < 2^k) by (apply Z.pow_pos_nonneg; lia). lia. Qed.

Lemma NewPool_wf s p :
  NewPool s = Ok p → ∃ base ones, pool_wf p base ones ∧ canonical_pool s base ones.
Proof.
  unfold NewPool. intros H.
  destruct (ParseCIDR s) as [[l i]|] eqn:Hp; [|done].
  destruct (_ || _) eqn:H2 in H; [done|]. destruct (_ || _) eqn:H3 in H; [done|].
  apply orb_false_elim in H2 as [Hi Hn], H3 as [Hb He]. rewrite negb_false_iff in Hb, He.
  injection H as <-.
  assert (mask_bits i = 32) as Hb32 by lia.
  destruct (ParseCIDR_ipv4 _ _ _ Hp Hb32) as (v & Hv & Hnet & Hones).
  assert (To4 (net_IP i) = net_IP i) as Hn4 by (apply To4_4; by rewrite Hnet, put_be_length).
  destruct (canonical_pool_intro _ _ _ Hp Hi) as [base Hcp]; [|lia|].
  { rewrite IP_Equal_sym_4 by (rewrite ?Hnet, ?put_be_length; done).
    rewrite Hn4, IP_Equal_4 in He by (rewrite ?Hnet, ?Hv, ?put_be_length; done). done. }
  pose proof Hcp as [(ip' & n' & Hp' & _ & _ & _ & _ & Hbase) _ Hb2 Hal].
  rewrite Hp in Hp'. injection Hp' as <- <-.
  exists base, (mask_ones i). split; [|done].
  pose proof (pool_pos (32 - mask_ones i)).
  assert (be_value (To4 (net_IP i)) = base) as Hval.
  { rewrite Hn4, Hbase, be_value_put_be. apply Z.mod_small. simpl. lia. }
  case_match; split; try done; simpl; try lia; intros Hpos; unfold uint32;
    rewrite Hval, ?(Z.mod_small (2 ^ _ - 2)), ?Z.mod_small by lia; lia.
Qed.

Lemma NewPool_canonical s base ones :
  canonical_pool s base ones → ∃ p, NewPool s = Ok p ∧ pool_wf p base ones.
Proof.
  intros Hc. pose proof Hc as [(ip & n & Hp & Hi & He & Hb & Ho & Hnet) Hones Hbase Hal].
  assert (To4 (net_IP n) = net_IP n) as Hn4 by (apply To4_4; by rewrite Hnet, put_be_length).
  assert (∃ p, NewPool s = Ok p) as [p HN].
  { unfold NewPool. rewrite Hp, Hi, Hn4, (is_nil_4 (net_IP n)), Hb by (by rewrite Hnet, put_be_length).
    rewrite IP_Equal_4 by (rewrite ?To4_length, ?Hnet, ?put_be_length; done).
    rewrite IP_Equal_sym_4 in He by (rewrite ?Hnet, ?put_be_length; done).
    rewrite He. simpl. eauto. }
  exists p. split; [done|]. destruct (NewPool_wf _ _ HN) as (b' & o' & Hw & Hc').
  destruct Hc' as [(ip' & n' & Hp' & _ & _ & _ & Ho' & Hnet') _ Hb' _].
  rewrite Hp in Hp'. injection Hp' as <- <-. subst.
  replace base with b'; [done|]. pose proof (pool_pos (32 - mask_ones n)).
  rewrite Hnet in Hnet'. apply (f_equal be_value) in Hnet'. rewrite !be_value_put_be in Hnet'.
  rewrite !Z.mod_small in Hnet' by (simpl; lia). done.
Qed.

Section Wf.
Context {p : Pool} {base ones : Z} (Hp : pool_wf p base ones).

Lemma pool_count_nonneg : 0 ≤ usableCount p.
Proof using Hp. rewrite (pw_count _ _ _ Hp). lia. Qed.

(** The usable hosts are the addresses strictly between the network and the
    broadcast address; none of the sums of the program wraps around. *)
Lemma hosts_elem v :
  v ∈ hosts p ↔ base < v < base + 2^(32 - ones) - 1.
Proof using Hp.
  unfold hosts. rewrite elem_of_seqZ. pose proof (pw_count _ _ _ Hp) as Hc.
  destruct (decide (0 < usableCount p)) as [Hpos|Hz].
  - destruct (pw_range _ _ _ Hp Hpos) as [-> _]. lia.
  - split; [lia|]. intros. exfalso. lia.
Qed.

Lemma hosts_uint32 v : v ∈ hosts p → 0 ≤ v < 2^32.
Proof using Hp. rewrite hosts_elem. pose proof (pw_base _ _ _ Hp). lia. Qed.

Lemma put_be_host v : v ∈ hosts p → be_value (To4 (put_be 4 v)) = v.
Proof using Hp.
  intros Hv%hosts_uint32. rewrite To4_4, be_value_put_be by apply put_be_length.
  by apply Z.mod_small.
Qed.

Lemma NoDup_hosts : NoDup (hosts p).
Proof. apply NoDup_seqZ. Qed.

Lemma Usable_hosts ip :
  is_nil (To4 ip) = false → Usable p ip = bool_decide (be_value (To4 ip) ∈ hosts p).
Proof using Hp.
  intros Hip. unfold Usable, hosts. rewrite (pw_valid _ _ _ Hp), Hip, (To4_not_nil _ Hip). simpl.
  pose proof pool_count_nonneg.
  destruct (Z.eqb_spec (usableCount p) 0) as [E|E]; simpl.
  - symmetry. apply bool_decide_eq_false. rewrite elem_of_seqZ. lia.
  - destruct (pw_range _ _ _ Hp) as [Hf Hl]; [lia|].
    rewrite (bool_decide_ext _ _ (elem_of_seqZ _ _ _)). case_bool_decide; lia.
Qed.

Lemma Contains_range ip :
  Forall is_byte (To4 ip) → is_nil (To4 ip) = false →
  Contains p ip = true ↔ base ≤ be_value (To4 ip) < base + 2^(32 - ones).
Proof using Hp.
  intros Hb Hip. unfold Contains.
  rewrite (pw_valid _ _ _ Hp), Hip, (To4_not_nil _ Hip), (pw_network _ _ _ Hp), (pw_prefix _ _ _ Hp). simpl.
  pose proof (pw_ones _ _ _ Hp) as Hones. pose proof (pw_base _ _ _ Hp) as Hbase.
  pose proof (pw_aligned _ _ _ Hp) as Hal.
  pose proof (be_value_bound _ Hb) as Hv. rewrite (To4_length _ Hip) in Hv.
  change (2 ^ (8 * Z.of_nat 4)) with (2^32) in Hv.
  set (v := be_value (To4 ip)) in *. set (k := 32 - ones) in *.
  assert ((if 0 <? ones then uint32 (Z.shiftl (2 ^ 32 - 1) k) else 0) = mask_value ones 32) as ->.
  { unfold mask_value. fold k. destruct (Z.ltb_spec 0 ones).
    - unfold uint32. rewrite Z.shiftl_mul_pow2 by lia.
      replace ((2^32 - 1) * 2^k) with ((2^32 - 2^k) + (2^k - 1) * 2^32) by lia.
      assert (2^k ≤ 2^32) by (apply Z.pow_le_mono_r; lia). pose proof (pool_pos k).
      rewrite Z.mod_add by lia. apply Z.mod_small. lia.
    - assert (k = 32) as -> by lia. done. }
  pose proof (pool_pos k). rewrite !land_mask by lia. fold k. rewrite Hal.
  pose proof (Z.mod_pos_bound v (2^k)).
  rewrite Z.eqb_eq. split; intros H1; [lia|].
  assert ((v - base) mod 2^k = v mod 2^k) as <- by (by rewrite Zminus_mod, Hal, Z.sub_0_r, Zmod_mod).
  rewrite Z.mod_small; lia.
Qed.

(** *** The traversal *)
Lemma each_loop_visit_all {S} (visit : IP → S → option error * S) n v s :
  0 ≤ v → v + Z.of_nat n < 2^32 →
  each_loop visit (Datatypes.S n) (v + Z.of_nat n) v s
  = Some (visit_all visit (seqZ v (Z.of_nat (Datatypes.S n))) s).
Proof.
  revert v s. induction n as [|n IH]; intros v s Hv Hb.
  - rewrite (seqZ_cons v), (seqZ_nil (Z.succ v)), Z.add_0_r by lia.
    cbn [each_loop visit_all]. rewrite Z.eqb_refl.
    by destruct (visit _ s) as [[e|] s'].
  - rewrite (seqZ_cons v) by lia. remember (Datatypes.S n) as m.
    cbn [each_loop visit_all]. destruct (visit (put_be 4 v) s) as [[e|] s']; [done|].
    destruct (Z.eqb_spec v (v + Z.of_nat m)) as [E|E]; [lia|].
    unfold uint32. rewrite Z.mod_small by lia. subst m.
    replace (v + Z.of_nat (Datatypes.S n)) with (Z.succ v + Z.of_nat n) by lia.
    replace (v + 1) with (Z.succ v) by lia.
    rewrite IH by lia. do 2 f_equal. f_equal. lia.
Qed.

(** [ForEachCandidate] terminates and visits the usable hosts in order. *)
Lemma ForEachCandidate_hosts {S} (visit : IP → S → option error * S) s :
  ForEachCandidate visit p s = Some (visit_all visit (hosts p) s).
Proof using Hp.
  unfold ForEachCandidate, hosts. rewrite (pw_valid _ _ _ Hp). simpl.
  pose proof pool_count_nonneg. pose proof (pw_base _ _ _ Hp).
  destruct (Z.eqb_spec (usableCount p) 0) as [->|E]; [done|].
  destruct (pw_range _ _ _ Hp) as [Hf Hl]; [lia|].
  destruct (Z.to_nat (usableCount p)) as [|n] eqn:En; [lia|].
  replace (last p) with (first p + Z.of_nat n) by lia.
  pose proof (pw_count _ _ _ Hp).
  rewrite each_loop_visit_all by lia. do 3 f_equal. lia.
Qed.

(** *** The random search *)
Lemma random_loop_spec used start n offset :
  Z.of_nat n + offset = usableCount p → 0 ≤ offset → 0 < usableCount p → 0 ≤ start < usableCount p →
  match random_loop n p used start offset with
  | Ok ip => ∃ v, ip = put_be 4 v ∧ v ∈ hosts p ∧ v ∉ used
  | Err e => e = EPoolExhausted (cidr p) ∧
    ∀ o, offset ≤ o < usableCount p → first p + (start + o) mod usableCount p ∈ used
  end.
Proof using Hp.
  revert offset. induction n as [|n IH]; intros offset Hn Ho Hpos Hs; simpl.
  - split; [done|]. intros o. lia.
  - pose proof (pw_ones _ _ _ Hp) as Hones.
    assert (2^(32 - ones) ≤ 2^32) by (apply Z.pow_le_mono_r; lia).
    pose proof (pw_count _ _ _ Hp).
    unfold uint64. rewrite (Z.mod_small (start + offset)) by lia.
    pose proof (Z.mod_pos_bound (start + offset) (usableCount p) Hpos) as Hm.
    set (o := (start + offset) mod usableCount p) in *.
    destruct (pw_range _ _ _ Hp Hpos) as [Hf Hl]. pose proof (pw_base _ _ _ Hp).
    assert (uint32 (first p + uint32 o) = first p + o) as Hu.
    { unfold uint32. rewrite (Z.mod_small o), Z.mod_small; lia. }
    rewrite Hu. case_bool_decide as Hin.
    + specialize (IH (offset + 1)). destruct (random_loop n _ _ _ _); [apply IH; lia|].
      destruct IH as [-> IH]; [lia..|]. split; [done|]. intros o' Ho'.
      destruct (decide (o' = offset)) as [->|]; [done|]. apply IH. lia.
    + exists (first p + o). split; [done|]. split; [|done]. unfold hosts. apply elem_of_seqZ. lia.
Qed.

(** Every host is reached from any start by some offset. *)
Lemma host_offset start v :
  v ∈ hosts p → ∃ o, 0 ≤ o < usableCount p ∧ v = first p + (start + o) mod usableCount p.
Proof.
  unfold hosts. rewrite elem_of_seqZ. intros Hv. set (n := usableCount p) in *.
  exists ((v - first p - start) mod n). split; [apply Z.mod_pos_bound; lia|].
  rewrite Zplus_mod_idemp_r. replace (start + (v - first p - start)) with (v - first p) by lia.
  rewrite Z.mod_small; lia.
Qed.
End Wf.

(** Search with a working random source: a free host, or proof that all are
    taken. *)
Lemma RandomNext_search p base ones z occ :
  pool_wf p base ones →
  match RandomNext (Ok z) p occ with
  | Ok ip => ∃ v, ip = put_be 4 v ∧ v ∈ hosts p ∧ v ∉ used_of occ
  | Err e => e = EPoolExhausted (cidr p) ∧ ∀ v, v ∈ hosts p → v ∈ used_of occ
  end.
Proof.
  intros Hp. unfold RandomNext. rewrite (pw_valid _ _ _ Hp). simpl.
  pose proof (pool_count_nonneg Hp).
  destruct (Z.eqb_spec (usableCount p) 0) as [E|E].
  { split; [done|]. intros v. unfold hosts. rewrite elem_of_seqZ. lia. }
  assert (0 ≤ z mod usableCount p < usableCount p) as Hs by (apply Z.mod_pos_bound; lia).
  pose proof (random_loop_spec Hp (used_of occ) (z mod usableCount p)
                (Z.to_nat (usableCount p)) 0) as Hl.
  destruct (random_loop _ _ _ _ _); [apply Hl; lia|].
  destruct Hl as [-> Hall]; [lia..|]. split; [done|]. intros v Hv.
  destruct (host_offset (z mod usableCount p) v Hv) as (o & Ho & ->). by apply Hall.
Qed.

Lemma Usable_put_be p base ones v :
  pool_wf p base ones → v ∈ hosts p → Usable p (put_be 4 v) = true.
Proof.
  intros Hp Hv. rewrite (Usable_hosts Hp).
  - by rewrite (put_be_host Hp), bool_decide_eq_true_2.
  - rewrite To4_4 by apply put_be_length. apply is_nil_4, put_be_length.
Qed.

Lemma Usable_host p base ones ip :
  pool_wf p base ones → Usable p ip = true → be_value (To4 ip) ∈ hosts p.
Proof.
  intros Hp Hip. assert (is_nil (To4 ip) = false) as Hnil.
  { unfold Usable in Hip. by destruct (is_nil (To4 ip)); rewrite ?orb_true_r in Hip. }
  rewrite (Usable_hosts Hp) in Hip by done. by apply bool_decide_eq_true in Hip.
Qed.

(** The set [used] after [addOccupied] of a slice of addresses. *)
Lemma used_of_ips ips v :
  v ∈ used_of [OccIPs ips] ↔ ∃ ip, ip ∈ ips ∧ is_nil (To4 ip) = false ∧ be_value (To4 ip) = v.
Proof.
  unfold used_of. simpl. assert (∀ u, v ∈ fold_left add_ip ips u ↔
    v ∈ u ∨ ∃ ip, ip ∈ ips ∧ is_nil (To4 ip) = false ∧ be_value (To4 ip) = v) as ->.
  2:{ rewrite elem_of_empty. naive_solver. }
  induction ips as [|ip ips IH]; intros u; simpl.
  { split; [auto|]. intros [|(? & []%elem_of_nil & _)]; done. }
  rewrite IH. unfold add_ip. split.
  - intros [Hu|(x & Hx & Hn & Hv)]; [|right; exists x; by rewrite elem_of_cons; auto].
    destruct (is_nil (To4 ip)) eqn:E; [by left|].
    apply elem_of_union in Hu as [->%elem_of_singleton|]; [right; exists ip|by left].
    rewrite elem_of_cons; auto.
  - intros [Hu|(x & [->|Hx]%elem_of_cons & Hn & Hv)].
    + left. destruct (is_nil (To4 ip)); [done|]. apply elem_of_union; by right.
    + left. rewrite Hn. apply elem_of_union. left. by apply elem_of_singleton.
    + right; eauto.
Qed.

(** The accumulated state of a traversal that collects addresses. *)
Lemma visit_all_collect vs acc :
  visit_all (λ ip acc, (None, acc ++ [ip])) vs acc = (None, acc ++ (put_be 4 <$> vs)).
Proof.
  revert acc. induction vs as [|v vs IH]; intros acc; simpl; [by rewrite app_nil_r|].
  by rewrite IH, <- app_assoc.
Qed.

(** The first host that is not in use, and the search for it. *)
Lemma visit_all_first (used : gset Z) vs :
  (∀ v, v ∈ vs → be_value (To4 (put_be 4 v)) = v) →
  visit_all (λ ip (r : option IP),
    if bool_decide (be_value (To4 ip) ∈ used) then (None, r) else (Some errStop, Some ip)) vs None
  = match filter (λ v, v ∉ used) vs with
    | [] => (None, None)
    | v :: _ => (Some errStop, Some (put_be 4 v))
    end.
Proof.
  induction vs as [|v vs IH]; intros Hv; [done|].
  cbn [visit_all]. rewrite Hv by (by left). rewrite filter_cons.
  case_bool_decide; case_decide; try done. apply IH. intros ??. apply Hv. by right.
Qed.

(** ** Claims *)

(** The random allocator. Whatever is drawn, if some usable host is not
    occupied the result is a usable host that is not occupied, and if every
    usable host is occupied it is [PoolExhausted] for this pool. *)
Theorem RandomNext_correct s p z occ :
  NewPool s = Ok p →
  (∃ ip, RandomNext (Ok z) p occ = Ok ip ∧ Usable p ip = true ∧ be_value ip ∉ used_of occ) ∨
  (RandomNext (Ok z) p occ = Err (EPoolExhausted (cidr p)) ∧
   ∀ ip, Usable p ip = true → be_value (To4 ip) ∈ used_of occ).
Proof.
  intros (base & ones & Hp & _)%NewPool_wf.
  pose proof (RandomNext_search p base ones z occ Hp) as H.
  destruct (RandomNext _ _ _) as [ip|e].
  - destruct H as (v & -> & Hv & Hu). left. exists (put_be 4 v). split; [done|].
    split; [by eapply Usable_put_be|]. rewrite <- (To4_4 (put_be 4 v)) by apply put_be_length.
    by rewrite (put_be_host Hp).
  - destruct H as [-> H]. right. split; [done|]. intros ip Hip. eapply H, Usable_host; eauto.
Qed.

(** The pool of [10.42.0.0/30], with the hosts [10.42.0.1] and [10.42.0.2]. *)
Definition pool30 : Pool :=
  {| cidr := "10.42.0.0/30"; network := 170524672; prefix := 30; first := 170524673;
     last := 170524674; usableCount := 2; valid := true |}.

Lemma RandomNext_correct_witness :
  NewPool "10.42.0.0/30" = Ok pool30 ∧
  RandomNext (Ok 7) pool30 [OccIPs [[10; 42; 0; 2]]] = Ok [10; 42; 0; 1] ∧
  ((∃ ip, RandomNext (Ok 7) pool30 [OccIPs [[10; 42; 0; 2]]] = Ok ip ∧
      Usable pool30 ip = true ∧ be_value ip ∉ used_of [OccIPs [[10; 42; 0; 2]]]) ∨
   (RandomNext (Ok 7) pool30 [OccIPs [[10; 42; 0; 2]]] = Err (EPoolExhausted (cidr pool30)) ∧
    ∀ ip, Usable pool30 ip = true → be_value (To4 ip) ∈ used_of [OccIPs [[10; 42; 0; 2]]])).
Proof.
  split; [vm_compute; reflexivity|]. split; [vm_compute; reflexivity|].
  apply (RandomNext_correct "10.42.0.0/30"). vm_compute. reflexivity.
Defined.

(** The sequential allocator returns the free usable host with the least
    address, and [PoolExhausted] when every usable host is occupied. *)
Theorem Next_least s p occ :
  NewPool s = Ok p →
  (∃ ip, Next p occ = Some (Ok ip) ∧ Usable p ip = true ∧ be_value ip ∉ used_of occ ∧
     ∀ other, Usable p other = true → be_value (To4 other) < be_value ip →
              be_value (To4 other) ∈ used_of occ) ∨
  (Next p occ = Some (Err (EPoolExhausted (cidr p))) ∧
   ∀ ip, Usable p ip = true → be_value (To4 ip) ∈ used_of occ).
Proof.
  intros (base & ones & Hp & _)%NewPool_wf.
  pose proof (λ ip, Usable_host p base ones ip Hp) as HU.
  unfold Next. rewrite (pw_valid _ _ _ Hp). simpl.
  rewrite (ForEachCandidate_hosts Hp), visit_all_first by (intros; by eapply put_be_host).
  destruct (filter (λ v, v ∉ used_of occ) (hosts p)) as [|v vs] eqn:Ef.
  - right. split; [done|]. intros ip Hip%HU.
    destruct (decide (be_value (To4 ip) ∈ used_of occ)) as [|Hn]; [done|].
    exfalso. eapply (filter_nil_not_elem_of (λ v, v ∉ used_of occ)); eauto.
  - left. exists (put_be 4 v).
    assert (v ∈ hosts p ∧ v ∉ used_of occ) as [Hv Hu].
    { assert (v ∈ filter (λ v, v ∉ used_of occ) (hosts p)) as H by (rewrite Ef; by left).
      apply list_elem_of_filter in H. tauto. }
    assert (be_value (put_be 4 v) = v) as Hval.
    { rewrite <- (To4_4 (put_be 4 v)) by apply put_be_length. by rewrite (put_be_host Hp). }
    split; [done|]. split; [by eapply Usable_put_be|]. rewrite Hval. split; [done|].
    intros ip Hip%HU Hlt. destruct (decide (be_value (To4 ip) ∈ used_of occ)) as [|Hn]; [done|].
    exfalso. assert (be_value (To4 ip) ∈ v :: vs) as Hin.
    { rewrite <- Ef. by apply list_elem_of_filter. }
    assert (StronglySorted Z.lt (v :: vs)) as Hs.
    { rewrite <- Ef. apply StronglySorted_filter, StronglySorted_seqZ. }
    apply StronglySorted_inv in Hs as [_ Hs]. rewrite Forall_forall in Hs.
    apply elem_of_cons in Hin as [Heq|Hin]; [lia|]. specialize (Hs _ Hin). lia.
Qed.

Lemma Next_least_witness :
  NewPool "10.42.0.0/30" = Ok pool30 ∧ Next pool30 [OccString "10.42.0.1"] = Some (Ok [10; 42; 0; 2]) ∧
  ((∃ ip, Next pool30 [] = Some (Ok ip) ∧ Usable pool30 ip = true ∧ be_value ip ∉ used_of [] ∧
     ∀ other, Usable pool30 other = true → be_value (To4 other) < be_value ip →
              be_value (To4 other) ∈ used_of []) ∨
   (Next pool30 [] = Some (Err (EPoolExhausted (cidr pool30))) ∧
    ∀ ip, Usable pool30 ip = true → be_value (To4 ip) ∈ used_of [])).
Proof.
  split; [vm_compute; reflexivity|]. split; [vm_compute; reflexivity|].
  apply (Next_least "10.42.0.0/30"). vm_compute. reflexivity.
Defined.

(** The pool and the validator of memberships agree on which addresses
    belong to a network. *)
Theorem Contains_agrees s p ip :
  NewPool s = Ok p → Forall is_byte ip →
  Contains p ip = true ↔ ValidateIPv4InPool ip s = None.
Proof.
  intros (base & ones & Hp & Hc)%NewPool_wf Hb.
  destruct (is_nil (To4 ip)) eqn:Hnil.
  { unfold Contains, ValidateIPv4InPool. by rewrite Hnil, !orb_true_r. }
  rewrite (ValidateIPv4InPool_range _ _ _ _ Hc) by (try apply To4_byte; done).
  rewrite <- (Contains_range Hp) by (try apply To4_byte; done). done.
Qed.

Lemma Contains_agrees_witness :
  NewPool "10.42.0.0/30" = Ok pool30 ∧ Forall is_byte [10; 42; 0; 3] ∧
  (Contains pool30 [10; 42; 0; 3] = true ↔ ValidateIPv4InPool [10; 42; 0; 3] "10.42.0.0/30" = None).
Proof.
  assert (NewPool "10.42.0.0/30" = Ok pool30) as Hn by (vm_compute; reflexivity).
  assert (Forall is_byte [10; 42; 0; 3]) as Hb by (repeat constructor; unfold is_byte; lia).
  split; [exact Hn|]. split; [exact Hb|]. exact (Contains_agrees _ _ _ Hn Hb).
Defined.

(** Iterating over a pool ends, and visits the usable hosts, each once, in
    ascending order: those strictly between the network and the broadcast
    address, none for prefixes longer than 30, also when the pool ends at the
    last address of all. *)
Theorem ForEachCandidate_terminates {S} s p (visit : IP → S → option error * S) st :
  NewPool s = Ok p →
  ForEachCandidate visit p st
  = Some (visit_all visit (seqZ (network p + 1) (Z.max 0 (2^(32 - prefix p) - 2))) st).
Proof.
  intros (base & ones & Hp & _)%NewPool_wf. rewrite (ForEachCandidate_hosts Hp).
  unfold hosts. do 2 f_equal. rewrite (pw_network _ _ _ Hp), (pw_prefix _ _ _ Hp), <- (pw_count _ _ _ Hp).
  destruct (decide (0 < usableCount p)) as [Hpos|Hz].
  - by destruct (pw_range _ _ _ Hp Hpos) as [-> _].
  - by rewrite !seqZ_nil by lia.
Qed.

Lemma ForEachCandidate_terminates_witness :
  NewPool "10.42.0.0/30" = Ok pool30 ∧
  ForEachCandidate (λ ip n, (None, (n + 1)%nat)) pool30 0%nat
  = Some (visit_all (λ ip n, (None, (n + 1)%nat))
      (seqZ (network pool30 + 1) (Z.max 0 (2^(32 - prefix pool30) - 2))) 0%nat).
Proof.
  assert (NewPool "10.42.0.0/30" = Ok pool30) as Hn by (vm_compute; reflexivity).
  split; [exact Hn|]. exact (ForEachCandidate_terminates _ _ _ _ Hn).
Defined.
