(* ===== verification/Repository.v ===== *)
(** * The in-memory repository

    [internal/db/repository.go]: [MemoryRepository], its operations and its
    transactions.  A Go map is a [gmap], a map of maps a [gmap] of [gmap]s; the
    inner maps are only reached through the outer one and under the lock, so
    value semantics is exact.  Each operation is a method in the state monad,
    with the guards in the order of the code; the state left by an error path
    is the one the code leaves.  Loops over a Go map are folds over the map,
    whose result does not depend on the order (each iteration writes a key of
    its own). *)

From S2P Require Import Prelude GoStd Model.
From Stdlib Require Import Ascii.

Open Scope Z_scope.

(** ** State *)
Record MemoryRepository := {
  networks : gmap string Network;
  nodes : gmap string Node;
  publicKeys : gmap string string;
  memberships : gmap string (gmap string Membership);
  invites : gmap string Invite;
  inviteByToken : gmap string string;
  endpoints : gmap string (list EndpointCandidate);
  relayAssignments : gmap string (gmap string RelayAssignment);
  relayAssignmentOwners : gmap string string;
  endpointMaxAge : Duration
}.

Definition DefaultEndpointMaxAge : Duration := 10 * Minute.

Definition NewMemoryRepositoryWithEndpointMaxAge (maxAge : Duration) : MemoryRepository :=
  {| networks := ∅; nodes := ∅; publicKeys := ∅; memberships := ∅; invites := ∅;
     inviteByToken := ∅; endpoints := ∅; relayAssignments := ∅; relayAssignmentOwners := ∅;
     endpointMaxAge := maxAge |}.

Definition NewMemoryRepository : MemoryRepository :=
  NewMemoryRepositoryWithEndpointMaxAge DefaultEndpointMaxAge.

(** Assignments to one field of the repository. *)
Section Setters.
Variable r : MemoryRepository.

Definition set_networks (x : gmap string Network) : MemoryRepository :=
  {| networks := x; nodes := nodes r; publicKeys := publicKeys r; memberships := memberships r;
     invites := invites r; inviteByToken := inviteByToken r; endpoints := endpoints r;
     relayAssignments := relayAssignments r; relayAssignmentOwners := relayAssignmentOwners r;
     endpointMaxAge := endpointMaxAge r |}.
Definition set_nodes (x : gmap string Node) (k : gmap string string) : MemoryRepository :=
  {| networks := networks r; nodes := x; publicKeys := k; memberships := memberships r;
     invites := invites r; inviteByToken := inviteByToken r; endpoints := endpoints r;
     relayAssignments := relayAssignments r; relayAssignmentOwners := relayAssignmentOwners r;
     endpointMaxAge := endpointMaxAge r |}.
Definition set_memberships (x : gmap string (gmap string Membership)) : MemoryRepository :=
  {| networks := networks r; nodes := nodes r; publicKeys := publicKeys r; memberships := x;
     invites := invites r; inviteByToken := inviteByToken r; endpoints := endpoints r;
     relayAssignments := relayAssignments r; relayAssignmentOwners := relayAssignmentOwners r;
     endpointMaxAge := endpointMaxAge r |}.
Definition set_invites (x : gmap string Invite) (t : gmap string string) : MemoryRepository :=
  {| networks := networks r; nodes := nodes r; publicKeys := publicKeys r; memberships := memberships r;
     invites := x; inviteByToken := t; endpoints := endpoints r;
     relayAssignments := relayAssignments r; relayAssignmentOwners := relayAssignmentOwners r;
     endpointMaxAge := endpointMaxAge r |}.
Definition set_endpoints (x : gmap string (list EndpointCandidate)) : MemoryRepository :=
  {| networks := networks r; nodes := nodes r; publicKeys := publicKeys r; memberships := memberships r;
     invites := invites r; inviteByToken := inviteByToken r; endpoints := x;
     relayAssignments := relayAssignments r; relayAssignmentOwners := relayAssignmentOwners r;
     endpointMaxAge := endpointMaxAge r |}.
Definition set_relays (x : gmap string (gmap string RelayAssignment)) (o : gmap string string) : MemoryRepository :=
  {| networks := networks r; nodes := nodes r; publicKeys := publicKeys r; memberships := memberships r;
     invites := invites r; inviteByToken := inviteByToken r; endpoints := endpoints r;
     relayAssignments := x; relayAssignmentOwners := o;
     endpointMaxAge := endpointMaxAge r |}.
End Setters.

(** [m[i][j]] on a map of maps: a nil inner map reads as empty. *)
Definition lookup2 {A} (m : gmap string (gmap string A)) (i j : string) : option A :=
  m !! i ≫= λ inner, inner !! j.

Definition contextError (ctx : Context) : option error :=
  match ctx with
  | nilContext => Some (ESentinel ErrInvalidContext)
  | doneContext err => Some (ESentinel err)
  | liveContext => None
  end.

(** ** Defensive copies *)
Definition cloneIP (ip : IP) : IP := if is_nil ip then [] else [] ++ ip.
Definition cloneNetwork (n : Network) : Network := n.
Definition cloneNode (n : Node) : Node := n.
Definition cloneMembership (m : Membership) : Membership := mb_with_IP m (cloneIP (mb_VirtualIPv4 m)).
Definition cloneEndpoint (e : EndpointCandidate) : EndpointCandidate :=
  ep_with_Address e (cloneIP (ep_Address e)).
Definition cloneEndpoints (l : list EndpointCandidate) : list EndpointCandidate := cloneEndpoint <$> l.
Definition cloneTime (t : option Time) : option Time :=
  match t with None => None | Some v => Some v end.
Definition cloneInvite (i : Invite) : Invite :=
  {| iv_ID := iv_ID i; iv_NetworkID := iv_NetworkID i; iv_TokenHash := iv_TokenHash i;
     iv_ExpiresAt := iv_ExpiresAt i; iv_ConsumedAt := cloneTime (iv_ConsumedAt i);
     iv_RevokedAt := cloneTime (iv_RevokedAt i);
     iv_ConsumedByNodeID := iv_ConsumedByNodeID i; iv_CreatedAt := iv_CreatedAt i |}.
Definition cloneRelayAssignment (a : RelayAssignment) : RelayAssignment :=
  {| ra_ID := ra_ID a; ra_NetworkID := ra_NetworkID a; ra_NodeID := ra_NodeID a;
     ra_RelayNodeID := ra_RelayNodeID a; ra_Address := cloneIP (ra_Address a); ra_Port := ra_Port a;
     ra_Family := ra_Family a; ra_Status := ra_Status a; ra_AssignedAt := ra_AssignedAt a;
     ra_ExpiresAt := cloneTime (ra_ExpiresAt a) |}.

Definition cloneMemoryRepositoryLocked (s : MemoryRepository) : MemoryRepository :=
  {| networks := cloneNetwork <$> networks s;
     nodes := cloneNode <$> nodes s;
     publicKeys := publicKeys s;
     memberships := (λ members : gmap string Membership, cloneMembership <$> members) <$> memberships s;
     invites := cloneInvite <$> invites s;
     inviteByToken := inviteByToken s;
     endpoints := cloneEndpoints <$> endpoints s;
     relayAssignments := (λ assignments : gmap string RelayAssignment, cloneRelayAssignment <$> assignments) <$> relayAssignments s;
     relayAssignmentOwners := relayAssignmentOwners s;
     endpointMaxAge := endpointMaxAge s |}.

(** ** Transactions

    The operation runs on the copy; the fields of the copy are published only
    when it returns nil.  [None] is the nil function. *)
Definition WithTransaction {A} (ctx : Context) (operation : option (Context → M MemoryRepository A))
    : M MemoryRepository A :=
  check (contextError ctx) ;;
  match operation with
  | None => throw ErrValidation
  | Some operation =>
    λ r, match operation ctx (cloneMemoryRepositoryLocked r) with
         | (Err e, _) => (Err e, r)
         | (Ok a, working) =>
           (Ok a, {| networks := networks working; nodes := nodes working;
                     publicKeys := publicKeys working; memberships := memberships working;
                     invites := invites working; inviteByToken := inviteByToken working;
                     endpoints := endpoints working; relayAssignments := relayAssignments working;
                     relayAssignmentOwners := relayAssignmentOwners working;
                     endpointMaxAge := endpointMaxAge r |})
         end
  end.

(** ** Helpers of the operations *)
Definition zeroNetwork : Network :=
  {| nw_ID := ""; nw_Name := ""; nw_IPv4Pool := ""; nw_OwnerID := ""; nw_ConfigVersion := 0;
     nw_CreatedAt := 0 |}.

(** The version that follows [v]; [int64] addition wraps. *)
Definition next_version (v : Z) : Z := if v <=? 0 then 1 else wrap64 (v + 1).

Definition incrementNetworkVersionLocked (networkID : string) (r : MemoryRepository) : MemoryRepository :=
  let network := default zeroNetwork (networks r !! networkID) in
  set_networks r (<[networkID := nw_with_version network (next_version (nw_ConfigVersion network))]> (networks r)).

Definition incrementAll (networkIDs : list string) (r : MemoryRepository) : MemoryRepository :=
  foldr incrementNetworkVersionLocked r networkIDs.

Definition relayAssignmentOwnerKey (networkID nodeID : string) : string :=
  (networkID +:+ String Ascii.zero nodeID)%string.

Definition deleteRelayAssignmentLocked (networkID nodeID : string) (r : MemoryRepository) : MemoryRepository :=
  match lookup2 (relayAssignments r) networkID nodeID with
  | None => r
  | Some assignment =>
    let assignments := delete nodeID (default ∅ (relayAssignments r !! networkID)) in
    set_relays r
      (if bool_decide (assignments = ∅) then delete networkID (relayAssignments r)
       else <[networkID := assignments]> (relayAssignments r))
      (delete (ra_ID assignment) (relayAssignmentOwners r))
  end.

Definition endpointIdentityFor (e : EndpointCandidate) : string * Z * string :=
  (IP_String (ep_Address e), ep_Port e, ep_Interface e).

Definition endpoint_less : EndpointCandidate → EndpointCandidate → bool :=
  lex_less ep_Priority Z.ltb
    (lex_less (λ e, IP_String (ep_Address e)) sltb
      (lex_less ep_Port Z.ltb (λ x y, sltb (ep_Interface x) (ep_Interface y)))).
Definition sortEndpointCandidates : list EndpointCandidate → list EndpointCandidate :=
  SliceStable endpoint_less.

(** ** Networks and nodes *)
Definition CreateNetwork (ctx : Context) (network : Network) : M MemoryRepository unit :=
  check (contextError ctx) ;;
  check (ValidateNetwork network) ;;
  let! r := get in
  match networks r !! nw_ID network with
  | Some _ => throw ErrConflict
  | None =>
    let network := if nw_ConfigVersion network <=? 0 then nw_with_version network 1 else network in
    put (set_networks r (<[nw_ID network := cloneNetwork network]> (networks r)))
  end.

Definition GetNetwork (ctx : Context) (networkID : string) : M MemoryRepository Network :=
  check (contextError ctx) ;;
  let! r := get in
  match networks r !! networkID with
  | None => throw ErrNotFound
  | Some network => ret (cloneNetwork network)
  end.

Definition AddNode (ctx : Context) (node : Node) : M MemoryRepository unit :=
  check (contextError ctx) ;;
  check (ValidateNode node) ;;
  let! r := get in
  match nodes r !! nd_ID node, publicKeys r !! nd_PublicKey node with
  | Some _, _ => throw ErrConflict
  | None, Some _ => throw ErrConflict
  | None, None =>
    put (set_nodes r (<[nd_ID node := cloneNode node]> (nodes r))
                     (<[nd_PublicKey node := nd_ID node]> (publicKeys r)))
  end.

Definition GetNode (ctx : Context) (nodeID : string) : M MemoryRepository Node :=
  check (contextError ctx) ;;
  let! r := get in
  match nodes r !! nodeID with
  | None => throw ErrNotFound
  | Some node => ret (cloneNode node)
  end.

(** The networks in which [nodeID] has a membership. *)
Definition networks_of (r : MemoryRepository) (nodeID : string) : list string :=
  (filter (λ kv, is_Some (kv.2 !! nodeID)) (map_to_list (memberships r))).*1.

Definition GetNodeNetworkIDs (ctx : Context) (nodeID : string) : M MemoryRepository (list string) :=
  check (contextError ctx) ;;
  let! r := get in
  match nodes r !! nodeID with
  | None => throw ErrNotFound
  | Some _ => ret (SliceStable sltb (networks_of r nodeID))
  end.

Definition TouchNode (ctx : Context) (nodeID : string) (lastSeen : Time) : M MemoryRepository unit :=
  check (contextError ctx) ;;
  if IsZero lastSeen then throw ErrValidation else
  let! r := get in
  match nodes r !! nodeID with
  | None => throw ErrNotFound
  | Some node =>
    put (set_nodes r (<[nodeID := cloneNode (nd_with_LastSeen node lastSeen)]> (nodes r)) (publicKeys r))
  end.

Definition UpdateNodeClientVersion (ctx : Context) (nodeID clientVersion : string) : M MemoryRepository unit :=
  check (contextError ctx) ;;
  if blank clientVersion then throw ErrValidation else
  let! r := get in
  match nodes r !! nodeID with
  | None => throw ErrNotFound
  | Some node =>
    put (set_nodes r (<[nodeID := cloneNode (nd_with_ClientVersion node clientVersion)]> (nodes r))
           (publicKeys r))
  end.

(** [RemoveNode] deletes the node, its key, endpoints, memberships and every
    relay assignment that names it, forgets it in consumed invites, and
    advances each affected network once. *)
Definition concerns (nodeID : string) (a : RelayAssignment) : bool :=
  bool_decide (ra_NodeID a = nodeID) || bool_decide (ra_RelayNodeID a = nodeID).

Definition concerned (nodeID : string) (assignments : gmap string RelayAssignment) : gmap string RelayAssignment :=
  filter (λ kv, concerns nodeID kv.2 = true) assignments.

(** What is left of the assignments of a network; an empty map is removed. *)
Definition unconcerned (nodeID : string) (assignments : gmap string RelayAssignment)
    : option (gmap string RelayAssignment) :=
  let assignments := filter (λ kv, concerns nodeID kv.2 = false) assignments in
  if bool_decide (assignments = ∅) then None else Some assignments.

Definition delete_owners (l : list RelayAssignment) (owners : gmap string string) : gmap string string :=
  foldr (λ a owners, delete (ra_ID a) owners) owners l.

Definition RemoveNode (ctx : Context) (nodeID : string) : M MemoryRepository unit :=
  check (contextError ctx) ;;
  let! r := get in
  match nodes r !! nodeID with
  | None => throw ErrNotFound
  | Some node =>
    let r1 := set_nodes r (delete nodeID (nodes r)) (delete (nd_PublicKey node) (publicKeys r)) in
    let r2 := set_endpoints r1 (delete nodeID (endpoints r1)) in
    let r3 := set_invites r2
      ((λ i, if bool_decide (iv_ConsumedByNodeID i = nodeID) then cloneInvite (iv_without_node i) else i)
        <$> invites r2) (inviteByToken r2) in
    let affected := networks_of r3 nodeID in
    let r4 := set_memberships r3 (delete nodeID <$> memberships r3) in
    let relayAffected := (filter (λ kv, concerned nodeID kv.2 ≠ ∅) (map_to_list (relayAssignments r4))).*1 in
    let r5 := set_relays r4 (omap (unconcerned nodeID) (relayAssignments r4))
      (delete_owners (map_to_list (relayAssignments r4) ≫= λ kv, (map_to_list (concerned nodeID kv.2)).*2)
         (relayAssignmentOwners r4)) in
    put (incrementAll (remove_dups (affected ++ relayAffected)) r5)
  end.

(** ** Memberships *)
Definition AddMembership (ctx : Context) (membership : Membership) : M MemoryRepository unit :=
  check (contextError ctx) ;;
  check (ValidateMembership membership) ;;
  let! r := get in
  match networks r !! mb_NetworkID membership, nodes r !! mb_NodeID membership with
  | None, _ => throw ErrNotFound
  | Some _, None => throw ErrNotFound
  | Some network, Some _ =>
    check (ValidateIPv4InPool (mb_VirtualIPv4 membership) (nw_IPv4Pool network)) ;;
    let networkMemberships := default ∅ (memberships r !! mb_NetworkID membership) in
    let r := match memberships r !! mb_NetworkID membership with
             | None => set_memberships r (<[mb_NetworkID membership := ∅]> (memberships r))
             | Some _ => r
             end in
    put r ;;
    match networkMemberships !! mb_NodeID membership with
    | Some _ => throw ErrConflict
    | None =>
      if existsb (λ kv, IP_Equal (mb_VirtualIPv4 kv.2) (mb_VirtualIPv4 membership))
           (map_to_list networkMemberships)
      then throw ErrConflict
      else
        let membership := mb_with_IP membership (cloneIP (To4 (mb_VirtualIPv4 membership))) in
        put (incrementNetworkVersionLocked (mb_NetworkID membership)
          (set_memberships r
            (<[mb_NetworkID membership := <[mb_NodeID membership := cloneMembership membership]> networkMemberships]>
              (memberships r))))
    end
  end.

Definition RemoveMembership (ctx : Context) (networkID nodeID : string) : M MemoryRepository unit :=
  check (contextError ctx) ;;
  let! r := get in
  match memberships r !! networkID with
  | None => throw ErrNotFound
  | Some networkMemberships =>
    match networkMemberships !! nodeID with
    | None => throw ErrNotFound
    | Some _ =>
      let r1 := set_memberships r (<[networkID := delete nodeID networkMemberships]> (memberships r)) in
      let r2 := deleteRelayAssignmentLocked networkID nodeID r1 in
      let assignments := default ∅ (relayAssignments r2 !! networkID) in
      let r3 := foldr (deleteRelayAssignmentLocked networkID) r2
                  (map_to_list (concerned nodeID assignments)).*1 in
      put (incrementNetworkVersionLocked networkID r3)
    end
  end.

(** ** Invitations *)
Definition CreateInvite (ctx : Context) (invite : Invite) : M MemoryRepository unit :=
  check (contextError ctx) ;;
  check (ValidateInvite invite) ;;
  let! r := get in
  match networks r !! iv_NetworkID invite with
  | None => throw ErrNotFound
  | Some _ =>
    if negb (bool_decide (iv_ConsumedByNodeID invite = "")) &&
       negb (bool_decide (is_Some (nodes r !! iv_ConsumedByNodeID invite)))
    then throw ErrNotFound
    else match invites r !! iv_ID invite, inviteByToken r !! iv_TokenHash invite with
    | Some _, _ => throw ErrConflict
    | None, Some _ => throw ErrConflict
    | None, None =>
      put (set_invites r (<[iv_ID invite := cloneInvite invite]> (invites r))
                         (<[iv_TokenHash invite := iv_ID invite]> (inviteByToken r)))
    end
  end.

Definition RevokeInvite (ctx : Context) (inviteID : string) (revokedAt : Time) : M MemoryRepository unit :=
  check (contextError ctx) ;;
  if bool_decide (inviteID = "") || IsZero revokedAt then throw ErrValidation else
  let! r := get in
  match invites r !! inviteID with
  | None => throw ErrNotFound
  | Some invite =>
    match iv_ConsumedAt invite, iv_RevokedAt invite with
    | Some _, _ => throw ErrInviteConsumed
    | None, Some _ => ret tt
    | None, None =>
      put (set_invites r (<[inviteID := cloneInvite (iv_revoked invite revokedAt)]> (invites r))
             (inviteByToken r))
    end
  end.

(** [invites[id]] of an absent key is the zero [Invite]. *)
Definition zeroInvite : Invite :=
  {| iv_ID := ""; iv_NetworkID := ""; iv_TokenHash := ""; iv_ExpiresAt := 0; iv_ConsumedAt := None;
     iv_RevokedAt := None; iv_ConsumedByNodeID := ""; iv_CreatedAt := 0 |}.

Definition inviteByLookupLocked (r : MemoryRepository) (value tokenHash : string) : option string :=
  match invites r !! value with
  | Some invite => if bool_decide (iv_TokenHash invite = tokenHash) then Some value else None
  | None =>
    match inviteByToken r !! tokenHash with
    | Some inviteID =>
      let invite := default zeroInvite (invites r !! inviteID) in
      if bool_decide (iv_NetworkID invite = value) then Some inviteID else None
    | None => None
    end
  end.

(** [now] is the wall clock, read when the caller gives the zero time. *)
Definition ConsumeInviteForNode (now : Time) (ctx : Context) (inviteOrNetworkID tokenHash : string)
    (consumedAt : Time) (consumedByNodeID : string) : M MemoryRepository Invite :=
  check (contextError ctx) ;;
  let! r := get in
  match inviteByLookupLocked r inviteOrNetworkID tokenHash with
  | None => throw ErrNotFound
  | Some inviteID =>
    if negb (bool_decide (consumedByNodeID = "")) &&
       negb (bool_decide (is_Some (nodes r !! consumedByNodeID)))
    then throw ErrNotFound
    else
      let consumedAt := if IsZero consumedAt then now else consumedAt in
      let invite := default zeroInvite (invites r !! inviteID) in
      if bool_decide (is_Some (iv_ConsumedAt invite)) then throw ErrInviteConsumed
      else if bool_decide (is_Some (iv_RevokedAt invite)) then throw ErrInviteRevoked
      else if IsExpired invite consumedAt then throw ErrInviteExpired
      else if Before consumedAt (iv_CreatedAt invite) then throw ErrValidation
      else
        let invite := iv_consumed invite consumedAt consumedByNodeID in
        put (set_invites r (<[inviteID := cloneInvite invite]> (invites r)) (inviteByToken r)) ;;
        ret (cloneInvite invite)
  end.

Definition ConsumeInvite (now : Time) (ctx : Context) (inviteOrNetworkID tokenHash : string)
    (consumedAt : Time) : M MemoryRepository Invite :=
  ConsumeInviteForNode now ctx inviteOrNetworkID tokenHash consumedAt "".

(** ** Endpoints *)
Definition store_form (e : EndpointCandidate) : EndpointCandidate :=
  let e := cloneEndpoint e in
  if bool_decide (ep_Family e = FamilyIPv4) then ep_with_Address e (cloneIP (To4 (ep_Address e))) else e.

(** The validation loop of [ReplaceEndpoints]: [seen] are the identities of the
    endpoints before the current one. *)
Fixpoint validate_endpoints (nodeID : string) (seen : list (string * Z * string))
    (l : list EndpointCandidate) : result (list EndpointCandidate) :=
  match l with
  | [] => Ok []
  | e :: l =>
    if negb (bool_decide (ep_NodeID e = nodeID)) then Err ErrValidation
    else match ValidateEndpointCandidate e with
    | Some err => Err err
    | None =>
      let v := store_form e in
      if bool_decide (endpointIdentityFor v ∈ seen) then Err ErrConflict
      else match validate_endpoints nodeID (endpointIdentityFor v :: seen) l with
      | Ok vs => Ok (v :: vs)
      | Err err => Err err
      end
    end
  end.

Definition ReplaceEndpoints (ctx : Context) (nodeID : string) (eps : list EndpointCandidate)
    : M MemoryRepository unit :=
  check (contextError ctx) ;;
  let! r := get in
  match nodes r !! nodeID with
  | None => throw ErrNotFound
  | Some _ =>
    let! validated := lift (validate_endpoints nodeID [] eps) in
    put (incrementAll (networks_of r nodeID)
      (set_endpoints r (<[nodeID := sortEndpointCandidates validated]> (endpoints r))))
  end.

(** ** Relay assignments *)
Definition SetRelayAssignment (ctx : Context) (a : RelayAssignment) : M MemoryRepository unit :=
  check (contextError ctx) ;;
  check (ValidateRelayAssignment a) ;;
  let! r := get in
  match networks r !! ra_NetworkID a, nodes r !! ra_NodeID a, nodes r !! ra_RelayNodeID a with
  | None, _, _ => throw ErrNotFound
  | Some _, None, _ => throw ErrNotFound
  | Some _, Some _, None => throw ErrNotFound
  | Some _, Some _, Some _ =>
    match memberships r !! ra_NetworkID a with
    | None => throw ErrNotFound
    | Some networkMemberships =>
      match networkMemberships !! ra_NodeID a with
      | None => throw ErrNotFound
      | Some target =>
        if negb (bool_decide (mb_Status target = MembershipActive)) then throw ErrValidation else
        match networkMemberships !! ra_RelayNodeID a with
        | None => throw ErrNotFound
        | Some relay =>
          if negb (bool_decide (mb_Status relay = MembershipActive)) then throw ErrValidation else
          let assignments := default ∅ (relayAssignments r !! ra_NetworkID a) in
          let r := match relayAssignments r !! ra_NetworkID a with
                   | None => set_relays r (<[ra_NetworkID a := ∅]> (relayAssignments r)) (relayAssignmentOwners r)
                   | Some _ => r
                   end in
          put r ;;
          let ownerKey := relayAssignmentOwnerKey (ra_NetworkID a) (ra_NodeID a) in
          if match relayAssignmentOwners r !! ra_ID a with
             | Some existingOwner => negb (bool_decide (existingOwner = ownerKey))
             | None => false
             end
          then throw ErrConflict
          else
            let owners := match assignments !! ra_NodeID a with
                          | Some existing =>
                            if bool_decide (ra_ID existing = ra_ID a) then relayAssignmentOwners r
                            else delete (ra_ID existing) (relayAssignmentOwners r)
                          | None => relayAssignmentOwners r
                          end in
            put (incrementNetworkVersionLocked (ra_NetworkID a)
              (set_relays r
                (<[ra_NetworkID a := <[ra_NodeID a := cloneRelayAssignment a]> assignments]> (relayAssignments r))
                (<[ra_ID a := ownerKey]> owners)))
        end
      end
    end
  end.

Definition RemoveRelayAssignment (ctx : Context) (networkID : string) : M MemoryRepository unit :=
  check (contextError ctx) ;;
  let! r := get in
  match relayAssignments r !! networkID with
  | None => throw ErrNotFound
  | Some assignments =>
    if bool_decide (assignments = ∅) then throw ErrNotFound else
    put (incrementNetworkVersionLocked networkID
      (set_relays r (delete networkID (relayAssignments r))
        (delete_owners (map_to_list assignments).*2 (relayAssignmentOwners r))))
  end.
