(* ===== verification/RepositoryInv.v ===== *)
(** * The repository invariant

    What the maps of [MemoryRepository] promise to each other: the two indexes
    are exact inverses, every reference is to an object that exists, addresses
    are unique in a network and inside its pool, stored endpoint lists are
    sorted and duplicate free.  The invariant is stated per group of maps and
    every operation is shown to keep it; [reachable_wf] is the result for
    arbitrary sequences of operations and transactions. *)

From S2P Require Import Prelude GoStd Model Repository.
From Stdlib Require Import Ascii.

Open Scope Z_scope.

(** ** The invariant *)

Definition nul_free (s : string) : Prop := Ascii.zero ∉ bytes s.

Definition networks_wf (nets : gmap string Network) : Prop :=
  ∀ id n, nets !! id = Some n →
    nw_ID n = id ∧ blank id = false ∧ int64 (nw_ConfigVersion n) ∧ nw_ConfigVersion n ≠ 0 ∧
    ∃ base ones, canonical_pool (nw_IPv4Pool n) base ones.

Definition nodes_wf (nds : gmap string Node) (keys : gmap string string) : Prop :=
  (∀ id n, nds !! id = Some n →
     nd_ID n = id ∧ ValidateNode n = None ∧ keys !! nd_PublicKey n = Some id) ∧
  (∀ k id, keys !! k = Some id → ∃ n, nds !! id = Some n ∧ nd_PublicKey n = k).

Definition members_wf (nets : gmap string Network) (nds : gmap string Node)
    (ms : gmap string (gmap string Membership)) : Prop :=
  (∀ net nd m, lookup2 ms net nd = Some m →
     mb_NetworkID m = net ∧ mb_NodeID m = nd ∧ ValidateMembership m = None ∧
     length (mb_VirtualIPv4 m) = 4%nat ∧ Forall is_byte (mb_VirtualIPv4 m) ∧
     (∃ n, nets !! net = Some n ∧ ValidateIPv4InPool (mb_VirtualIPv4 m) (nw_IPv4Pool n) = None) ∧
     is_Some (nds !! nd)) ∧
  (∀ net nd nd' m m', lookup2 ms net nd = Some m → lookup2 ms net nd' = Some m' →
     mb_VirtualIPv4 m = mb_VirtualIPv4 m' → nd = nd').

Definition invites_wf (nets : gmap string Network) (nds : gmap string Node)
    (inv : gmap string Invite) (tok : gmap string string) : Prop :=
  (∀ id i, inv !! id = Some i →
     iv_ID i = id ∧ tok !! iv_TokenHash i = Some id ∧ is_Some (nets !! iv_NetworkID i) ∧
     (iv_ConsumedByNodeID i ≠ "" → is_Some (iv_ConsumedAt i) ∧ is_Some (nds !! iv_ConsumedByNodeID i)) ∧
     (iv_ConsumedAt i = None ∨ iv_RevokedAt i = None)) ∧
  (∀ h id, tok !! h = Some id → ∃ i, inv !! id = Some i ∧ iv_TokenHash i = h).

Definition endpoints_wf (nds : gmap string Node) (eps : gmap string (list EndpointCandidate)) : Prop :=
  ∀ nd l, eps !! nd = Some l →
    is_Some (nds !! nd) ∧ sorted_by endpoint_less l ∧ NoDup (endpointIdentityFor <$> l) ∧
    Forall (λ e, ep_NodeID e = nd ∧ ValidateEndpointCandidate e = None) l.

Definition relays_wf (ms : gmap string (gmap string Membership))
    (rel : gmap string (gmap string RelayAssignment)) (own : gmap string string) : Prop :=
  (∀ net nd a, lookup2 rel net nd = Some a →
     ra_NetworkID a = net ∧ ra_NodeID a = nd ∧ ValidateRelayAssignment a = None ∧ nul_free net ∧
     is_Some (lookup2 ms net nd) ∧ is_Some (lookup2 ms net (ra_RelayNodeID a)) ∧
     own !! ra_ID a = Some (relayAssignmentOwnerKey net nd)) ∧
  (∀ id k, own !! id = Some k →
     ∃ net nd a, lookup2 rel net nd = Some a ∧ ra_ID a = id ∧ k = relayAssignmentOwnerKey net nd).

Record repo_wf (r : MemoryRepository) : Prop := {
  wf_networks : networks_wf (networks r);
  wf_nodes : nodes_wf (nodes r) (publicKeys r);
  wf_members : members_wf (networks r) (nodes r) (memberships r);
  wf_invites : invites_wf (networks r) (nodes r) (invites r) (inviteByToken r);
  wf_endpoints : endpoints_wf (nodes r) (endpoints r);
  wf_relays : relays_wf (memberships r) (relayAssignments r) (relayAssignmentOwners r)
}.

(** ** Histories of operations *)
Inductive op :=
| OCreateNetwork (n : Network)
| OAddNode (n : Node)
| OTouchNode (nodeID : string) (t : Time)
| OUpdateNodeClientVersion (nodeID version : string)
| ORemoveNode (nodeID : string)
| OAddMembership (m : Membership)
| ORemoveMembership (networkID nodeID : string)
| OCreateInvite (i : Invite)
| ORevokeInvite (inviteID : string) (t : Time)
| OConsumeInvite (now : Time) (inviteOrNetworkID tokenHash : string) (t : Time) (nodeID : string)
| OReplaceEndpoints (nodeID : string) (l : list EndpointCandidate)
| OSetRelayAssignment (a : RelayAssignment)
| ORemoveRelayAssignment (networkID : string).

Definition exec (ctx : Context) (o : op) : M MemoryRepository unit :=
  match o with
  | OCreateNetwork n => CreateNetwork ctx n
  | OAddNode n => AddNode ctx n
  | OTouchNode nodeID t => TouchNode ctx nodeID t
  | OUpdateNodeClientVersion nodeID version => UpdateNodeClientVersion ctx nodeID version
  | ORemoveNode nodeID => RemoveNode ctx nodeID
  | OAddMembership m => AddMembership ctx m
  | ORemoveMembership networkID nodeID => RemoveMembership ctx networkID nodeID
  | OCreateInvite i => CreateInvite ctx i
  | ORevokeInvite inviteID t => RevokeInvite ctx inviteID t
  | OConsumeInvite now id hash t nodeID => ConsumeInviteForNode now ctx id hash t nodeID ;; ret tt
  | OReplaceEndpoints nodeID l => ReplaceEndpoints ctx nodeID l
  | OSetRelayAssignment a => SetRelayAssignment ctx a
  | ORemoveRelayAssignment networkID => RemoveRelayAssignment ctx networkID
  end.

(** The body of a transaction: operations in order, the first error ends it. *)
Fixpoint exec_all (os : list op) (ctx : Context) : M MemoryRepository unit :=
  match os with
  | [] => ret tt
  | o :: os => exec ctx o ;; exec_all os ctx
  end.

(** What the Go types of the arguments guarantee ([int64] and [byte] ranges),
    and network identifiers without a NUL byte, which the owner keys of relay
    assignments need. *)
Definition typed (o : op) : Prop :=
  match o with
  | OCreateNetwork n => int64 (nw_ConfigVersion n)
  | OAddMembership m => Forall is_byte (mb_VirtualIPv4 m)
  | OSetRelayAssignment a => nul_free (ra_NetworkID a)
  | _ => True
  end.

(** [history c r r']: from [r], operations and transactions with any arguments,
    contexts and outcomes lead to [r']; [c] counts the operations, those inside
    transactions included. *)
Inductive history : nat → MemoryRepository → MemoryRepository → Prop :=
| history_refl r : history 0 r r
| history_op c ctx o r r' :
    typed o → history c (exec ctx o r).2 r' → history (S c) r r'
| history_transaction c ctx os r r' :
    Forall typed os → history c (WithTransaction ctx (Some (exec_all os)) r).2 r' →
    history (length os + c) r r'.

Definition reachable (maxAge : Duration) (r : MemoryRepository) : Prop :=
  ∃ c, history c (NewMemoryRepositoryWithEndpointMaxAge maxAge) r.

(** ** Copies are copies *)
Lemma cloneIP_id ip : cloneIP ip = ip.
Proof. unfold cloneIP, is_nil. case_bool_decide; by subst. Qed.
Lemma cloneMembership_id m : cloneMembership m = m.
Proof. destruct m. unfold cloneMembership, mb_with_IP. simpl. by rewrite cloneIP_id. Qed.
Lemma cloneEndpoint_id e : cloneEndpoint e = e.
Proof. destruct e. unfold cloneEndpoint, ep_with_Address. simpl. by rewrite cloneIP_id. Qed.
Lemma cloneEndpoints_id l : cloneEndpoints l = l.
Proof. unfold cloneEndpoints. rewrite <- (list_fmap_id l) at 2. apply list_fmap_ext. intros. apply cloneEndpoint_id. Qed.
Lemma cloneInvite_id i : cloneInvite i = i.
Proof. by destruct i as [????[] []]. Qed.
Lemma cloneRelayAssignment_id a : cloneRelayAssignment a = a.
Proof. destruct a as [?????????[]]; unfold cloneRelayAssignment; simpl; by rewrite cloneIP_id. Qed.

Lemma fmap_pointwise_id {A} (f : A → A) (m : gmap string A) : (∀ x, f x = x) → f <$> m = m.
Proof. intros Hf. rewrite <- (map_fmap_id m) at 2. by apply map_fmap_ext. Qed.

Lemma cloneMemoryRepositoryLocked_id r : cloneMemoryRepositoryLocked r = r.
Proof.
  destruct r. unfold cloneMemoryRepositoryLocked. simpl. f_equal.
  - by apply fmap_pointwise_id.
  - by apply fmap_pointwise_id.
  - apply fmap_pointwise_id. intros. apply fmap_pointwise_id, cloneMembership_id.
  - apply fmap_pointwise_id, cloneInvite_id.
  - apply fmap_pointwise_id, cloneEndpoints_id.
  - apply fmap_pointwise_id. intros. apply fmap_pointwise_id, cloneRelayAssignment_id.
Qed.

Create HintDb repo.
#[export] Hint Rewrite cloneIP_id cloneMembership_id cloneEndpoint_id cloneEndpoints_id
  cloneInvite_id cloneRelayAssignment_id cloneMemoryRepositoryLocked_id : repo.

(** ** Maps of maps *)
Section Lookup2.
Context {A : Type}.
Implicit Types (m : gmap string (gmap string A)).

Lemma lookup2_insert m i j i' j' (inner : gmap string A) x :
  inner = default ∅ (m !! i) →
  lookup2 (<[i := <[j := x]> inner]> m) i' j' =
    if decide (i = i' ∧ j = j') then Some x else lookup2 m i' j'.
Proof.
  intros ->. unfold lookup2. destruct (decide (i = i')) as [<-|].
  - rewrite lookup_insert_eq. simpl. destruct (decide (j = j')) as [<-|].
    + by rewrite lookup_insert_eq, decide_True.
    + rewrite lookup_insert_ne, decide_False by naive_solver. by destruct (m !! i).
  - rewrite lookup_insert_ne, decide_False by naive_solver. done.
Qed.

Lemma lookup2_delete m i j i' j' inner :
  m !! i = Some inner →
  lookup2 (<[i := delete j inner]> m) i' j' =
    if decide (i = i' ∧ j = j') then None else lookup2 m i' j'.
Proof.
  intros Hi. unfold lookup2. destruct (decide (i = i')) as [<-|].
  - rewrite lookup_insert_eq, Hi. simpl. destruct (decide (j = j')) as [<-|].
    + by rewrite lookup_delete_eq, decide_True.
    + by rewrite lookup_delete_ne, decide_False by naive_solver.
  - rewrite lookup_insert_ne, decide_False by naive_solver. done.
Qed.

Lemma lookup2_delete_outer m i i' j' :
  lookup2 (delete i m) i' j' = if decide (i = i') then None else lookup2 m i' j'.
Proof.
  unfold lookup2. case_decide; subst.
  - by rewrite lookup_delete_eq.
  - by rewrite lookup_delete_ne.
Qed.

Lemma lookup2_insert_empty m i i' j' :
  m !! i = None → lookup2 (<[i := ∅]> m) i' j' = lookup2 m i' j'.
Proof.
  intros Hi. unfold lookup2. destruct (decide (i = i')) as [<-|].
  - by rewrite lookup_insert_eq, Hi.
  - by rewrite lookup_insert_ne.
Qed.

Lemma lookup2_fmap_delete m j i' j' :
  lookup2 (delete j <$> m) i' j' = if decide (j = j') then None else lookup2 m i' j'.
Proof.
  unfold lookup2. rewrite lookup_fmap. destruct (m !! i') as [inner|]; simpl; [|by case_decide].
  case_decide; subst; [by rewrite lookup_delete_eq|by rewrite lookup_delete_ne].
Qed.

Lemma lookup2_default m i j : default ∅ (m !! i) !! j = lookup2 m i j.
Proof. unfold lookup2. by destruct (m !! i). Qed.

End Lookup2.

(** ** Version increments *)
Definition bump (n : Network) : Network := nw_with_version n (next_version (nw_ConfigVersion n)).
Definition bumps (l : list string) (nets : gmap string Network) : gmap string Network :=
  foldr (λ id nets, <[id := bump (default zeroNetwork (nets !! id))]> nets) nets l.

Lemma incrementAll_eq l r : incrementAll l r = set_networks r (bumps l (networks r)).
Proof. induction l as [|id l IH]; simpl; [by destruct r|]. by rewrite IH. Qed.

Lemma increment_eq id r : incrementNetworkVersionLocked id r = set_networks r (bumps [id] (networks r)).
Proof. done. Qed.

Lemma bumps_lookup l nets id :
  NoDup l →
  bumps l nets !! id =
    if decide (id ∈ l) then Some (bump (default zeroNetwork (nets !! id))) else nets !! id.
Proof.
  intros Hl. revert id. induction Hl as [|x l Hx Hl IH]; intros id; simpl; [done|].
  destruct (decide (id = x)) as [->|Hne].
  - rewrite lookup_insert_eq, IH, decide_False by done. by rewrite decide_True by set_solver.
  - rewrite lookup_insert_ne, IH by done. destruct (decide (id ∈ l)), (decide (id ∈ x :: l)); set_solver.
Qed.

#[global] Arguments bumps : simpl never.

(** Increments keep every network and its pool. *)
Definition nets_kept (nets nets' : gmap string Network) : Prop :=
  ∀ id n, nets !! id = Some n → ∃ v, nets' !! id = Some (nw_with_version n v).

Lemma bumps_kept l nets : NoDup l → nets_kept nets (bumps l nets).
Proof.
  intros Hl id n Hn. rewrite bumps_lookup, Hn by done.
  case_decide; [by eexists|]. exists (nw_ConfigVersion n). by destruct n.
Qed.

Lemma insert_kept nets id n : nets !! id = None → nets_kept nets (<[id := n]> nets).
Proof.
  intros Hid id' n' Hn'. exists (nw_ConfigVersion n').
  rewrite lookup_insert_ne by congruence. rewrite Hn'. by destruct n'.
Qed.

Lemma next_version_int64 v : int64 (next_version v).
Proof. unfold next_version, int64, wrap64, MaxInt64. case_match; divlia. Qed.

Lemma next_version_nonzero v : int64 v → next_version v ≠ 0.
Proof. unfold next_version, int64, wrap64, MaxInt64. case_match; divlia. Qed.

Lemma networks_wf_bumps l nets :
  NoDup l → (∀ id, id ∈ l → is_Some (nets !! id)) → networks_wf nets → networks_wf (bumps l nets).
Proof.
  intros Hl Hin Hwf id n. rewrite bumps_lookup by done. case_decide as Hid; [|apply Hwf].
  destruct (Hin id Hid) as [n' Hn']. rewrite Hn'. simpl. intros [= <-].
  destruct (Hwf _ _ Hn') as (? & ? & ? & ? & ?). simpl.
  split_and!; eauto using next_version_int64, next_version_nonzero.
Qed.

(** ** Monotonicity of the groups in the maps they refer to *)
Definition nodes_kept (nds nds' : gmap string Node) : Prop :=
  ∀ id, is_Some (nds !! id) → is_Some (nds' !! id).

Lemma nodes_kept_insert nds id n : nodes_kept nds (<[id := n]> nds).
Proof. intros id' H. rewrite lookup_insert_is_Some'. by right. Qed.

Lemma nets_kept_refl nets : nets_kept nets nets.
Proof. intros id n H. exists (nw_ConfigVersion n). rewrite H. by destruct n. Qed.

Lemma nodes_kept_refl nds : nodes_kept nds nds.
Proof. by intros id. Qed.

Lemma nets_kept_is_Some nets nets' id : nets_kept nets nets' → is_Some (nets !! id) → is_Some (nets' !! id).
Proof. intros H [n Hn]. destruct (H _ _ Hn) as [v Hv]. by eexists. Qed.

Lemma members_wf_mono nets nets' nds nds' ms :
  nets_kept nets nets' → nodes_kept nds nds' → members_wf nets nds ms → members_wf nets' nds' ms.
Proof.
  intros Hnets Hnds [H1 H2]. split; [|exact H2].
  intros net nd m Hm. destruct (H1 _ _ _ Hm) as (?&?&?&?&?&(n&Hn&?)&?).
  destruct (Hnets _ _ Hn) as [v Hv]. repeat split; eauto.
Qed.

Lemma invites_wf_mono nets nets' nds nds' inv tok :
  nets_kept nets nets' → nodes_kept nds nds' → invites_wf nets nds inv tok → invites_wf nets' nds' inv tok.
Proof.
  intros Hnets Hnds [H1 H2]. split; [|exact H2].
  intros id i Hi. destruct (H1 _ _ Hi) as (?&?&?&?&?).
  repeat split; eauto using nets_kept_is_Some; naive_solver.
Qed.

Lemma endpoints_wf_mono nds nds' eps :
  nodes_kept nds nds' → endpoints_wf nds eps → endpoints_wf nds' eps.
Proof. intros Hnds H nd l Hl. destruct (H _ _ Hl) as (?&?&?&?). eauto. Qed.

#[export] Hint Resolve bumps_kept insert_kept nets_kept_refl nodes_kept_refl nodes_kept_insert : repo.
#[export] Hint Resolve members_wf_mono invites_wf_mono endpoints_wf_mono : repo.

(** ** Preservation, operation by operation *)

(** [run_op] opens an operation and leaves the branches that write. *)
Ltac run_op op :=
  unfold op; run_m; simplify_eq; try done; try (by auto 1 with repo).

Lemma insert_network_wf r n :
  networks r !! nw_ID n = None → blank (nw_ID n) = false → int64 (nw_ConfigVersion n) → nw_ConfigVersion n ≠ 0 →
  (∃ base ones, canonical_pool (nw_IPv4Pool n) base ones) →
  repo_wf r → repo_wf (set_networks r (<[nw_ID n := n]> (networks r))).
Proof.
  intros ????? []. split; simpl; eauto 3 with repo.
  intros id n'. rewrite lookup_insert_Some. intros [[<- <-]|[_ ?]]; eauto.
Qed.

Lemma CreateNetwork_wf ctx n r :
  int64 (nw_ConfigVersion n) → repo_wf r → repo_wf (CreateNetwork ctx n r).2.
Proof.
  intros Hv Hwf. run_op CreateNetwork; apply insert_network_wf; try done;
    try (by apply (ValidateNetwork_pool n)); try (by apply (ValidateNetwork_fields n)); unfold cloneNetwork; lia.
Qed.

Lemma AddNode_wf ctx n r : repo_wf r → repo_wf (AddNode ctx n r).2.
Proof.
  intros Hwf. run_op AddNode. destruct Hwf as [Hnet [Hn1 Hn2] Hm Hi He Hr].
  split; simpl; eauto 3 with repo. split.
  - intros id n'. unfold cloneNode. rewrite lookup_insert_Some. intros [[<- <-]|[? Hn']].
    + by rewrite lookup_insert_eq.
    + destruct (Hn1 _ _ Hn') as (?&?&Hk). rewrite lookup_insert_ne by congruence. done.
  - intros k id. rewrite lookup_insert_Some. intros [[<- <-]|[? Hk]].
    + exists n. by rewrite lookup_insert_eq.
    + destruct (Hn2 _ _ Hk) as (n' & Hn' & <-). exists n'. rewrite lookup_insert_ne by congruence. done.
Qed.

(** Rewriting a node without touching its identifier and its key. *)
Lemma update_node_wf r id n n' :
  nodes r !! id = Some n → nd_ID n' = nd_ID n → nd_PublicKey n' = nd_PublicKey n →
  ValidateNode n' = None → repo_wf r → repo_wf (set_nodes r (<[id := n']> (nodes r)) (publicKeys r)).
Proof.
  intros Hn Hid Hkey Hval [Hnet [Hn1 Hn2] Hm Hi He Hr].
  split; simpl; eauto 3 with repo. destruct (Hn1 _ _ Hn) as (Hid' & _ & Hk). split.
  - intros id' n''. rewrite lookup_insert_Some. intros [[<- <-]|[? ?]]; [|eauto].
    rewrite Hid, Hkey. done.
  - intros k id' Hk'. destruct (Hn2 _ _ Hk') as (n'' & Hn'' & <-).
    destruct (decide (id = id')) as [->|?].
    + exists n'. rewrite lookup_insert_eq. split; [done|congruence].
    + exists n''. by rewrite lookup_insert_ne.
Qed.

Lemma TouchNode_wf ctx id t r : repo_wf r → repo_wf (TouchNode ctx id t r).2.
Proof.
  intros Hwf. run_op TouchNode. eapply update_node_wf; eauto.
  by edestruct (proj1 (wf_nodes _ Hwf)) as (?&?&?).
Qed.

Lemma UpdateNodeClientVersion_wf ctx id v r : repo_wf r → repo_wf (UpdateNodeClientVersion ctx id v r).2.
Proof.
  intros Hwf. run_op UpdateNodeClientVersion. eapply update_node_wf; eauto.
  edestruct (proj1 (wf_nodes _ Hwf)) as (?&Hv&?); [done|].
  unfold ValidateNode in *. simpl. repeat (case_match; simplify_eq/=; try done).
  match goal with H : required _ _ v = Some _ |- _ => unfold required in H; by case_match end.
Qed.

(** The two outcomes of [AddMembership]: an error leaves the repository as it
    was; success adds one membership and advances the version once. *)
Definition stored_membership (m : Membership) : Membership := mb_with_IP m (To4 (mb_VirtualIPv4 m)).

Definition membership_added (m : Membership) (r : MemoryRepository) : MemoryRepository :=
  set_networks
    (set_memberships r
      (<[mb_NetworkID m := <[mb_NodeID m := stored_membership m]> (default ∅ (memberships r !! mb_NetworkID m))]>
        (memberships r)))
    (bumps [mb_NetworkID m] (networks r)).

Lemma existsb_map {A} (f : A → bool) (m : gmap string A) :
  existsb (λ kv, f kv.2) (map_to_list m) = false ↔ ∀ k x, m !! k = Some x → f x = false.
Proof.
  rewrite <- not_true_iff_false, existsb_exists. split.
  - intros H k x Hx. apply not_true_iff_false. intros Hf. apply H. exists (k, x).
    split; [|done]. by apply list_elem_of_In, elem_of_map_to_list.
  - intros H ([k x] & Hx & Hf). apply list_elem_of_In, elem_of_map_to_list in Hx. simpl in Hf.
    by rewrite (H _ _ Hx) in Hf.
Qed.

Lemma AddMembership_run ctx m r :
  outcome (λ _ r', r' = r)
    (λ _ r',
      contextError ctx = None ∧ ValidateMembership m = None ∧ is_Some (nodes r !! mb_NodeID m) ∧
      (∃ n, networks r !! mb_NetworkID m = Some n ∧ ValidateIPv4InPool (mb_VirtualIPv4 m) (nw_IPv4Pool n) = None) ∧
      lookup2 (memberships r) (mb_NetworkID m) (mb_NodeID m) = None ∧
      (∀ nd m', lookup2 (memberships r) (mb_NetworkID m) nd = Some m' →
         IP_Equal (mb_VirtualIPv4 m') (mb_VirtualIPv4 m) = false) ∧
      r' = membership_added m r)
    (AddMembership ctx m r).
Proof.
  unfold AddMembership. run_m; rewrite ?outcome_err, ?outcome_ok; simplify_eq/=; try done.
  all: try (by simplify_map_eq).
  all: autorewrite with repo in *; unfold membership_added, lookup2.
  all: match goal with H : memberships _ !! _ = _ |- _ => rewrite !H end; simpl.
  - split_and!; eauto. intros nd m' Hm'.
    by eapply (existsb_map (λ m', IP_Equal (mb_VirtualIPv4 m') (mb_VirtualIPv4 m))).
  - split_and!; eauto; [done|].
    unfold incrementNetworkVersionLocked, set_networks, set_memberships. simpl. by rewrite insert_insert_eq.
Qed.

Lemma lookup2_membership_added m r net nd :
  lookup2 (memberships (membership_added m r)) net nd =
    if decide (mb_NetworkID m = net ∧ mb_NodeID m = nd) then Some (stored_membership m)
    else lookup2 (memberships r) net nd.
Proof. by apply lookup2_insert. Qed.

Lemma ValidateMembership_To4 m : ValidateMembership m = None → is_nil (To4 (mb_VirtualIPv4 m)) = false.
Proof.
  unfold ValidateMembership. intros H. repeat (case_match; simplify_eq).
  by repeat match goal with H : _ || _ = false |- _ => apply orb_false_iff in H as [? ?] end.
Qed.

Lemma stored_membership_valid m :
  ValidateMembership m = None → Forall is_byte (mb_VirtualIPv4 m) →
  ValidateMembership (stored_membership m) = None ∧
  length (mb_VirtualIPv4 (stored_membership m)) = 4%nat ∧ Forall is_byte (mb_VirtualIPv4 (stored_membership m)).
Proof.
  intros Hv Hb. pose proof (ValidateMembership_To4 _ Hv) as Hnil.
  pose proof (To4_length _ Hnil) as Hlen. split; [|split; [done|by apply To4_byte]].
  unfold ValidateMembership in *. simpl.
  rewrite (To4_4 (To4 _)) by done. rewrite Hnil. by rewrite Hnil, (To4_not_nil _ Hnil) in Hv.
Qed.

Lemma ValidateIPv4InPool_To4 ip cidr :
  ValidateIPv4InPool ip cidr = None → ValidateIPv4InPool (To4 ip) cidr = None.
Proof.
  unfold ValidateIPv4InPool. destruct (is_nil (To4 ip)) eqn:E; [by rewrite orb_true_r|].
  rewrite (To4_4 (To4 ip)), E by (by apply To4_length). by rewrite (To4_not_nil _ E).
Qed.

Lemma members_wf_added m r :
  Forall is_byte (mb_VirtualIPv4 m) → ValidateMembership m = None → is_Some (nodes r !! mb_NodeID m) →
  (∃ n, networks r !! mb_NetworkID m = Some n ∧ ValidateIPv4InPool (mb_VirtualIPv4 m) (nw_IPv4Pool n) = None) →
  (∀ nd m', lookup2 (memberships r) (mb_NetworkID m) nd = Some m' →
     IP_Equal (mb_VirtualIPv4 m') (mb_VirtualIPv4 m) = false) →
  members_wf (networks r) (nodes r) (memberships r) →
  members_wf (networks r) (nodes r) (memberships (membership_added m r)).
Proof.
  intros Hb Hv Hnode (n & Hn & Hpool) Hfree [H1 H2].
  destruct (stored_membership_valid m) as (Hv' & Hlen & Hb'); [done..|].
  assert (∀ nd m', lookup2 (memberships r) (mb_NetworkID m) nd = Some m' →
            mb_VirtualIPv4 m' ≠ mb_VirtualIPv4 (stored_membership m)) as Hfree'.
  { intros nd m' Hm' Heq. specialize (Hfree _ _ Hm'). destruct (H1 _ _ _ Hm') as (_&_&_&Hl&_).
    rewrite IP_Equal_To4, bool_decide_eq_false in Hfree by (try done; by apply ValidateMembership_To4).
    done. }
  split.
  - intros net nd m'. rewrite lookup2_membership_added. case_decide as Hd; [|apply H1].
    destruct Hd as [<- <-]. intros [= <-]. split_and!; try done.
    exists n. split; [done|]. by apply ValidateIPv4InPool_To4.
  - intros net nd nd' m1 m2. rewrite !lookup2_membership_added.
    repeat case_decide; intros; destruct_and?; simplify_eq; try done; [| |by eapply H2].
    + exfalso. by eapply Hfree'.
    + exfalso. by eapply Hfree'.
Qed.

Lemma relays_wf_mono ms ms' rel own :
  (∀ net nd, is_Some (lookup2 ms net nd) → is_Some (lookup2 ms' net nd)) →
  relays_wf ms rel own → relays_wf ms' rel own.
Proof.
  intros Hms [H1 H2]. split; [|exact H2]. intros net nd a Ha.
  destruct (H1 _ _ _ Ha) as (?&?&?&?&?&?&?). split_and!; auto.
Qed.

Lemma AddMembership_wf ctx m r :
  Forall is_byte (mb_VirtualIPv4 m) → repo_wf r → repo_wf (AddMembership ctx m r).2.
Proof.
  intros Hb Hwf. apply (outcome_snd _ _ _ _ (AddMembership_run ctx m r)); [by intros ?? ->|].
  intros _ r' (_ & Hv & Hnode & Hn & _ & Hfree & ->). destruct Hwf as [Hnets Hnds Hms Hi He Hr].
  pose proof (bumps_kept [mb_NetworkID m] (networks r) (NoDup_singleton _)) as Hk.
  split; simpl; eauto 3 with repo.
  - apply networks_wf_bumps; [apply NoDup_singleton| |done].
    intros id ->%list_elem_of_singleton. destruct Hn as (n & Hn & _). by eexists.
  - eapply members_wf_mono; [exact Hk|apply nodes_kept_refl|]. by apply (members_wf_added m r).
  - eapply relays_wf_mono; [|done]. intros net nd Hs.
    change (is_Some (lookup2 (memberships (membership_added m r)) net nd)).
    rewrite lookup2_membership_added. by case_decide.
Qed.

(** *** Invitations *)
Lemma ValidateInvite_lifecycle i :
  ValidateInvite i = None →
  (iv_ConsumedAt i = None ∨ iv_RevokedAt i = None) ∧
  (iv_ConsumedByNodeID i ≠ "" → is_Some (iv_ConsumedAt i)).
Proof.
  unfold ValidateInvite. intros H. repeat (case_match; simplify_eq); split; auto.
  all: match goal with H : negb _ && _ = false |- _ => apply andb_false_iff in H as [H|H] end.
  all: rewrite negb_false_iff, bool_decide_eq_true in *; eauto; done.
Qed.

Lemma CreateInvite_wf ctx i r : repo_wf r → repo_wf (CreateInvite ctx i r).2.
Proof.
  intros Hwf. run_op CreateInvite. destruct Hwf as [Hnets Hnds Hms [Hi1 Hi2] He Hr].
  destruct (ValidateInvite_lifecycle i) as [Hl Hc]; [done|].
  split; simpl; eauto 3 with repo. autorewrite with repo. split.
  - intros id i'. rewrite lookup_insert_Some. intros [[<- <-]|[? Hi']].
    + rewrite lookup_insert_eq. split_and!; eauto. intros Hne. split; [auto|].
      destruct (decide (is_Some (nodes r !! iv_ConsumedByNodeID i))) as [|Hn]; [done|].
      rewrite (bool_decide_eq_false_2 (is_Some _)), (bool_decide_eq_false_2 (iv_ConsumedByNodeID i = "")) in * by done.
      done.
    + destruct (Hi1 _ _ Hi') as (?&?&?&?&?). rewrite lookup_insert_ne by congruence. done.
  - intros h id. rewrite lookup_insert_Some. intros [[<- <-]|[? Hk]].
    + exists i. by rewrite lookup_insert_eq.
    + destruct (Hi2 _ _ Hk) as (i' & Hi' & <-). exists i'. rewrite lookup_insert_ne by congruence. done.
Qed.

(** Rewriting the lifecycle of a stored invite. *)
Lemma update_invite_wf r id i i' :
  invites r !! id = Some i → iv_ID i' = iv_ID i → iv_TokenHash i' = iv_TokenHash i →
  iv_NetworkID i' = iv_NetworkID i → (iv_ConsumedAt i' = None ∨ iv_RevokedAt i' = None) →
  (iv_ConsumedByNodeID i' ≠ "" → is_Some (iv_ConsumedAt i') ∧ is_Some (nodes r !! iv_ConsumedByNodeID i')) →
  repo_wf r → repo_wf (set_invites r (<[id := i']> (invites r)) (inviteByToken r)).
Proof.
  intros Hi Hid Hh Hn Hl Hc [Hnets Hnds Hms [Hi1 Hi2] He Hr].
  split; simpl; eauto 3 with repo. destruct (Hi1 _ _ Hi) as (Hid' & Htok & Hnet & _ & _). split.
  - intros id' i''. rewrite lookup_insert_Some. intros [[<- <-]|[? ?]]; [|eauto].
    rewrite Hid, Hh, Hn. done.
  - intros h id' Hk. destruct (Hi2 _ _ Hk) as (i'' & Hi'' & <-).
    destruct (decide (id = id')) as [->|?].
    + exists i'. rewrite lookup_insert_eq. split; [done|congruence].
    + exists i''. by rewrite lookup_insert_ne.
Qed.

Lemma RevokeInvite_wf ctx id t r : repo_wf r → repo_wf (RevokeInvite ctx id t r).2.
Proof.
  intros Hwf. run_op RevokeInvite. autorewrite with repo.
  edestruct (proj1 (wf_invites _ Hwf)) as (?&?&?&Hc&?); [done|].
  eapply update_invite_wf; eauto.
Qed.

(** What a lookup by identifier or by network and token finds. *)
Lemma inviteByLookup_Some r v h id :
  repo_wf r → inviteByLookupLocked r v h = Some id →
  ∃ i, invites r !! id = Some i ∧ iv_TokenHash i = h ∧ (id = v ∨ iv_NetworkID i = v).
Proof.
  intros [_ _ _ [Hi1 Hi2] _ _]. unfold inviteByLookupLocked. intros H.
  repeat (case_match; simplify_eq); rewrite bool_decide_eq_true in *; eauto.
  destruct (Hi2 _ _ H1) as (i' & Hi' & Hh). rewrite Hi' in *. simpl in *. eauto.
Qed.

Lemma ConsumeInviteForNode_run now ctx v h t nd r :
  repo_wf r →
  outcome (λ _ r', r' = r)
    (λ i' r', ∃ id i, let t' := if IsZero t then now else t in
       contextError ctx = None ∧ inviteByLookupLocked r v h = Some id ∧ invites r !! id = Some i ∧
       iv_ConsumedAt i = None ∧ iv_RevokedAt i = None ∧ iv_CreatedAt i ≤ t' < iv_ExpiresAt i ∧
       (nd ≠ "" → is_Some (nodes r !! nd)) ∧ i' = iv_consumed i t' nd ∧
       r' = set_invites r (<[id := i']> (invites r)) (inviteByToken r))
    (ConsumeInviteForNode now ctx v h t nd r).
Proof.
  intros Hwf. unfold ConsumeInviteForNode. run_m; rewrite ?outcome_err, ?outcome_ok; simplify_eq; try done.
  all: autorewrite with repo; destruct (inviteByLookup_Some r v h s) as (i & Hi & Hh & _); [done..|].
  all: rewrite Hi in *; simpl in *; exists s, i.
  all: repeat match goal with H : bool_decide (is_Some ?o) = false |- _ =>
    apply bool_decide_eq_false, eq_None_not_Some in H end.
  all: unfold IsExpired, Before in *; split_and!; try done; try lia.
  all: intros Hne; match goal with H : negb _ && _ = false |- _ => apply andb_false_iff in H as [H|H] end.
  all: rewrite negb_false_iff, bool_decide_eq_true in *; done.
Qed.

Lemma ConsumeInviteForNode_wf now ctx v h t nd r :
  repo_wf r → repo_wf (ConsumeInviteForNode now ctx v h t nd r).2.
Proof.
  intros Hwf. apply (outcome_snd _ _ _ _ (ConsumeInviteForNode_run now ctx v h t nd r Hwf)); [by intros ?? ->|].
  intros i' r' (id & i & _ & _ & Hi & _ & Hr & _ & Hn & -> & ->).
  eapply update_invite_wf; eauto.
Qed.

(** *** Endpoints *)
Lemma store_form_valid e :
  ValidateEndpointCandidate e = None → ValidateEndpointCandidate (store_form e) = None.
Proof.
  unfold store_form. rewrite !cloneEndpoint_id, cloneIP_id. case_bool_decide as Hf; [|done].
  unfold ValidateEndpointCandidate, validateEndpointAddress. simpl. rewrite Hf.
  rewrite !bool_decide_eq_true_2 by done.
  intros H. repeat (case_match; simplify_eq; try done); rewrite ?To4_4 in * by (by apply To4_length);
    congruence.
Qed.

Lemma store_form_NodeID e : ep_NodeID (store_form e) = ep_NodeID e.
Proof. unfold store_form. by case_bool_decide. Qed.

Lemma validate_endpoints_Ok nd seen l vs :
  validate_endpoints nd seen l = Ok vs →
  vs = store_form <$> l ∧ NoDup (endpointIdentityFor <$> vs) ∧
  (∀ i, i ∈ seen → i ∉ endpointIdentityFor <$> vs) ∧
  Forall (λ e, ep_NodeID e = nd ∧ ValidateEndpointCandidate e = None) vs.
Proof.
  revert seen vs. induction l as [|e l IH]; intros seen vs; cbn [validate_endpoints]; intros H;
    simplify_eq; repeat (case_match; simplify_eq).
  - split_and!; try done; [constructor|]. intros ? ?. apply not_elem_of_nil.
  - rewrite negb_false_iff, bool_decide_eq_true, bool_decide_eq_false in *.
    match goal with H : validate_endpoints _ _ l = Ok _ |- _ => apply IH in H as (-> & Hnd & Hseen & Hv) end. csimpl. split_and!; [done|..].
    + constructor; [|done]. apply Hseen. by left.
    + intros i Hi. rewrite not_elem_of_cons. split; [congruence|]. apply Hseen. by right.
    + constructor; [|done]. rewrite store_form_NodeID. eauto using store_form_valid.
Qed.

Lemma networks_of_elem r nd net :
  net ∈ networks_of r nd ↔ is_Some (lookup2 (memberships r) net nd).
Proof.
  unfold networks_of, lookup2. rewrite list_elem_of_fmap. setoid_rewrite list_elem_of_filter. split.
  - intros ([net' ms] & -> & Hs & Hm%elem_of_map_to_list). simpl in *. by rewrite Hm.
  - intros Hs. destruct (memberships r !! net) as [ms|] eqn:E; [|by apply is_Some_None in Hs].
    exists (net, ms). by rewrite elem_of_map_to_list.
Qed.

Lemma networks_of_NoDup r nd : NoDup (networks_of r nd).
Proof.
  apply NoDup_fmap_filter, NoDup_fst_map_to_list.
Qed.

Lemma networks_of_exist r nd net :
  members_wf (networks r) (nodes r) (memberships r) → net ∈ networks_of r nd → is_Some (networks r !! net).
Proof.
  intros [H1 _] [m Hm]%networks_of_elem. destruct (H1 _ _ _ Hm) as (?&?&?&?&?&(n&Hn&?)&?). by eexists.
Qed.

(** Advancing the versions of networks that exist. *)
Lemma repo_wf_bumps l r :
  NoDup l → (∀ id, id ∈ l → is_Some (networks r !! id)) → repo_wf r →
  repo_wf (set_networks r (bumps l (networks r))).
Proof. intros Hl Hin []. split; simpl; eauto using networks_wf_bumps with repo. Qed.

Lemma endpoint_less_StrictWeak : StrictWeak endpoint_less.
Proof. apply _. Qed.

Lemma ReplaceEndpoints_wf ctx nd l r : repo_wf r → repo_wf (ReplaceEndpoints ctx nd l r).2.
Proof.
  intros Hwf. run_op ReplaceEndpoints. rewrite incrementAll_eq.
  apply (repo_wf_bumps (networks_of r nd)
    (set_endpoints r (<[nd := sortEndpointCandidates a]> (endpoints r)))).
  - apply networks_of_NoDup.
  - intros id. apply networks_of_exist, Hwf.
  - destruct Hwf as [? ? ? ? He ?]. split; simpl; try done.
    intros nd' vs. rewrite lookup_insert_Some. intros [[<- <-]|[? ?]]; [|eauto].
    match goal with H : validate_endpoints _ _ _ = Ok _ |- _ =>
      apply validate_endpoints_Ok in H as (-> & Hnd & _ & Hv) end. unfold sortEndpointCandidates.
    split_and!; [by eexists|apply SliceStable_sorted, _|by rewrite SliceStable_perm|by rewrite SliceStable_perm].
Qed.

(** *** Relay assignments *)

(** Owner keys determine network and node when no network identifier contains
    the separator. *)
Lemma relayAssignmentOwnerKey_inj net nd net' nd' :
  nul_free net → nul_free net' →
  relayAssignmentOwnerKey net nd = relayAssignmentOwnerKey net' nd' → net = net' ∧ nd = nd'.
Proof.
  unfold nul_free, bytes, relayAssignmentOwnerKey. revert net'.
  induction net as [|c net IH]; intros [|c' net'] H H' Heq; csimpl in *;
    rewrite ?not_elem_of_cons in *; simplify_eq; try (destruct_and?; done).
  destruct (IH net') as [-> ->]; [naive_solver..|done|done].
Qed.

Lemma relays_wf_unique ms rel own net nd a net' nd' a' :
  relays_wf ms rel own → lookup2 rel net nd = Some a → lookup2 rel net' nd' = Some a' →
  ra_ID a = ra_ID a' → net = net' ∧ nd = nd' ∧ a = a'.
Proof.
  intros [H1 _] Ha Ha' Hid. destruct (H1 _ _ _ Ha) as (_&_&_&?&_&_&Ho).
  destruct (H1 _ _ _ Ha') as (_&_&_&?&_&_&Ho'). rewrite Hid, Ho' in Ho. simplify_eq.
  destruct (relayAssignmentOwnerKey_inj net nd net' nd') as [-> ->]; [done..|]. split_and!; congruence.
Qed.

(** Removing the assignments that do not satisfy [keep], with their owners,
    keeps the group, also for the memberships that are left. *)
Lemma relays_wf_remove (keep : string → string → RelayAssignment → Prop) ms ms' rel rel' own own' :
  relays_wf ms rel own →
  (∀ net nd a, lookup2 rel' net nd = Some a ↔ lookup2 rel net nd = Some a ∧ keep net nd a) →
  (∀ id k, own' !! id = Some k ↔
     own !! id = Some k ∧ ∀ net nd a, lookup2 rel net nd = Some a → ra_ID a = id → keep net nd a) →
  (∀ net nd a, lookup2 rel net nd = Some a → keep net nd a →
     is_Some (lookup2 ms' net nd) ∧ is_Some (lookup2 ms' net (ra_RelayNodeID a))) →
  relays_wf ms' rel' own'.
Proof.
  intros Hwf Hrel Hown Hms. pose proof Hwf as [H1 H2]. split.
  - intros net nd a [Ha Hk]%Hrel. destruct (H1 _ _ _ Ha) as (?&?&?&?&_&_&Ho).
    destruct (Hms _ _ _ Ha Hk). split_and!; try done. apply Hown. split; [done|].
    intros net' nd' a' Ha' Hid.
    by destruct (relays_wf_unique _ _ _ _ _ _ _ _ _ Hwf Ha' Ha Hid) as (-> & -> & ->).
  - intros id k [Ho Hkeep]%Hown. destruct (H2 _ _ Ho) as (net & nd & a & Ha & Hid & ->).
    exists net, nd, a. split_and!; try done. apply Hrel. eauto.
Qed.

Lemma lookup2_deleteRelay n d r n' d' :
  lookup2 (relayAssignments (deleteRelayAssignmentLocked n d r)) n' d' =
    if decide (n = n' ∧ d = d') then None else lookup2 (relayAssignments r) n' d'.
Proof.
  unfold deleteRelayAssignmentLocked. destruct (lookup2 _ n d) as [a|] eqn:E; simpl.
  - unfold lookup2 in E. destruct (relayAssignments r !! n) as [inner|] eqn:En; [|done]. simpl in *.
    case_bool_decide as Hemp.
    + rewrite lookup2_delete_outer. destruct (decide (n = n')) as [<-|]; [|by rewrite decide_False by naive_solver].
      destruct (decide (d = d')) as [<-|Hd]; [by rewrite decide_True|].
      rewrite decide_False by naive_solver. unfold lookup2. rewrite En. simpl.
      by rewrite <- (lookup_delete_ne inner d d'), Hemp by done.
    + by apply lookup2_delete.
  - case_decide; [|done]. naive_solver.
Qed.

Lemma owners_deleteRelay n d r :
  relayAssignmentOwners (deleteRelayAssignmentLocked n d r) =
    match lookup2 (relayAssignments r) n d with
    | Some a => delete (ra_ID a) (relayAssignmentOwners r)
    | None => relayAssignmentOwners r
    end.
Proof. unfold deleteRelayAssignmentLocked. by case_match. Qed.

Lemma deleteRelay_other n l r :
  ∃ rel own, foldr (deleteRelayAssignmentLocked n) r l = set_relays r rel own.
Proof.
  induction l as [|d l (rel & own & IH)]; simpl; [exists (relayAssignments r), (relayAssignmentOwners r); by destruct r|].
  rewrite IH. unfold deleteRelayAssignmentLocked. case_match; by eexists _, _.
Qed.

Lemma deleteRelays_lookup n l r n' d' a :
  lookup2 (relayAssignments (foldr (deleteRelayAssignmentLocked n) r l)) n' d' = Some a ↔
  lookup2 (relayAssignments r) n' d' = Some a ∧ ¬ (n' = n ∧ d' ∈ l).
Proof.
  induction l as [|d l IH]; simpl; [set_solver|].
  rewrite lookup2_deleteRelay. case_decide as Hd; [destruct Hd as [-> ->]; set_solver|].
  rewrite IH. set_solver.
Qed.

Lemma deleteRelays_owners n l r id k :
  relayAssignmentOwners (foldr (deleteRelayAssignmentLocked n) r l) !! id = Some k ↔
  relayAssignmentOwners r !! id = Some k ∧
  ∀ d a, d ∈ l → lookup2 (relayAssignments r) n d = Some a → ra_ID a ≠ id.
Proof.
  induction l as [|d l IH]; simpl; [set_solver|].
  rewrite owners_deleteRelay. destruct (decide (d ∈ l)) as [Hd|Hd].
  - case_match eqn:E; [apply deleteRelays_lookup in E as [? []]; done|].
    rewrite IH. set_solver.
  - case_match eqn:E.
    + apply deleteRelays_lookup in E as [E _]. rewrite lookup_delete_Some, IH. set_solver.
    + rewrite IH. assert (lookup2 (relayAssignments r) n d = None) as Hn; [|set_solver].
      apply eq_None_not_Some. intros [a Ha]. eapply eq_None_not_Some; [exact E|]. exists a.
      apply deleteRelays_lookup. naive_solver.
Qed.

Lemma concerns_spec nd a : concerns nd a = true ↔ ra_NodeID a = nd ∨ ra_RelayNodeID a = nd.
Proof. unfold concerns. by rewrite orb_true_iff, !bool_decide_eq_true. Qed.

Lemma elem_concerned_keys nd (assignments : gmap string RelayAssignment) d :
  d ∈ (map_to_list (concerned nd assignments)).*1 ↔
  ∃ a, assignments !! d = Some a ∧ (ra_NodeID a = nd ∨ ra_RelayNodeID a = nd).
Proof.
  rewrite list_elem_of_fmap. setoid_rewrite <- concerns_spec. split.
  - intros ([d' a] & -> & [??]%elem_of_map_to_list%map_lookup_filter_Some). eauto.
  - intros (a & ? & ?). exists (d, a). split; [done|]. by apply elem_of_map_to_list, map_lookup_filter_Some.
Qed.

(** The state [RemoveMembership] leaves: [gone] are the nodes whose assignment
    in the network is dropped. *)
Definition membership_removed (net nd : string) (gone : list string) (r : MemoryRepository) : MemoryRepository :=
  let r1 := foldr (deleteRelayAssignmentLocked net)
      (set_memberships r (<[net := delete nd (default ∅ (memberships r !! net))]> (memberships r))) gone in
  set_networks r1 (bumps [net] (networks r1)).

Lemma RemoveMembership_run ctx net nd r :
  outcome (λ _ r', r' = r)
    (λ _ r', contextError ctx = None ∧ is_Some (lookup2 (memberships r) net nd) ∧
      ∃ gone, r' = membership_removed net nd gone r ∧
        ∀ d a, lookup2 (relayAssignments r) net d = Some a →
          d ∈ gone ↔ d = nd ∨ ra_NodeID a = nd ∨ ra_RelayNodeID a = nd)
    (RemoveMembership ctx net nd r).
Proof.
  unfold RemoveMembership. run_m; rewrite ?outcome_err, ?outcome_ok; simplify_eq; try done.
  match goal with H1 : memberships r !! net = Some ?ms, H2 : ?ms !! nd = Some _ |- _ =>
    split; [done|]; split; [unfold lookup2; rewrite H1; simpl; by eexists|];
    set (r1 := set_memberships r (<[net := delete nd ms]> (memberships r)));
    set (keys := (map_to_list _).*1); exists (keys ++ [nd]); split;
      [unfold membership_removed; rewrite H1, foldr_app; done|] end.
  intros d a Ha. subst keys. rewrite elem_of_app, elem_concerned_keys, list_elem_of_singleton.
  setoid_rewrite lookup2_default. setoid_rewrite lookup2_deleteRelay. change (relayAssignments r1) with (relayAssignments r).
  destruct (decide (d = nd)) as [->|Hne]; [naive_solver|].
  rewrite decide_False by naive_solver. naive_solver.
Qed.

Lemma RemoveMembership_wf ctx net nd r : repo_wf r → repo_wf (RemoveMembership ctx net nd r).2.
Proof.
  intros Hwf. apply (outcome_snd _ _ _ _ (RemoveMembership_run ctx net nd r)); [by intros ?? ->|].
  intros _ r' (_ & [m Hm] & gone & -> & Hgone). unfold membership_removed.
  pose proof (networks_of_exist r nd net (wf_members _ Hwf)) as Hnet.
  rewrite networks_of_elem in Hnet. specialize (Hnet (ex_intro _ m Hm)).
  apply repo_wf_bumps; [apply NoDup_singleton| |].
  - intros id ->%list_elem_of_singleton. destruct (deleteRelay_other net gone
      (set_memberships r (<[net := delete nd (default ∅ (memberships r !! net))]> (memberships r))))
      as (rel & own & ->). done.
  - set (r1 := set_memberships r _). unfold lookup2 in Hm.
    destruct (memberships r !! net) as [ms|] eqn:Ems; [|done]. simpl in *.
    assert (∀ n d, lookup2 (memberships r1) n d =
      if decide (net = n ∧ nd = d) then None else lookup2 (memberships r) n d) as Hl
      by (intros; by apply lookup2_delete).
    pose proof (λ own', relays_wf_remove (λ n d a, ¬ (n = net ∧ d ∈ gone)) (memberships r) (memberships r1)
      _ _ _ own' (wf_relays _ Hwf) (deleteRelays_lookup net gone r1)) as Hr.
    destruct (deleteRelay_other net gone r1) as (rel & own & Heq).
    pose proof (deleteRelays_owners net gone r1) as Hown. rewrite Heq in *. simpl in *.
    destruct Hwf as [? ? [Hm1 Hm2] ? ? [Hr1 _]]. split; simpl; try done.
    + split; intros *; rewrite !Hl; repeat case_decide; try done; eauto.
    + apply Hr.
      * intros id k. rewrite Hown. split; intros [Hk Hall]; (split; [exact Hk|]).
        -- intros n d a Ha Hid [-> Hd]. by apply (Hall d a).
        -- intros d a Hd Ha Hid. by apply (Hall net d a).
      * intros n d a Ha Hk. destruct (Hr1 _ _ _ Ha) as (_ & Hd & _ & _ & ? & ? & _). rewrite !Hl.
        destruct (decide (n = net)) as [->|Hn]; [|by rewrite !decide_False by (intros [? _]; congruence)].
        rewrite (Hgone _ _ Ha) in Hk. by rewrite !decide_False by (intros [_ ?]; apply Hk; auto).
Qed.

Lemma lookup2_unconcerned nd rel n d a :
  lookup2 (omap (unconcerned nd) rel) n d = Some a ↔ lookup2 rel n d = Some a ∧ concerns nd a = false.
Proof.
  unfold lookup2. rewrite lookup_omap. destruct (rel !! n) as [inner|]; simpl; [|naive_solver].
  rewrite <- (map_lookup_filter_Some (λ kv, concerns nd kv.2 = false) inner d a).
  unfold unconcerned. case_bool_decide as Hemp; simpl; [|done]. rewrite Hemp. by rewrite lookup_empty.
Qed.

Lemma delete_owners_lookup l own id k :
  delete_owners l own !! id = Some k ↔ own !! id = Some k ∧ ∀ a, a ∈ l → ra_ID a ≠ id.
Proof.
  induction l as [|a l IH]; simpl; [set_solver|]. rewrite lookup_delete_Some, IH. set_solver.
Qed.

Lemma elem_dropped nd (rel : gmap string (gmap string RelayAssignment)) a :
  a ∈ (map_to_list rel ≫= λ kv, (map_to_list (concerned nd kv.2)).*2) ↔
  ∃ n d, lookup2 rel n d = Some a ∧ concerns nd a = true.
Proof.
  rewrite list_elem_of_bind. setoid_rewrite list_elem_of_fmap. unfold lookup2. split.
  - intros ([n inner] & ([d a'] & -> & [Ha Hc]%elem_of_map_to_list%map_lookup_filter_Some) & Hn%elem_of_map_to_list).
    exists n, d. simpl in *. by rewrite Hn.
  - intros (n & d & Ha & Hc). destruct (rel !! n) as [inner|] eqn:Hn; [|done]. simpl in Ha.
    exists (n, inner). split; [|by apply elem_of_map_to_list]. exists (d, a). split; [done|].
    by apply elem_of_map_to_list, map_lookup_filter_Some.
Qed.

Lemma elem_relay_affected nd (rel : gmap string (gmap string RelayAssignment)) net :
  net ∈ (filter (λ kv, concerned nd kv.2 ≠ ∅) (map_to_list rel)).*1 →
  ∃ d a, lookup2 rel net d = Some a ∧ concerns nd a = true.
Proof.
  rewrite list_elem_of_fmap. intros ([n inner] & -> & [Hne Hn%elem_of_map_to_list]%list_elem_of_filter).
  apply map_choose in Hne as (d & a & [Ha Hc]%map_lookup_filter_Some). exists d, a.
  unfold lookup2. simpl. by rewrite Hn.
Qed.

(** The state [RemoveNode] leaves, before the versions advance. *)
Definition node_removed (nd key : string) (r : MemoryRepository) : MemoryRepository :=
  {| networks := networks r;
     nodes := delete nd (nodes r);
     publicKeys := delete key (publicKeys r);
     memberships := delete nd <$> memberships r;
     invites := (λ i, if bool_decide (iv_ConsumedByNodeID i = nd) then cloneInvite (iv_without_node i) else i)
        <$> invites r;
     inviteByToken := inviteByToken r;
     endpoints := delete nd (endpoints r);
     relayAssignments := omap (unconcerned nd) (relayAssignments r);
     relayAssignmentOwners :=
       delete_owners (map_to_list (relayAssignments r) ≫= λ kv, (map_to_list (concerned nd kv.2)).*2)
         (relayAssignmentOwners r);
     endpointMaxAge := endpointMaxAge r |}.

Lemma RemoveNode_run ctx nd r :
  outcome (λ _ r', r' = r)
    (λ _ r', contextError ctx = None ∧ ∃ n affected, nodes r !! nd = Some n ∧
      r' = set_networks (node_removed nd (nd_PublicKey n) r) (bumps affected (networks r)) ∧ NoDup affected ∧
      (∀ net, net ∈ networks_of r nd → net ∈ affected) ∧
      (∀ net, net ∈ affected → net ∈ networks_of r nd ∨
         ∃ d a, lookup2 (relayAssignments r) net d = Some a ∧ concerns nd a = true) ∧
      (∀ net d a, lookup2 (relayAssignments r) net d = Some a → concerns nd a = true → net ∈ affected))
    (RemoveNode ctx nd r).
Proof.
  unfold RemoveNode. run_m; rewrite ?outcome_err, ?outcome_ok; simplify_eq; try done.
  split; [done|]. eexists _, _. split; [done|]. rewrite incrementAll_eq. split; [done|].
  split; [apply NoDup_remove_dups|]. setoid_rewrite elem_of_remove_dups. setoid_rewrite elem_of_app.
  split_and!.
  - intros net Hn. by left.
  - intros net [Hn|Hn%elem_relay_affected]; [by left|by right].
  - intros net d a Ha Hc. right. unfold lookup2 in Ha. simpl.
    destruct (relayAssignments r !! net) as [inner|] eqn:E; [|done]. simpl in Ha.
    apply list_elem_of_fmap. exists (net, inner). split; [done|]. apply list_elem_of_filter. simpl.
    split; [|by apply elem_of_map_to_list].
    assert (concerned nd inner !! d = Some a) as Hd by (by apply map_lookup_filter_Some).
    intros Hemp. by rewrite Hemp in Hd.
Qed.

Lemma node_removed_wf nd n r :
  nodes r !! nd = Some n → repo_wf r → repo_wf (node_removed nd (nd_PublicKey n) r).
Proof.
  intros Hn [Hnets [Hn1 Hn2] [Hm1 Hm2] [Hi1 Hi2] He Hr]. destruct (Hn1 _ _ Hn) as (Hid & _ & Hkey).
  split; simpl; [done|..].
  - split.
    + intros id n'. rewrite lookup_delete_Some. intros [Hne Hn']. destruct (Hn1 _ _ Hn') as (?&?&Hk).
      split_and!; try done. rewrite lookup_delete_ne; [done|]. intros Heq. rewrite Heq in *. congruence.
    + intros k id. rewrite lookup_delete_Some. intros [Hne Hk]. destruct (Hn2 _ _ Hk) as (n' & Hn' & <-).
      exists n'. split; [|done]. rewrite lookup_delete_ne; [done|]. congruence.
  - split.
    + intros net nd' m. rewrite lookup2_fmap_delete. case_decide; [done|]. intros Hm.
      destruct (Hm1 _ _ _ Hm) as (?&?&?&?&?&?&?). split_and!; try done. by rewrite lookup_delete_ne.
    + intros net d d' m m'. rewrite !lookup2_fmap_delete. repeat case_decide; try done. eauto.
  - split.
    + intros id i'. rewrite lookup_fmap_Some. intros (i & <- & Hi). destruct (Hi1 _ _ Hi) as (?&?&?&Hc&?).
      case_bool_decide as Hnd; [by rewrite cloneInvite_id|]. split_and!; try done.
      intros Hne. rewrite lookup_delete_ne by done. auto.
    + intros h id Hk. destruct (Hi2 _ _ Hk) as (i & Hi & <-). rewrite lookup_fmap, Hi. simpl.
      eexists. split; [done|]. case_bool_decide; [by rewrite cloneInvite_id|done].
  - intros nd' l. rewrite lookup_delete_Some. intros [Hne Hl]. destruct (He _ _ Hl) as (?&?&?&?).
    by rewrite lookup_delete_ne.
  - pose proof Hr as [Hr1 _].
    eapply (relays_wf_remove (λ _ _ a, concerns nd a = false)); [done|apply lookup2_unconcerned|..].
    + intros id k. rewrite delete_owners_lookup. setoid_rewrite elem_dropped.
      setoid_rewrite <- not_true_iff_false. naive_solver.
    + intros net d a Ha Hc. destruct (Hr1 _ _ _ Ha) as (_&Hd&_&_&?&?&_).
      apply not_true_iff_false in Hc. rewrite concerns_spec in Hc. rewrite !lookup2_fmap_delete.
      rewrite !decide_False by naive_solver. done.
Qed.

Lemma RemoveNode_wf ctx nd r : repo_wf r → repo_wf (RemoveNode ctx nd r).2.
Proof.
  intros Hwf. apply (outcome_snd _ _ _ _ (RemoveNode_run ctx nd r)); [by intros ?? ->|].
  intros _ r' (_ & n & affected & Hn & -> & Hnd & _ & Haff & _).
  apply (repo_wf_bumps affected (node_removed nd (nd_PublicKey n) r)); [done| |by apply node_removed_wf].
  intros net [Hnet|(d & a & Ha & _)]%Haff.
  - apply (networks_of_exist r nd); [apply Hwf|done].
  - destruct (proj1 (wf_relays _ Hwf) _ _ _ Ha) as (_&_&_&_&Hm&_).
    apply (networks_of_exist r d); [apply Hwf|by apply networks_of_elem].
Qed.

(** The state [SetRelayAssignment] leaves when it succeeds. *)
Definition relay_set (a : RelayAssignment) (r : MemoryRepository) : MemoryRepository :=
  set_networks
    (set_relays r
      (<[ra_NetworkID a := <[ra_NodeID a := a]> (default ∅ (relayAssignments r !! ra_NetworkID a))]>
        (relayAssignments r))
      (<[ra_ID a := relayAssignmentOwnerKey (ra_NetworkID a) (ra_NodeID a)]>
        (match lookup2 (relayAssignments r) (ra_NetworkID a) (ra_NodeID a) with
         | Some existing => if bool_decide (ra_ID existing = ra_ID a) then relayAssignmentOwners r
                            else delete (ra_ID existing) (relayAssignmentOwners r)
         | None => relayAssignmentOwners r
         end)))
    (bumps [ra_NetworkID a] (networks r)).

(** An error leaves the repository as it was, up to an empty inner map. *)
Definition same_but_empty_relays (r r' : MemoryRepository) : Prop :=
  r' = r ∨ ∃ net, relayAssignments r !! net = None ∧
    r' = set_relays r (<[net := ∅]> (relayAssignments r)) (relayAssignmentOwners r).

Lemma SetRelayAssignment_run ctx a r :
  outcome (λ _ r', same_but_empty_relays r r')
    (λ _ r', contextError ctx = None ∧ ValidateRelayAssignment a = None ∧ is_Some (networks r !! ra_NetworkID a) ∧
      (∃ m, lookup2 (memberships r) (ra_NetworkID a) (ra_NodeID a) = Some m ∧ mb_Status m = MembershipActive) ∧
      (∃ m, lookup2 (memberships r) (ra_NetworkID a) (ra_RelayNodeID a) = Some m ∧ mb_Status m = MembershipActive) ∧
      (∀ k, relayAssignmentOwners r !! ra_ID a = Some k →
         k = relayAssignmentOwnerKey (ra_NetworkID a) (ra_NodeID a)) ∧
      r' = relay_set a r)
    (SetRelayAssignment ctx a r).
Proof.
  unfold SetRelayAssignment. run_m; rewrite ?outcome_err, ?outcome_ok; simplify_eq; try (by left);
    try (right; by eauto).
  all: repeat match goal with H : negb (bool_decide _) = false |- _ =>
    apply negb_false_iff, bool_decide_eq_true in H; subst end.
  all: unfold relay_set, lookup2; simpl in *; autorewrite with repo.
  all: repeat match goal with
    | H : _ !! _ = _ |- _ => rewrite !H; simpl
    | H : bool_decide _ = _ |- _ => rewrite !H
    end.
  all: split_and!; eauto; try done; try (by intros ? [= <-]).
  all: try (unfold incrementNetworkVersionLocked, set_networks, set_relays; simpl; by rewrite insert_insert_eq).
Qed.

Lemma relays_wf_set a ms rel own existing :
  relays_wf ms rel own → nul_free (ra_NetworkID a) → ValidateRelayAssignment a = None →
  is_Some (lookup2 ms (ra_NetworkID a) (ra_NodeID a)) →
  is_Some (lookup2 ms (ra_NetworkID a) (ra_RelayNodeID a)) →
  (∀ k, own !! ra_ID a = Some k → k = relayAssignmentOwnerKey (ra_NetworkID a) (ra_NodeID a)) →
  lookup2 rel (ra_NetworkID a) (ra_NodeID a) = existing →
  relays_wf ms
    (<[ra_NetworkID a := <[ra_NodeID a := a]> (default ∅ (rel !! ra_NetworkID a))]> rel)
    (<[ra_ID a := relayAssignmentOwnerKey (ra_NetworkID a) (ra_NodeID a)]>
      (match existing with
       | Some existing => if bool_decide (ra_ID existing = ra_ID a) then own else delete (ra_ID existing) own
       | None => own
       end)).
Proof.
  intros Hwf Hnul Hv Hm1 Hm2 Howner Hex. pose proof Hwf as [H1 H2].
  assert (∀ id k, id ≠ ra_ID a → (match existing with
     | Some existing => if bool_decide (ra_ID existing = ra_ID a) then own else delete (ra_ID existing) own
     | None => own end) !! id = Some k ↔ own !! id = Some k ∧ ∀ e, existing = Some e → ra_ID e ≠ id) as Ho.
  { intros id k Hid. clear Hex. destruct existing as [e|]; [|naive_solver].
    case_bool_decide; rewrite ?lookup_delete_Some; naive_solver. }
  split.
  - intros net nd a'. rewrite lookup2_insert by done. case_decide as Hd.
    + destruct Hd as [<- <-]. intros [= <-]. rewrite lookup_insert_eq. done.
    + intros Ha'. destruct (H1 _ _ _ Ha') as (?&?&?&?&?&?&Hk). split_and!; try done.
      assert (ra_ID a' ≠ ra_ID a) as Hid.
      { intros Hid. rewrite Hid in Hk. apply Howner, relayAssignmentOwnerKey_inj in Hk; naive_solver. }
      rewrite lookup_insert_ne, Ho by done. split; [done|].
      intros e -> He. destruct (relays_wf_unique _ _ _ _ _ _ _ _ _ Hwf Hex Ha' He) as (?&?&_). naive_solver.
  - intros id k. destruct (decide (ra_ID a = id)) as [<-|Hid].
    + rewrite lookup_insert_eq. intros [= <-]. exists (ra_NetworkID a), (ra_NodeID a), a.
      by rewrite lookup2_insert, decide_True.
    + rewrite lookup_insert_ne, Ho by done. intros [Hk He].
      destruct (H2 _ _ Hk) as (net & nd & a' & Ha' & Hid' & ->). exists net, nd, a'.
      rewrite lookup2_insert by done. rewrite decide_False; [done|]. intros [<- <-]. naive_solver.
Qed.

Lemma SetRelayAssignment_wf ctx a r :
  nul_free (ra_NetworkID a) → repo_wf r → repo_wf (SetRelayAssignment ctx a r).2.
Proof.
  intros Hnul Hwf. apply (outcome_snd _ _ _ _ (SetRelayAssignment_run ctx a r)).
  - intros _ r' [->|(net & Hnet & ->)]; [done|]. destruct Hwf as [? ? ? ? ? [Hr1 Hr2]]. split; simpl; try done.
    split; intros *; [rewrite lookup2_insert_empty by done; eauto|].
    intros Hk. destruct (Hr2 _ _ Hk) as (?&?&?&?&?&?). eexists _, _, _. by rewrite lookup2_insert_empty.
  - intros _ r' (_ & Hv & Hnet & (m1 & Hm1 & _) & (m2 & Hm2 & _) & Howner & ->).
    unfold relay_set. match goal with |- repo_wf (set_networks ?r1 (bumps ?l _)) =>
      apply (repo_wf_bumps l r1) end; [apply NoDup_singleton| |].
    { by intros id ->%list_elem_of_singleton. }
    destruct Hwf as [? ? ? ? ? Hr]. split; simpl; try done.
    apply (relays_wf_set a _ _ _ _ Hr); [done|done|by eexists|by eexists|done|done].
Qed.

Lemma RemoveRelayAssignment_wf ctx net r : repo_wf r → repo_wf (RemoveRelayAssignment ctx net r).2.
Proof.
  intros Hwf. run_op RemoveRelayAssignment. rewrite increment_eq.
  match goal with H : relayAssignments r !! net = Some ?g |- _ => rename g into inner, H into Hnet end.
  pose proof (wf_relays _ Hwf) as [Hr1 _].
  assert (∀ n d a, lookup2 (delete net (relayAssignments r)) n d = Some a ↔
    lookup2 (relayAssignments r) n d = Some a ∧ n ≠ net) as Hl.
  { clear. intros. rewrite lookup2_delete_outer. case_decide; naive_solver. }
  apply repo_wf_bumps; [apply NoDup_singleton|..]; simpl.
  - intros id ->%list_elem_of_singleton.
    match goal with H : bool_decide (inner = ∅) = false |- _ => apply bool_decide_eq_false, map_choose in H as (d & a & Ha) end.
    destruct (Hr1 net d a) as (_&_&_&_&Hm&_); [by unfold lookup2; rewrite Hnet|].
    apply (networks_of_exist r d); [apply Hwf|by apply networks_of_elem].
  - destruct Hwf as [? ? ? ? ? Hr]. split; simpl; try done.
    eapply (relays_wf_remove (λ n _ _, n ≠ net)); [done|exact Hl|..].
    + intros id k. rewrite delete_owners_lookup. split; intros [Hk Hall]; (split; [done|]).
      * intros n d a Ha Hid ->. unfold lookup2 in Ha. rewrite Hnet in Ha. eapply Hall; [|done].
        apply list_elem_of_fmap. exists (d, a). by rewrite elem_of_map_to_list.
      * intros a ([d a'] & -> & Ha%elem_of_map_to_list)%list_elem_of_fmap Hid.
        eapply (Hall net d a'); [unfold lookup2; by rewrite Hnet|done|done].
    + intros n d a Ha _. by destruct (Hr1 _ _ _ Ha) as (_&_&_&_&?&?&_).
Qed.

Lemma exec_wf ctx o r : typed o → repo_wf r → repo_wf (exec ctx o r).2.
Proof.
  destruct o; simpl; intros Ht Hwf; auto using CreateNetwork_wf, AddNode_wf, TouchNode_wf,
    UpdateNodeClientVersion_wf, RemoveNode_wf, AddMembership_wf, RemoveMembership_wf, CreateInvite_wf,
    RevokeInvite_wf, ReplaceEndpoints_wf, SetRelayAssignment_wf, RemoveRelayAssignment_wf.
  pose proof (ConsumeInviteForNode_wf now ctx inviteOrNetworkID tokenHash t nodeID r Hwf) as H.
  unfold bind. by destruct (ConsumeInviteForNode _ _ _ _ _ _ _) as [[] ?].
Qed.
