(* ===== verification/RepositoryThm.v ===== *)
(** * Properties of the in-memory repository

    Histories of operations and transactions of [internal/db/repository.go]:
    the invariant holds in every reachable state, a transaction takes effect
    whole or not at all, an invitation is consumed at most once, and the
    configuration version of a network advances with its configuration. *)

From S2P Require Import Prelude GoStd Model Repository RepositoryInv.

Open Scope Z_scope.

(** ** Configurations

    What the data plane of a network depends on: for each node its membership,
    its public key and endpoints while it is a member, and its relay
    assignment. *)
Definition member_config (r : MemoryRepository) (net nd : string)
    : option (Membership * option string * list EndpointCandidate) * option RelayAssignment :=
  ((λ m, (m, nd_PublicKey <$> nodes r !! nd, default [] (endpoints r !! nd)))
     <$> lookup2 (memberships r) net nd,
   lookup2 (relayAssignments r) net nd).

Definition same_config (net : string) (r r' : MemoryRepository) : Prop :=
  ∀ nd, member_config r' net nd = member_config r net nd.

(** The network evolves by [k] version increments, at most [c], and with
    [k = 0] its configuration is unchanged. *)
Definition evolves (net : string) (c : nat) (r r' : MemoryRepository) : Prop :=
  ∀ n, networks r !! net = Some n →
    ∃ k : nat, (k ≤ c)%nat ∧ networks r' !! net = Some (Nat.iter k bump n) ∧
      (k = 0%nat → same_config net r r').

(** An invite only moves forward in its life. *)
Definition invite_advances (r r' : MemoryRepository) : Prop :=
  ∀ id i, invites r !! id = Some i → ∃ i', invites r' !! id = Some i' ∧
    iv_ID i' = iv_ID i ∧ iv_NetworkID i' = iv_NetworkID i ∧ iv_TokenHash i' = iv_TokenHash i ∧
    iv_CreatedAt i' = iv_CreatedAt i ∧ iv_ExpiresAt i' = iv_ExpiresAt i ∧
    (∀ t, iv_ConsumedAt i = Some t → iv_ConsumedAt i' = Some t) ∧
    (∀ t, iv_RevokedAt i = Some t → iv_RevokedAt i' = Some t).

(** The freshness policy is fixed. *)
Definition same_age (r r' : MemoryRepository) : Prop := endpointMaxAge r' = endpointMaxAge r.

(** ** Histories *)
Lemma empty_wf maxAge : repo_wf (NewMemoryRepositoryWithEndpointMaxAge maxAge).
Proof. split; repeat split; intros *; simpl; try done. Qed.

(** A transaction publishes the copy on success and nothing on error. *)
Lemma WithTransaction_run {A} ctx (operation : Context → M MemoryRepository A) r :
  outcome (λ _ r', r' = r)
    (λ a r', ∃ w, operation ctx r = (Ok a, w) ∧ contextError ctx = None ∧
       r' = {| networks := networks w; nodes := nodes w; publicKeys := publicKeys w;
               memberships := memberships w; invites := invites w; inviteByToken := inviteByToken w;
               endpoints := endpoints w; relayAssignments := relayAssignments w;
               relayAssignmentOwners := relayAssignmentOwners w; endpointMaxAge := endpointMaxAge r |})
    (WithTransaction ctx (Some operation) r).
Proof.
  unfold WithTransaction. rewrite bind_check, cloneMemoryRepositoryLocked_id.
  destruct (contextError ctx); [done|]. destruct (operation ctx r) as [[a|e] w] eqn:E; [|done].
  exists w. done.
Qed.

(** A relation that every operation respects at cost one, and that composes, is
    respected by whole histories, whatever their transactions publish. *)
Class Costed (R : nat → MemoryRepository → MemoryRepository → Prop) := {
  costed_refl : ∀ c r, R c r r;
  costed_trans : ∀ c c' r1 r2 r3, R c r1 r2 → R c' r2 r3 → R (c + c')%nat r1 r3;
  costed_mono : ∀ c c' r r', (c ≤ c')%nat → R c r r' → R c' r r';
  costed_age : ∀ c r w, R c r w →
    R c r {| networks := networks w; nodes := nodes w; publicKeys := publicKeys w;
             memberships := memberships w; invites := invites w; inviteByToken := inviteByToken w;
             endpoints := endpoints w; relayAssignments := relayAssignments w;
             relayAssignmentOwners := relayAssignmentOwners w; endpointMaxAge := endpointMaxAge r |}
}.

Section Histories.
Context (R : nat → MemoryRepository → MemoryRepository → Prop) `{!Costed R}.
Hypothesis R_exec : ∀ ctx o r, repo_wf r → R 1 r (exec ctx o r).2.

Lemma exec_all_respects ctx os r :
  Forall typed os → repo_wf r → repo_wf (exec_all os ctx r).2 ∧ R (length os) r (exec_all os ctx r).2.
Proof.
  intros Hos. revert r. induction Hos as [|o os Ho Hos IH]; intros r Hwf; [split; [done|apply costed_refl]|].
  cbn [exec_all length]. unfold bind. pose proof (exec_wf ctx o r Ho Hwf) as Hwf'.
  pose proof (R_exec ctx o r Hwf) as HR. destruct (exec ctx o r) as [[[]|e] r'].
  - destruct (IH r' Hwf') as [? HR']. split; [done|]. by apply (costed_trans 1 _ _ r').
  - split; [done|]. apply (costed_mono 1); [lia|done].
Qed.

Lemma WithTransaction_respects ctx os r :
  Forall typed os → repo_wf r →
  let r' := (WithTransaction ctx (Some (exec_all os)) r).2 in repo_wf r' ∧ R (length os) r r'.
Proof.
  intros Hos Hwf. destruct (exec_all_respects ctx os r Hos Hwf) as [Hw HR].
  apply (outcome_snd _ _ (λ r', repo_wf r' ∧ R (length os) r r') _ (WithTransaction_run ctx (exec_all os) r)).
  - intros _ r' ->. split; [done|apply costed_refl].
  - intros ? r' (w & Heq & _ & ->). rewrite Heq in *. split; [by destruct Hw|by apply costed_age].
Qed.

Lemma history_respects c r r' : history c r r' → repo_wf r → repo_wf r' ∧ R c r r'.
Proof.
  induction 1 as [r|c ctx o r r' Ho Hr IH|c ctx os r r' Hos Hr IH]; intros Hwf.
  - split; [done|apply costed_refl].
  - destruct IH as [? HR]; [by apply exec_wf|]. split; [done|].
    eapply (costed_trans 1); [by apply R_exec|done].
  - destruct (WithTransaction_respects ctx os r Hos Hwf) as [Hwf' HR']. destruct (IH Hwf') as [? HR].
    split; [done|]. by eapply costed_trans.
Qed.

End Histories.

Lemma history_wf c r r' : history c r r' → repo_wf r → repo_wf r'.
Proof.
  intros Hr Hwf. assert (Costed (λ _ _ _, True)) by done. by eapply (history_respects (λ _ _ _, True)).
Qed.

Lemma reachable_wf_ maxAge r : reachable maxAge r → repo_wf r.
Proof. intros [c Hr]. eapply history_wf; [exact Hr|apply empty_wf]. Qed.

(** ** Version and configuration *)
Lemma same_config_refl net r : same_config net r r.
Proof. done. Qed.

#[global] Instance evolves_Costed net : Costed (evolves net).
Proof.
  split.
  - intros c r n Hn. exists 0%nat. split; [lia|]. split; [done|]. intros _. apply same_config_refl.
  - intros c c' r1 r2 r3 H12 H23 n Hn. destruct (H12 _ Hn) as (k1 & ? & Hn2 & Hc1).
    destruct (H23 _ Hn2) as (k2 & ? & Hn3 & Hc2). exists (k2 + k1)%nat. split; [lia|]. split.
    + by rewrite Nat.iter_add.
    + intros Hk nd. rewrite Hc2, Hc1 by lia. done.
  - intros c c' r r' Hc H n Hn. destruct (H _ Hn) as (k & ? & ?). exists k. split; [lia|done].
  - done.
Qed.

Lemma evolves_same net c r r' :
  networks r' !! net = networks r !! net → same_config net r r' → evolves net c r r'.
Proof. intros Hn Hc n Hn'. exists 0%nat. rewrite Hn. split; [lia|done]. Qed.

Lemma evolves_refl net c r : evolves net c r r.
Proof. by apply evolves_same. Qed.

#[export] Hint Resolve evolves_refl : repo.

(** A write that advances the networks of [l] and keeps the configuration of
    the other ones. *)
Lemma evolves_bumps net r r' l :
  NoDup l → networks r' = bumps l (networks r) → (net ∉ l → same_config net r r') → evolves net 1 r r'.
Proof.
  intros Hl Hn Hc n Hn'. rewrite Hn, bumps_lookup, Hn' by done. case_decide; simpl.
  - exists 1%nat. done.
  - exists 0%nat. split; [lia|auto].
Qed.

(** Operations that only write invites, or nodes without their keys. *)
Lemma evolves_fields net r r' :
  networks r' = networks r → memberships r' = memberships r → relayAssignments r' = relayAssignments r →
  (∀ nd, is_Some (lookup2 (memberships r) net nd) →
     nd_PublicKey <$> nodes r' !! nd = nd_PublicKey <$> nodes r !! nd ∧
     default [] (endpoints r' !! nd) = default [] (endpoints r !! nd)) →
  evolves net 1 r r'.
Proof.
  intros Hn Hm Hr Hnd. apply evolves_same; [by rewrite Hn|]. intros nd. unfold member_config.
  rewrite Hm, Hr. destruct (lookup2 (memberships r) net nd) as [m|] eqn:E; [|done]. simpl.
  destruct (Hnd nd) as [-> ->]; [by eexists|done].
Qed.

Lemma evolves_update_node net r id n n' :
  nodes r !! id = Some n → nd_PublicKey n' = nd_PublicKey n →
  evolves net 1 r (set_nodes r (<[id := n']> (nodes r)) (publicKeys r)).
Proof.
  intros Hn Hk. apply evolves_fields; try done. intros nd _. split; [|done]. simpl.
  destruct (decide (id = nd)) as [->|?]; [by rewrite lookup_insert_eq, Hn; simpl; rewrite Hk|].
  by rewrite lookup_insert_ne.
Qed.

Lemma AddNode_evolves net ctx n r : repo_wf r → evolves net 1 r (AddNode ctx n r).2.
Proof.
  intros Hwf. run_op AddNode. apply evolves_fields; try done. intros nd [m Hm]. split; [|done]. simpl.
  destruct (proj1 (wf_members _ Hwf) _ _ _ Hm) as (_&_&_&_&_&_&[n' Hn']).
  rewrite lookup_insert_ne; [done|congruence].
Qed.

Lemma CreateNetwork_evolves net ctx n r : evolves net 1 r (CreateNetwork ctx n r).2.
Proof.
  intros n' Hn'. exists 0%nat. split; [lia|]. run_op CreateNetwork; (split; [|done]); simpl.
  all: rewrite lookup_insert_ne; [done|]; simpl in *; congruence.
Qed.

Lemma AddMembership_evolves net ctx m r : evolves net 1 r (AddMembership ctx m r).2.
Proof.
  apply (outcome_snd _ _ _ _ (AddMembership_run ctx m r)); [intros ?? ->; by auto 1 with repo|].
  intros _ r' (_&_&_&_&_&_&->).
  apply evolves_bumps with [mb_NetworkID m]; [apply NoDup_singleton|done|].
  intros Hne%not_elem_of_cons nd. unfold member_config. rewrite lookup2_membership_added.
  rewrite decide_False by naive_solver. done.
Qed.

Lemma RemoveMembership_evolves net ctx id nd r : evolves net 1 r (RemoveMembership ctx id nd r).2.
Proof.
  apply (outcome_snd _ _ _ _ (RemoveMembership_run ctx id nd r)); [intros ?? ->; by auto 1 with repo|].
  intros _ r' (_ & [m Hm] & gone & -> & _). unfold membership_removed.
  set (r1 := set_memberships r _). pose proof (deleteRelays_lookup id gone r1) as Hrel.
  destruct (deleteRelay_other id gone r1) as (rel & own & Heq). rewrite Heq in *.
  apply evolves_bumps with [id]; [apply NoDup_singleton|done|].
  intros [Hne _]%not_elem_of_cons d. unfold member_config. simpl. f_equal.
  - unfold lookup2 in *. by rewrite lookup_insert_ne.
  - apply option_eq. intros a. simpl in Hrel. rewrite Hrel. naive_solver.
Qed.

Lemma RemoveNode_evolves net ctx nd r : evolves net 1 r (RemoveNode ctx nd r).2.
Proof.
  apply (outcome_snd _ _ _ _ (RemoveNode_run ctx nd r)); [intros ?? ->; by auto 1 with repo|].
  intros _ r' (_ & n & affected & Hn & -> & Hnd & Hmem & _ & Hrel).
  apply evolves_bumps with affected; [done|done|]. intros Hne d. unfold member_config. simpl. f_equal.
  - rewrite lookup2_fmap_delete. destruct (decide (nd = d)) as [<-|Hd].
    + destruct (lookup2 (memberships r) net nd) eqn:E; [|done].
      exfalso. apply Hne, Hmem, networks_of_elem. by eexists.
    + by rewrite !lookup_delete_ne.
  - apply option_eq. intros a. rewrite lookup2_unconcerned. split; [tauto|]. intros Ha. split; [done|].
    apply not_true_iff_false. intros Hc. by eapply Hne, Hrel.
Qed.

Lemma ReplaceEndpoints_evolves net ctx nd l r : evolves net 1 r (ReplaceEndpoints ctx nd l r).2.
Proof.
  run_op ReplaceEndpoints. rewrite incrementAll_eq.
  apply evolves_bumps with (networks_of r nd); [apply networks_of_NoDup|done|].
  intros Hne d. unfold member_config. simpl.
  destruct (lookup2 (memberships r) net d) eqn:E; [|done]. simpl.
  rewrite lookup_insert_ne; [done|]. intros ->. apply Hne, networks_of_elem. by eexists.
Qed.

Lemma SetRelayAssignment_evolves net ctx a r : evolves net 1 r (SetRelayAssignment ctx a r).2.
Proof.
  apply (outcome_snd _ _ _ _ (SetRelayAssignment_run ctx a r)).
  - intros _ r' [->|(id & Hid & ->)]; [by auto with repo|]. apply evolves_same; [done|]. intros nd.
    unfold member_config. simpl. by rewrite lookup2_insert_empty.
  - intros _ r' (_&_&_&_&_&_&->). apply evolves_bumps with [ra_NetworkID a]; [apply NoDup_singleton|done|].
    intros [Hne _]%not_elem_of_cons nd. unfold member_config. simpl. f_equal.
    by rewrite lookup2_insert, decide_False by naive_solver.
Qed.

Lemma RemoveRelayAssignment_evolves net ctx id r : evolves net 1 r (RemoveRelayAssignment ctx id r).2.
Proof.
  run_op RemoveRelayAssignment. rewrite increment_eq.
  apply evolves_bumps with [id]; [apply NoDup_singleton|done|].
  intros [Hne _]%not_elem_of_cons nd. unfold member_config. simpl. f_equal.
  by rewrite lookup2_delete_outer, decide_False.
Qed.

Lemma exec_evolves net ctx o r : repo_wf r → evolves net 1 r (exec ctx o r).2.
Proof.
  intros Hwf. destruct o; simpl.
  - apply CreateNetwork_evolves.
  - by apply AddNode_evolves.
  - run_op TouchNode. by eapply evolves_update_node.
  - run_op UpdateNodeClientVersion. by eapply evolves_update_node.
  - apply RemoveNode_evolves.
  - apply AddMembership_evolves.
  - apply RemoveMembership_evolves.
  - run_op CreateInvite. by apply evolves_fields.
  - run_op RevokeInvite. by apply evolves_fields.
  - pose proof (ConsumeInviteForNode_run now ctx inviteOrNetworkID tokenHash t nodeID r Hwf) as H.
    unfold bind. destruct (ConsumeInviteForNode _ _ _ _ _ _ _) as [[i|e] r']; unfold outcome in H; simpl in *.
    + destruct H as (?&?&_&_&_&_&_&_&_&_&->). by apply evolves_fields.
    + subst. by auto with repo.
  - apply ReplaceEndpoints_evolves.
  - apply SetRelayAssignment_evolves.
  - apply RemoveRelayAssignment_evolves.
Qed.

(** ** The life of an invitation *)
Lemma invite_advances_refl r : invite_advances r r.
Proof. intros id i Hi. exists i. done. Qed.

#[export] Hint Resolve invite_advances_refl : repo.

#[global] Instance invite_advances_Costed : Costed (λ _, invite_advances).
Proof.
  split.
  - intros _ r. apply invite_advances_refl.
  - intros _ _ r1 r2 r3 H12 H23 id i Hi. destruct (H12 _ _ Hi) as (i2 & Hi2 & ?&?&?&?&?&Hc&Hr).
    destruct (H23 _ _ Hi2) as (i3 & Hi3 & ?&?&?&?&?&Hc'&Hr'). exists i3.
    split_and!; try congruence; auto.
  - done.
  - done.
Qed.

Lemma invite_advances_same r r' : invites r' = invites r → invite_advances r r'.
Proof. intros H id i Hi. exists i. by rewrite H. Qed.

Lemma invite_advances_insert r r' id i :
  invites r' = <[id := i]> (invites r) →
  (∀ i0, invites r !! id = Some i0 →
     iv_ID i = iv_ID i0 ∧ iv_NetworkID i = iv_NetworkID i0 ∧ iv_TokenHash i = iv_TokenHash i0 ∧
     iv_CreatedAt i = iv_CreatedAt i0 ∧ iv_ExpiresAt i = iv_ExpiresAt i0 ∧
     (∀ t, iv_ConsumedAt i0 = Some t → iv_ConsumedAt i = Some t) ∧
     (∀ t, iv_RevokedAt i0 = Some t → iv_RevokedAt i = Some t)) →
  invite_advances r r'.
Proof.
  intros Heq Hi id' i' Hi'. rewrite Heq. destruct (decide (id = id')) as [->|?].
  - exists i. rewrite lookup_insert_eq. auto.
  - exists i'. by rewrite lookup_insert_ne.
Qed.

Lemma RemoveNode_invite_advances ctx nd r : invite_advances r (RemoveNode ctx nd r).2.
Proof.
  apply (outcome_snd _ _ _ _ (RemoveNode_run ctx nd r)); [intros ?? ->; by auto 1 with repo|].
  intros _ r' (_ & n & affected & _ & -> & _) id i Hi. simpl. rewrite lookup_fmap, Hi. simpl.
  case_bool_decide; (eexists; split; [done|]); by rewrite ?cloneInvite_id.
Qed.

Lemma exec_invite_advances ctx o r : repo_wf r → invite_advances r (exec ctx o r).2.
Proof.
  intros Hwf. destruct o; simpl; eauto using RemoveNode_invite_advances.
  - run_op CreateNetwork; by apply invite_advances_same.
  - run_op AddNode; by apply invite_advances_same.
  - run_op TouchNode; by apply invite_advances_same.
  - run_op UpdateNodeClientVersion; by apply invite_advances_same.
  - apply (outcome_snd _ _ _ _ (AddMembership_run ctx m r)); [intros ?? ->; by auto 1 with repo|]. intros _ r' (_&_&_&_&_&_&->). by apply invite_advances_same.
  - apply (outcome_snd _ _ _ _ (RemoveMembership_run ctx networkID nodeID r)); [intros ?? ->; by auto 1 with repo|].
    intros _ r' (_ & _ & gone & -> & _). apply invite_advances_same. unfold membership_removed.
    edestruct deleteRelay_other as (rel & own & ->). done.
  - run_op CreateInvite. eapply invite_advances_insert; [done|]. congruence.
  - run_op RevokeInvite. eapply invite_advances_insert; [done|]. intros i0 Hi0.
    rewrite cloneInvite_id. simpl. split_and!; congruence.
  - pose proof (ConsumeInviteForNode_run now ctx inviteOrNetworkID tokenHash t nodeID r Hwf) as H.
    unfold bind. destruct (ConsumeInviteForNode _ _ _ _ _ _ _) as [[i|e] r']; unfold outcome in H; simpl in *.
    + destruct H as (?&?&_&_&?&?&?&_&_&->&->). eapply invite_advances_insert; [done|].
      intros i0 Hi0. simpl. split_and!; congruence.
    + subst. by auto with repo.
  - run_op ReplaceEndpoints. apply invite_advances_same. by rewrite incrementAll_eq.
  - apply (outcome_snd _ _ _ _ (SetRelayAssignment_run ctx a r)).
    + intros _ r' [->|(id & Hid & ->)]; [by auto with repo|by apply invite_advances_same].
    + intros _ r' (_&_&_&_&_&_&->). by apply invite_advances_same.
  - run_op RemoveRelayAssignment; by apply invite_advances_same.
Qed.

(** A used or revoked invitation is refused, whichever way it is looked up. *)
Lemma Consume_settled now ctx v h t nd r id i :
  repo_wf r → invites r !! id = Some i → iv_TokenHash i = h →
  is_Some (iv_ConsumedAt i) ∨ is_Some (iv_RevokedAt i) →
  is_ok (ConsumeInviteForNode now ctx v h t nd r).1 = false.
Proof.
  intros Hwf Hi Hh Hset. pose proof (ConsumeInviteForNode_run now ctx v h t nd r Hwf) as H.
  destruct (ConsumeInviteForNode _ _ _ _ _ _ _) as [[i'|e] r']; [|done]. exfalso.
  destruct H as (id' & i0 & _ & Hl & Hi0 & Hc & Hr & _).
  destruct (inviteByLookup_Some _ _ _ _ Hwf Hl) as (i1 & Hi1 & Hh1 & _).
  destruct (wf_invites _ Hwf) as [Hw _]. destruct (Hw _ _ Hi) as (_ & Htok & _).
  destruct (Hw _ _ Hi1) as (_ & Htok1 & _). simplify_eq.
  rewrite Hh1 in Htok1. simplify_eq. destruct Hset as [[? ?]|[? ?]]; congruence.
Qed.

(** ** A small history, for the witnesses *)
Definition demo_network : Network :=
  {| nw_ID := "net"; nw_Name := "lab"; nw_IPv4Pool := "10.0.0.0/29"; nw_OwnerID := "owner";
     nw_ConfigVersion := 0; nw_CreatedAt := 1 |}.
Definition demo_node (id key : string) : Node :=
  {| nd_ID := id; nd_DisplayName := id; nd_PublicKey := key; nd_Platform := "linux";
     nd_ClientVersion := "1"; nd_LastSeen := 0 |}.
Definition demo_member (id : string) (ip : IP) : Membership :=
  {| mb_NetworkID := "net"; mb_NodeID := id; mb_VirtualIPv4 := ip; mb_Role := RoleMember;
     mb_Status := MembershipActive |}.
Definition demo_invite : Invite :=
  {| iv_ID := "inv"; iv_NetworkID := "net"; iv_TokenHash := "hash"; iv_ExpiresAt := 100;
     iv_ConsumedAt := None; iv_RevokedAt := None; iv_ConsumedByNodeID := ""; iv_CreatedAt := 1 |}.
Definition demo_endpoint (id : string) (t : Time) : EndpointCandidate :=
  {| ep_NodeID := id; ep_Address := [192; 0; 2; 1]; ep_Port := 51820; ep_Family := FamilyIPv4;
     ep_Interface := "eth0"; ep_Priority := 1; ep_ObservedAt := t |}.
Definition demo_relay : RelayAssignment :=
  {| ra_ID := "rel"; ra_NetworkID := "net"; ra_NodeID := "a"; ra_RelayNodeID := "b";
     ra_Address := [192; 0; 2; 1]; ra_Port := 51820; ra_Family := FamilyIPv4;
     ra_Status := RelayAssignmentActive; ra_AssignedAt := 2; ra_ExpiresAt := None |}.
Definition demo_ops : list op :=
  [OCreateNetwork demo_network; OAddNode (demo_node "a" "ka"); OAddNode (demo_node "b" "kb");
   OAddMembership (demo_member "a" [10; 0; 0; 1]); OAddMembership (demo_member "b" [10; 0; 0; 2]);
   OReplaceEndpoints "b" [demo_endpoint "b" 5]; OSetRelayAssignment demo_relay; OCreateInvite demo_invite].
Definition demo : MemoryRepository := (exec_all demo_ops liveContext NewMemoryRepository).2.
Definition demo_consumed : MemoryRepository :=
  (ConsumeInviteForNode 7 liveContext "net" "hash" 6 "a" demo).2.

Lemma demo_typed : Forall typed demo_ops.
Proof.
  repeat constructor; simpl; unfold int64, MaxInt64, is_byte; try lia.
  unfold nul_free. by apply (bool_decide_eq_false_1 _).
Qed.

Lemma demo_reachable : reachable DefaultEndpointMaxAge demo.
Proof.
  assert (demo = (WithTransaction liveContext (Some (exec_all demo_ops)) NewMemoryRepository).2) as ->
    by (vm_compute; reflexivity).
  exists (length demo_ops + 0)%nat. apply history_transaction with liveContext; [apply demo_typed|].
  apply history_refl.
Qed.

(** ** Claims *)

(** C1: in every state reached from the empty repository by operations and
    transactions, with any arguments and any outcome, the maps agree: keys are
    the identifiers of what they index, [publicKeys] and [inviteByToken] are
    the exact inverses of the node keys and the token hashes, every membership
    is in an existing network and of an existing node with a four-byte address
    inside the pool that no other member has, endpoint lists are validated,
    sorted and duplicate free, and relay assignments join two members and are
    owned by their identifier. *)
Theorem reachable_wf maxAge r : reachable maxAge r → repo_wf r.
Proof. apply reachable_wf_. Qed.

Lemma reachable_wf_witness :
  reachable DefaultEndpointMaxAge demo ∧ repo_wf demo ∧ size (nodes demo) = 2%nat.
Proof.
  split; [exact demo_reachable|]. split; [exact (reachable_wf _ _ demo_reachable)|]. reflexivity.
Defined.

Lemma exec_age ctx o r : repo_wf r → same_age r (exec ctx o r).2.
Proof.
  intros Hwf. destruct o; simpl.
  - by run_op CreateNetwork.
  - by run_op AddNode.
  - by run_op TouchNode.
  - by run_op UpdateNodeClientVersion.
  - apply (outcome_snd _ _ _ _ (RemoveNode_run ctx nodeID r)); [intros ?? ->; by auto 1 with repo|]. by intros _ r' (_&?&?&_&->&_).
  - apply (outcome_snd _ _ _ _ (AddMembership_run ctx m r)); [intros ?? ->; by auto 1 with repo|]. by intros _ r' (_&_&_&_&_&_&->).
  - apply (outcome_snd _ _ _ _ (RemoveMembership_run ctx networkID nodeID r)); [intros ?? ->; by auto 1 with repo|].
    intros _ r' (_ & _ & gone & -> & _). unfold membership_removed.
    edestruct deleteRelay_other as (rel & own & ->). done.
  - by run_op CreateInvite.
  - by run_op RevokeInvite.
  - pose proof (ConsumeInviteForNode_run now ctx inviteOrNetworkID tokenHash t nodeID r Hwf) as H.
    unfold bind. destruct (ConsumeInviteForNode _ _ _ _ _ _ _) as [[i|e] r']; unfold outcome in H; simpl in *.
    + by destruct H as (?&?&_&_&_&_&_&_&_&_&->).
    + subst. by auto with repo.
  - run_op ReplaceEndpoints. by rewrite incrementAll_eq.
  - apply (outcome_snd _ _ _ _ (SetRelayAssignment_run ctx a r)).
    + by intros _ r' [->|(id & Hid & ->)].
    + by intros _ r' (_&_&_&_&_&_&->).
  - by run_op RemoveRelayAssignment.
Qed.

#[global] Instance same_age_Costed : Costed (λ _, same_age).
Proof. unfold same_age. split; cbn; intros; congruence. Qed.

Lemma exec_all_age ctx os r :
  Forall typed os → repo_wf r → same_age r (exec_all os ctx r).2.
Proof. intros Hos Hwf. by eapply (exec_all_respects (λ _, same_age) exec_age). Qed.



(** C10: the configuration version tells configurations apart. Along any history
    a network is never deleted and only its version changes, by whole
    increments, no more than there were operations; when it received none, nothing that its snapshots show has
    changed: the members with their addresses and states, their public keys and
    endpoints, and the relay assignments. *)
Theorem version_tracks_configuration c r r' net n :
  repo_wf r → history c r r' → networks r !! net = Some n →
  ∃ k : nat, (k ≤ c)%nat ∧ networks r' !! net = Some (Nat.iter k bump n) ∧
    (k = 0%nat → ∀ nd, member_config r' net nd = member_config r net nd).
Proof.
  intros Hwf Hr Hn. by eapply (history_respects (evolves net) (exec_evolves net)).
Qed.

Lemma version_tracks_configuration_witness :
  ∃ r', r' = (RemoveMembership liveContext "net" "b" demo).2 ∧
    nw_ConfigVersion <$> networks demo !! "net" = Some 5 ∧
    ∃ k : nat, (k ≤ 1)%nat ∧ networks r' !! "net" = Some (Nat.iter k bump (nw_with_version demo_network 5)) ∧
    (k = 0%nat → ∀ nd, member_config r' "net" nd = member_config demo "net" nd).
Proof.
  eexists. split; [reflexivity|]. split; [reflexivity|].
  apply version_tracks_configuration.
  - exact (reachable_wf_ _ _ demo_reachable).
  - apply (history_op 0 liveContext (ORemoveMembership "net" "b")); [exact I|apply history_refl].
  - reflexivity.
Defined.

(** C5: an invitation is used at most once. After a successful consumption, and
    after any further history of operations and transactions, every attempt to
    consume an invitation with that token fails, by invite or by network
    identifier, at any time and for any node. *)
Theorem invite_consumed_once c now ctx v h t nd r i r1 r' now' ctx' v' t' nd' :
  repo_wf r → ConsumeInviteForNode now ctx v h t nd r = (Ok i, r1) → history c r1 r' →
  is_ok (ConsumeInviteForNode now' ctx' v' h t' nd' r').1 = false.
Proof.
  intros Hwf Hc Hr.
  pose proof (ConsumeInviteForNode_wf now ctx v h t nd r Hwf) as Hwf1.
  pose proof (ConsumeInviteForNode_run now ctx v h t nd r Hwf) as Hrun. rewrite Hc in *. unfold outcome in Hrun. simpl in *.
  destruct Hrun as (id & i0 & _ & Hl & Hi0 & _ & _ & _ & _ & -> & ->).
  destruct (inviteByLookup_Some _ _ _ _ Hwf Hl) as (? & Hi & Hh & _). simplify_eq. simpl in *.
  destruct (history_respects (λ _, invite_advances) exec_invite_advances _ _ _ Hr Hwf1) as [Hwf' Hadv].
  destruct (Hadv id (iv_consumed i0 (if IsZero t then now else t) nd)) as (i' & Hi' & _ & _ & Hh & _ & _ & Hcons & _);
    [apply lookup_insert_eq|].
  eapply Consume_settled; [done|exact Hi'|done|]. left. rewrite (Hcons _ eq_refl). by eexists.
Qed.

Lemma invite_consumed_once_witness :
  ∃ i, ConsumeInviteForNode 7 liveContext "net" "hash" 6 "a" demo = (Ok i, demo_consumed) ∧
    is_ok (ConsumeInviteForNode 9 liveContext "inv" "hash" 8 "b" demo_consumed).1 = false.
Proof.
  eexists. split; [vm_compute; reflexivity|].
  eapply (invite_consumed_once 0 7 liveContext "net" "hash" 6 "a" demo).
  - exact (reachable_wf_ _ _ demo_reachable).
  - vm_compute. reflexivity.
  - vm_compute. apply history_refl.
Defined.

(** A revoked invitation can never be consumed: once [RevokeInvite] has
    succeeded on an unused invitation, every later attempt with its token fails,
    after any history. *)
Theorem revoked_never_consumed c ctx id t r i r' now' ctx' v' t' nd' :
  repo_wf r → invites r !! id = Some i → RevokeInvite ctx id t r = (Ok tt, (RevokeInvite ctx id t r).2) →
  history c (RevokeInvite ctx id t r).2 r' →
  is_ok (ConsumeInviteForNode now' ctx' v' (iv_TokenHash i) t' nd' r').1 = false.
Proof.
  intros Hwf Hi Hok Hr. pose proof (RevokeInvite_wf ctx id t r Hwf) as Hwf1.
  assert (∃ i1 t1, invites (RevokeInvite ctx id t r).2 !! id = Some i1 ∧ iv_TokenHash i1 = iv_TokenHash i ∧
            iv_RevokedAt i1 = Some t1) as (i1 & t1 & Hi1 & Hh & Hrev).
  { revert Hok. unfold RevokeInvite. run_m; simplify_eq; intros [=]; try done; [by eauto|].
    rewrite cloneInvite_id. simpl. rewrite lookup_insert_eq. eauto. }
  destruct (history_respects (λ _, invite_advances) exec_invite_advances _ _ _ Hr Hwf1) as [Hwf' Hadv].
  destruct (Hadv _ _ Hi1) as (i' & Hi' & _ & _ & Hh' & _ & _ & _ & Hrev').
  eapply Consume_settled; [done|exact Hi'|congruence|]. right. rewrite (Hrev' _ Hrev). by eexists.
Qed.

Lemma revoked_never_consumed_witness :
  is_ok (ConsumeInviteForNode 9 liveContext "net" "hash" 8 "" (RevokeInvite liveContext "inv" 5 demo).2).1 = false.
Proof.
  apply (revoked_never_consumed 0 liveContext "inv" 5 demo demo_invite).
  - exact (reachable_wf_ _ _ demo_reachable).
  - reflexivity.
  - vm_compute. reflexivity.
  - apply history_refl.
Defined.

(** Removing a node removes it everywhere. Afterwards it is not stored, no
    key, membership, endpoint list, relay assignment or consumed invitation
    refers to it, and the memberships, endpoints and keys of every other node
    are what they were. *)
Theorem RemoveNode_complete ctx nd r r' :
  repo_wf r → RemoveNode ctx nd r = (Ok tt, r') →
  nodes r' !! nd = None ∧ endpoints r' !! nd = None ∧
  (∀ k, publicKeys r' !! k ≠ Some nd) ∧
  (∀ net, lookup2 (memberships r') net nd = None) ∧
  (∀ net d a, lookup2 (relayAssignments r') net d = Some a → d ≠ nd ∧ ra_RelayNodeID a ≠ nd) ∧
  (∀ id i, invites r' !! id = Some i → iv_ConsumedByNodeID i ≠ nd) ∧
  (∀ d, d ≠ nd → nodes r' !! d = nodes r !! d ∧ endpoints r' !! d = endpoints r !! d ∧
     ∀ net, lookup2 (memberships r') net d = lookup2 (memberships r) net d).
Proof.
  intros Hwf Hrun. pose proof (RemoveNode_run ctx nd r) as H. rewrite Hrun in H. unfold outcome in H. simpl in H.
  destruct H as (_ & n & affected & Hn & -> & _). simpl.
  destruct (wf_nodes _ Hwf) as [Hn1 Hn2]. destruct (Hn1 _ _ Hn) as (Hid & Hv & Hk).
  split_and!.
  - apply lookup_delete_eq.
  - apply lookup_delete_eq.
  - intros k. rewrite lookup_delete_Some. intros [Hne Hk']. destruct (Hn2 _ _ Hk') as (n' & Hn' & <-). congruence.
  - intros net. by rewrite lookup2_fmap_delete, decide_True.
  - intros net d a [Ha Hc]%lookup2_unconcerned. apply not_true_iff_false in Hc. rewrite concerns_spec in Hc.
    destruct (proj1 (wf_relays _ Hwf) _ _ _ Ha) as (_ & <- & _). tauto.
  - intros id i. rewrite lookup_fmap_Some. intros (i0 & <- & _). case_bool_decide as E; [|done].
    rewrite cloneInvite_id. simpl. intros Heq. unfold ValidateNode in Hv. rewrite Hid, <- Heq in Hv. done.
  - intros d Hd. rewrite !lookup_delete_ne by done. split_and!; try done.
    intros net. rewrite lookup2_fmap_delete. by rewrite decide_False.
Qed.

Lemma RemoveNode_complete_witness :
  ∃ r', RemoveNode liveContext "b" demo = (Ok tt, r') ∧ lookup2 (memberships r') "net" "b" = None ∧
    lookup2 (relayAssignments demo) "net" "a" = Some demo_relay ∧ lookup2 (relayAssignments r') "net" "a" = None.
Proof.
  exists (RemoveNode liveContext "b" demo).2.
  assert (RemoveNode liveContext "b" demo = (Ok tt, (RemoveNode liveContext "b" demo).2)) as H
    by (vm_compute; reflexivity).
  split; [exact H|].
  destruct (RemoveNode_complete liveContext "b" demo _ (reachable_wf_ _ _ demo_reachable) H) as (_&_&_&Hm&_).
  split; [apply Hm|]. split; vm_compute; reflexivity.
Defined.
