(* ===== verification/Snapshot.v ===== *)
(** * Snapshots

    [BuildSnapshotAt] of [internal/db/repository.go]: the view of a network
    that one member receives.  [wall] is the wall clock, read when the caller
    passes the zero time. *)

From S2P Require Import Prelude GoStd Model Repository RepositoryInv RepositoryThm.

Open Scope Z_scope.

Definition peer_less : Peer → Peer → bool :=
  lex_less pr_NodeID sltb
    (lex_less pr_PublicKey sltb (λ x y, sltb (IP_String (pr_VirtualIPv4 x)) (IP_String (pr_VirtualIPv4 y)))).
Definition sortPeersByNodeID : list Peer → list Peer := SliceStable peer_less.

Definition clonePeer (p : Peer) : Peer :=
  {| pr_NodeID := pr_NodeID p; pr_DisplayName := pr_DisplayName p; pr_PublicKey := pr_PublicKey p;
     pr_VirtualIPv4 := cloneIP (pr_VirtualIPv4 p); pr_Node := cloneNode (pr_Node p);
     pr_Membership := cloneMembership (pr_Membership p); pr_Endpoints := cloneEndpoints (pr_Endpoints p) |}.

Definition cloneSnapshot (s : NetworkSnapshot) : NetworkSnapshot :=
  {| sn_NetworkID := sn_NetworkID s; sn_Generation := sn_Generation s; sn_ConfigVersion := sn_ConfigVersion s;
     sn_LocalNodeID := sn_LocalNodeID s; sn_LocalVirtualIPv4 := cloneIP (sn_LocalVirtualIPv4 s);
     sn_Peers := clonePeer <$> sn_Peers s;
     sn_RelayAssignment := cloneRelayAssignment <$> sn_RelayAssignment s;
     sn_Relay := cloneRelayAssignment <$> sn_Relay s;
     sn_GeneratedAt := sn_GeneratedAt s |}.

Definition relayAssignmentUsable (a : RelayAssignment) (now : Time) : bool :=
  if After (ra_AssignedAt a) now then false
  else match ra_ExpiresAt a with None => true | Some t => Before now t end.

Definition membershipIsActiveLocked (r : MemoryRepository) (networkID nodeID : string) : bool :=
  match lookup2 (memberships r) networkID nodeID with
  | Some m => bool_decide (mb_Status m = MembershipActive)
  | None => false
  end.

(** The body of the loop over the members: [None] is [continue]. *)
Definition snapshot_peer (r : MemoryRepository) (networkMemberships : gmap string Membership)
    (localNodeID : string) (now : Time) (nodeID : string) : option Peer :=
  if bool_decide (nodeID = localNodeID) then None else
  match networkMemberships !! nodeID with
  | None => None
  | Some membership =>
    if negb (bool_decide (mb_Status membership = MembershipActive)) then None else
    match nodes r !! nodeID with
    | None => None
    | Some node =>
      let freshEndpoints := cloneEndpoint <$>
        filter (λ e, IsFreshEndpoint e now (endpointMaxAge r) = true) (default [] (endpoints r !! nodeID)) in
      Some {| pr_NodeID := nd_ID node; pr_DisplayName := nd_DisplayName node;
              pr_PublicKey := nd_PublicKey node; pr_VirtualIPv4 := cloneIP (mb_VirtualIPv4 membership);
              pr_Node := cloneNode node; pr_Membership := cloneMembership membership;
              pr_Endpoints := sortEndpointCandidates freshEndpoints |}
    end
  end.

Definition snapshot_relay (r : MemoryRepository) (networkID localNodeID : string) (now : Time)
    : option RelayAssignment :=
  match lookup2 (relayAssignments r) networkID localNodeID with
  | Some selected =>
    if bool_decide (ra_Status selected = RelayAssignmentActive) && relayAssignmentUsable selected now &&
       membershipIsActiveLocked r networkID (ra_NodeID selected) &&
       membershipIsActiveLocked r networkID (ra_RelayNodeID selected)
    then Some (cloneRelayAssignment selected) else None
  | None => None
  end.

Definition BuildSnapshotAt (wall : Time) (ctx : Context) (networkID localNodeID : string) (now : Time)
    : M MemoryRepository NetworkSnapshot :=
  check (contextError ctx) ;;
  let now := if IsZero now then wall else now in
  let! r := get in
  match networks r !! networkID with
  | None => throw ErrNotFound
  | Some network =>
    let networkMemberships := default ∅ (memberships r !! networkID) in
    match networkMemberships !! localNodeID with
    | None => throw ErrNotFound
    | Some localMembership =>
      if negb (bool_decide (mb_Status localMembership = MembershipActive)) then throw ErrNotFound else
      match nodes r !! localNodeID with
      | None => throw ErrNotFound
      | Some _ =>
        let memberIDs := SliceStable sltb (map_to_list networkMemberships).*1 in
        let peers := sortPeersByNodeID (omap (snapshot_peer r networkMemberships localNodeID now) memberIDs) in
        let relay := snapshot_relay r networkID localNodeID now in
        ret (cloneSnapshot
          {| sn_NetworkID := nw_ID network; sn_Generation := nw_ConfigVersion network;
             sn_ConfigVersion := nw_ConfigVersion network; sn_LocalNodeID := localNodeID;
             sn_LocalVirtualIPv4 := cloneIP (mb_VirtualIPv4 localMembership); sn_Peers := peers;
             sn_RelayAssignment := relay; sn_Relay := cloneRelayAssignment <$> relay;
             sn_GeneratedAt := now |})
      end
    end
  end.

(** [BuildSnapshot] uses the wall clock. *)
Definition BuildSnapshot (wall : Time) (ctx : Context) (networkID localNodeID : string)
    : M MemoryRepository NetworkSnapshot :=
  BuildSnapshotAt wall ctx networkID localNodeID wall.

(** ** Lemmas *)
Lemma clonePeer_id p : clonePeer p = p.
Proof.
  destruct p. unfold clonePeer, cloneNode. simpl. by rewrite cloneIP_id, cloneMembership_id, cloneEndpoints_id.
Qed.

Lemma cloneSnapshot_id s : cloneSnapshot s = s.
Proof.
  destruct s as [????? peers [ra|] [re|] ?]; unfold cloneSnapshot; simpl;
    rewrite cloneIP_id, ?cloneRelayAssignment_id; f_equal;
    rewrite <- (list_fmap_id peers) at 2; apply list_fmap_ext; intros; apply clonePeer_id.
Qed.

#[global] Instance peer_less_StrictWeak : StrictWeak peer_less.
Proof. apply _. Qed.

Lemma filter_sorted_id l P `{!∀ x : EndpointCandidate, Decision (P x)} :
  sorted_by endpoint_less l → sortEndpointCandidates (filter P l) = filter P l.
Proof. intros Hl. apply SliceStable_id. by apply StronglySorted_filter. Qed.

(** The peer a member of the network becomes, on well-formed state. *)
Definition peer_of (r : MemoryRepository) (now : Time) (m : Membership) (n : Node) : Peer :=
  {| pr_NodeID := nd_ID n; pr_DisplayName := nd_DisplayName n; pr_PublicKey := nd_PublicKey n;
     pr_VirtualIPv4 := mb_VirtualIPv4 m; pr_Node := n; pr_Membership := m;
     pr_Endpoints := filter (λ e, IsFreshEndpoint e now (endpointMaxAge r) = true)
                       (default [] (endpoints r !! nd_ID n)) |}.

Lemma snapshot_peer_Some r ms net local now nd p :
  repo_wf r → ms = default ∅ (memberships r !! net) →
  snapshot_peer r ms local now nd = Some p ↔
  ∃ m n, nd ≠ local ∧ lookup2 (memberships r) net nd = Some m ∧ mb_Status m = MembershipActive ∧
    nodes r !! nd = Some n ∧ nd_ID n = nd ∧ p = peer_of r now m n.
Proof.
  intros Hwf ->. unfold snapshot_peer. rewrite lookup2_default. split.
  - intros H. repeat (case_match; simplify_eq). rewrite negb_false_iff, bool_decide_eq_true, bool_decide_eq_false in *.
    match goal with H : nodes r !! nd = Some ?n |- _ => destruct (proj1 (wf_nodes _ Hwf) _ _ H) as (Hid & _) end.
    eexists _, _. split_and!; eauto. unfold peer_of. rewrite cloneIP_id, cloneMembership_id. f_equal.
    rewrite (cloneEndpoints_id (filter _ _)), Hid. destruct (endpoints r !! nd) as [l|] eqn:E; [|done].
    apply filter_sorted_id. by destruct (wf_endpoints _ Hwf _ _ E) as (_&?&_).
  - intros (m & n & Hne & Hm & Hact & Hn & Hid & ->).
    rewrite bool_decide_eq_false_2, Hm, bool_decide_eq_true_2, Hn by done. simpl. f_equal.
    unfold peer_of. rewrite cloneIP_id, cloneMembership_id. f_equal.
    rewrite (cloneEndpoints_id (filter _ _)), Hid. destruct (endpoints r !! nd) as [l|] eqn:E; [|done].
    apply filter_sorted_id. by destruct (wf_endpoints _ Hwf _ _ E) as (_&?&_).
Qed.

Definition by_NodeID (p q : Peer) : Prop := sltb (pr_NodeID p) (pr_NodeID q) = true.

Lemma snapshot_peers_sorted r ms net local now ids :
  repo_wf r → ms = default ∅ (memberships r !! net) → ids = SliceStable sltb (map_to_list ms).*1 →
  StronglySorted by_NodeID (omap (snapshot_peer r ms local now) ids).
Proof.
  intros Hwf Hms ->. eapply StronglySorted_omap.
  - apply SliceStable_strict, NoDup_fst_map_to_list.
  - intros x y p q Hxy Hp Hq. unfold by_NodeID.
    apply (snapshot_peer_Some r ms net) in Hp as (?&?&_&_&_&_&<-&->); [|done..].
    apply (snapshot_peer_Some r ms net) in Hq as (?&?&_&_&_&_&<-&->); [|done..]. done.
Qed.

Lemma sortPeers_id l : StronglySorted by_NodeID l → sortPeersByNodeID l = l.
Proof.
  intros Hl. apply SliceStable_id. eapply StronglySorted_impl; [exact Hl|]. unfold by_NodeID.
  intros p q Hpq. unfold peer_less, lex_less at 1. rewrite decide_False.
  - by apply (less_asym sltb).
  - intros Heq. rewrite Heq, sltb_irrefl in Hpq. done.
Qed.

(** What a successful snapshot is. *)
Record snapshot_of (r : MemoryRepository) (net local : string) (now : Time) (s : NetworkSnapshot) : Prop := {
  so_network : ∃ n, networks r !! net = Some n ∧ sn_NetworkID s = net ∧
    sn_ConfigVersion s = nw_ConfigVersion n ∧ sn_Generation s = nw_ConfigVersion n;
  so_local : ∃ m, lookup2 (memberships r) net local = Some m ∧ mb_Status m = MembershipActive ∧
    sn_LocalNodeID s = local ∧ sn_LocalVirtualIPv4 s = mb_VirtualIPv4 m;
  so_peers : ∀ p, p ∈ sn_Peers s ↔
    ∃ nd m n, nd ≠ local ∧ lookup2 (memberships r) net nd = Some m ∧ mb_Status m = MembershipActive ∧
      nodes r !! nd = Some n ∧ p = peer_of r now m n;
  so_sorted : StronglySorted by_NodeID (sn_Peers s);
  so_relay : sn_Relay s = snapshot_relay r net local now ∧ sn_RelayAssignment s = snapshot_relay r net local now;
  so_time : sn_GeneratedAt s = now
}.

Lemma BuildSnapshotAt_run wall ctx net local now r :
  repo_wf r →
  outcome (λ e r', r' = r ∧ (contextError ctx = Some e ∨ e = ErrNotFound ∧
      membershipIsActiveLocked r net local = false))
    (λ s r', r' = r ∧ contextError ctx = None ∧ membershipIsActiveLocked r net local = true ∧
       snapshot_of r net local (if IsZero now then wall else now) s)
    (BuildSnapshotAt wall ctx net local now r).
Proof.
  intros Hwf. pose proof (wf_members _ Hwf) as [Hm1 _].
  unfold BuildSnapshotAt, membershipIsActiveLocked. autorewrite with monad.
  destruct (contextError ctx) as [e|] eqn:Hctx; [split; auto|]. autorewrite with monad. cbv zeta.
  rewrite lookup2_default. set (now' := if IsZero now then wall else now).
  destruct (lookup2 (memberships r) net local) as [m|] eqn:Hm.
  2: { destruct (networks r !! net); rewrite run_throw, outcome_err; split; auto. }
  destruct (Hm1 _ _ _ Hm) as (_&_&_&_&_&(n & Hn & _)&[nd Hnd]). rewrite Hn, Hnd.
  case_bool_decide as Hact; simpl; [|rewrite run_throw, outcome_err; split; auto].
  rewrite run_ret, outcome_ok. split_and!; try done. rewrite cloneSnapshot_id.
  pose proof (snapshot_peers_sorted r _ net local now' _ Hwf eq_refl eq_refl) as Hs.
  split; simpl; rewrite ?(sortPeers_id _ Hs); try done.
  - exists n. by destruct (wf_networks _ Hwf _ _ Hn) as (-> & _).
  - exists m. by rewrite cloneIP_id.
  - intros p. rewrite list_elem_of_omap. split.
    + intros (x & Hx & Hp). apply (snapshot_peer_Some r _ net) in Hp as (m' & n' & ?&?&?&?&?&->); [|done..].
      by exists x, m', n'.
    + intros (x & m' & n' & Hne & Hm' & Ha & Hn' & ->). exists x. split.
      * apply SliceStable_elem, list_elem_of_fmap. exists (x, m'). split; [done|].
        by rewrite elem_of_map_to_list, lookup2_default.
      * apply (snapshot_peer_Some r _ net); [done..|]. exists m', n'.
        by destruct (proj1 (wf_nodes _ Hwf) _ _ Hn') as (? & _).
  - destruct (snapshot_relay r net local now'); simpl; [by rewrite cloneRelayAssignment_id|done].
Qed.

(** ** Consequences for the receiver *)
Lemma snapshot_addresses r net local now s :
  repo_wf r → snapshot_of r net local now s →
  NoDup (sn_LocalVirtualIPv4 s :: (pr_VirtualIPv4 <$> sn_Peers s)).
Proof.
  intros Hwf [_ (m & Hm & _ & _ & Hip) Hp Hs _ _]. destruct (wf_members _ Hwf) as [Hm1 Hm2].
  constructor.
  - intros (p & Heq & Hin)%list_elem_of_fmap. apply Hp in Hin as (nd & m' & n & Hne & Hm' & _ & _ & ->).
    simpl in Heq. apply Hne. eapply Hm2; [exact Hm'|exact Hm|congruence].
  - apply NoDup_fmap_inj_on.
    + eapply StronglySorted_irrefl_NoDup; [|exact Hs]. unfold by_NodeID. intros x. by rewrite sltb_irrefl.
    + intros p q (nd & m1 & n1 & _ & Hm1' & _ & Hn1 & ->)%Hp (nd' & m2 & n2 & _ & Hm2' & _ & Hn2 & ->)%Hp Heq.
      simpl in Heq. assert (nd = nd') as <- by eauto. congruence.
Qed.

Lemma snapshot_keys r net local now s :
  repo_wf r → snapshot_of r net local now s →
  NoDup (pr_PublicKey <$> sn_Peers s) ∧
  ∀ p n, p ∈ sn_Peers s → nodes r !! local = Some n → pr_PublicKey p ≠ nd_PublicKey n.
Proof.
  intros Hwf [_ _ Hp Hs _ _]. destruct (wf_nodes _ Hwf) as [Hn1 _].
  assert (∀ nd nd' n n', nodes r !! nd = Some n → nodes r !! nd' = Some n' →
    nd_PublicKey n = nd_PublicKey n' → nd = nd') as Hinj.
  { intros nd nd' n n' Hn Hn' Heq. destruct (Hn1 _ _ Hn) as (_&_&Hk). destruct (Hn1 _ _ Hn') as (_&_&Hk').
    congruence. }
  split.
  - apply NoDup_fmap_inj_on.
    + eapply StronglySorted_irrefl_NoDup; [|exact Hs]. unfold by_NodeID. intros x. by rewrite sltb_irrefl.
    + intros p q (nd & m1 & n1 & _ & Hm1' & _ & Hn1' & ->)%Hp (nd' & m2 & n2 & _ & Hm2' & _ & Hn2' & ->)%Hp Heq.
      simpl in Heq. assert (nd = nd') as <- by eauto. congruence.
  - intros p n (nd & m & n' & Hne & _ & _ & Hn' & ->)%Hp Hn Heq. simpl in Heq. apply Hne. eauto.
Qed.

Lemma peer_of_valid r net now nd m n :
  repo_wf r → lookup2 (memberships r) net nd = Some m → nodes r !! nd = Some n →
  length (mb_VirtualIPv4 m) = 4%nat ∧ Forall is_byte (mb_VirtualIPv4 m) ∧
  Forall (λ e, e ∈ default [] (endpoints r !! nd) ∧ ValidateEndpointCandidate e = None ∧
    IsFreshEndpoint e now (endpointMaxAge r) = true) (pr_Endpoints (peer_of r now m n)).
Proof.
  intros Hwf Hm Hn. destruct (proj1 (wf_members _ Hwf) _ _ _ Hm) as (_&_&_&?&?&_). split_and!; try done.
  destruct (proj1 (wf_nodes _ Hwf) _ _ Hn) as (Hid & _). simpl. rewrite Hid.
  apply Forall_forall. intros e [Hf He]%list_elem_of_filter. split_and!; try done.
  destruct (endpoints r !! nd) as [l|] eqn:E; [|by apply elem_of_nil in He].
  destruct (wf_endpoints _ Hwf _ _ E) as (_&_&_&Hv). rewrite Forall_forall in Hv. by apply Hv.
Qed.

(** ** Equal versions, equal data planes *)

(** What the data plane reads of a snapshot: the peers without their display
    data, and the relay. *)
Definition peer_dataplane (p : Peer) : string * string * IP * list EndpointCandidate :=
  (pr_NodeID p, pr_PublicKey p, pr_VirtualIPv4 p, pr_Endpoints p).
Definition dataplane (s : NetworkSnapshot)
    : IP * list (string * string * IP * list EndpointCandidate) * option RelayAssignment :=
  (sn_LocalVirtualIPv4 s, peer_dataplane <$> sn_Peers s, sn_RelayAssignment s).

(** Strictly sorted lists with the same elements are equal. *)
Lemma StronglySorted_ext {A} (R : A → A → Prop) (l k : list A) :
  (∀ x, ¬ R x x) → (∀ x y z, R x y → R y z → R x z) →
  StronglySorted R l → StronglySorted R k → (∀ x, x ∈ l ↔ x ∈ k) → l = k.
Proof.
  intros Hirr Htr Hl. revert k. induction Hl as [|x l Hl IH Hx]; intros [|y k] Hk Heq.
  - done.
  - exfalso. eapply not_elem_of_nil, Heq. by left.
  - exfalso. eapply not_elem_of_nil, Heq. by left.
  - apply StronglySorted_inv in Hk as [Hk Hy]. rewrite Forall_forall in Hx, Hy.
    assert (x = y) as <-.
    { assert (x ∈ y :: k) as [->|Hxk]%elem_of_cons by (apply Heq; by left); [done|].
      assert (y ∈ x :: l) as [->|Hyl]%elem_of_cons by (apply Heq; by left); [done|].
      exfalso. eapply Hirr, Htr; [exact (Hx _ Hyl)|exact (Hy _ Hxk)]. }
    f_equal. apply IH; [done|]. intros z. specialize (Heq z). rewrite !elem_of_cons in Heq. split; intros Hz.
    + destruct (proj1 Heq (or_intror Hz)) as [->|]; [|done]. by destruct (Hirr x); apply Hx.
    + destruct (proj2 Heq (or_intror Hz)) as [->|]; [|done]. by destruct (Hirr x); apply Hy.
Qed.

Lemma member_config_eq r r' net nd :
  member_config r' net nd = member_config r net nd →
  lookup2 (memberships r') net nd = lookup2 (memberships r) net nd ∧
  lookup2 (relayAssignments r') net nd = lookup2 (relayAssignments r) net nd ∧
  (is_Some (lookup2 (memberships r) net nd) →
     nd_PublicKey <$> nodes r' !! nd = nd_PublicKey <$> nodes r !! nd ∧
     default [] (endpoints r' !! nd) = default [] (endpoints r !! nd)).
Proof.
  unfold member_config. intros [= H1 H2]. split_and!; [|done|].
  - destruct (lookup2 (memberships r) net nd), (lookup2 (memberships r') net nd); naive_solver.
  - intros [m Hm]. rewrite Hm in H1. simpl in H1.
    destruct (lookup2 (memberships r') net nd); simpl in H1; simplify_eq. done.
Qed.

Lemma dataplane_peers_elem r net local now s d :
  repo_wf r → snapshot_of r net local now s →
  d ∈ peer_dataplane <$> sn_Peers s ↔
  ∃ nd m k, nd ≠ local ∧ lookup2 (memberships r) net nd = Some m ∧ mb_Status m = MembershipActive ∧
    nd_PublicKey <$> nodes r !! nd = Some k ∧
    d = (nd, k, mb_VirtualIPv4 m,
         filter (λ e, IsFreshEndpoint e now (endpointMaxAge r) = true) (default [] (endpoints r !! nd))).
Proof.
  intros Hwf Hs. rewrite list_elem_of_fmap. setoid_rewrite (so_peers _ _ _ _ _ Hs). split.
  - intros (p & -> & nd & m & n & ?&?&?&Hn&->). exists nd, m, (nd_PublicKey n). rewrite Hn.
    destruct (proj1 (wf_nodes _ Hwf) _ _ Hn) as (Hid & _). unfold peer_dataplane. simpl. by rewrite Hid.
  - intros (nd & m & k & ?&?&?&Hn&->). apply fmap_Some in Hn as (n & Hn & ->).
    destruct (proj1 (wf_nodes _ Hwf) _ _ Hn) as (Hid & _).
    exists (peer_of r now m n). split; [unfold peer_dataplane; simpl; by rewrite Hid|]. by exists nd, m, n.
Qed.

Lemma same_config_peers r r' net local now s s' d :
  repo_wf r → repo_wf r' → same_age r r' → same_config net r r' →
  snapshot_of r net local now s → snapshot_of r' net local now s' →
  d ∈ peer_dataplane <$> sn_Peers s → d ∈ peer_dataplane <$> sn_Peers s'.
Proof.
  intros Hwf Hwf' Hage Hc Hs Hs'. rewrite (dataplane_peers_elem r net local now) by done.
  rewrite (dataplane_peers_elem r' net local now) by done.
  intros (nd & m & k & ?&Hm&?&Hn&->). destruct (member_config_eq _ _ _ _ (Hc nd)) as (Hm' & _ & Hrest).
  destruct Hrest as [Hk He]; [by eexists|].
  exists nd, m, k. rewrite Hm', Hk, He, Hage. done.
Qed.

Lemma sltb_trans x y z : sltb x y = true → sltb y z = true → sltb x z = true.
Proof.
  intros Hxy Hyz. apply not_false_iff_true. intros Hxz.
  assert (sltb x y = false); [|congruence].
  apply (less_negtrans sltb) with z; [done|]. by apply (less_asym sltb).
Qed.

Lemma same_config_dataplane r r' net local now s s' :
  repo_wf r → repo_wf r' → same_age r r' → same_config net r r' →
  snapshot_of r net local now s → snapshot_of r' net local now s' → dataplane s' = dataplane s.
Proof.
  intros Hwf Hwf' Hage Hc Hs Hs'. unfold dataplane. f_equal; [f_equal|].
  - destruct (so_local _ _ _ _ _ Hs) as (m & Hm & _ & _ & ->).
    destruct (so_local _ _ _ _ _ Hs') as (m' & Hm' & _ & _ & ->).
    destruct (member_config_eq _ _ _ _ (Hc local)) as (Heq & _). congruence.
  - apply (StronglySorted_ext (λ p q, sltb p.1.1.1 q.1.1.1 = true)).
    + intros x. by rewrite sltb_irrefl.
    + intros x y z. apply sltb_trans.
    + by eapply StronglySorted_fmap; [exact (so_sorted _ _ _ _ _ Hs')|].
    + by eapply StronglySorted_fmap; [exact (so_sorted _ _ _ _ _ Hs)|].
    + intros d. split; [apply (same_config_peers r' r net local now)|apply (same_config_peers r r' net local now)];
        try done. intros nd. by rewrite (Hc nd).
  - destruct (so_relay _ _ _ _ _ Hs) as [_ ->]. destruct (so_relay _ _ _ _ _ Hs') as [_ ->].
    unfold snapshot_relay, membershipIsActiveLocked.
    destruct (member_config_eq _ _ _ _ (Hc local)) as (_ & -> & _).
    destruct (lookup2 (relayAssignments r) net local) as [a|]; [|done].
    destruct (member_config_eq _ _ _ _ (Hc (ra_NodeID a))) as (-> & _).
    by destruct (member_config_eq _ _ _ _ (Hc (ra_RelayNodeID a))) as (-> & _).
Qed.

(** [k] increments from a positive version that do not reach the end of [int64]
    add [k]. *)
Lemma iter_bump_version k n :
  0 < nw_ConfigVersion n → nw_ConfigVersion n + Z.of_nat k ≤ MaxInt64 →
  nw_ConfigVersion (Nat.iter k bump n) = nw_ConfigVersion n + Z.of_nat k.
Proof.
  intros Hpos. induction k as [|k IH]; intros Hmax; [simpl; lia|].
  change (Nat.iter (S k) bump n) with (bump (Nat.iter k bump n)). cbn [bump nw_with_version nw_ConfigVersion].
  rewrite IH by lia. unfold next_version, wrap64, MaxInt64 in *. case_match; divlia.
Qed.

(** ** Claims *)



(** The addresses in a snapshot, the receiver's own included, are pairwise
    different, they all lie in the pool of the network, the keys of the peers
    are pairwise different and none is the receiver's. *)
Theorem snapshot_distinct wall ctx net local now r s r' n :
  repo_wf r → BuildSnapshotAt wall ctx net local now r = (Ok s, r') → nodes r !! local = Some n →
  NoDup (sn_LocalVirtualIPv4 s :: (pr_VirtualIPv4 <$> sn_Peers s)) ∧
  NoDup (nd_PublicKey n :: (pr_PublicKey <$> sn_Peers s)) ∧
  ∃ nw, networks r !! net = Some nw ∧
    Forall (λ ip, ValidateIPv4InPool ip (nw_IPv4Pool nw) = None)
      (sn_LocalVirtualIPv4 s :: (pr_VirtualIPv4 <$> sn_Peers s)).
Proof.
  intros Hwf Hrun Hn. pose proof (BuildSnapshotAt_run wall ctx net local now r Hwf) as H. rewrite Hrun in H.
  destruct H as (_ & _ & _ & Hs). destruct (snapshot_keys _ _ _ _ _ Hwf Hs) as [Hk Hl].
  split_and!; [by eapply snapshot_addresses|constructor; [|done]|].
  - intros (p & Heq & Hp)%list_elem_of_fmap. by eapply Hl.
  - destruct (so_network _ _ _ _ _ Hs) as (nw & Hnw & _). exists nw. split; [done|].
    assert (∀ nd m, lookup2 (memberships r) net nd = Some m → ValidateIPv4InPool (mb_VirtualIPv4 m) (nw_IPv4Pool nw) = None) as Hpool.
    { intros nd m Hm. destruct (proj1 (wf_members _ Hwf) _ _ _ Hm) as (_&_&_&_&_&(nw' & Hnw' & ?)&_). congruence. }
    constructor.
    + destruct (so_local _ _ _ _ _ Hs) as (m & Hm & _ & _ & ->). eauto.
    + apply Forall_forall. intros ip (p & -> & Hp)%list_elem_of_fmap.
      apply (so_peers _ _ _ _ _ Hs) in Hp as (nd & m & n' & _ & Hm & _ & _ & ->). simpl. eauto.
Qed.

Lemma snapshot_distinct_witness :
  ∃ s, BuildSnapshotAt 9 liveContext "net" "a" 8 demo = (Ok s, demo) ∧
    NoDup (sn_LocalVirtualIPv4 s :: (pr_VirtualIPv4 <$> sn_Peers s)) ∧ length (sn_Peers s) = 1%nat.
Proof.
  eexists. assert (BuildSnapshotAt 9 liveContext "net" "a" 8 demo = (Ok _, demo)) as H by (vm_compute; reflexivity).
  split; [exact H|]. split; [|reflexivity].
  exact (proj1 (snapshot_distinct 9 liveContext "net" "a" 8 demo _ _ _ (reachable_wf_ _ _ demo_reachable) H eq_refl)).
Defined.


