(* ===== verification/Interface.v ===== *)
(** * The repository contract

    [internal/control/repository_contract.go]: the interface through which the
    services reach persistence, as a class of operations on a state type, and
    what the enrollment flow relies on, as a class of laws.  The in-memory
    repository is an instance of both. *)

From S2P Require Import Prelude GoStd Model Repository RepositoryInv RepositoryThm Snapshot Pool.

Open Scope Z_scope.

(** How a transaction ends for its caller. The callback assigns variables of
    the caller when it succeeds; a repository may still fail to commit, and the
    caller then sees the error and the assigned values. *)
Inductive tx (A : Type) :=
| TxOk (a : A)
| TxErr (e : error) (assigned : option A).
Arguments TxOk {A} a.
Arguments TxErr {A} e assigned.

(** [wall] is the wall clock, for the operations that may read it. *)
Class TransactionalRepository (R : Type) := {
  repo_CreateNetwork : Context → Network → M R unit;
  repo_GetNetwork : Context → string → M R Network;
  repo_AddNode : Context → Node → M R unit;
  repo_GetNode : Context → string → M R Node;
  repo_GetNodeNetworkIDs : Context → string → M R (list string);
  repo_TouchNode : Context → string → Time → M R unit;
  repo_UpdateNodeClientVersion : Context → string → string → M R unit;
  repo_RemoveNode : Context → string → M R unit;
  repo_AddMembership : Context → Membership → M R unit;
  repo_RemoveMembership : Context → string → string → M R unit;
  repo_CreateInvite : Context → Invite → M R unit;
  repo_RevokeInvite : Context → string → Time → M R unit;
  repo_ConsumeInviteForNode : Time → Context → string → string → Time → string → M R Invite;
  repo_ReplaceEndpoints : Context → string → list EndpointCandidate → M R unit;
  repo_SetRelayAssignment : Context → RelayAssignment → M R unit;
  repo_RemoveRelayAssignment : Context → string → M R unit;
  repo_BuildSnapshot : Time → Context → string → string → M R NetworkSnapshot;
  repo_WithTransaction : ∀ {A}, Context → (Context → M R A) → R → tx A * R
}.

#[global] Instance Memory_TransactionalRepository : TransactionalRepository MemoryRepository := {|
  repo_CreateNetwork := CreateNetwork;
  repo_GetNetwork := GetNetwork;
  repo_AddNode := AddNode;
  repo_GetNode := GetNode;
  repo_GetNodeNetworkIDs := GetNodeNetworkIDs;
  repo_TouchNode := TouchNode;
  repo_UpdateNodeClientVersion := UpdateNodeClientVersion;
  repo_RemoveNode := RemoveNode;
  repo_AddMembership := AddMembership;
  repo_RemoveMembership := RemoveMembership;
  repo_CreateInvite := CreateInvite;
  repo_RevokeInvite := RevokeInvite;
  repo_ConsumeInviteForNode := ConsumeInviteForNode;
  repo_ReplaceEndpoints := ReplaceEndpoints;
  repo_SetRelayAssignment := SetRelayAssignment;
  repo_RemoveRelayAssignment := RemoveRelayAssignment;
  repo_BuildSnapshot := BuildSnapshot;
  repo_WithTransaction := λ A ctx operation r,
    match WithTransaction ctx (Some operation) r with
    | (Ok a, r') => (TxOk a, r')
    | (Err e, r') => (TxErr e None, r')
    end
|}.

(** What enrollment needs of a repository: an invariant, what is stored (the
    networks and the members), and how the operations it calls read and write
    them. *)
Class EnrollmentLaws (R : Type) `{TransactionalRepository R} := {
  inv : R → Prop;
  network_at : R → string → option Network;
  member_at : R → string → string → option Membership;
  node_known : R → string → Prop;

  law_AddNode ctx n r r' :
    inv r → repo_AddNode ctx n r = (Ok tt, r') →
    inv r' ∧ node_known r' (nd_ID n) ∧ network_at r' = network_at r ∧ member_at r' = member_at r ∧
    ∀ net, member_at r net (nd_ID n) = None;
  law_ConsumeInvite wall ctx v h t nd r i r' :
    inv r → repo_ConsumeInviteForNode wall ctx v h t nd r = (Ok i, r') →
    inv r' ∧ network_at r' = network_at r ∧ member_at r' = member_at r ∧
    (∀ id, node_known r id → node_known r' id) ∧ is_Some (network_at r (iv_NetworkID i));
  law_GetNetwork net r :
    repo_GetNetwork liveContext net r =
      (match network_at r net with Some n => Ok n | None => Err ErrNotFound end, r);
  law_network net n r : inv r → network_at r net = Some n →
    nw_ID n = net ∧ blank net = false ∧ ∃ p, NewPool (nw_IPv4Pool n) = Ok p;
  law_AddMembership net nd ip n p r :
    inv r → network_at r net = Some n → NewPool (nw_IPv4Pool n) = Ok p → Usable p ip = true →
    length ip = 4%nat → Forall is_byte ip → blank net = false → blank nd = false →
    node_known r nd → member_at r net nd = None →
    let m := {| mb_NetworkID := net; mb_NodeID := nd; mb_VirtualIPv4 := ip;
                mb_Role := RoleMember; mb_Status := MembershipActive |} in
    ((∃ nd' m', member_at r net nd' = Some m' ∧ mb_VirtualIPv4 m' = ip) ∧
       repo_AddMembership liveContext m r = (Err ErrConflict, r)) ∨
    ((∀ nd' m', member_at r net nd' = Some m' → mb_VirtualIPv4 m' ≠ ip) ∧
     ∃ r', repo_AddMembership liveContext m r = (Ok tt, r') ∧ inv r' ∧
       (∃ n', network_at r' net = Some n' ∧ nw_IPv4Pool n' = nw_IPv4Pool n ∧ nw_ID n' = net) ∧
       ∀ net' nd', member_at r' net' nd' =
         if decide (net = net' ∧ nd = nd') then Some m else member_at r net' nd');
  law_transaction_ok {A} (f : Context → M R A) r a w :
    inv r → inv w → f liveContext r = (Ok a, w) →
    ∃ r', repo_WithTransaction liveContext f r = (TxOk a, r') ∧ inv r' ∧
      network_at r' = network_at w ∧ member_at r' = member_at w;
  law_transaction_err {A} (f : Context → M R A) r e w :
    f liveContext r = (Err e, w) → repo_WithTransaction liveContext f r = (TxErr e None, r);
  law_address net nd m r : inv r → member_at r net nd = Some m →
    length (mb_VirtualIPv4 m) = 4%nat ∧ Forall is_byte (mb_VirtualIPv4 m)
}.

(** ** The in-memory repository meets the contract *)
Lemma Usable_in_pool cidr p ip :
  NewPool cidr = Ok p → Usable p ip = true → length ip = 4%nat → Forall is_byte ip →
  ValidateIPv4InPool ip cidr = None.
Proof.
  intros (base & ones & Hp & Hc)%NewPool_wf Hu Hlen Hb.
  apply (ValidateIPv4InPool_range _ _ _ _ Hc); rewrite ?To4_4 by done; [done|by apply is_nil_4|].
  pose proof (Usable_host _ _ _ _ Hp Hu) as Hh. rewrite To4_4 in Hh by done.
  apply (hosts_elem Hp) in Hh. lia.
Qed.

Lemma Memory_AddNode ctx n r r' :
  repo_wf r → AddNode ctx n r = (Ok tt, r') →
  repo_wf r' ∧ is_Some (nodes r' !! nd_ID n) ∧ networks r' = networks r ∧ memberships r' = memberships r ∧
  ∀ net, lookup2 (memberships r) net (nd_ID n) = None.
Proof.
  intros Hwf Hadd. pose proof (AddNode_wf ctx n r Hwf) as Hwf'. rewrite Hadd in Hwf'.
  split; [done|]. revert Hadd. unfold AddNode. run_m; intros [= <-]. simpl.
  split_and!; [by rewrite lookup_insert_eq|done|done|].
  intros net. apply eq_None_not_Some. intros [m Hm].
  destruct (proj1 (wf_members _ Hwf) _ _ _ Hm) as (_&_&_&_&_&_&[? ?]). congruence.
Qed.

Lemma Memory_AddMembership net nd ip n p r :
  repo_wf r → networks r !! net = Some n → NewPool (nw_IPv4Pool n) = Ok p → Usable p ip = true →
  length ip = 4%nat → Forall is_byte ip → blank net = false → blank nd = false →
  is_Some (nodes r !! nd) → lookup2 (memberships r) net nd = None →
  let m := {| mb_NetworkID := net; mb_NodeID := nd; mb_VirtualIPv4 := ip;
              mb_Role := RoleMember; mb_Status := MembershipActive |} in
  ((∃ nd' m', lookup2 (memberships r) net nd' = Some m' ∧ mb_VirtualIPv4 m' = ip) ∧
     AddMembership liveContext m r = (Err ErrConflict, r)) ∨
  ((∀ nd' m', lookup2 (memberships r) net nd' = Some m' → mb_VirtualIPv4 m' ≠ ip) ∧
   AddMembership liveContext m r = (Ok tt, membership_added m r)).
Proof.
  intros Hwf Hn Hp Hu Hlen Hb Hnet Hnd [node Hnode] Hfree m.
  assert (ValidateMembership m = None) as Hv.
  { unfold ValidateMembership, required. simpl. rewrite Hnet, Hnd, To4_4, is_nil_4 by done. done. }
  pose proof (Usable_in_pool _ _ _ Hp Hu Hlen Hb) as Hpool.
  assert (∀ nd' m', lookup2 (memberships r) net nd' = Some m' →
    IP_Equal (mb_VirtualIPv4 m') ip = bool_decide (mb_VirtualIPv4 m' = ip)) as Heq.
  { intros nd' m' Hm'. destruct (proj1 (wf_members _ Hwf) _ _ _ Hm') as (_&_&_&Hl&_). by apply IP_Equal_4. }
  pose proof (AddMembership_run liveContext m r) as Hrun.
  destruct (AddMembership liveContext m r) as [[[]|e] r'] eqn:E; unfold outcome in Hrun; simpl in Hrun.
  - right. destruct Hrun as (_&_&_&_&_&Hno&->). split; [|done].
    intros nd' m' Hm' Hip. specialize (Hno _ _ Hm'). rewrite (Heq _ _ Hm'), bool_decide_eq_false in Hno. done.
  - left. subst r'. revert E. unfold AddMembership. rewrite !bind_check, Hv, !bind_get. simpl.
    rewrite Hn, Hnode, bind_check, Hpool. cbv zeta. rewrite bind_put.
    unfold lookup2 in Hfree, Heq. destruct (memberships r !! net) as [ms|] eqn:Ems; simpl in *.
    + rewrite Hfree. destruct (existsb _ _) eqn:Ex; [|done]. intros [= <-]. split; [|done].
      apply existsb_exists in Ex as ([nd' m'] & Hin & Hip). apply list_elem_of_In, elem_of_map_to_list in Hin.
      exists nd', m'. unfold lookup2. rewrite Ems. simpl. split; [done|].
      simpl in Hip. rewrite (Heq _ _ Hin), bool_decide_eq_true in Hip. done.
    + rewrite lookup_empty, map_to_list_empty. done.
Qed.

#[global] Instance Memory_EnrollmentLaws : EnrollmentLaws MemoryRepository.
Proof.
  refine {| inv := repo_wf; network_at := λ r net, networks r !! net;
            member_at := λ r net nd, lookup2 (memberships r) net nd;
            node_known := λ r nd, is_Some (nodes r !! nd) |}; simpl.
  - intros ctx n r r' Hwf Hadd. destruct (Memory_AddNode _ _ _ _ Hwf Hadd) as (?&?&->&->&?). done.
  - intros wall ctx v h t nd r i r' Hwf Hc. pose proof (ConsumeInviteForNode_wf wall ctx v h t nd r Hwf) as Hwf'.
    pose proof (ConsumeInviteForNode_run wall ctx v h t nd r Hwf) as Hrun. rewrite Hc in *.
    unfold outcome in Hrun. simpl in *.
    destruct Hrun as (id & i0 & _ & _ & Hi & _ & _ & _ & _ & -> & ->). simpl in *. split_and!; try done.
    by destruct (proj1 (wf_invites _ Hwf) _ _ Hi) as (_&_&?&_).
  - intros net r. unfold GetNetwork. rewrite bind_check, bind_get. simpl. by destruct (networks r !! net).
  - intros net n r Hwf Hn. destruct (wf_networks _ Hwf _ _ Hn) as (? & ? & _ & _ & base & ones & Hc). split; [done|]. split; [done|].
    destruct (NewPool_canonical _ _ _ Hc) as (p & Hp & _). eauto.
  - intros net nd ip n p r Hwf Hn Hp Hu Hlen Hb Hnet Hnd Hk Hfree.
    destruct (Memory_AddMembership net nd ip n p r) as [H|[Hno Hadd]]; try done; [by left|right].
    split; [done|]. eexists. split; [exact Hadd|]. set (m := {| mb_NetworkID := net |}) in *.
    assert (stored_membership m = m) as Hst by (unfold stored_membership, mb_with_IP, m; simpl; by rewrite To4_4).
    split; [|split].
    + pose proof (AddMembership_wf liveContext m r Hb Hwf) as Hwf'. by rewrite Hadd in Hwf'.
    + simpl. exists (bump n). rewrite bumps_lookup, decide_True, Hn by (try apply NoDup_singleton; by left).
      split_and!; try done. by destruct (wf_networks _ Hwf _ _ Hn).
    + intros net' nd'. rewrite lookup2_membership_added, Hst. done.
  - intros A f r a w Hwf Hw Hf. unfold WithTransaction. rewrite bind_check. simpl.
    rewrite cloneMemoryRepositoryLocked_id, Hf. eexists. split; [done|]. split; [by destruct Hw|done].
  - intros A f r e w Hf. unfold WithTransaction. rewrite bind_check. simpl.
    by rewrite cloneMemoryRepositoryLocked_id, Hf.
  - intros net nd m r Hwf Hm. by destruct (proj1 (wf_members _ Hwf) _ _ _ Hm) as (_&_&_&?&?&_).
Defined.
