(* ===== verification/Auth.v ===== *)
(** * Credentials and sessions

    [internal/auth/tokens.go].  A [SessionStore] is a record; the methods take
    the clock reading and, where they draw random bytes, the outcome of each
    read as arguments.  The receiver is never nil. *)

From S2P Require Import Prelude GoStd Crypto.
From Stdlib Require Import Ascii.

Open Scope Z_scope.

(** ** Tokens *)
Definition auth_RoleAdmin : string := "admin".
Definition RoleNode : string := "node".

Definition hex_digit (v : Z) : ascii := if v <? 10 then chr (48 + v) else chr (87 + v).
Definition hex_EncodeToString (l : list Z) : string :=
  of_bytes (l ≫= λ b, [hex_digit (b / 16); hex_digit (b mod 16)]).

Definition HashToken (token : string) : string := hex_EncodeToString (Sum256 (byte_values token)).

(** The digests are compared whole; the comparison is 1 exactly when they are
    equal. *)
Definition ValidateBootstrapToken (configured presented : string) : option error :=
  let want := Sum256 (byte_values configured) in
  let got := Sum256 (byte_values presented) in
  if bool_decide (configured = "") || bool_decide (presented = "") || negb (bool_decide (want = got))
  then Some (ESentinel ErrInvalidBootstrapToken) else None.

Definition token_space : list ascii := [" "; "009"; "013"; "010"]%char.

Definition ParseBearerHeader (header : string) : result string :=
  if bool_decide (header = "") then Err ErrMissingCredential
  else match Split header " "%char with
  | [scheme; token] =>
    if negb (bool_decide (scheme = "Bearer")) || bool_decide (token = "") || ContainsAny token token_space
    then Err ErrMalformedCredential else Ok token
  | _ => Err ErrMalformedCredential
  end.

(** ** Sessions *)
Record Session := {
  se_Subject : string;
  se_Role : string;
  se_NetworkID : string;
  se_ExpiresAt : Time
}.

#[global] Instance Session_eq_dec : EqDecision Session.
Proof. solve_decision. Defined.

Record SessionStore := {
  ttl : Duration;
  sessions : gmap string Session;
  revokedNetworks : gset string
}.

Definition NewSessionStore (ttl : Duration) : SessionStore :=
  {| ttl := ttl; sessions := ∅; revokedNetworks := ∅ |}.

Definition set_sessions (st : SessionStore) (x : gmap string Session) : SessionStore :=
  {| ttl := ttl st; sessions := x; revokedNetworks := revokedNetworks st |}.

(** The loop of [IssueSession]: [random] are the outcomes of its reads, four at
    most; the error of the fifth iteration has no sentinel. *)
Fixpoint issue_loop (attempts : nat) (random : list (result (list Z))) (session : Session)
    : M SessionStore (string * Session) :=
  match attempts with
  | O => throw (EForeign 1)
  | S attempts =>
    match random with
    | [] => throw (EForeign 2)
    | Err e :: _ => throw e
    | Ok value :: random =>
      let token := RawURLEncode value in
      let! st := get in
      match sessions st !! token with
      | Some _ => issue_loop attempts random session
      | None => put (set_sessions st (<[token := session]> (sessions st))) ;; ret (token, session)
      end
    end
  end.

Definition IssueSession (now : Time) (random : list (result (list Z)))
    (subject role networkID : string) : M SessionStore (string * Session) :=
  let! st := get in
  if (ttl st <=? 0) || blank subject then throw ErrInvalidSessionTTL
  else if negb (bool_decide (role = auth_RoleAdmin)) && negb (bool_decide (role = RoleNode))
  then throw ErrInsufficientPermission
  else if bool_decide (role = RoleNode) && blank networkID then throw ErrWrongNetwork
  else if negb (bool_decide (networkID = "")) && bool_decide (networkID ∈ revokedNetworks st)
  then throw ErrRevokedNetwork
  else issue_loop 4 random
    {| se_Subject := subject; se_Role := role; se_NetworkID := networkID; se_ExpiresAt := now + ttl st |}.

Definition IssueNodeSession (now : Time) (random : list (result (list Z))) (subject networkID : string) :=
  IssueSession now random subject RoleNode networkID.

Definition Authenticate (now : Time) (token : string) : M SessionStore Session :=
  if bool_decide (token = "") then throw ErrInvalidCredential else
  let! st := get in
  match sessions st !! token with
  | None => throw ErrInvalidCredential
  | Some session =>
    if negb (Before now (se_ExpiresAt session)) then
      put (set_sessions st (delete token (sessions st))) ;; throw ErrSessionExpired
    else if negb (bool_decide (se_NetworkID session = "")) &&
            bool_decide (se_NetworkID session ∈ revokedNetworks st)
    then throw ErrRevokedNetwork
    else ret session
  end.

Definition AuthenticateHeader (now : Time) (header : string) : M SessionStore Session :=
  let! token := lift (ParseBearerHeader header) in Authenticate now token.

Definition AuthorizeNetwork (now : Time) (st : SessionStore) (session : Session) (networkID : string)
    : option error :=
  if blank networkID then Some (ESentinel ErrWrongNetwork)
  else if negb (IsZero (se_ExpiresAt session)) && negb (Before now (se_ExpiresAt session))
  then Some (ESentinel ErrSessionExpired)
  else if bool_decide (networkID ∈ revokedNetworks st) then Some (ESentinel ErrRevokedNetwork)
  else if bool_decide (se_Role session = auth_RoleAdmin) then
    if negb (bool_decide (se_NetworkID session = "")) && negb (bool_decide (se_NetworkID session = networkID))
    then Some (ESentinel ErrWrongNetwork) else None
  else if bool_decide (se_Role session = RoleNode) then
    if negb (bool_decide (se_NetworkID session = networkID)) then Some (ESentinel ErrWrongNetwork) else None
  else Some (ESentinel ErrInsufficientPermission).

Definition RevokeSession (token : string) (st : SessionStore) : SessionStore :=
  if bool_decide (token = "") then st else set_sessions st (delete token (sessions st)).

Definition RevokeNetwork (networkID : string) (st : SessionStore) : SessionStore :=
  if bool_decide (networkID = "") then st
  else {| ttl := ttl st; sessions := sessions st; revokedNetworks := {[networkID]} ∪ revokedNetworks st |}.

Definition IsNetworkRevoked (networkID : string) (st : SessionStore) : bool :=
  bool_decide (networkID ∈ revokedNetworks st).

(** ** Histories of a store *)
Inductive session_op :=
| SIssue (now : Time) (random : list (result (list Z))) (subject role networkID : string)
| SAuthenticate (now : Time) (token : string)
| SRevokeSession (token : string)
| SRevokeNetwork (networkID : string).

Definition session_exec (o : session_op) (st : SessionStore) : SessionStore :=
  match o with
  | SIssue now random subject role networkID => (IssueSession now random subject role networkID st).2
  | SAuthenticate now token => (Authenticate now token st).2
  | SRevokeSession token => RevokeSession token st
  | SRevokeNetwork networkID => RevokeNetwork networkID st
  end.

Definition session_run (os : list session_op) (st : SessionStore) : SessionStore :=
  fold_left (λ st o, session_exec o st) os st.

(** What every stored session satisfies. *)
Definition session_wf (s : Session) : Prop :=
  blank (se_Subject s) = false ∧
  (se_Role s = auth_RoleAdmin ∨ se_Role s = RoleNode ∧ blank (se_NetworkID s) = false).

Definition store_wf (st : SessionStore) : Prop :=
  ∀ token s, sessions st !! token = Some s → token ≠ "" ∧ session_wf s.

(** The reads of the random source return the 32 bytes asked for. *)
Definition reads32 (random : list (result (list Z))) : Prop :=
  Forall (λ r, match r with Ok value => length value = 32%nat | Err _ => True end) random.

Definition session_typed (o : session_op) : Prop :=
  match o with SIssue _ random _ _ _ => reads32 random | _ => True end.

(** ** Lemmas *)
Lemma RawURLEncode_nonempty l : length l = 32%nat → RawURLEncode l ≠ "".
Proof. destruct l as [|a [|b [|c l]]]; try done. Qed.

Lemma issue_loop_run attempts random s st :
  outcome (λ _ st', st' = st)
    (λ p st', p.2 = s ∧ (∃ value, Ok value ∈ random ∧ p.1 = RawURLEncode value) ∧ sessions st !! p.1 = None ∧
       st' = set_sessions st (<[p.1 := s]> (sessions st)))
    (issue_loop attempts random s st).
Proof.
  revert random. induction attempts as [|n IH]; intros random; simpl; [done|].
  destruct random as [|[value|e] random]; [done| |done]. autorewrite with monad.
  destruct (sessions st !! RawURLEncode value) eqn:E.
  - specialize (IH random). destruct (issue_loop n random s st) as [[p|e] st']; unfold outcome in *; simpl in *; [|done].
    destruct IH as (? & (value' & ? & ?) & ? & ?). split_and!; try done. exists value'. split; [by right|done].
  - autorewrite with monad. rewrite outcome_ok. simpl. split_and!; try done. exists value. split; [by left|done].
Qed.

Lemma IssueSession_run now random subject role net st :
  outcome (λ _ st', st' = st)
    (λ p st', p.2 = {| se_Subject := subject; se_Role := role; se_NetworkID := net; se_ExpiresAt := now + ttl st |} ∧
       0 < ttl st ∧ session_wf p.2 ∧ (net = "" ∨ net ∉ revokedNetworks st) ∧
       (∃ value, Ok value ∈ random ∧ p.1 = RawURLEncode value) ∧
       sessions st !! p.1 = None ∧ st' = set_sessions st (<[p.1 := p.2]> (sessions st)))
    (IssueSession now random subject role net st).
Proof.
  unfold IssueSession. rewrite bind_get.
  destruct ((ttl st <=? 0) || blank subject) eqn:E1; [done|].
  destruct (negb _ && negb _) eqn:E2; [done|].
  destruct (bool_decide (role = RoleNode) && blank net) eqn:E3; [done|].
  destruct (negb (bool_decide (net = "")) && _) eqn:E4; [done|].
  match goal with |- outcome _ _ (issue_loop 4 random ?s st) => set (s0 := s) end.
  pose proof (issue_loop_run 4 random s0 st) as H. destruct (issue_loop 4 random s0 st) as [[p|e] st']; [|done].
  unfold outcome in *. simpl in *. destruct H as (-> & Hv & Hn & ->).
  apply orb_false_iff in E1 as [Et Es]. apply andb_false_iff in E2, E3, E4.
  rewrite !negb_false_iff, !bool_decide_eq_true, ?bool_decide_eq_false in *.
  split_and!; try done; [lia|]. split; [done|]. simpl. destruct E2 as [->| ->]; [by left|right].
  split; [done|]. destruct E3; [|done]. exfalso. done.
Qed.

Lemma Authenticate_run now token st :
  outcome
    (λ e st', st' = st ∨ e = ErrSessionExpired ∧ st' = set_sessions st (delete token (sessions st)) ∧
       ∃ s, sessions st !! token = Some s ∧ se_ExpiresAt s ≤ now)
    (λ s st', st' = st ∧ sessions st !! token = Some s ∧ now < se_ExpiresAt s ∧
       (se_NetworkID s = "" ∨ se_NetworkID s ∉ revokedNetworks st))
    (Authenticate now token st).
Proof.
  unfold Authenticate. case_bool_decide; [by left|]. rewrite bind_get.
  destruct (sessions st !! token) as [s|] eqn:E; [|by left]. unfold Before.
  destruct (now <? se_ExpiresAt s) eqn:Et; simpl.
  - destruct (negb _ && _) eqn:En; [by left|]. rewrite run_ret, outcome_ok. split_and!; try done; [lia|].
    apply andb_false_iff in En. rewrite negb_false_iff, bool_decide_eq_true, bool_decide_eq_false in En. done.
  - autorewrite with monad. rewrite outcome_err. right. split_and!; try done. exists s. split; [done|lia].
Qed.

Lemma session_exec_revoked o st : revokedNetworks st ⊆ revokedNetworks (session_exec o st).
Proof.
  destruct o as [now random subject role net|now token|token|net]; simpl.
  - apply (outcome_snd _ _ (λ st', revokedNetworks st ⊆ revokedNetworks st') _
      (IssueSession_run now random subject role net st)); [by intros ?? ->|]. by intros p st' (_&_&_&_&_&_&->).
  - apply (outcome_snd _ _ (λ st', revokedNetworks st ⊆ revokedNetworks st') _ (Authenticate_run now token st)).
    + by intros e st' [->|(_ & -> & _)].
    + by intros s st' (-> & _).
  - unfold RevokeSession. by case_bool_decide.
  - unfold RevokeNetwork. case_bool_decide; [done|]. simpl. set_solver.
Qed.

Lemma session_run_revoked os st : revokedNetworks st ⊆ revokedNetworks (session_run os st).
Proof.
  revert st. induction os as [|o os IH]; intros st; simpl; [done|].
  etransitivity; [apply (session_exec_revoked o)|apply IH].
Qed.

Lemma session_exec_wf o st : session_typed o → store_wf st → store_wf (session_exec o st).
Proof.
  intros Ht Hwf. destruct o as [now random subject role net|now token|token|net]; simpl in *.
  - apply (outcome_snd _ _ store_wf _ (IssueSession_run now random subject role net st)); [by intros ?? ->|].
    intros p st' (_ & _ & Hs & _ & (value & Hv & Hp) & _ & ->) t s. simpl. rewrite lookup_insert_Some.
    intros [[<- <-]|[_ ?]]; [|eauto]. split; [|done]. rewrite Hp. apply RawURLEncode_nonempty.
    unfold reads32 in Ht. rewrite Forall_forall in Ht. exact (Ht _ Hv).
  - apply (outcome_snd _ _ store_wf _ (Authenticate_run now token st)).
    + intros e st' [->|(_ & -> & _)]; [done|]. intros t s. simpl. rewrite lookup_delete_Some. intros [_ ?]. eauto.
    + by intros s st' (-> & _).
  - unfold RevokeSession. case_bool_decide; [done|]. intros t s. simpl. rewrite lookup_delete_Some. intros [_ ?]. eauto.
  - unfold RevokeNetwork. by case_bool_decide.
Qed.

Lemma session_run_wf os st : Forall session_typed os → store_wf st → store_wf (session_run os st).
Proof.
  intros Hos. revert st. induction Hos as [|o os Ho Hos IH]; intros st Hwf; simpl; [done|].
  by apply IH, session_exec_wf.
Qed.

Lemma NewSessionStore_wf ttl : store_wf (NewSessionStore ttl).
Proof. intros t s. simpl. by rewrite lookup_empty. Qed.

(** Operations that leave the session [s] under [token] alone. *)
Definition harmless (token : string) (s : Session) (o : session_op) : Prop :=
  match o with
  | SIssue _ _ _ _ _ => True
  | SAuthenticate now token' => token' = token → now < se_ExpiresAt s
  | SRevokeSession token' => token' ≠ token
  | SRevokeNetwork networkID => networkID ≠ se_NetworkID s
  end.

Definition session_live (token : string) (s : Session) (st : SessionStore) : Prop :=
  sessions st !! token = Some s ∧ (se_NetworkID s = "" ∨ se_NetworkID s ∉ revokedNetworks st).

Lemma session_exec_live token s o st :
  harmless token s o → session_live token s st → session_live token s (session_exec o st).
Proof.
  intros Ho [Hs Hr]. destruct o as [now random subject role net|now token'|token'|net]; simpl in *.
  - apply (outcome_snd _ _ (session_live token s) _ (IssueSession_run now random subject role net st));
      [by intros ?? ->|].
    intros p st' (_ & _ & _ & _ & _ & Hn & ->). split; [|done]. simpl. rewrite lookup_insert_ne; [done|congruence].
  - apply (outcome_snd _ _ (session_live token s) _ (Authenticate_run now token' st)).
    + intros e st' [->|(_ & -> & s' & Hs' & Hexp)]; [done|]. split; [|done]. simpl.
      rewrite lookup_delete_ne; [done|]. intros ->. specialize (Ho eq_refl). simplify_eq. lia.
    + by intros s' st' (-> & _).
  - unfold RevokeSession. case_bool_decide; [done|]. split; [|done]. simpl. by rewrite lookup_delete_ne.
  - unfold RevokeNetwork. case_bool_decide; [done|]. split; [done|]. simpl. set_solver.
Qed.

Lemma session_run_live token s os st :
  Forall (harmless token s) os → session_live token s st → session_live token s (session_run os st).
Proof.
  intros Hos. revert st. induction Hos as [|o os Ho Hos IH]; intros st Hl; simpl; [done|].
  by apply IH, session_exec_live.
Qed.

Lemma bearer_bytes t : bytes ("Bearer " +:+ t) = bytes "Bearer" ++ " "%char :: bytes t.
Proof. by rewrite bytes_app. Qed.

Lemma ParseBearerHeader_bearer t :
  t ≠ "" → ContainsAny t token_space = false → ParseBearerHeader ("Bearer " +:+ t) = Ok t.
Proof.
  intros Hne Hany. unfold ParseBearerHeader, Split. rewrite bearer_bytes, bool_decide_eq_false_2 by done.
  rewrite split_bytes_app by (by apply (bool_decide_eq_false_1 _)).
  pose proof (proj1 (ContainsAny_false _ _) Hany) as Hsp.
  rewrite split_bytes_nosep by (apply Hsp; by left). csimpl.
  by rewrite !of_bytes_bytes, Hany, bool_decide_eq_false_2 by done.
Qed.

Lemma Authenticate_live now token s st :
  token ≠ "" → session_live token s st → now < se_ExpiresAt s → Authenticate now token st = (Ok s, st).
Proof.
  intros Hne [Hs Hr] Hnow. unfold Authenticate. rewrite bool_decide_eq_false_2, bind_get, Hs by done.
  unfold Before. rewrite (proj2 (Z.ltb_lt _ _)) by lia. simpl.
  destruct Hr as [Hr|Hr]; [by rewrite (bool_decide_eq_true_2 _ Hr)|].
  by rewrite (bool_decide_eq_false_2 _ Hr), andb_false_r.
Qed.

(** ** Claims *)

(** An authorization header carries the token [t] exactly when it is
    "Bearer", one space and [t], with [t] not empty and free of white space;
    every other header is refused. *)
Theorem ParseBearerHeader_correct header t :
  ParseBearerHeader header = Ok t ↔
  header = ("Bearer " +:+ t)%string ∧ t ≠ "" ∧ ContainsAny t token_space = false.
Proof.
  unfold ParseBearerHeader, Split. split.
  - case_bool_decide; [done|]. pose proof (split_bytes_spec " "%char (bytes header)) as (Hj & _ & _).
    destruct (split_bytes " "%char (bytes header)) as [|a [|b [|]]]; simpl in *; try done.
    case_match eqn:E; [done|]. intros [= <-].
    apply orb_false_iff in E as [[E1 E2]%orb_false_iff E3].
    rewrite negb_false_iff, bool_decide_eq_true, bool_decide_eq_false in *. split_and!; try done.
    apply bytes_inj. rewrite bearer_bytes, Hj, bytes_of_bytes, <- E1, bytes_of_bytes. done.
  - intros (-> & Hne & Hany). by apply ParseBearerHeader_bearer.
Qed.

(** A session lasts exactly as long as it should. After it is issued, and
    after any further operations other than revoking it or its network and
    failing to use it in time, its token authenticates before the expiry time
    to precisely the session that was issued, and from the expiry time on it is
    refused as expired and forgotten. *)
Theorem session_lifetime now random subject role net st token s st1 os now' :
  reads32 random → IssueSession now random subject role net st = (Ok (token, s), st1) →
  Forall (harmless token s) os →
  let st' := session_run os st1 in
  se_ExpiresAt s = now + ttl st ∧
  (now' < se_ExpiresAt s → Authenticate now' token st' = (Ok s, st')) ∧
  (se_ExpiresAt s ≤ now' → (Authenticate now' token st').1 = Err ErrSessionExpired ∧
     sessions (Authenticate now' token st').2 !! token = None).
Proof.
  intros Hr Hi Hos st'. pose proof (IssueSession_run now random subject role net st) as H. rewrite Hi in H.
  destruct H as (Hs & _ & Hwf & Hrev & (value & Hv & Htok) & _ & Hst1). simpl in *.
  assert (token ≠ "") as Hne.
  { rewrite Htok. apply RawURLEncode_nonempty. unfold reads32 in Hr. rewrite Forall_forall in Hr. exact (Hr _ Hv). }
  assert (session_live token s st') as [Hl Hl'].
  { apply session_run_live; [done|]. rewrite Hst1, Hs. split; [apply lookup_insert_eq|done]. }
  split; [by rewrite Hs|]. split; intros Ht; [by apply Authenticate_live|].
  unfold Authenticate. rewrite bool_decide_eq_false_2, bind_get, Hl by done.
  unfold Before. rewrite (proj2 (Z.ltb_ge _ _)) by lia. simpl. split; [done|]. apply lookup_delete_eq.
Qed.

Definition demo_random : list (result (list Z)) := [Ok (replicate 32 7)].
Definition demo_issue := IssueSession 100 demo_random "a" RoleNode "net" (NewSessionStore 50).

Lemma session_lifetime_witness :
  ∃ token s, demo_issue = (Ok (token, s), demo_issue.2) ∧
    Authenticate 149 token (session_run [SAuthenticate 120 token; SRevokeNetwork "other"] demo_issue.2) =
      (Ok s, session_run [SAuthenticate 120 token; SRevokeNetwork "other"] demo_issue.2).
Proof.
  eexists _, _. assert (demo_issue = (Ok (_, _), demo_issue.2)) as H by (vm_compute; reflexivity).
  split; [exact H|].
  eapply (session_lifetime 100 demo_random "a" RoleNode "net" (NewSessionStore 50)); [|exact H| |].
  - repeat constructor.
  - repeat constructor; simpl; try discriminate; lia.
  - vm_compute. reflexivity.
Defined.

(** Revoking a network is permanent. After it, whatever operations follow,
    no session is authorized for the network, no token of a session scoped to
    it authenticates, and no session scoped to it is issued. *)
Theorem revoked_network_denied net st os now :
  net ≠ "" →
  let st' := session_run os (RevokeNetwork net st) in
  (∀ s, AuthorizeNetwork now st' s net ≠ None) ∧
  (∀ token s, (Authenticate now token st').1 = Ok s → se_NetworkID s ≠ net) ∧
  (∀ random subject role, is_ok (IssueSession now random subject role net st').1 = false).
Proof.
  intros Hne st'. assert (net ∈ revokedNetworks st') as Hin.
  { apply (session_run_revoked os (RevokeNetwork net st)). unfold RevokeNetwork.
    rewrite bool_decide_eq_false_2 by done. simpl. set_solver. }
  split_and!.
  - intros s. unfold AuthorizeNetwork. case_match; [done|]. case_match; [done|].
    by rewrite bool_decide_eq_true_2.
  - intros token s Ha. pose proof (Authenticate_run now token st') as H.
    destruct (Authenticate now token st') as [r st'']. simpl in Ha. subst r.
    destruct H as (_ & _ & _ & Hr). simpl in *. intros Heq. rewrite Heq in Hr. by destruct Hr.
  - intros random subject role. pose proof (IssueSession_run now random subject role net st') as H.
    destruct (IssueSession now random subject role net st') as [[p|e] st'']; [|done]. exfalso.
    destruct H as (_ & _ & _ & Hr & _). by destruct Hr.
Qed.

Lemma revoked_network_denied_witness :
  AuthorizeNetwork 120 (session_run [SIssue 110 demo_random "b" auth_RoleAdmin ""] (RevokeNetwork "net" demo_issue.2))
    {| se_Subject := "a"; se_Role := RoleNode; se_NetworkID := "net"; se_ExpiresAt := 150 |} "net" ≠ None.
Proof.
  apply (revoked_network_denied "net" demo_issue.2 [SIssue 110 demo_random "b" auth_RoleAdmin ""] 120).
  discriminate.
Defined.
