(* ===== verification/Enrollment.v ===== *)
(** * Enrollment

    [internal/enrollment/service.go]: an invite token becomes a node, a consumed
    invite and a membership with a random free address, in one transaction.  The
    service is written against the repository contract.  Clock, identifier
    generator and the random draws (one per attempt) are arguments. *)

From S2P Require Import Prelude GoStd Crypto Model Pool Repository RepositoryInv RepositoryThm Interface Auth.
From Stdlib Require Import Ascii.

Open Scope Z_scope.

(** ** Invite tokens *)
Record InviteReference := {
  ir_ID : string;
  ir_TokenHash : string
}.

Definition ParseInviteToken (raw : string) : result InviteReference :=
  let refuse := Err (EJoin enrollment_ErrInvalidInviteToken ErrValidation) in
  if bool_decide (raw = "") || ContainsAny raw token_space then refuse
  else match IndexByte raw "."%char with
  | None => refuse
  | Some separator =>
    let l := bytes raw in
    if bool_decide (separator = 0%nat) || bool_decide (separator = (length l - 1)%nat)
       || bool_decide (is_Some (index_byte "."%char (drop (separator + 1) l)))
    then refuse
    else Ok {| ir_ID := of_bytes (take separator l); ir_TokenHash := HashToken raw |}
  end.

(** ** The service *)
Record Request := {
  rq_InviteToken : string;
  rq_Invite : string;
  rq_NodeID : string;
  rq_DisplayName : string;
  rq_PublicKey : string;
  rq_Platform : string;
  rq_ClientVersion : string
}.

Record Result := {
  rs_Node : Node;
  rs_Membership : Membership;
  rs_Network : Network;
  rs_Subject : string;
  rs_NetworkID : string;
  rs_SessionSubject : string;
  rs_SessionNetworkID : string
}.

Section Service.
Context {R : Type} `{TransactionalRepository R}.

(** The allocation loop, [fuel] attempts from number [attempts] on: the
    membership that was added, and [allocationErr]. *)
Fixpoint allocate (fuel : nat) (attempts : nat) (entropy : nat → result Z) (ctx : Context) (pool : Pool)
    (membership : Membership) (occupied : list IP) (r : R) : (option Membership * option error) * R :=
  match fuel with
  | O => ((None, None), r)
  | S fuel =>
    match RandomNext (entropy attempts) pool [OccIPs occupied] with
    | Err err => ((None, Some err), r)
    | Ok candidateIP =>
      let membership := mb_with_IP membership candidateIP in
      match repo_AddMembership ctx membership r with
      | (Ok _, r') => ((Some membership, None), r')
      | (Err addErr, r') =>
        if error_is addErr ErrConflict
        then allocate fuel (S attempts) entropy ctx pool membership (occupied ++ [candidateIP]) r'
        else ((None, Some addErr), r')
      end
    end
  end.

(** The body of the transaction. *)
Definition enroll_body (wall now : Time) (entropy : nat → result Z) (nodeID : string) (request : Request)
    (reference : InviteReference) (ctx : Context) : M R Result :=
  let node := {| nd_ID := nodeID; nd_DisplayName := rq_DisplayName request; nd_PublicKey := rq_PublicKey request;
                 nd_Platform := rq_Platform request; nd_ClientVersion := rq_ClientVersion request;
                 nd_LastSeen := now |} in
  repo_AddNode ctx node ;;
  let! invite := repo_ConsumeInviteForNode wall ctx (ir_ID reference) (ir_TokenHash reference) now (nd_ID node) in
  let! network := repo_GetNetwork ctx (iv_NetworkID invite) in
  let! pool := lift (NewPool (nw_IPv4Pool network)) in
  let membership := {| mb_NetworkID := nw_ID network; mb_NodeID := nd_ID node; mb_VirtualIPv4 := [];
                       mb_Role := RoleMember; mb_Status := MembershipActive |} in
  let! outcome := λ r, let '(o, r') := allocate (Z.to_nat (Size pool)) 0 entropy ctx pool membership [] r in (Ok o, r') in
  let '(allocated, allocationErr) := outcome in
  check (match allocationErr with
         | Some e => if negb (error_is e ErrPoolExhausted) then Some e else None
         | None => None
         end) ;;
  match allocated with
  | None => throw (EPoolExhausted (CIDR pool))
  | Some membership =>
    let! currentNetwork := repo_GetNetwork ctx (nw_ID network) in
    ret {| rs_Node := node; rs_Membership := membership; rs_Network := currentNetwork;
           rs_Subject := nd_ID node; rs_NetworkID := nw_ID network;
           rs_SessionSubject := nd_ID node; rs_SessionNetworkID := nw_ID network |}
  end.

(** The checks before the transaction: the reference and the node identifier. *)
Definition enroll_request (parseToken : string → result InviteReference) (newID : string) (request : Request)
    : result (InviteReference * string) :=
  let rawToken := if bool_decide (rq_InviteToken request = "") then rq_Invite request else rq_InviteToken request in
  match parseToken rawToken with
  | Err e => Err e
  | Ok reference =>
    if blank (rq_DisplayName request) || blank (rq_PublicKey request) || blank (rq_Platform request)
       || blank (rq_ClientVersion request)
    then Err (EJoin enrollment_ErrInvalidRequest ErrValidation)
    else
      let nodeID := TrimSpace (rq_NodeID request) in
      let nodeID := if bool_decide (nodeID = "") then TrimSpace newID else nodeID in
      if bool_decide (nodeID = "") then Err (EJoin enrollment_ErrInvalidRequest ErrValidation)
      else Ok (reference, nodeID)
  end.

Definition Enroll (parseToken : string → result InviteReference) (wall clock : Time) (newID : string)
    (entropy : nat → result Z) (ctx : Context) (request : Request) : M R Result :=
  λ r, match enroll_request parseToken newID request with
       | Err e => (Err e, r)
       | Ok (reference, nodeID) =>
         match repo_WithTransaction ctx (enroll_body wall clock entropy nodeID request reference) r with
         | (TxOk result, r') => (Ok result, r')
         | (TxErr e _, r') => (Err e, r')
         end
       end.

End Service.

(** ** Allocation *)
Section Laws.
Context {R : Type} `{EnrollmentLaws R}.

Definition taken (r : R) (net : string) (ip : IP) : Prop :=
  ∃ nd m, member_at r net nd = Some m ∧ mb_VirtualIPv4 m = ip.

(** The occupied list holds different usable addresses that members have. *)
Definition occupied_ok (p : Pool) (r : R) (net : string) (occupied : list IP) : Prop :=
  NoDup occupied ∧ Forall (λ ip, (∃ v, ip = put_be 4 v ∧ v ∈ hosts p) ∧ taken r net ip) occupied.

(** Every usable address occurs in a list of as many different ones. *)
Lemma occupied_full p base ones (r : R) net occupied :
  pool_wf p base ones → occupied_ok p r net occupied → (Z.to_nat (usableCount p) ≤ length occupied)%nat →
  ∀ v, v ∈ hosts p → taken r net (put_be 4 v).
Proof.
  intros Hp [Hnd Hall] Hlen v Hv. rewrite Forall_forall in Hall.
  assert (put_be 4 v ∈ occupied) as Hin; [|by apply Hall].
  assert (NoDup (put_be 4 <$> hosts p)) as Hnd'.
  { apply NoDup_fmap_inj_on; [apply NoDup_seqZ|]. intros x y Hx Hy Heq.
    rewrite <- (put_be_host Hp x), <- (put_be_host Hp y) by done. by rewrite Heq. }
  assert (occupied ⊆+ put_be 4 <$> hosts p) as Hsub.
  { apply NoDup_submseteq; [done|]. intros ip Hip. destruct (Hall _ Hip) as [(w & -> & Hw) _].
    by apply list_elem_of_fmap_2. }
  apply submseteq_length_Permutation in Hsub.
  - rewrite Hsub. by apply list_elem_of_fmap_2.
  - rewrite length_fmap. unfold hosts. rewrite length_seqZ. lia.
Qed.

Lemma used_of_occupied p base ones (r : R) net occupied v :
  pool_wf p base ones → occupied_ok p r net occupied → v ∈ hosts p →
  v ∈ used_of [OccIPs occupied] ↔ put_be 4 v ∈ occupied.
Proof.
  intros Hp [_ Hall] Hv. rewrite used_of_ips. rewrite Forall_forall in Hall. split.
  - intros (ip & Hip & _ & Heq). destruct (Hall _ Hip) as [(w & -> & Hw) _].
    rewrite (put_be_host Hp) in Heq by done. by subst.
  - intros Hin. exists (put_be 4 v). split; [done|].
    rewrite To4_4 by apply put_be_length. split; [apply is_nil_4, put_be_length|].
    rewrite <- (To4_4 (put_be 4 v)) by apply put_be_length. by apply (put_be_host Hp).
Qed.

Context (entropy : nat → result Z) (p : Pool) (base ones : Z) (net nd : string) (n : Network).
Hypothesis Hentropy : ∀ i, is_ok (entropy i) = true.
Hypothesis Hp : pool_wf p base ones.
Hypothesis Hpool : NewPool (nw_IPv4Pool n) = Ok p.
Hypothesis Hnet : blank net = false.
Hypothesis Hnd : blank nd = false.

Definition fresh_membership (ip : IP) : Membership :=
  {| mb_NetworkID := net; mb_NodeID := nd; mb_VirtualIPv4 := ip;
     mb_Role := RoleMember; mb_Status := MembershipActive |}.

Lemma allocate_correct fuel attempts ip0 occupied (r : R) :
  inv r → network_at r net = Some n → node_known r nd → member_at r net nd = None →
  occupied_ok p r net occupied → (Z.to_nat (usableCount p) ≤ length occupied + fuel)%nat →
  let '(o, r') := allocate fuel attempts entropy liveContext p (fresh_membership ip0) occupied r in
  (∃ v, o = (Some (fresh_membership (put_be 4 v)), None) ∧ v ∈ hosts p ∧ ¬ taken r net (put_be 4 v) ∧ inv r' ∧
     (∃ n', network_at r' net = Some n' ∧ nw_IPv4Pool n' = nw_IPv4Pool n ∧ nw_ID n' = net) ∧
     ∀ net' nd', member_at r' net' nd' =
       if decide (net = net' ∧ nd = nd') then Some (fresh_membership (put_be 4 v)) else member_at r net' nd') ∨
  (r' = r ∧ (o = (None, None) ∨ o = (None, Some (EPoolExhausted (cidr p)))) ∧
     ∀ v, v ∈ hosts p → taken r net (put_be 4 v)).
Proof.
  intros Hinv Hn Hk Hm. revert attempts ip0 occupied.
  induction fuel as [|fuel IH]; intros attempts ip0 occupied Hocc Hlen; simpl.
  { right. split; [done|]. split; [by left|]. eapply occupied_full; eauto. lia. }
  destruct (entropy attempts) as [z|e] eqn:Ee; [|by specialize (Hentropy attempts); rewrite Ee in Hentropy].
  pose proof (RandomNext_search p base ones z [OccIPs occupied] Hp) as Hr.
  destruct (RandomNext (Ok z) p [OccIPs occupied]) as [ip|e].
  2: { destruct Hr as [-> Hall]. right. split; [done|]. split; [by right|].
       intros v Hv. destruct Hocc as [Hd Hf]. rewrite Forall_forall in Hf.
       apply Hf, (used_of_occupied p base ones r net); [done|by split; [|apply Forall_forall]|done|auto]. }
  destruct Hr as (v & -> & Hv & Hu). rewrite (used_of_occupied p base ones r net) in Hu by done.
  change (mb_with_IP (fresh_membership ip0) (put_be 4 v)) with (fresh_membership (put_be 4 v)).
  destruct (law_AddMembership net nd (put_be 4 v) n p r) as [[(nd' & m' & Hm' & Hip) Hadd]|[Hno (r' & Hadd & Hrest)]];
    try done; eauto using Usable_put_be, put_be_length, put_be_byte.
  - fold (fresh_membership (put_be 4 v)) in Hadd. rewrite Hadd. cbn [error_is].
    rewrite bool_decide_eq_true_2 by done. apply IH.
    + destruct Hocc as [Hd Hf]. split.
      * rewrite NoDup_app. split; [done|]. split; [|apply NoDup_singleton]. intros x Hx ->%list_elem_of_singleton. done.
      * apply Forall_app. split; [done|]. repeat constructor; [eauto|]. by exists nd', m'.
    + rewrite length_app. simpl. lia.
  - fold (fresh_membership (put_be 4 v)) in Hadd. rewrite Hadd. left. exists v. destruct Hrest as (?&?&?).
    split_and!; try done. intros (nd' & m' & Hm' & Hip). by eapply Hno.
Qed.

End Laws.

(** ** The whole flow *)
Lemma enroll_request_nodeID parseToken newID request reference nodeID :
  enroll_request parseToken newID request = Ok (reference, nodeID) → blank nodeID = false.
Proof.
  unfold enroll_request. intros H. repeat (case_match; simplify_eq);
    unfold blank; by rewrite TrimSpace_idemp.
Qed.

Definition enrolled_node (now : Time) (nodeID : string) (request : Request) : Node :=
  {| nd_ID := nodeID; nd_DisplayName := rq_DisplayName request; nd_PublicKey := rq_PublicKey request;
     nd_Platform := rq_Platform request; nd_ClientVersion := rq_ClientVersion request; nd_LastSeen := now |}.

(** The outcome of the transaction's body once the node is added and the invite
    consumed. *)
Lemma enroll_body_correct {R} `{EnrollmentLaws R} wall now entropy nodeID request reference (r r1 r2 : R) i n p :
  inv r → (∀ k, is_ok (entropy k) = true) → blank nodeID = false →
  repo_AddNode liveContext (enrolled_node now nodeID request) r = (Ok tt, r1) →
  repo_ConsumeInviteForNode wall liveContext (ir_ID reference) (ir_TokenHash reference) now nodeID r1 = (Ok i, r2) →
  network_at r (iv_NetworkID i) = Some n → NewPool (nw_IPv4Pool n) = Ok p →
  match enroll_body wall now entropy nodeID request reference liveContext r with
  | (Ok res, w) => inv w ∧ rs_Node res = enrolled_node now nodeID request ∧ rs_NetworkID res = iv_NetworkID i ∧
      ∃ v, v ∈ hosts p ∧ ¬ taken r (iv_NetworkID i) (put_be 4 v) ∧
        rs_Membership res = fresh_membership (iv_NetworkID i) nodeID (put_be 4 v) ∧
        ∀ net' nd', member_at w net' nd' =
          if decide (iv_NetworkID i = net' ∧ nodeID = nd') then Some (rs_Membership res) else member_at r net' nd'
  | (Err e, w) => e = EPoolExhausted (cidr p) ∧ ∀ v, v ∈ hosts p → taken r (iv_NetworkID i) (put_be 4 v)
  end.
Proof.
  intros Hinv Hent Hblank Hadd Hcons Hn Hpool. unfold enroll_body, bind at 1.
  fold (enrolled_node now nodeID request). rewrite Hadd. cbv zeta.
  destruct (law_AddNode _ _ _ _ Hinv Hadd) as (Hinv1 & Hk1 & Hnet1 & Hmem1 & Hfresh). simpl in Hk1, Hfresh.
  unfold bind at 1. cbn [nd_ID enrolled_node]. rewrite Hcons.
  destruct (law_ConsumeInvite _ _ _ _ _ _ _ _ _ Hinv1 Hcons) as (Hinv2 & Hnet2 & Hmem2 & Hk2 & _).
  unfold bind at 1. rewrite law_GetNetwork, Hnet2, Hnet1, Hn, bind_lift, Hpool.
  destruct (law_network _ _ _ Hinv Hn) as (Hid & Hblank' & _). rewrite Hid.
  destruct (NewPool_wf _ _ Hpool) as (base & ones & Hp & _). unfold bind at 1. unfold Size.
  rewrite (pw_valid _ _ _ Hp).
  pose proof (allocate_correct entropy p base ones (iv_NetworkID i) nodeID n Hent Hp Hpool Hblank' Hblank
    (Z.to_nat (usableCount p)) 0 [] [] r2 Hinv2) as Hal.
  fold (fresh_membership (iv_NetworkID i) nodeID []).
  destruct (allocate _ _ _ _ _ _ _ r2) as [o w].
  destruct Hal as [(v & -> & Hv & Hfree & Hw & (n' & Hn' & _ & Hid') & Hmem)|(-> & Ho & Hall)].
  - by rewrite Hnet2, Hnet1.
  - auto.
  - by rewrite Hmem2, Hmem1.
  - split; constructor.
  - simpl. lia.
  - rewrite bind_check. unfold bind. rewrite law_GetNetwork, Hn', run_ret. simpl. split_and!; try done.
    exists v. split_and!; try done.
    + intros (nd' & m & Hm & Hip). apply Hfree. exists nd', m. by rewrite Hmem2, Hmem1.
    + intros net' nd'. by rewrite Hmem, Hmem2, Hmem1.
  - assert (∀ v, v ∈ hosts p → taken r (iv_NetworkID i) (put_be 4 v)) as Hall'.
    { intros v Hv. destruct (Hall v Hv) as (nd' & m & Hm & Hip). exists nd', m. by rewrite <- Hmem1, <- Hmem2. }
    destruct Ho as [-> | ->]; rewrite bind_check; simpl; done.
Qed.

(** The memory repository stays well formed through the body, whatever happens. *)
Lemma RandomNext_bytes e p occ ip : RandomNext e p occ = Ok ip → Forall is_byte ip.
Proof.
  unfold RandomNext. intros Hr. repeat (case_match; simplify_eq). revert Hr. generalize 0 at 1.
  induction (Z.to_nat (usableCount p)) as [|k IH]; intros o; cbn [random_loop]; [done|].
  case_bool_decide; [apply IH|]. intros Heq. injection Heq as Heq. rewrite <- Heq. apply (put_be_byte 4).
Qed.

Lemma allocate_wf fuel attempts entropy ctx p m occupied (r : MemoryRepository) :
  repo_wf r → repo_wf (allocate fuel attempts entropy ctx p m occupied r).2.
Proof.
  revert attempts m occupied r. induction fuel as [|fuel IH]; intros attempts m occupied r Hwf; simpl; [done|].
  destruct (RandomNext _ _ _) as [ip|e] eqn:Er; [|done]. simpl.
  pose proof (AddMembership_wf ctx (mb_with_IP m ip) r (RandomNext_bytes _ _ _ _ Er) Hwf) as Hwf'.
  destruct (AddMembership ctx (mb_with_IP m ip) r) as [[[]|e] r']; simpl in *; [done|].
  case_match; [by apply IH|done].
Qed.

Lemma GetNetwork_state ctx id r : (GetNetwork ctx id r).2 = r.
Proof. unfold GetNetwork. run_m; done. Qed.

Lemma enroll_body_wf wall now entropy nodeID request reference ctx r :
  repo_wf r → repo_wf (enroll_body wall now entropy nodeID request reference ctx r).2.
Proof.
  intros Hwf. unfold enroll_body. apply (bind_keeps repo_wf); [by apply AddNode_wf|]. intros _ r1 Hwf1.
  apply (bind_keeps repo_wf); [by apply ConsumeInviteForNode_wf|]. intros i r2 Hwf2.
  apply (bind_keeps repo_wf); [simpl; by rewrite GetNetwork_state|]. intros n r3 Hwf3.
  apply (bind_keeps repo_wf); [by destruct (NewPool _)|]. intros p r4 Hwf4.
  apply (bind_keeps repo_wf).
  { pose proof (allocate_wf (Z.to_nat (Size p)) 0 entropy ctx p
      {| mb_NetworkID := nw_ID n; mb_NodeID := nodeID; mb_VirtualIPv4 := [];
         mb_Role := RoleMember; mb_Status := MembershipActive |} [] r4 Hwf4) as Hw.
    simpl. destruct (allocate _ _ _ _ _ _ _ _) as [o r']. exact Hw. }
  intros [allocated err] r5 Hwf5. apply (bind_keeps repo_wf); [rewrite run_check; by repeat case_match|]. intros _ r6 Hwf6.
  destruct allocated; [|done]. apply (bind_keeps repo_wf); [simpl; by rewrite GetNetwork_state|done].
Qed.

Lemma WithTransaction_wf {A} ctx (f : Context → M MemoryRepository A) r :
  repo_wf r → (∀ r, repo_wf r → repo_wf (f ctx r).2) → repo_wf (WithTransaction ctx (Some f) r).2.
Proof.
  intros Hwf Hf. apply (outcome_snd _ _ _ _ (WithTransaction_run ctx f r)); [by intros ?? ->|].
  intros a r' (w & Heq & _ & ->). specialize (Hf r Hwf). rewrite Heq in Hf. by destruct Hf.
Qed.

(** ** Claims *)

(** The accepted invite tokens are exactly the strings [id.secret] with both
    parts not empty, a single dot and no white space; the reference has [id] as
    its identifier and the digest of the complete token as its verifier. *)
Theorem ParseInviteToken_correct raw reference :
  ParseInviteToken raw = Ok reference ↔
  ∃ id secret, raw = (id +:+ "." +:+ secret)%string ∧ id ≠ "" ∧ secret ≠ "" ∧
    ("."%char ∉ bytes id) ∧ ("."%char ∉ bytes secret) ∧ ContainsAny raw token_space = false ∧
    reference = {| ir_ID := id; ir_TokenHash := HashToken raw |}.
Proof.
  unfold ParseInviteToken, IndexByte. split.
  - case_match eqn:E; [done|]. apply orb_false_iff in E as [_ Hws].
    destruct (index_byte _ (bytes raw)) as [k|] eqn:Ei; [|done].
    apply index_byte_Some in Ei as (a & b & Hraw & <- & Ha). rewrite Hraw.
    case_match eqn:E; [done|]. intros [= <-].
    apply orb_false_iff in E as [[E1 E2]%orb_false_iff E3]. rewrite !bool_decide_eq_false in E1, E2, E3.
    rewrite length_app in E2. simpl in E2.
    rewrite drop_app_ge in E3 by lia. replace (length a + 1 - length a)%nat with 1%nat in E3 by lia. simpl in E3.
    apply eq_None_not_Some, index_byte_None in E3.
    exists (of_bytes a), (of_bytes b). rewrite !bytes_of_bytes, take_app_length. split_and!; try done.
    + apply bytes_inj. by rewrite !bytes_app, !bytes_of_bytes.
    + intros H0. apply E1. apply (f_equal bytes) in H0. rewrite bytes_of_bytes in H0. by subst a.
    + intros H0. apply E2. apply (f_equal bytes) in H0. rewrite bytes_of_bytes in H0. subst b. simpl. lia.
  - intros (id & secret & -> & Hid & Hsec & Hdot & Hdot' & Hws & ->).
    assert (bytes (id +:+ "." +:+ secret) = bytes id ++ "."%char :: bytes secret) as Hb by (by rewrite !bytes_app).
    assert (bytes id ≠ []) as Hid' by (intros H0; apply Hid; by apply bytes_inj).
    assert (bytes secret ≠ []) as Hsec' by (intros H0; apply Hsec; by apply bytes_inj).
    rewrite Hws, bool_decide_eq_false_2 by (by destruct id). simpl orb. cbv iota.
    rewrite Hb, (proj2 (index_byte_Some _ _ (length (bytes id)))) by eauto.
    rewrite bool_decide_eq_false_2 by (by destruct (bytes id)).
    rewrite bool_decide_eq_false_2 by (rewrite length_app; destruct (bytes secret); simpl; [done|lia]).
    rewrite drop_app_ge by lia. replace (length (bytes id) + 1 - length (bytes id))%nat with 1%nat by lia. simpl. rewrite ?drop_0.
    rewrite bool_decide_eq_false_2 by (rewrite (proj2 (index_byte_None _ _) Hdot'); by intros []).
    by rewrite take_app_length, of_bytes_bytes.
Qed.

(** C3: enrollment finds an address whenever there is one. For every sequence of
    random draws, once the request is accepted, the node is new and its invite
    valid: if some usable address of the pool is free, the result carries a
    usable address that no member had, the member is stored with it and nobody
    else's membership changes; and only if every usable address is taken, the
    outcome is [PoolExhausted] and the repository is what it was. The number of
    attempts, the size of the pool, is always enough. *)
Theorem Enroll_correct {R} {TR : TransactionalRepository R} {EL : EnrollmentLaws R} parseToken wall clock newID entropy request reference nodeID
    (r r1 r2 : R) i n p :
  inv r → (∀ k, is_ok (entropy k) = true) →
  enroll_request parseToken newID request = Ok (reference, nodeID) →
  repo_AddNode liveContext (enrolled_node clock nodeID request) r = (Ok tt, r1) →
  repo_ConsumeInviteForNode wall liveContext (ir_ID reference) (ir_TokenHash reference) clock nodeID r1 = (Ok i, r2) →
  network_at r (iv_NetworkID i) = Some n → NewPool (nw_IPv4Pool n) = Ok p →
  (Enroll parseToken wall clock newID entropy liveContext request r = (Err (EPoolExhausted (cidr p)), r) ∧
     ∀ v, v ∈ hosts p → taken r (iv_NetworkID i) (put_be 4 v)) ∨
  (∃ res r' v, Enroll parseToken wall clock newID entropy liveContext request r = (Ok res, r') ∧ inv r' ∧
     v ∈ hosts p ∧ ¬ taken r (iv_NetworkID i) (put_be 4 v) ∧
     rs_Membership res = fresh_membership (iv_NetworkID i) nodeID (put_be 4 v) ∧
     ∀ net' nd', member_at r' net' nd' =
       if decide (iv_NetworkID i = net' ∧ nodeID = nd') then Some (rs_Membership res) else member_at r net' nd').
Proof.
  intros Hinv Hent Hreq Hadd Hcons Hn Hpool.
  pose proof (enroll_body_correct wall clock entropy nodeID request reference r r1 r2 i n p Hinv Hent
    (enroll_request_nodeID _ _ _ _ _ Hreq) Hadd Hcons Hn Hpool) as Hb.
  unfold Enroll. rewrite Hreq.
  destruct (enroll_body wall clock entropy nodeID request reference liveContext r) as [[res|e] w] eqn:Eb.
  - right. destruct Hb as (Hw & _ & _ & v & Hv & Hfree & Hm & Hmem).
    destruct (law_transaction_ok _ _ _ _ Hinv Hw Eb) as (r' & -> & Hr' & _ & Hmem').
    exists res, r', v. split_and!; try done. intros net' nd'. by rewrite Hmem', Hmem.
  - left. destruct Hb as [-> Hall]. by rewrite (law_transaction_err _ _ _ _ Eb).
Qed.

(** A repository with one free address left, and the request for it. *)
Definition demo_token : string := "inv.secret".
Definition demo_request : Request :=
  {| rq_InviteToken := demo_token; rq_Invite := ""; rq_NodeID := " c "; rq_DisplayName := "c";
     rq_PublicKey := "kc"; rq_Platform := "linux"; rq_ClientVersion := "1" |}.
Definition demo_enroll_ops : list op :=
  [OCreateNetwork {| nw_ID := "net"; nw_Name := "lab"; nw_IPv4Pool := "10.0.0.0/30"; nw_OwnerID := "owner";
                     nw_ConfigVersion := 0; nw_CreatedAt := 1 |};
   OAddNode (demo_node "a" "ka"); OAddMembership (demo_member "a" [10; 0; 0; 2]);
   OCreateInvite {| iv_ID := "inv"; iv_NetworkID := "net"; iv_TokenHash := HashToken demo_token;
                    iv_ExpiresAt := 100; iv_ConsumedAt := None; iv_RevokedAt := None;
                    iv_ConsumedByNodeID := ""; iv_CreatedAt := 1 |}].
Definition demo_enroll_repo : MemoryRepository := (exec_all demo_enroll_ops liveContext NewMemoryRepository).2.

Lemma demo_enroll_wf : repo_wf demo_enroll_repo.
Proof.
  apply (exec_all_respects (λ _, same_age) exec_age); [|apply empty_wf].
  repeat constructor; simpl; unfold int64, MaxInt64, is_byte; lia.
Qed.

Lemma Enroll_correct_witness :
  ∃ res r', Enroll ParseInviteToken 7 6 "" (λ k, Ok (Z.of_nat k + 1)) liveContext demo_request demo_enroll_repo = (Ok res, r') ∧
    mb_VirtualIPv4 (rs_Membership res) = [10; 0; 0; 1] ∧ ¬ taken demo_enroll_repo "net" [10; 0; 0; 1].
Proof.
  assert (∃ r1 i r2 p,
    AddNode liveContext (enrolled_node 6 "c" demo_request) demo_enroll_repo = (Ok tt, r1) ∧
    ConsumeInviteForNode 7 liveContext "inv" (HashToken demo_token) 6 "c" r1 = (Ok i, r2) ∧ iv_NetworkID i = "net" ∧
    NewPool "10.0.0.0/30" = Ok p ∧ hosts p = [167772161; 167772162]) as (r1 & i & r2 & p & H1 & H2 & Hi & Hp & Hh).
  { do 4 eexists. split; [vm_compute; reflexivity|]. split; [vm_compute; reflexivity|].
    split; [vm_compute; reflexivity|]. split; vm_compute; reflexivity. }
  destruct (Enroll_correct (R := MemoryRepository) (EL := Memory_EnrollmentLaws) ParseInviteToken 7 6 "" (λ k, Ok (Z.of_nat k + 1)) demo_request
    {| ir_ID := "inv"; ir_TokenHash := HashToken demo_token |} "c" demo_enroll_repo r1 r2 i
    (nw_with_version {| nw_ID := "net"; nw_Name := "lab"; nw_IPv4Pool := "10.0.0.0/30"; nw_OwnerID := "owner";
                        nw_ConfigVersion := 0; nw_CreatedAt := 1 |} 2) p demo_enroll_wf)
    as [[Hno _]|(res & r' & v & He & _ & Hv & Hfree & Hm & _)].
  - intros k. reflexivity.
  - vm_compute. reflexivity.
  - exact H1.
  - exact H2.
  - rewrite Hi. vm_compute. reflexivity.
  - exact Hp.
  - exfalso. apply (f_equal (λ x, is_ok x.1)) in Hno. vm_compute in Hno. discriminate Hno.
  - exists res, r'. split; [exact He|]. rewrite Hm, Hi in *. rewrite Hh in Hv. simpl.
    apply elem_of_cons in Hv as [->|Hv]; [split; [reflexivity|exact Hfree]|].
    apply list_elem_of_singleton in Hv as ->. exfalso. apply Hfree. exists "a", (demo_member "a" [10; 0; 0; 2]).
    split; vm_compute; reflexivity.
Defined.

(** A failed enrollment changes nothing. Whatever the request, the clock, the
    draws and the step that fails, if [Enroll] returns an error the in-memory
    repository is exactly as before, the invite unused and the node unknown; and
    in every case the repository stays well formed. *)
Theorem Enroll_atomic parseToken wall clock newID entropy ctx request (r : MemoryRepository) :
  repo_wf r →
  outcome (λ _ r', r' = r) (λ _ r', repo_wf r')
    (Enroll parseToken wall clock newID entropy ctx request r).
Proof.
  intros Hwf. unfold Enroll. destruct (enroll_request _ _ _) as [[reference nodeID]|e]; [|done]. simpl.
  pose proof (WithTransaction_run ctx (enroll_body wall clock entropy nodeID request reference) r) as Hrun.
  pose proof (WithTransaction_wf ctx (enroll_body wall clock entropy nodeID request reference) r Hwf
    (λ r, enroll_body_wf wall clock entropy nodeID request reference ctx r)) as Hw.
  destruct (WithTransaction ctx _ r) as [[res|e] r']; unfold outcome in *; simpl in *; done.
Qed.

Lemma Enroll_atomic_witness :
  let x := Enroll ParseInviteToken 7 6 "" (λ k, Err (EForeign 3)) liveContext demo_request demo_enroll_repo in
  x.1 = Err (EWrap (EForeign 3)) ∧ x.2 = demo_enroll_repo.
Proof.
  intros x. assert (x.1 = Err (EWrap (EForeign 3))) as H by (vm_compute; reflexivity).
  split; [exact H|].
  pose proof (Enroll_atomic ParseInviteToken 7 6 "" (λ k, Err (EForeign 3)) liveContext demo_request
    demo_enroll_repo demo_enroll_wf) as Ha.
  fold x in Ha. unfold outcome in Ha. rewrite H in Ha. exact Ha.
Defined.
