(* ===== verification/Room.v ===== *)
(** * Room mode: the join limiter and the single room

    [roomJoinLimiter] and [roomCoordinator] of [internal/control/room.go].  The
    limiter takes the clock reading as an argument; like the code it prunes its
    table and rolls the window over also when it refuses. *)

From S2P Require Import Prelude GoStd Model Repository Interface.

Open Scope Z_scope.

Definition defaultRoomJoinPerIP : Z := 10.
Definition defaultRoomJoinGlobal : Z := 100.
Definition roomJoinWindow : Duration := Minute.
Definition roomLimiterEntryTTL : Duration := 2 * Minute.
Definition roomJoinBodyLimit : Z := Z.shiftl 64 10.

Record roomLimitEntry := {
  le_window : Time;
  le_count : Z;
  le_lastSeen : Time
}.

Record roomJoinLimiter := {
  perIP : Z;
  global : Z;
  globalWindow : Time;
  globalCount : Z;
  sources : gmap string roomLimitEntry
}.

Definition newRoomJoinLimiter (perIP global : Z) : roomJoinLimiter :=
  {| perIP := if perIP <=? 0 then defaultRoomJoinPerIP else perIP;
     global := if global <=? 0 then defaultRoomJoinGlobal else global;
     globalWindow := 0; globalCount := 0; sources := ∅ |}.

Definition allow (now : Time) (remoteAddr : string) (l : roomJoinLimiter) : bool * roomJoinLimiter :=
  match SplitHostPort (TrimSpace remoteAddr) with
  | None => (false, l)
  | Some (source, _) =>
    if blank source then (false, l)
    else
      let window := Truncate now roomJoinWindow in
      let kept := filter (λ kv, roomLimiterEntryTTL <? time_Sub now (le_lastSeen kv.2) = false) (sources l) in
      let count := if bool_decide (globalWindow l = window) then globalCount l else 0 in
      let found := default {| le_window := 0; le_count := 0; le_lastSeen := 0 |} (kept !! source) in
      let entry := if bool_decide (le_window found = window) then found
                   else {| le_window := window; le_count := 0; le_lastSeen := 0 |} in
      if (global l <=? count) || (perIP l <=? le_count entry) then
        (false, {| perIP := perIP l; global := global l; globalWindow := window;
                   globalCount := count; sources := kept |})
      else
        (true, {| perIP := perIP l; global := global l; globalWindow := window; globalCount := count + 1;
                  sources := <[source := {| le_window := window; le_count := le_count entry + 1;
                                            le_lastSeen := now |}]> kept |})
  end.

(** The coordinator is the identifier of the room's network, empty while there
    is none. *)
Definition active (room : string) : option string := if bool_decide (room = "") then None else Some room.

Definition room_create {R} `{TransactionalRepository R} (ctx : Context) (network : Network)
    : M (string * R) unit :=
  λ s, let '(room, r) := s in
       if negb (bool_decide (room = "")) then (Err ErrRoomAlreadyExists, s)
       else match repo_CreateNetwork ctx network r with
            | (Err e, r') => (Err e, (room, r'))
            | (Ok _, r') => (Ok tt, (nw_ID network, r'))
            end.

(** ** Runs of the limiter *)

(** The source a call is counted for. *)
Definition source_of (remoteAddr : string) : option string :=
  match SplitHostPort (TrimSpace remoteAddr) with
  | Some (source, _) => if blank source then None else Some source
  | None => None
  end.

(** The joins a run lets through: the window and the source of each. *)
Fixpoint allowed (calls : list (Time * string)) (l : roomJoinLimiter) : list (Time * string) :=
  match calls with
  | [] => []
  | (now, addr) :: calls =>
    let '(ok, l') := allow now addr l in
    (if ok then match source_of addr with
                | Some s => [(Truncate now roomJoinWindow, s)]
                | None => []
                end else []) ++ allowed calls l'
  end.

Definition in_window (w : Time) (h : list (Time * string)) : Z :=
  Z.of_nat (length (filter (λ e, e.1 = w) h)).
Definition in_window_of (w : Time) (s : string) (h : list (Time * string)) : Z :=
  Z.of_nat (length (filter (λ e, e = (w, s)) h)).

(** What the limiter remembers of the joins [h] it has let through until [t]. *)
Record tracks (l : roomJoinLimiter) (h : list (Time * string)) (t : Time) : Prop := {
  tr_time : globalWindow l ≤ Truncate t roomJoinWindow;
  tr_past : ∀ e, e ∈ h → e.1 ≤ globalWindow l;
  tr_global : in_window (globalWindow l) h = globalCount l;
  tr_source : ∀ s, in_window_of (globalWindow l) s h =
    match sources l !! s with
    | Some e => if bool_decide (le_window e = globalWindow l) then le_count e else 0
    | None => 0
    end;
  tr_entry : ∀ s e, sources l !! s = Some e →
    le_window e = Truncate (le_lastSeen e) roomJoinWindow ∧ le_lastSeen e ≤ t ∧ le_window e ≤ globalWindow l;
  tr_bound : ∀ w, in_window w h ≤ global l;
  tr_bound_source : ∀ w s, in_window_of w s h ≤ perIP l
}.

Lemma Truncate_mono t u : t ≤ u → Truncate t roomJoinWindow ≤ Truncate u roomJoinWindow.
Proof. unfold Truncate, roomJoinWindow, Minute, Second. simpl. intros. divlia. Qed.

(** An entry that is old enough to be pruned belongs to an earlier window. *)
Lemma pruned_window now seen :
  seen ≤ now → roomLimiterEntryTTL <? time_Sub now seen = true →
  Truncate seen roomJoinWindow < Truncate now roomJoinWindow.
Proof.
  unfold Truncate, roomJoinWindow, roomLimiterEntryTTL, time_Sub, Minute, Second, MaxInt64. simpl.
  rewrite Z.ltb_lt. intros. divlia.
Qed.

Lemma in_window_app w h h' : in_window w (h ++ h') = in_window w h + in_window w h'.
Proof. unfold in_window. rewrite filter_app, length_app. lia. Qed.

Lemma in_window_of_app w s h h' : in_window_of w s (h ++ h') = in_window_of w s h + in_window_of w s h'.
Proof. unfold in_window_of. rewrite filter_app, length_app. lia. Qed.

Lemma in_window_later w h : (∀ e, e ∈ h → e.1 < w) → in_window w h = 0.
Proof.
  intros Hh. unfold in_window. replace (filter _ h) with (@nil (Time * string)); [done|]. symmetry.
  induction h as [|e h IH]; [done|]. rewrite filter_cons, decide_False.
  - apply IH. intros e' He'. apply Hh. by right.
  - specialize (Hh e ltac:(by left)). lia.
Qed.

Lemma in_window_of_le w s h : in_window_of w s h ≤ in_window w h.
Proof.
  unfold in_window_of, in_window. induction h as [|e h IH]; [done|]. rewrite !filter_cons.
  destruct (decide (e = (w, s))) as [->|]; [rewrite decide_True by done; simpl; lia|].
  case_decide; simpl; lia.
Qed.

Lemma in_window_one w w' s : in_window w [(w', s)] = if decide (w' = w) then 1 else 0.
Proof. unfold in_window. rewrite filter_cons. simpl. by case_decide. Qed.

Lemma in_window_of_one w s w' s' :
  in_window_of w s [(w', s')] = if decide ((w', s') = (w, s)) then 1 else 0.
Proof. unfold in_window_of. rewrite filter_cons. by case_decide. Qed.

(** The limiter after it has looked at the clock. *)
Definition rolled (now : Time) (l : roomJoinLimiter) : roomJoinLimiter :=
  let window := Truncate now roomJoinWindow in
  {| perIP := perIP l; global := global l; globalWindow := window;
     globalCount := if bool_decide (globalWindow l = window) then globalCount l else 0;
     sources := filter (λ kv, roomLimiterEntryTTL <? time_Sub now (le_lastSeen kv.2) = false) (sources l) |}.

(** The count of a source in the window of the clock. *)
Definition source_count (l : roomJoinLimiter) (s : string) : Z :=
  match sources l !! s with
  | Some e => if bool_decide (le_window e = globalWindow l) then le_count e else 0
  | None => 0
  end.

Lemma rolled_tracks l h t now : tracks l h t → t ≤ now → tracks (rolled now l) h now.
Proof.
  intros Htr Ht. pose proof (Truncate_mono t now Ht) as Hmono. pose proof (tr_time _ _ _ Htr) as Hgw.
  set (W := Truncate now roomJoinWindow) in *.
  assert (∀ s, sources (rolled now l) !! s = sources l !! s ∨
    sources (rolled now l) !! s = None ∧ ∃ e, sources l !! s = Some e ∧ le_window e < W) as Hkept.
  { intros s. destruct (sources l !! s) as [e|] eqn:E.
    - destruct (roomLimiterEntryTTL <? time_Sub now (le_lastSeen e)) eqn:Ep.
      + right. split; [apply map_lookup_filter_None; right; intros e' He'; simplify_eq; simpl; by rewrite Ep|].
        exists e. split; [done|]. destruct (tr_entry _ _ _ Htr _ _ E) as (-> & Hl & _). apply pruned_window; [lia|done].
      + left. by apply map_lookup_filter_Some.
    - left. apply map_lookup_filter_None. by left. }
  assert (globalWindow l ≠ W → ∀ e, e ∈ h → e.1 < W) as Hlater.
  { intros Hne e He. pose proof (tr_past _ _ _ Htr _ He). lia. }
  split; simpl; fold W.
  - lia.
  - intros e He. pose proof (tr_past _ _ _ Htr _ He). lia.
  - case_bool_decide as E; [rewrite <- E; apply Htr|by apply in_window_later, Hlater].
  - intros s. change (filter _ (sources l)) with (sources (rolled now l)).
    destruct (decide (globalWindow l = W)) as [E|E].
    + rewrite <- E, (tr_source _ _ _ Htr). destruct (Hkept s) as [->|(-> & e & -> & He)]; [done|].
      rewrite bool_decide_eq_false_2; [done|lia].
    + assert (in_window_of W s h = 0) as ->.
      { pose proof (in_window_of_le W s h). rewrite (in_window_later W h) in * by auto.
        unfold in_window_of in *. lia. }
      destruct (Hkept s) as [->|(-> & _)]; [|done]. destruct (sources l !! s) as [e|] eqn:Ee; [|done].
      rewrite bool_decide_eq_false_2; [done|]. destruct (tr_entry _ _ _ Htr _ _ Ee) as (_ & _ & Hw). lia.
  - intros s e [He _]%map_lookup_filter_Some. destruct (tr_entry _ _ _ Htr _ _ He) as (? & ? & ?).
    split_and!; [done|lia|lia].
  - apply Htr.
  - apply Htr.
Qed.

(** [allow] in terms of the rolled limiter: one more join when both counts are
    below their limits. *)
Lemma allow_rolled now addr l :
  allow now addr l =
    match source_of addr with
    | None => (false, l)
    | Some s =>
      let l0 := rolled now l in
      if (global l <=? globalCount l0) || (perIP l <=? source_count l0 s) then (false, l0)
      else (true, {| perIP := perIP l; global := global l; globalWindow := globalWindow l0;
                     globalCount := globalCount l0 + 1;
                     sources := <[s := {| le_window := globalWindow l0; le_count := source_count l0 s + 1;
                                          le_lastSeen := now |}]> (sources l0) |})
    end.
Proof.
  unfold allow, source_of. destruct (SplitHostPort _) as [[s port]|]; [|done].
  destruct (blank s); [done|]. cbv zeta.
  assert (source_count (rolled now l) s =
    le_count (if bool_decide (le_window (default {| le_window := 0; le_count := 0; le_lastSeen := 0 |}
                (sources (rolled now l) !! s)) = Truncate now roomJoinWindow)
              then default {| le_window := 0; le_count := 0; le_lastSeen := 0 |} (sources (rolled now l) !! s)
              else {| le_window := Truncate now roomJoinWindow; le_count := 0; le_lastSeen := 0 |})) as Hc.
  { unfold source_count. destruct (sources (rolled now l) !! s) as [e|]; simpl; repeat case_bool_decide; done. }
  rewrite Hc. unfold rolled. simpl. done.
Qed.

Lemma allow_tracks now addr l h t :
  tracks l h t → t ≤ now →
  let '(ok, l') := allow now addr l in
  perIP l' = perIP l ∧ global l' = global l ∧ ∃ t', t ≤ t' ≤ now ∧
  tracks l' (h ++ if ok then match source_of addr with
                             | Some s => [(Truncate now roomJoinWindow, s)]
                             | None => []
                             end else []) t'.
Proof.
  intros Htr Ht. rewrite allow_rolled. destruct (source_of addr) as [s|].
  2: { split_and!; [done|done|]. exists t. rewrite app_nil_r. split; [lia|done]. }
  pose proof (rolled_tracks l h t now Htr Ht) as H0. cbv zeta.
  destruct (_ || _) eqn:E; (split; [done|]); (split; [done|]); exists now; (split; [lia|]).
  { by rewrite app_nil_r. }
  apply orb_false_iff in E as [Eg Es]. rewrite Z.leb_gt in Eg, Es.
  set (W := Truncate now roomJoinWindow).
  assert (globalWindow (rolled now l) = W) as HW by done.
  assert (perIP l = perIP (rolled now l)) as Hp by done. assert (global l = global (rolled now l)) as Hgl by done.
  rewrite Hp, Hgl in *. set (l0 := rolled now l) in *. clearbody l0.
  pose proof (tr_global _ _ _ H0) as Hg. pose proof (tr_source _ _ _ H0) as Hs.
  split; simpl.
  - apply H0.
  - intros e [He| ->%list_elem_of_singleton]%elem_of_app; [by apply (tr_past _ _ _ H0)|]. simpl. lia.
  - rewrite HW in *. rewrite in_window_app, in_window_one, decide_True by done. lia.
  - intros s'. specialize (Hs s'). rewrite HW in *. rewrite in_window_of_app, in_window_of_one, Hs.
    destruct (decide (s' = s)) as [->|Hne].
    + rewrite decide_True, lookup_insert_eq by done. simpl. rewrite bool_decide_eq_true_2 by done.
      unfold source_count. rewrite HW. lia.
    + rewrite decide_False, lookup_insert_ne by congruence. lia.
  - intros s' e. rewrite lookup_insert_Some. intros [[<- <-]|[_ He]]; simpl.
    + split_and!; [done|lia|lia].
    + by apply (tr_entry _ _ _ H0) in He.
  - intros w. rewrite in_window_app, in_window_one. pose proof (tr_bound _ _ _ H0 w).
    case_decide; [subst w; rewrite HW in *; lia|lia].
  - intros w s'. rewrite in_window_of_app, in_window_of_one. pose proof (tr_bound_source _ _ _ H0 w s').
    case_decide as E; [|lia]. injection E as <- <-. specialize (Hs s). unfold source_count in Es.
    rewrite HW in *. lia.
Qed.

Lemma allowed_tracks calls l h t :
  tracks l h t → StronglySorted (λ x y, x.1 ≤ y.1) calls → Forall (λ c, t ≤ c.1) calls →
  ∃ l' t', perIP l' = perIP l ∧ global l' = global l ∧ tracks l' (h ++ allowed calls l) t'.
Proof.
  revert l h t. induction calls as [|[now addr] calls IH]; intros l h t Htr Hs Hf.
  { exists l, t. by rewrite app_nil_r. }
  apply StronglySorted_inv in Hs as [Hs Hall]. apply Forall_cons in Hf as [Hnow Hf]. simpl in Hnow.
  cbn [allowed]. pose proof (allow_tracks now addr l h t Htr Hnow) as H.
  destruct (allow now addr l) as [ok l1]. destruct H as (Hp & Hg & t1 & Ht1 & H1).
  edestruct (IH l1) as (l' & t' & Hp' & Hg' & H'); [exact H1|exact Hs| |].
  - eapply Forall_impl; [exact Hall|]. simpl. intros c Hc. lia.
  - exists l', t'. rewrite app_assoc. split_and!; [congruence|congruence|done].
Qed.

(** ** Claims *)


