(* ===== verification/Handler.v ===== *)
(** * The control-plane HTTP handler

    [internal/control/http.go] and the request handlers of
    [internal/control/room.go], over the repository contract.  A request is its
    method, path, credentials, peer address and, for each kind of body, what
    the JSON decoder made of it; a response is a status and the value that is
    encoded.  Readings of clocks, generated identifiers and random draws are the
    environment of the request, one field per place that reads. *)

From S2P Require Import Prelude GoStd Crypto Model Pool Repository Interface Auth Enrollment Room.
From Stdlib Require Import Ascii.

Open Scope Z_scope.

Definition StatusOK := 200.
Definition StatusCreated := 201.
Definition StatusNoContent := 204.
Definition StatusUnauthorized := 401.
Definition StatusForbidden := 403.
Definition StatusNotFound := 404.
Definition StatusConflict := 409.
Definition StatusRequestEntityTooLarge := 413.
Definition StatusUnprocessableEntity := 422.
Definition StatusTooManyRequests := 429.
Definition StatusInternalServerError := 500.
Definition StatusServiceUnavailable := 503.

(** ** Responses *)
Record apiNetworkResponse := {
  an_ID : string; an_Name : string; an_Pool : string; an_IPv4Pool : string; an_OwnerID : string;
  an_ConfigVersion : Z; an_CreatedAt : Time
}.
Definition makeNetworkResponse (n : Network) : apiNetworkResponse :=
  {| an_ID := nw_ID n; an_Name := nw_Name n; an_Pool := nw_IPv4Pool n; an_IPv4Pool := nw_IPv4Pool n;
     an_OwnerID := nw_OwnerID n; an_ConfigVersion := nw_ConfigVersion n; an_CreatedAt := nw_CreatedAt n |}.

Record apiNodeResponse := {
  ao_ID : string; ao_DisplayName : string; ao_PublicKey : string; ao_Platform : string;
  ao_ClientVersion : string; ao_LastSeen : Time
}.
Definition makeNodeResponse (n : Node) : apiNodeResponse :=
  {| ao_ID := nd_ID n; ao_DisplayName := nd_DisplayName n; ao_PublicKey := nd_PublicKey n;
     ao_Platform := nd_Platform n; ao_ClientVersion := nd_ClientVersion n; ao_LastSeen := nd_LastSeen n |}.

Record apiMembershipResponse := {
  am_NetworkID : string; am_NodeID : string; am_VirtualIPv4 : IP; am_Role : string; am_Status : string
}.
Definition makeMembershipResponse (m : Membership) : apiMembershipResponse :=
  {| am_NetworkID := mb_NetworkID m; am_NodeID := mb_NodeID m; am_VirtualIPv4 := mb_VirtualIPv4 m;
     am_Role := mb_Role m; am_Status := mb_Status m |}.

Record apiEndpointResponse := {
  ae_NodeID : string; ae_Address : IP; ae_Port : Z; ae_Family : string; ae_Interface : string;
  ae_Priority : Z; ae_ObservedAt : Time
}.
Definition makeEndpointResponse (e : EndpointCandidate) : apiEndpointResponse :=
  {| ae_NodeID := ep_NodeID e; ae_Address := ep_Address e; ae_Port := ep_Port e; ae_Family := ep_Family e;
     ae_Interface := ep_Interface e; ae_Priority := ep_Priority e; ae_ObservedAt := ep_ObservedAt e |}.

Record apiRelayAssignmentResponse := {
  ar_ID : string; ar_NetworkID : string; ar_NodeID : string; ar_RelayNodeID : string; ar_Address : IP;
  ar_Port : Z; ar_Family : string; ar_Status : string; ar_AssignedAt : Time; ar_ExpiresAt : option Time
}.
Definition makeRelayAssignmentResponse (a : RelayAssignment) : apiRelayAssignmentResponse :=
  {| ar_ID := ra_ID a; ar_NetworkID := ra_NetworkID a; ar_NodeID := ra_NodeID a;
     ar_RelayNodeID := ra_RelayNodeID a; ar_Address := ra_Address a; ar_Port := ra_Port a;
     ar_Family := ra_Family a; ar_Status := ra_Status a; ar_AssignedAt := ra_AssignedAt a;
     ar_ExpiresAt := ra_ExpiresAt a |}.

Record peerResponse := {
  ap_NodeID : string; ap_DisplayName : string; ap_PublicKey : string; ap_VirtualIPv4 : IP;
  ap_Node : apiNodeResponse; ap_Membership : apiMembershipResponse; ap_Endpoints : list apiEndpointResponse
}.
Record snapshotResponseBody := {
  as_NetworkID : string; as_Generation : Z; as_ConfigVersion : Z; as_LocalNodeID : string;
  as_LocalVirtualIPv4 : IP; as_Peers : list peerResponse;
  as_RelayAssignment : option apiRelayAssignmentResponse; as_GeneratedAt : Time
}.
Definition snapshotResponse (s : NetworkSnapshot) : snapshotResponseBody :=
  let peers := (λ p, {| ap_NodeID := pr_NodeID p; ap_DisplayName := pr_DisplayName p;
      ap_PublicKey := pr_PublicKey p; ap_VirtualIPv4 := pr_VirtualIPv4 p; ap_Node := makeNodeResponse (pr_Node p);
      ap_Membership := makeMembershipResponse (pr_Membership p);
      ap_Endpoints := makeEndpointResponse <$> pr_Endpoints p |}) <$> sn_Peers s in
  let relay := match sn_RelayAssignment s with
               | Some a => Some (makeRelayAssignmentResponse a)
               | None => makeRelayAssignmentResponse <$> sn_Relay s
               end in
  {| as_NetworkID := sn_NetworkID s; as_Generation := sn_Generation s; as_ConfigVersion := sn_ConfigVersion s;
     as_LocalNodeID := sn_LocalNodeID s; as_LocalVirtualIPv4 := sn_LocalVirtualIPv4 s; as_Peers := peers;
     as_RelayAssignment := relay; as_GeneratedAt := sn_GeneratedAt s |}.

Record inviteResponse := {
  ai_InviteID : string; ai_NetworkID : string; ai_Token : string; ai_ExpiresAt : Time
}.
Record sessionResponse := {
  ax_Token : string; ax_Subject : string; ax_NetworkID : string; ax_ExpiresAt : Time
}.
Record enrollmentResponse := {
  er_Node : apiNodeResponse; er_Membership : apiMembershipResponse; er_Network : apiNetworkResponse;
  er_Session : sessionResponse; er_SessionToken : string
}.

(** [PUpgrade] is a WebSocket connection that received the snapshot. *)
Inductive payload :=
| PNone
| PError (code : string)
| PNetwork (n : apiNetworkResponse)
| PInvite (i : inviteResponse)
| PEnrollment (e : enrollmentResponse)
| PRecovery (e : enrollmentResponse)
| PSnapshot (s : snapshotResponseBody)
| PUpgrade (s : snapshotResponseBody).

Record Response := { rp_Status : Z; rp_Payload : payload }.

Definition writeJSON (status : Z) (p : payload) : Response := {| rp_Status := status; rp_Payload := p |}.
Definition writeErrorCode (status : Z) (code : string) : Response := writeJSON status (PError code).

Definition writeAPIError (status : Z) (err : error) : Response :=
  let status := if status <? 400 then StatusInternalServerError else status in
  let code :=
    if status =? StatusUnauthorized then "unauthorized"
    else if status =? StatusForbidden then "forbidden"
    else if status =? StatusNotFound then "not_found"
    else if status =? StatusConflict then "conflict"
    else if status =? StatusUnprocessableEntity then "invalid_request"
    else if status =? StatusServiceUnavailable then "enrollment_recovery_pending"
    else if status =? StatusRequestEntityTooLarge then "request_too_large"
    else "internal_error" in
  writeJSON status (PError code).

Definition is_any (err : error) (l : list sentinel) : bool := existsb (error_is err) l.

Definition statusForError (err : error) : Z :=
  if is_any err [ErrMissingCredential; ErrMalformedCredential; ErrInvalidCredential; ErrSessionExpired;
                 ErrInvalidBootstrapToken; ErrUnauthorized] then StatusUnauthorized
  else if is_any err [ErrInsufficientPermission; ErrWrongNetwork; ErrRevokedNetwork] then StatusForbidden
  else if is_any err [ErrCommitUnknown] then StatusServiceUnavailable
  else if is_any err [ErrNotFound] then StatusNotFound
  else if is_any err [ErrConflict; ErrInviteConsumed; ErrInviteExpired; ErrInviteRevoked] then StatusConflict
  else if is_any err [ErrValidation; ErrInvalidPool; ErrPoolExhausted; ErrInvalidInviteToken; ErrInvalidRequest;
                      errInvalidJSON] then StatusUnprocessableEntity
  else if is_any err [ErrRequestTooLarge] then StatusRequestEntityTooLarge
  else StatusInternalServerError.

Definition apiError (err : error) : Response := writeAPIError (statusForError err) err.

(** ** Requests *)

(** What decoding a body into a destination gave: a value, and whether anything
    followed it; the limit of the reader was hit; or the text was refused. *)
Inductive decoded (T : Type) :=
| Decoded (v : T) (trailing : bool)
| DecodeTooLarge
| DecodeInvalid.
Arguments Decoded {T} v trailing.
Arguments DecodeTooLarge {T}.
Arguments DecodeInvalid {T}.

Definition decodeJSON {T} (limit contentLength : Z) (d : decoded T) : result T :=
  if (0 <? limit) && (limit <? contentLength) then Err ErrRequestTooLarge
  else match d with
  | DecodeTooLarge => Err ErrRequestTooLarge
  | DecodeInvalid => Err errInvalidJSON
  | Decoded v true => Err errInvalidJSON
  | Decoded v false => Ok v
  end.

Record networkBody := { bn_ID : string; bn_Name : string; bn_Pool : string }.
Record enrollBody := {
  be_Invite : string; be_NodeID : string; be_DisplayName : string; be_PublicKey : string;
  be_Platform : string; be_ClientVersion : string
}.
Record heartbeatEndpoint := {
  he_Address : string; he_Port : Z; he_Family : string; he_Interface : string; he_Priority : Z;
  he_ObservedAt : string
}.
Record heartbeatRequest := { hb_Endpoints : list heartbeatEndpoint; hb_ClientVersion : option string }.
Record roomBody := { br_Name : string; br_Pool : string }.
Record joinBody := { bj_PublicKey : string; bj_DisplayName : string; bj_Platform : string; bj_ClientVersion : string }.

Record HttpRequest := {
  hr_Method : string;
  hr_Path : string;
  hr_Authorization : string;
  hr_RemoteAddr : string;
  hr_ContentLength : Z;
  hr_network : decoded networkBody;
  hr_invite : decoded string;
  hr_enroll : decoded enrollBody;
  hr_heartbeat : decoded heartbeatRequest;
  hr_room : decoded roomBody;
  hr_join : decoded joinBody
}.

(** The environment of a request: its context, the clock at each reading, the
    identifiers, the random draws, the time formats of the standard library,
    and for each recovery attempt the context of its reads and whether its timer
    fired before the deadline. [env_Upgrade] is what the WebSocket library answers
    when it does not upgrade the connection. *)
Record Env := {
  env_ctx : Context;
  env_authNow : Time;
  env_scopeNow : Time;
  env_now : Time;
  env_inviteNow : Time;
  env_revokeNow : Time;
  env_issueNow : Time;
  env_limitNow : Time;
  env_wall : Time;
  env_newID : nat → string;
  env_tokenRandom : result (list Z);
  env_sessionRandom : list (result (list Z));
  env_entropy : nat → result Z;
  env_ParseDuration : string → option Duration;
  env_ParseRFC3339 : string → option Time;
  env_recoveryCtx : nat → Context;
  env_recoveryTimer : nat → bool;
  env_Upgrade : option Response
}.

Record Handler := {
  bootstrapToken : string;
  bootstrapSubject : string;
  inviteTTL : Duration;
  maxBodyBytes : Z;
  enrollmentRecoveryAttempts : nat;
  roomMode : bool
}.

Record HState (R : Type) := {
  hs_repo : R;
  hs_sessions : SessionStore;
  hs_room : string;
  hs_limiter : roomJoinLimiter
}.
Arguments hs_repo {R} h.
Arguments hs_sessions {R} h.
Arguments hs_room {R} h.
Arguments hs_limiter {R} h.

(** A handler computes a value or ends with a response. *)
Definition H (R A : Type) : Type := HState R → (A + Response) * HState R.

Section Monad.
Context {R : Type}.

Definition hret {A} (a : A) : H R A := λ s, (inl a, s).
Definition reply {A} (p : Response) : H R A := λ s, (inr p, s).
Definition hbind {A B} (m : H R A) (k : A → H R B) : H R B :=
  λ s, match m s with
       | (inl a, s') => k a s'
       | (inr p, s') => (inr p, s')
       end.

Definition set_repo (s : HState R) (r : R) : HState R :=
  {| hs_repo := r; hs_sessions := hs_sessions s; hs_room := hs_room s; hs_limiter := hs_limiter s |}.
Definition set_store (s : HState R) (st : SessionStore) : HState R :=
  {| hs_repo := hs_repo s; hs_sessions := st; hs_room := hs_room s; hs_limiter := hs_limiter s |}.
Definition set_room (s : HState R) (room : string) (r : R) : HState R :=
  {| hs_repo := r; hs_sessions := hs_sessions s; hs_room := room; hs_limiter := hs_limiter s |}.
Definition set_limiter (s : HState R) (l : roomJoinLimiter) : HState R :=
  {| hs_repo := hs_repo s; hs_sessions := hs_sessions s; hs_room := hs_room s; hs_limiter := l |}.

(** A repository call whose error is the response [onErr]. *)
Definition attempt {A} (m : M R A) (onErr : error → Response) : H R A :=
  λ s, match m (hs_repo s) with
       | (Ok a, r) => (inl a, set_repo s r)
       | (Err e, r) => (inr (onErr e), set_repo s r)
       end.
(** A check without effects. *)
Definition expect {A} (r : result A) (onErr : error → Response) : H R A :=
  λ s, match r with Ok a => (inl a, s) | Err e => (inr (onErr e), s) end.
Definition refuse_if (b : bool) (p : Response) : H R unit :=
  λ s, if b then (inr p, s) else (inl tt, s).
Definition hget : H R (HState R) := λ s, (inl s, s).

End Monad.

Notation "'let?' x := m 'in' k" := (hbind m (λ x, k))
  (at level 10, x name, m at level 100, k at level 200) : go_scope.
Notation "m ';?' k" := (hbind m (λ _, k))
  (at level 100, k at level 200, right associativity) : go_scope.

(** ** Construction *)
Record HandlerOptions := {
  ho_BootstrapToken : string;
  ho_BootstrapSubject : string;
  ho_SessionTTL : Duration;
  ho_InviteTTL : Duration;
  ho_SessionStore : option SessionStore;
  ho_MaxBodyBytes : Z;
  ho_EnrollmentRecoveryAttempts : Z;
  ho_RoomMode : bool;
  ho_RoomJoinPerIP : Z;
  ho_RoomJoinGlobal : Z
}.

Definition defaultSessionTTL : Duration := 60 * Minute.
Definition defaultInviteTTL : Duration := 24 * 60 * Minute.
Definition defaultBodyLimit : Z := Z.shiftl 1 20.
Definition defaultEnrollmentRecoveryAttempts : Z := 3.

Definition NewHandler {R} (repository : R) (o : HandlerOptions) : Handler * HState R :=
  let sessionTTL := if ho_SessionTTL o <=? 0 then defaultSessionTTL else ho_SessionTTL o in
  let store := match ho_SessionStore o with Some s => s | None => NewSessionStore sessionTTL end in
  let ttl := if ho_InviteTTL o <=? 0 then defaultInviteTTL else ho_InviteTTL o in
  let bodyLimit := if ho_MaxBodyBytes o <=? 0 then defaultBodyLimit else ho_MaxBodyBytes o in
  let attempts := if ho_EnrollmentRecoveryAttempts o <=? 0 then defaultEnrollmentRecoveryAttempts
                  else ho_EnrollmentRecoveryAttempts o in
  let subject := if bool_decide (ho_BootstrapSubject o = "") then "bootstrap-admin" else ho_BootstrapSubject o in
  ({| bootstrapToken := ho_BootstrapToken o; bootstrapSubject := subject; inviteTTL := ttl;
      maxBodyBytes := bodyLimit; enrollmentRecoveryAttempts := Z.to_nat attempts; roomMode := ho_RoomMode o |},
   {| hs_repo := repository; hs_sessions := store; hs_room := "";
      hs_limiter := newRoomJoinLimiter (ho_RoomJoinPerIP o) (ho_RoomJoinGlobal o) |}).

(** ** Paths *)
Definition hasPathSuffix (path suffix : string) : bool :=
  if negb (HasPrefix path "/v1/") || HasSuffix path "/" then false
  else match Split (TrimPrefix path "/") "/"%char with
  | [p0; p1; p2; p3] =>
    bool_decide (p0 = "v1") && negb (bool_decide (p1 = "")) && bool_decide (p3 = TrimPrefix suffix "/")
  | _ => false
  end.

Definition resourceID (path collection suffix : string) : option string :=
  match Split (TrimPrefix path "/") "/"%char with
  | [p0; p1; p2; p3] =>
    if negb (bool_decide (p0 = "v1")) || negb (bool_decide (p1 = collection)) || bool_decide (p2 = "")
       || negb (bool_decide (p3 = suffix))
    then None
    else match PathUnescape p2 with
         | Some id => if bool_decide (id = "") then None else Some id
         | None => None
         end
  | _ => None
  end.

Definition valid_request_char (c : ascii) : bool :=
  let v := code c in
  ((97 <=? v) && (v <=? 122)) || ((65 <=? v) && (v <=? 90)) || ((48 <=? v) && (v <=? 57))
  || (v =? 45) || (v =? 95) || (v =? 46) || (v =? 58).
Definition validRequestID (value : string) : bool :=
  if bool_decide (value = "") || (128 <? Z.of_nat (length (bytes value))) then false
  else forallb valid_request_char (bytes value).

(** ** Authentication and authorization *)
Record principal := { pl_session : Session; pl_bootstrap : bool }.

Section Handlers.
Context {R : Type} `{TransactionalRepository R}.
Variable h : Handler.
Variable env : Env.

Definition authenticate (request : HttpRequest) : M SessionStore principal :=
  let! token := lift (ParseBearerHeader (hr_Authorization request)) in
  match ValidateBootstrapToken (bootstrapToken h) token with
  | None => ret {| pl_session := {| se_Subject := bootstrapSubject h; se_Role := auth_RoleAdmin;
                                    se_NetworkID := ""; se_ExpiresAt := 0 |}; pl_bootstrap := true |}
  | Some _ =>
    let! session := Authenticate (env_authNow env) token in
    ret {| pl_session := session; pl_bootstrap := false |}
  end.

Definition requireAdmin (request : HttpRequest) : M SessionStore principal :=
  let! p := authenticate request in
  if negb (bool_decide (se_Role (pl_session p) = auth_RoleAdmin)) then throw ErrInsufficientPermission
  else ret p.

(** Credentials are checked on the session store. *)
Definition credentials {A} (m : M SessionStore A) (onErr : error → Response) : H R A :=
  λ s, match m (hs_sessions s) with
       | (Ok a, st) => (inl a, set_store s st)
       | (Err e, st) => (inr (onErr e), set_store s st)
       end.

Definition authorizeNetwork (p : principal) (networkID : string) : H R unit :=
  λ s, match AuthorizeNetwork (env_scopeNow env) (hs_sessions s) (pl_session p) networkID with
       | None => (inl tt, s)
       | Some e => (inr (apiError e), s)
       end.

Definition authorizeAdminNodeScope (p : principal) (nodeID : string) : H R unit :=
  if negb (bool_decide (se_Role (pl_session p) = auth_RoleAdmin)) then reply (apiError ErrInsufficientPermission)
  else if blank (se_NetworkID (pl_session p)) then hret tt
  else
    let? networkIDs := attempt (repo_GetNodeNetworkIDs (env_ctx env) nodeID) apiError in
    refuse_if (bool_decide (networkIDs = [])) (apiError ErrInsufficientPermission) ;?
    refuse_if (existsb (λ id, negb (bool_decide (id = se_NetworkID (pl_session p)))) networkIDs)
      (apiError ErrWrongNetwork) ;?
    authorizeNetwork p (se_NetworkID (pl_session p)).

(** ** Networks and invites *)
Definition createNetwork (request : HttpRequest) : H R Response :=
  let? p := credentials (requireAdmin request) apiError in
  refuse_if (negb (blank (se_NetworkID (pl_session p)))) (writeAPIError StatusForbidden ErrInsufficientPermission) ;?
  let? body := expect (decodeJSON (maxBodyBytes h) (hr_ContentLength request) (hr_network request))
                 (writeAPIError StatusUnprocessableEntity) in
  refuse_if (blank (bn_Name body)) (writeAPIError StatusUnprocessableEntity ErrValidation) ;?
  expect (NewPool (bn_Pool body)) (writeAPIError StatusUnprocessableEntity) ;?
  let trimmed := TrimSpace (bn_ID body) in
  let networkID := if bool_decide (trimmed = "") then env_newID env 0 else trimmed in
  refuse_if (negb (bool_decide (trimmed = "")) && negb (validRequestID trimmed))
    (writeAPIError StatusUnprocessableEntity (invalid "network" "id" "must contain only letters, digits, '-', '_', '.', or ':' and be at most 128 characters")) ;?
  let network := {| nw_ID := networkID; nw_Name := bn_Name body; nw_IPv4Pool := bn_Pool body;
                    nw_OwnerID := se_Subject (pl_session p); nw_ConfigVersion := 1;
                    nw_CreatedAt := env_now env |} in
  attempt (repo_CreateNetwork (env_ctx env) network) apiError ;?
  hret (writeJSON StatusCreated (PNetwork (makeNetworkResponse network))).

Definition createInvite (request : HttpRequest) : H R Response :=
  let? p := credentials (requireAdmin request) apiError in
  match resourceID (hr_Path request) "networks" "invites" with
  | None => reply (writeAPIError StatusNotFound ErrNotFound)
  | Some networkID =>
    authorizeNetwork p networkID ;?
    let? network := attempt (repo_GetNetwork (env_ctx env) networkID) apiError in
    let? expiresIn := expect (decodeJSON (maxBodyBytes h) (hr_ContentLength request) (hr_invite request))
                        (writeAPIError StatusUnprocessableEntity) in
    match env_ParseDuration env expiresIn with
    | None => reply (writeAPIError StatusUnprocessableEntity ErrValidation)
    | Some duration =>
      refuse_if (duration <=? 0) (writeAPIError StatusUnprocessableEntity ErrValidation) ;?
      let inviteID := env_newID env 0 in
      let? secret := expect (env_tokenRandom env) (writeAPIError StatusInternalServerError) in
      let rawToken := (inviteID +:+ "." +:+ RawURLEncode secret)%string in
      let now := env_now env in
      let invite := {| iv_ID := inviteID; iv_NetworkID := nw_ID network; iv_TokenHash := HashToken rawToken;
                       iv_ExpiresAt := now + duration; iv_ConsumedAt := None; iv_RevokedAt := None;
                       iv_ConsumedByNodeID := ""; iv_CreatedAt := now |} in
      attempt (repo_CreateInvite (env_ctx env) invite) apiError ;?
      hret (writeJSON StatusCreated (PInvite {| ai_InviteID := iv_ID invite; ai_NetworkID := iv_NetworkID invite;
                                                ai_Token := rawToken; ai_ExpiresAt := iv_ExpiresAt invite |}))
    end
  end.

(** ** Enrollment *)
Record enrollmentRequest := {
  eq_InviteToken : string; eq_NodeID : string; eq_DisplayName : string; eq_PublicKey : string;
  eq_Platform : string; eq_ClientVersion : string
}.

Record enrollmentResult := {
  en_Node : Node;
  en_Membership : Membership;
  en_Network : Network;
  en_Subject : string;
  en_NetworkID : string;
  en_Session : Session;
  en_SessionToken : string
}.

(** The allocation loop of the handler; [None] stands for [err == nil]. *)
Fixpoint enroll_allocate (fuel attempts : nat) (pool : Pool) (ctx : Context)
    (membership : Membership) (occupied : list IP) (r : R) : (option Membership * option error) * R :=
  match fuel with
  | O => ((None, None), r)
  | S fuel =>
    match RandomNext (env_entropy env attempts) pool [OccIPs occupied] with
    | Err err => ((None, Some err), r)
    | Ok candidate =>
      let membership := mb_with_IP membership candidate in
      match repo_AddMembership ctx membership r with
      | (Ok _, r') => ((Some membership, None), r')
      | (Err err, r') =>
        if error_is err ErrConflict
        then enroll_allocate fuel (S attempts) pool ctx membership (occupied ++ [candidate]) r'
        else ((None, Some err), r')
      end
    end
  end.

(** The callback of the transaction. It reads the revoked networks and, last,
    issues the session; the session store it leaves is part of its result,
    since a rolled back transaction does not undo it. *)
Definition enroll_callback (store : SessionStore) (request : enrollmentRequest)
    (inviteID tokenHash nodeID : string) (ctx : Context) : M R (enrollmentResult * SessionStore) :=
  let now := env_now env in
  let node := {| nd_ID := nodeID; nd_DisplayName := eq_DisplayName request; nd_PublicKey := eq_PublicKey request;
                 nd_Platform := eq_Platform request; nd_ClientVersion := eq_ClientVersion request;
                 nd_LastSeen := now |} in
  repo_AddNode ctx node ;;
  let! invite := repo_ConsumeInviteForNode (env_wall env) ctx inviteID tokenHash now (nd_ID node) in
  let! network := repo_GetNetwork ctx (iv_NetworkID invite) in
  (if IsNetworkRevoked (nw_ID network) store then throw ErrRevokedNetwork else ret tt) ;;
  let! pool := lift (NewPool (nw_IPv4Pool network)) in
  let membership := {| mb_NetworkID := nw_ID network; mb_NodeID := nd_ID node; mb_VirtualIPv4 := [];
                       mb_Role := RoleMember; mb_Status := MembershipActive |} in
  let! allocation := λ r, let '(o, r') := enroll_allocate (Z.to_nat (Size pool)) 0 pool ctx membership [] r in (Ok o, r') in
  let '(allocated, allocationErr) := allocation in
  check (match allocationErr with
         | Some e => if negb (error_is e ErrPoolExhausted) then Some e else None
         | None => None
         end) ;;
  match allocated with
  | None => throw (EPoolExhausted (CIDR pool))
  | Some membership =>
    let! currentNetwork := repo_GetNetwork ctx (nw_ID network) in
    match IssueNodeSession (env_issueNow env) (env_sessionRandom env) (nd_ID node) (nw_ID network) store with
    | (Err e, _) => throw e
    | (Ok (token, session), store') =>
      ret ({| en_Node := node; en_Membership := membership; en_Network := currentNetwork;
              en_Subject := nd_ID node; en_NetworkID := nw_ID network;
              en_Session := session; en_SessionToken := token |}, store')
    end
  end.

(** The recovery loop after a transaction that may have been committed. The
    boolean is [uncertain]. *)
Fixpoint recovery_loop (fuel attempt : nat) (uncertain : bool) (result : enrollmentResult) (r : R)
    : (option enrollmentResult + bool) * R :=
  match fuel with
  | O => (inr uncertain, r)
  | S fuel =>
    if negb (bool_decide (attempt = 0%nat)) && negb (env_recoveryTimer env attempt) then (inl None, r)
    else
      let ctx := env_recoveryCtx env attempt in
      let '(node, r1) := repo_GetNode ctx (nd_ID (en_Node result)) r in
      let '(ids, r2) := repo_GetNodeNetworkIDs ctx (nd_ID (en_Node result)) r1 in
      match node, ids with
      | Ok node, Ok [id] =>
        if bool_decide (id = en_NetworkID result)
        then (inl (Some {| en_Node := node; en_Membership := en_Membership result;
                           en_Network := en_Network result; en_Subject := en_Subject result;
                           en_NetworkID := en_NetworkID result; en_Session := en_Session result;
                           en_SessionToken := en_SessionToken result |}), r2)
        else recovery_loop fuel (S attempt) true result r2
      | Err e1, Err e2 =>
        recovery_loop fuel (S attempt)
          (uncertain || negb (error_is e1 ErrNotFound && error_is e2 ErrNotFound)) result r2
      | _, _ => recovery_loop fuel (S attempt) true result r2
      end
  end.

(** The zero [enrollmentResult] is [None]. *)
Definition recoverEnrollmentCommit (result : enrollmentResult) (transactionErr : error) (s : HState R)
    : (option enrollmentResult * option error) * HState R :=
  match recovery_loop (enrollmentRecoveryAttempts h) 0 false result (hs_repo s) with
  | (inl (Some result), r) => ((Some result, None), set_repo s r)
  | (inl None, r) | (inr true, r) =>
    ((Some result, Some (EJoin ErrCommitUnknown transactionErr)), set_repo s r)
  | (inr false, r) =>
    ((None, Some transactionErr),
     set_store (set_repo s r) (RevokeSession (en_SessionToken result) (hs_sessions s)))
  end.

(** The checks of [enrollControl] before its transaction: the invite, the digest
    of the token and the node identifier. *)
Definition enrollment_reference (newID : string) (request : enrollmentRequest)
    : result (string * string * string) :=
  let token := eq_InviteToken request in
  if blank token || blank (eq_DisplayName request) || blank (eq_PublicKey request)
     || blank (eq_Platform request) || blank (eq_ClientVersion request)
  then Err (EJoin ErrInvalidRequest ErrValidation)
  else match IndexByte token "."%char with
  | None => Err (EJoin ErrInvalidInviteToken ErrValidation)
  | Some separator =>
    let l := bytes token in
    if bool_decide (separator = 0%nat) || bool_decide (separator = (length l - 1)%nat)
       || bool_decide (is_Some (index_byte "."%char (drop (separator + 1) l))) || ContainsAny token token_space
    then Err (EJoin ErrInvalidInviteToken ErrValidation)
    else
      let nodeID := TrimSpace (eq_NodeID request) in
      let nodeID := if bool_decide (nodeID = "") then TrimSpace newID else nodeID in
      if bool_decide (nodeID = "") then Err (EJoin ErrInvalidRequest ErrValidation)
      else Ok (of_bytes (take separator l), HashToken token, nodeID)
  end.

Definition enrollControl (newID : string) (request : enrollmentRequest) (s : HState R)
    : (option enrollmentResult * option error) * HState R :=
  match enrollment_reference newID request with
  | Err e => ((None, Some e), s)
  | Ok (inviteID, tokenHash, nodeID) =>
    match repo_WithTransaction (env_ctx env)
            (enroll_callback (hs_sessions s) request inviteID tokenHash nodeID) (hs_repo s) with
    | (TxOk (result, store), r) => ((Some result, None), set_store (set_repo s r) store)
    | (TxErr e None, r) => ((None, Some e), set_repo s r)
    | (TxErr e (Some (result, store)), r) =>
      recoverEnrollmentCommit result e (set_store (set_repo s r) store)
    end
  end.

Definition makeEnrollmentResponse (r : enrollmentResult) : enrollmentResponse :=
  {| er_Node := makeNodeResponse (en_Node r); er_Membership := makeMembershipResponse (en_Membership r);
     er_Network := makeNetworkResponse (en_Network r);
     er_Session := {| ax_Token := en_SessionToken r; ax_Subject := se_Subject (en_Session r);
                      ax_NetworkID := se_NetworkID (en_Session r); ax_ExpiresAt := se_ExpiresAt (en_Session r) |};
     er_SessionToken := en_SessionToken r |}.

(** A nil error comes with a result. *)
Definition writeEnrollmentResult (result : option enrollmentResult) (err : option error) : Response :=
  match err, result with
  | Some e, Some res =>
    if error_is e ErrCommitUnknown && negb (bool_decide (en_SessionToken res = ""))
    then writeJSON StatusServiceUnavailable (PRecovery (makeEnrollmentResponse res))
    else apiError e
  | Some e, None => apiError e
  | None, Some res => writeJSON StatusCreated (PEnrollment (makeEnrollmentResponse res))
  | None, None => writeJSON StatusCreated PNone
  end.

Definition enroll (request : HttpRequest) : H R Response :=
  let? body := expect (decodeJSON (maxBodyBytes h) (hr_ContentLength request) (hr_enroll request))
                 (writeAPIError StatusUnprocessableEntity) in
  λ s, let '((result, err), s') := enrollControl (env_newID env 0)
           {| eq_InviteToken := be_Invite body; eq_NodeID := be_NodeID body; eq_DisplayName := be_DisplayName body;
              eq_PublicKey := be_PublicKey body; eq_Platform := be_Platform body;
              eq_ClientVersion := be_ClientVersion body |} s in
       (inl (writeEnrollmentResult result err), s').

(** ** Snapshots, heartbeats and removal *)
Definition snapshot (request : HttpRequest) : H R Response :=
  let? p := credentials (authenticate request) apiError in
  refuse_if (negb (bool_decide (se_Role (pl_session p) = RoleNode)))
    (writeAPIError StatusForbidden ErrInsufficientPermission) ;?
  match resourceID (hr_Path request) "networks" "snapshot" with
  | None => reply (writeAPIError StatusNotFound ErrNotFound)
  | Some networkID =>
    authorizeNetwork p networkID ;?
    let? snap := attempt (repo_BuildSnapshot (env_wall env) (env_ctx env) networkID (se_Subject (pl_session p))) apiError in
    hret (writeJSON StatusOK (PSnapshot (snapshotResponse snap)))
  end.

Definition parseHeartbeatEndpoint (nodeID : string) (e : heartbeatEndpoint) : result EndpointCandidate :=
  let address := ParseIP (he_Address e) in
  if is_nil address then Err ErrValidation
  else match env_ParseRFC3339 env (he_ObservedAt e) with
  | None => Err ErrValidation
  | Some observedAt =>
    let candidate := {| ep_NodeID := nodeID; ep_Address := address; ep_Port := he_Port e;
                        ep_Family := he_Family e; ep_Interface := he_Interface e; ep_Priority := he_Priority e;
                        ep_ObservedAt := observedAt |} in
    match ValidateEndpointCandidate candidate with
    | Some err => Err err
    | None => Ok candidate
    end
  end.

Fixpoint parse_endpoints (nodeID : string) (l : list heartbeatEndpoint) : result (list EndpointCandidate) :=
  match l with
  | [] => Ok []
  | e :: l =>
    match parseHeartbeatEndpoint nodeID e with
    | Err err => Err err
    | Ok c => match parse_endpoints nodeID l with Ok cs => Ok (c :: cs) | Err err => Err err end
    end
  end.

(** Who may act on a node: itself within its network, or an administrator whose
    scope contains it. *)
Definition authorizeNodeAction (p : principal) (nodeID : string) : H R unit :=
  if bool_decide (se_Role (pl_session p) = RoleNode) then
    refuse_if (negb (bool_decide (nodeID = se_Subject (pl_session p))))
      (writeAPIError StatusForbidden ErrInsufficientPermission) ;?
    authorizeNetwork p (se_NetworkID (pl_session p))
  else if negb (bool_decide (se_Role (pl_session p) = auth_RoleAdmin)) then
    reply (writeAPIError StatusForbidden ErrInsufficientPermission)
  else authorizeAdminNodeScope p nodeID.

Definition heartbeat (request : HttpRequest) : H R Response :=
  let? p := credentials (authenticate request) apiError in
  match resourceID (hr_Path request) "nodes" "heartbeat" with
  | None => reply (writeAPIError StatusNotFound ErrNotFound)
  | Some nodeID =>
    authorizeNodeAction p nodeID ;?
    attempt (repo_GetNode (env_ctx env) nodeID) apiError ;?
    let? body := expect (decodeJSON (maxBodyBytes h) (hr_ContentLength request) (hr_heartbeat request))
                   (writeAPIError StatusUnprocessableEntity) in
    let? candidates := expect (parse_endpoints nodeID (hb_Endpoints body)) (writeAPIError StatusUnprocessableEntity) in
    attempt (repo_ReplaceEndpoints (env_ctx env) nodeID candidates) apiError ;?
    match hb_ClientVersion body with
    | Some version => attempt (repo_UpdateNodeClientVersion (env_ctx env) nodeID version) apiError
    | None => hret tt
    end ;?
    attempt (repo_TouchNode (env_ctx env) nodeID (env_now env)) apiError ;?
    hret (writeJSON StatusNoContent PNone)
  end.

Definition deleteNode (request : HttpRequest) : H R Response :=
  let? p := credentials (requireAdmin request) apiError in
  match Split (TrimPrefix (hr_Path request) "/") "/"%char with
  | [p0; p1; p2] =>
    refuse_if (negb (bool_decide (p0 = "v1")) || negb (bool_decide (p1 = "nodes")) || bool_decide (p2 = ""))
      (writeAPIError StatusNotFound ErrNotFound) ;?
    match PathUnescape p2 with
    | None => reply (writeAPIError StatusNotFound ErrNotFound)
    | Some nodeID =>
      refuse_if (bool_decide (nodeID = "")) (writeAPIError StatusNotFound ErrNotFound) ;?
      authorizeAdminNodeScope p nodeID ;?
      attempt (repo_RemoveNode (env_ctx env) nodeID) apiError ;?
      hret (writeJSON StatusNoContent PNone)
    end
  | _ => reply (writeAPIError StatusNotFound ErrNotFound)
  end.

Definition leaveNode (request : HttpRequest) : H R Response :=
  let? p := credentials (authenticate request) apiError in
  match resourceID (hr_Path request) "nodes" "leave" with
  | None => reply (writeAPIError StatusNotFound ErrNotFound)
  | Some nodeID =>
    authorizeNodeAction p nodeID ;?
    attempt (repo_GetNode (env_ctx env) nodeID) apiError ;?
    attempt (repo_RemoveNode (env_ctx env) nodeID) apiError ;?
    hret (writeJSON StatusNoContent PNone)
  end.

(** Up to the first message of the connection; afterwards it only reads. *)
Definition events (request : HttpRequest) : H R Response :=
  let? p := credentials (authenticate request) apiError in
  refuse_if (negb (bool_decide (se_Role (pl_session p) = RoleNode)))
    (writeAPIError StatusForbidden ErrInsufficientPermission) ;?
  authorizeNetwork p (se_NetworkID (pl_session p)) ;?
  let? snap := attempt (repo_BuildSnapshot (env_wall env) (env_ctx env) (se_NetworkID (pl_session p))
                          (se_Subject (pl_session p))) apiError in
  match env_Upgrade env with
  | Some refused => reply refused
  | None => hret (writeJSON StatusOK (PUpgrade (snapshotResponse snap)))
  end.

(** ** Rooms *)
Definition createRoom (request : HttpRequest) : H R Response :=
  refuse_if (negb (roomMode h)) (writeErrorCode StatusNotFound "room_mode_disabled") ;?
  let? p := credentials (requireAdmin request) (λ e, writeErrorCode (statusForError e) "unauthorized") in
  let invalidRoom := writeErrorCode StatusUnprocessableEntity "invalid_room" in
  let? body := expect (decodeJSON (maxBodyBytes h) (hr_ContentLength request) (hr_room request)) (λ _, invalidRoom) in
  refuse_if (blank (br_Name body)) invalidRoom ;?
  expect (NewPool (br_Pool body)) (λ _, invalidRoom) ;?
  let network := {| nw_ID := env_newID env 0; nw_Name := TrimSpace (br_Name body); nw_IPv4Pool := br_Pool body;
                    nw_OwnerID := se_Subject (pl_session p); nw_ConfigVersion := 1;
                    nw_CreatedAt := env_now env |} in
  λ s, match room_create (env_ctx env) network (hs_room s, hs_repo s) with
       | (Err e, (room, r)) =>
         (inr (if error_is e ErrRoomAlreadyExists then writeErrorCode StatusConflict "room_already_exists"
               else apiError e), set_room s room r)
       | (Ok _, (room, r)) =>
         (inl (writeJSON StatusCreated (PNetwork (makeNetworkResponse network))), set_room s room r)
       end.

(** The token of a new invite of the room; its identifier is the part before
    the dot. *)
Definition newInternalRoomInvite (networkID : string) : M R (string * string) :=
  let inviteID := env_newID env 0 in
  let! secret := lift (env_tokenRandom env) in
  let token := (inviteID +:+ "." +:+ RawURLEncode secret)%string in
  let now := env_inviteNow env in
  let invite := {| iv_ID := inviteID; iv_NetworkID := networkID; iv_TokenHash := HashToken token;
                   iv_ExpiresAt := now + inviteTTL h; iv_ConsumedAt := None; iv_RevokedAt := None;
                   iv_ConsumedByNodeID := ""; iv_CreatedAt := now |} in
  repo_CreateInvite (env_ctx env) invite ;;
  ret (inviteID, token).

(** A room that is active stays the same one, so the second look at it, after
    the body is decoded, sees what the first one saw. *)
Definition joinRoom (request : HttpRequest) : H R Response :=
  refuse_if (negb (roomMode h)) (writeErrorCode StatusNotFound "room_mode_disabled") ;?
  let? s0 := hget in
  match active (hs_room s0) with
  | None => reply (writeErrorCode StatusNotFound "room_not_ready")
  | Some roomNetworkID =>
    (λ s, let '(ok, l) := allow (env_limitNow env) (hr_RemoteAddr request) (hs_limiter s) in
          ((if ok then inl tt else inr (writeErrorCode StatusTooManyRequests "join_rate_limited")), set_limiter s l)) ;?
    let? body := expect (decodeJSON roomJoinBodyLimit (hr_ContentLength request) (hr_join request))
      (λ e, if error_is e ErrRequestTooLarge
            then writeErrorCode StatusRequestEntityTooLarge "request_too_large"
            else writeErrorCode StatusUnprocessableEntity "invalid_node") in
    let? invite := attempt (newInternalRoomInvite roomNetworkID) apiError in
    λ s,
    let '((result, err), s1) := enrollControl (env_newID env 1)
        {| eq_InviteToken := invite.2; eq_NodeID := ""; eq_DisplayName := bj_DisplayName body;
           eq_PublicKey := bj_PublicKey body; eq_Platform := bj_Platform body;
           eq_ClientVersion := bj_ClientVersion body |} s in
    match err with
    | None => (inl (writeEnrollmentResult result None), s1)
    | Some e =>
      let '(e, s2) :=
        if match result with None => true | Some res => bool_decide (en_SessionToken res = "") end then
          match repo_RevokeInvite (env_ctx env) (default "" (head (Split invite.2 "."%char)))
                  (env_revokeNow env) (hs_repo s1) with
          | (Err revokeErr, r) => (EJoin e revokeErr, set_repo s1 r)
          | (Ok _, r) => (e, set_repo s1 r)
          end
        else (e, s1) in
      (inr (if error_is e ErrPoolExhausted then writeErrorCode StatusConflict "room_full"
            else if error_is e ErrConflict then writeErrorCode StatusConflict "node_already_joined"
            else if error_is e ErrRequestTooLarge
            then writeErrorCode StatusRequestEntityTooLarge "request_too_large"
            else if error_is e ErrInvalidRequest || error_is e ErrValidation
            then writeErrorCode StatusUnprocessableEntity "invalid_node"
            else writeEnrollmentResult result (Some e)), s2)
    end
  end.

(** ** Dispatch *)
Definition route (request : HttpRequest) : H R Response :=
  let post := bool_decide (hr_Method request = "POST") in
  let path := hr_Path request in
  if post && bool_decide (path = "/v1/room") then createRoom request
  else if post && bool_decide (path = "/v1/room/join") then joinRoom request
  else if post && bool_decide (path = "/v1/networks") then createNetwork request
  else if post && hasPathSuffix path "/invites" then createInvite request
  else if post && bool_decide (path = "/v1/enrollments") then enroll request
  else if bool_decide (hr_Method request = "GET") && hasPathSuffix path "/snapshot" then snapshot request
  else if post && hasPathSuffix path "/heartbeat" then heartbeat request
  else if post && hasPathSuffix path "/leave" then leaveNode request
  else if bool_decide (hr_Method request = "DELETE") && HasPrefix path "/v1/nodes/" then deleteNode request
  else if bool_decide (path = "/v1/events") then events request
  else hret (writeAPIError StatusNotFound ErrNotFound).

Definition ServeHTTP (request : HttpRequest) (s : HState R) : Response * HState R :=
  match route request s with
  | (inl p, s') | (inr p, s') => (p, s')
  end.

End Handlers.
