(* ===== verification/HandlerThm.v ===== *)
(** * Properties of the HTTP handler

    What requests can and cannot change, over the in-memory repository, and the
    agreement of the handler's enrollment with the enrollment service. *)

From S2P Require Import Prelude GoStd Crypto Model Pool Repository RepositoryInv RepositoryThm Snapshot Interface Auth Enrollment Room Handler.
From Stdlib Require Import Ascii.

Open Scope Z_scope.

(** ** Reasoning about handlers *)

(** [keeps P m]: every run of [m] from a state with [P] leaves a state with [P]. *)
Definition keeps {R A} (P : HState R → Prop) (m : H R A) : Prop := ∀ s, P s → P (m s).2.

Section Keeps.
Context {R : Type} (P : HState R → Prop).

Lemma keeps_hret {A} (a : A) : keeps P (hret a).
Proof. by intros s. Qed.
Lemma keeps_reply {A} p : keeps (A := A) P (reply p).
Proof. by intros s. Qed.
Lemma keeps_bind {A B} (m : H R A) (k : A → H R B) :
  keeps P m → (∀ a, keeps P (k a)) → keeps P (hbind m k).
Proof.
  intros Hm Hk s Hs. unfold hbind. specialize (Hm s Hs). destruct (m s) as [[a|p] s']; simpl in *; [by apply Hk|done].
Qed.
Lemma keeps_expect {A} (r : result A) f : keeps P (expect r f).
Proof. intros s. unfold expect. by destruct r. Qed.
Lemma keeps_refuse b p : keeps P (refuse_if b p).
Proof. intros s. unfold refuse_if. by destruct b. Qed.
Lemma keeps_hget : keeps P hget.
Proof. by intros s. Qed.
Lemma keeps_authorize env p id : keeps P (authorizeNetwork (R := R) env p id).
Proof. intros s. unfold authorizeNetwork. by destruct (AuthorizeNetwork _ _ _ _). Qed.

(** Calls that write one part of the state. *)
Lemma keeps_attempt {A} (m : M R A) f : (∀ s, P s → P (set_repo s (m (hs_repo s)).2)) → keeps P (attempt m f).
Proof. intros Hm s Hs. specialize (Hm s Hs). unfold attempt. by destruct (m (hs_repo s)) as [[a|e] r]. Qed.
Lemma keeps_credentials {A} (m : M SessionStore A) f :
  (∀ s, P s → P (set_store s (m (hs_sessions s)).2)) → keeps P (credentials m f).
Proof. intros Hm s Hs. specialize (Hm s Hs). unfold credentials. by destruct (m (hs_sessions s)) as [[a|e] st]. Qed.

End Keeps.

Create HintDb handler.
#[export] Hint Resolve keeps_hret keeps_reply keeps_bind keeps_expect keeps_refuse keeps_hget
  keeps_authorize keeps_attempt keeps_credentials : handler.

(** [walk] follows a handler to its calls. *)
Ltac walk :=
  repeat first
    [ apply keeps_hret | apply keeps_reply | apply keeps_expect | apply keeps_refuse | apply keeps_hget
    | apply keeps_authorize
    | apply keeps_bind; [|intros ?]
    | match goal with |- keeps _ (match ?x with _ => _ end) => destruct x end ].

Lemma set_repo_same {R} (s : HState R) : set_repo s (hs_repo s) = s.
Proof. by destruct s. Qed.

(** ** Credentials *)
Lemma authenticate_store h env req st :
  (authenticate h env req st).2 = st ∨ ∃ token, (authenticate h env req st).2 = (Authenticate (env_authNow env) token st).2.
Proof.
  unfold authenticate. rewrite bind_lift. destruct (ParseBearerHeader _) as [token|e]; [|by left].
  destruct (ValidateBootstrapToken _ _); [|by left]. right. exists token. unfold bind.
  by destruct (Authenticate _ _ _) as [[s|e'] st'].
Qed.

Lemma requireAdmin_store h env req st : (requireAdmin h env req st).2 = (authenticate h env req st).2.
Proof.
  unfold requireAdmin, bind. destruct (authenticate _ _ _ _) as [[p|e] st']; [|done]. by case_match.
Qed.

Lemma authenticate_wf h env req st : store_wf st → store_wf (authenticate h env req st).2.
Proof.
  intros Hwf. destruct (authenticate_store h env req st) as [->|[token ->]]; [done|].
  by apply (session_exec_wf (SAuthenticate (env_authNow env) token)).
Qed.

(** ** Well-formed handlers *)
Definition handler_wf (s : HState MemoryRepository) : Prop :=
  repo_wf (hs_repo s) ∧ store_wf (hs_sessions s) ∧
  (hs_room s ≠ "" → is_Some (networks (hs_repo s) !! hs_room s)).

(** What the environment must provide: random reads of full length and network
    identifiers from the generator. *)
Definition env_ok (env : Env) : Prop := reads32 (env_sessionRandom env).

(** Networks are never deleted. *)
Definition nets_stay (r r' : MemoryRepository) : Prop :=
  ∀ id, is_Some (networks r !! id) → is_Some (networks r' !! id).

Lemma evolves_stay r r' c : (∀ net, evolves net c r r') → nets_stay r r'.
Proof. intros H id [n Hn]. destruct (H id n Hn) as (k & _ & -> & _). by eexists. Qed.

Lemma exec_stay ctx o r : repo_wf r → nets_stay r (exec ctx o r).2.
Proof. intros Hwf. apply (evolves_stay _ _ 1). intros net. by apply exec_evolves. Qed.

Lemma handler_wf_repo s r :
  handler_wf s → repo_wf r → nets_stay (hs_repo s) r → handler_wf (set_repo s r).
Proof. intros (_ & Hst & Hroom) Hr Hstay. split_and!; simpl; auto. Qed.

Lemma handler_wf_exec s ctx o :
  typed o → handler_wf s → handler_wf (set_repo s (exec ctx o (hs_repo s)).2).
Proof. intros Ho Hs. pose proof Hs as (Hr & _). apply handler_wf_repo; [done|by apply exec_wf|by apply exec_stay]. Qed.

Lemma handler_wf_store s st : handler_wf s → store_wf st → handler_wf (set_store s st).
Proof. by intros (? & _ & ?) ?. Qed.

(** Reads leave the repository alone. *)
Lemma GetNode_state ctx id r : (GetNode ctx id r).2 = r.
Proof. unfold GetNode. run_m; done. Qed.
Lemma GetNodeNetworkIDs_state ctx id r : (GetNodeNetworkIDs ctx id r).2 = r.
Proof. unfold GetNodeNetworkIDs. run_m; done. Qed.
Lemma BuildSnapshotAt_state wall ctx net nd now r : (BuildSnapshotAt wall ctx net nd now r).2 = r.
Proof. unfold BuildSnapshotAt. run_m; done. Qed.

Section MemoryHandler.
Variables (h : Handler) (env : Env).
Hypothesis Henv : env_ok env.

Lemma keeps_authenticate req : keeps handler_wf (credentials (R := MemoryRepository) (authenticate h env req) apiError).
Proof. apply keeps_credentials. intros s Hs. apply handler_wf_store; [done|]. apply authenticate_wf, Hs. Qed.

Lemma keeps_requireAdmin req f : keeps handler_wf (credentials (R := MemoryRepository) (requireAdmin h env req) f).
Proof.
  apply keeps_credentials. intros s Hs. apply handler_wf_store; [done|].
  rewrite requireAdmin_store. apply authenticate_wf, Hs.
Qed.

Lemma keeps_exec {A} (m : M MemoryRepository A) f ctx o :
  typed o → (∀ r, (m r).2 = (exec ctx o r).2) → keeps handler_wf (attempt m f).
Proof. intros Ho Hm. apply keeps_attempt. intros s Hs. rewrite Hm. by apply handler_wf_exec. Qed.

Lemma keeps_read {A} (P : HState MemoryRepository → Prop) (m : M MemoryRepository A) f :
  (∀ r, (m r).2 = r) → keeps P (attempt m f).
Proof. intros Hm. apply keeps_attempt. intros s Hs. by rewrite Hm, set_repo_same. Qed.

Lemma keeps_adminScope (P : HState MemoryRepository → Prop) p id : keeps P (authorizeAdminNodeScope env p id).
Proof.
  unfold authorizeAdminNodeScope. walk. apply keeps_read. apply GetNodeNetworkIDs_state.
Qed.

Lemma keeps_nodeAction (P : HState MemoryRepository → Prop) p id : keeps P (authorizeNodeAction env p id).
Proof. unfold authorizeNodeAction. walk. apply keeps_adminScope. Qed.

(** *** Enrollment *)

(** A property of repositories that every operation keeps. *)
Definition closed (P : MemoryRepository → Prop) : Prop := ∀ ctx o r, typed o → P r → P (exec ctx o r).2.

Lemma exec_consume now ctx v hash t nd r :
  (exec ctx (OConsumeInvite now v hash t nd) r).2 = (ConsumeInviteForNode now ctx v hash t nd r).2.
Proof. simpl. unfold bind. by destruct (ConsumeInviteForNode _ _ _ _ _ _ _) as [[i|e] r']. Qed.

Lemma enroll_allocate_eq {R} `{TransactionalRepository R} fuel attempts pool ctx m occ (r : R) :
  enroll_allocate env fuel attempts pool ctx m occ r = allocate fuel attempts (env_entropy env) ctx pool m occ r.
Proof.
  revert attempts m occ r. induction fuel as [|fuel IH]; intros attempts m occ r; simpl; [done|].
  destruct (RandomNext _ _ _); [|done]. destruct (repo_AddMembership _ _ _) as [[u|e] r']; [done|].
  case_match; [apply IH|done].
Qed.

Lemma allocate_closed P fuel attempts entropy ctx p m occ r :
  closed P → P r → P (allocate fuel attempts entropy ctx p m occ r).2.
Proof.
  intros HP. revert attempts m occ r. induction fuel as [|fuel IH]; intros attempts m occ r Hr; simpl; [done|].
  destruct (RandomNext _ _ _) as [ip|e] eqn:Er; [|done]. simpl.
  pose proof (HP ctx (OAddMembership (mb_with_IP m ip)) r (RandomNext_bytes _ _ _ _ Er) Hr) as Hr'. simpl in Hr'.
  destruct (AddMembership ctx (mb_with_IP m ip) r) as [[[]|e] r']; simpl in *; [done|].
  case_match; [by apply IH|done].
Qed.

Lemma enroll_callback_closed P store req inviteID tokenHash nodeID ctx r :
  closed P → P r → P (enroll_callback env store req inviteID tokenHash nodeID ctx r).2.
Proof.
  intros HP Hr. unfold enroll_callback. apply (bind_keeps P); [by apply (HP ctx (OAddNode _))|]. intros _ r1 H1.
  apply (bind_keeps P); [rewrite <- exec_consume; by apply HP|]. intros i r2 H2.
  apply (bind_keeps P); [simpl; by rewrite GetNetwork_state|]. intros n r3 H3.
  apply (bind_keeps P); [by case_match|]. intros _ r4 H4.
  apply (bind_keeps P); [by destruct (NewPool _)|]. intros p r5 H5.
  apply (bind_keeps P).
  { rewrite enroll_allocate_eq. pose proof (allocate_closed P (Z.to_nat (Size p)) 0 (env_entropy env) ctx p
      {| mb_NetworkID := nw_ID n; mb_NodeID := nodeID; mb_VirtualIPv4 := [];
         mb_Role := RoleMember; mb_Status := MembershipActive |} [] r5 HP H5) as Hw.
    simpl. destruct (allocate _ _ _ _ _ _ _ _) as [o r']. exact Hw. }
  intros [allocated err] r6 H6. apply (bind_keeps P); [rewrite run_check; by repeat case_match|]. intros _ r7 H7.
  destruct allocated; [|done]. apply (bind_keeps P); [simpl; by rewrite GetNetwork_state|].
  intros n' r8 H8. by destruct (IssueNodeSession _ _ _ _ _) as [[[token se]|e] st].
Qed.

(** The session of an enrollment that succeeds is issued to the node for the
    network. *)
Lemma enroll_callback_session {R} `{TransactionalRepository R} store req inviteID tokenHash nodeID ctx (r w : R) res st :
  enroll_callback env store req inviteID tokenHash nodeID ctx r = (Ok (res, st), w) →
  IssueNodeSession (env_issueNow env) (env_sessionRandom env) nodeID (en_NetworkID res) store =
    (Ok (en_SessionToken res, en_Session res), st) ∧ nd_ID (en_Node res) = nodeID.
Proof.
  unfold enroll_callback. intros (_ & r1 & _ & H1)%bind_Ok_inv. apply bind_Ok_inv in H1 as (i & r2 & _ & H2).
  apply bind_Ok_inv in H2 as (n & r3 & _ & H3). apply bind_Ok_inv in H3 as (_ & r4 & _ & H4).
  apply bind_Ok_inv in H4 as (p & r5 & _ & H5). apply bind_Ok_inv in H5 as ([allocated err] & r6 & _ & H6).
  apply bind_Ok_inv in H6 as (_ & r7 & _ & H7). destruct allocated as [m|]; [|done].
  apply bind_Ok_inv in H7 as (n' & r8 & _ & H8). simpl in H8.
  destruct (IssueNodeSession _ _ _ _ _) as [[[token se]|e] st'] eqn:E; [|done].
  injection H8 as <- <- <-. done.
Qed.

Lemma closed_wf_stay r0 : closed (λ r, repo_wf r ∧ nets_stay r0 r).
Proof.
  intros ctx o r Ho [Hwf Hst]. split; [by apply exec_wf|]. intros id Hid. by apply exec_stay, Hst.
Qed.

Lemma enrollControl_wf newID req s : handler_wf s → handler_wf (enrollControl h env newID req s).2.
Proof.
  intros Hs. pose proof Hs as (Hr & Hst & _). unfold enrollControl.
  destruct (enrollment_reference newID req) as [[[inviteID tokenHash] nodeID]|e]; [|done]. simpl.
  set (f := enroll_callback env (hs_sessions s) req inviteID tokenHash nodeID).
  pose proof (WithTransaction_run (env_ctx env) f (hs_repo s)) as Hrun.
  destruct (WithTransaction (env_ctx env) (Some f) (hs_repo s)) as [[[res st]|e] r']; unfold outcome in Hrun; simpl in *.
  - destruct Hrun as (w & Hf & _ & ->).
    pose proof (enroll_callback_closed (λ r, repo_wf r ∧ nets_stay (hs_repo s) r) (hs_sessions s) req inviteID
      tokenHash nodeID (env_ctx env) (hs_repo s) (closed_wf_stay _) (conj Hr (λ _ x, x))) as [Hw Hn].
    fold f in Hw, Hn. rewrite Hf in Hw, Hn. simpl in *.
    destruct (enroll_callback_session _ _ _ _ _ _ _ _ _ _ Hf) as [Hi _].
    apply handler_wf_store; [apply handler_wf_repo; [done|by destruct Hw|done]|].
    pose proof (session_exec_wf (SIssue (env_issueNow env) (env_sessionRandom env) nodeID RoleNode (en_NetworkID res))
      (hs_sessions s) Henv Hst) as Hw'. unfold IssueNodeSession in Hi. simpl in Hw'. by rewrite Hi in Hw'.
  - subst r'. by rewrite set_repo_same.
Qed.

(** *** Each handler *)
Lemma createNetwork_wf req : keeps handler_wf (createNetwork (R := MemoryRepository) h env req).
Proof.
  unfold createNetwork. walk; [apply keeps_requireAdmin|].
  eapply (keeps_exec _ _ _ (OCreateNetwork _)); [|done]. simpl. unfold int64, MaxInt64. lia.
Qed.

Lemma createInvite_wf req : keeps handler_wf (createInvite (R := MemoryRepository) h env req).
Proof.
  unfold createInvite. walk; [apply keeps_requireAdmin|apply keeps_read, GetNetwork_state|].
  by eapply (keeps_exec _ _ _ (OCreateInvite _)).
Qed.

Lemma enroll_wf req : keeps handler_wf (enroll (R := MemoryRepository) h env req).
Proof.
  unfold enroll. walk. intros s Hs. match goal with |- context [enrollControl h env ?i ?q s] =>
    pose proof (enrollControl_wf i q s Hs) as Hw; destruct (enrollControl h env i q s) as [[result err] s'] end. done.
Qed.

Lemma snapshot_wf req : keeps handler_wf (snapshot (R := MemoryRepository) h env req).
Proof. unfold snapshot. walk; [apply keeps_authenticate|apply keeps_read, BuildSnapshotAt_state]. Qed.

Lemma events_wf req : keeps handler_wf (events (R := MemoryRepository) h env req).
Proof. unfold events. walk; [apply keeps_authenticate|apply keeps_read, BuildSnapshotAt_state]. Qed.

Lemma heartbeat_wf req : keeps handler_wf (heartbeat (R := MemoryRepository) h env req).
Proof.
  unfold heartbeat. walk; try apply keeps_nodeAction.
  - apply keeps_authenticate.
  - apply keeps_read, GetNode_state.
  - by eapply (keeps_exec _ _ _ (OReplaceEndpoints _ _)).
  - by eapply (keeps_exec _ _ _ (OUpdateNodeClientVersion _ _)).
  - by eapply (keeps_exec _ _ _ (OTouchNode _ _)).
Qed.

Lemma deleteNode_wf req : keeps handler_wf (deleteNode (R := MemoryRepository) h env req).
Proof.
  unfold deleteNode. walk; try apply keeps_adminScope; [apply keeps_requireAdmin|].
  by eapply (keeps_exec _ _ _ (ORemoveNode _)).
Qed.

Lemma leaveNode_wf req : keeps handler_wf (leaveNode (R := MemoryRepository) h env req).
Proof.
  unfold leaveNode. walk; try apply keeps_nodeAction; [apply keeps_authenticate|apply keeps_read, GetNode_state|].
  by eapply (keeps_exec _ _ _ (ORemoveNode _)).
Qed.

Lemma CreateNetwork_Ok ctx n r r' : CreateNetwork ctx n r = (Ok tt, r') → is_Some (networks r' !! nw_ID n).
Proof. unfold CreateNetwork. run_m; intros [= <-]; simpl; by rewrite lookup_insert_eq. Qed.

Lemma createRoom_wf req : keeps handler_wf (createRoom (R := MemoryRepository) h env req).
Proof.
  unfold createRoom. walk; [apply keeps_requireAdmin|]. intros s Hs. pose proof Hs as (Hr & Hst & Hroom).
  match goal with |- context [room_create _ ?n _] => set (network := n) end. unfold room_create.
  case_bool_decide as Hempty; simpl; [|by destruct s].
  assert (typed (OCreateNetwork network)) as Ht by (simpl; unfold int64, MaxInt64; lia).
  pose proof (exec_wf (env_ctx env) _ _ Ht Hr) as Hw. simpl in Hw.
  destruct (CreateNetwork (env_ctx env) network (hs_repo s)) as [[[]|e] r'] eqn:E; simpl in *.
  - split_and!; try done. intros _. exact (CreateNetwork_Ok _ _ _ _ E).
  - split_and!; try done.
Qed.

Lemma newInternalRoomInvite_state net r :
  (newInternalRoomInvite h env net r).2 = r ∨
  ∃ i, (newInternalRoomInvite h env net r).2 = (exec (env_ctx env) (OCreateInvite i) r).2.
Proof.
  unfold newInternalRoomInvite. rewrite bind_lift. destruct (env_tokenRandom env); [right|by left].
  unfold bind. cbn [repo_CreateInvite Memory_TransactionalRepository].
  match goal with |- context [CreateInvite _ ?i r] => exists i; cbn [exec]; destruct (CreateInvite _ i r) as [[]]; done end.
Qed.

Lemma joinRoom_wf req : keeps handler_wf (joinRoom (R := MemoryRepository) h env req).
Proof.
  unfold joinRoom. walk.
  - intros hs Hs. destruct (allow _ _ _) as [[] l]; done.
  - apply keeps_attempt. intros hs Hs.
    match goal with |- context [newInternalRoomInvite h env ?n ?r] =>
      destruct (newInternalRoomInvite_state n r) as [->|[i ->]] end.
    + by rewrite set_repo_same.
    + by apply handler_wf_exec.
  - intros hs Hs. match goal with |- context [enrollControl h env ?i ?q hs] =>
      pose proof (enrollControl_wf i q hs Hs) as Hw; destruct (enrollControl h env i q hs) as [[result err] s1] end.
    simpl in Hw. destruct err as [e|]; [|done].
    destruct (match result with None => true | Some res => _ end); [|done].
    cbn [repo_RevokeInvite Memory_TransactionalRepository].
    match goal with |- context [RevokeInvite ?c ?i ?t ?r] =>
      pose proof (handler_wf_exec s1 c (ORevokeInvite i t) I Hw) as Hw';
      cbn [exec] in Hw'; destruct (RevokeInvite c i t r) as [[u|e'] r'] end; done.
Qed.

Lemma route_wf req : keeps handler_wf (route (R := MemoryRepository) h env req).
Proof.
  unfold route. repeat case_match; auto using createNetwork_wf, createInvite_wf, enroll_wf, snapshot_wf, events_wf,
    heartbeat_wf, deleteNode_wf, leaveNode_wf, createRoom_wf, joinRoom_wf, keeps_hret.
Qed.

End MemoryHandler.

(** ** Requests without credentials *)

(** The two resources that do not look at the authorization header. *)
Definition public_request (req : HttpRequest) : bool :=
  bool_decide (hr_Method req = "POST") &&
  (bool_decide (hr_Path req = "/v1/enrollments") || bool_decide (hr_Path req = "/v1/room/join")).

Lemma credentials_fail {R A B} (m : M SessionStore A) f (k : A → H R B) s e :
  (m (hs_sessions s)).1 = Err e →
  hbind (credentials m f) k s = (inr (f e), set_store s (m (hs_sessions s)).2).
Proof. intros Hm. unfold hbind, credentials. destruct (m (hs_sessions s)) as [[a|e'] st]; by simplify_eq/=. Qed.

Lemma credentials_ok {R A B} (m : M SessionStore A) f (k : A → H R B) s a st :
  m (hs_sessions s) = (Ok a, st) → hbind (credentials m f) k s = k a (set_store s st).
Proof. intros Hm. unfold hbind, credentials. by rewrite Hm. Qed.

Lemma statusForError_range e : 401 ≤ statusForError e ≤ 503.
Proof. unfold statusForError. repeat case_match; vm_compute; split; discriminate. Qed.

Lemma writeAPIError_status status e : 400 ≤ rp_Status (writeAPIError status e).
Proof. unfold writeAPIError. simpl. case_match; [done|lia]. Qed.

(** What a refused request leaves: the session store may have dropped a token. *)
Definition refused {R} (s : HState R) (st : SessionStore) (x : Response * HState R) : Prop :=
  400 ≤ rp_Status x.1 ∧ x.2 = set_store s st.

Section Refused.
Context {R : Type} `{TransactionalRepository R}.
Variables (h : Handler) (env : Env) (req : HttpRequest) (s : HState R).

Definition serve (m : H R Response) : Response * HState R :=
  match m s with (inl p, s') | (inr p, s') => (p, s') end.

Lemma serve_credentials {A} (m : M SessionStore A) f (k : A → H R Response) e :
  (m (hs_sessions s)).1 = Err e → (∀ e, 400 ≤ rp_Status (f e)) →
  refused s (m (hs_sessions s)).2 (serve (hbind (credentials m f) k)).
Proof. intros Hm Hf. unfold serve. rewrite (credentials_fail _ _ _ _ _ Hm). split; simpl; auto. Qed.

Lemma requireAdmin_err e :
  (authenticate h env req (hs_sessions s)).1 = Err e → (requireAdmin h env req (hs_sessions s)).1 = Err e.
Proof. unfold requireAdmin, bind. by destruct (authenticate _ _ _ _) as [[]]. Qed.

Lemma requireAdmin_node p st :
  authenticate h env req (hs_sessions s) = (Ok p, st) → se_Role (pl_session p) = RoleNode →
  (requireAdmin h env req (hs_sessions s)).1 = Err ErrInsufficientPermission.
Proof. unfold requireAdmin, bind. intros -> ->. done. Qed.

(** A request to an administrator's resource whose [requireAdmin] fails. *)
Lemma admin_refused e :
  (requireAdmin h env req (hs_sessions s)).1 = Err e →
  let st := (authenticate h env req (hs_sessions s)).2 in
  refused s st (serve (createNetwork h env req)) ∧ refused s st (serve (createInvite h env req)) ∧
  refused s st (serve (deleteNode h env req)) ∧
  (400 ≤ rp_Status (serve (createRoom h env req)).1 ∧
   ((serve (createRoom h env req)).2 = set_store s st ∨ (serve (createRoom h env req)).2 = s)).
Proof.
  intros He st. subst st. rewrite <- requireAdmin_store.
  assert (∀ e, 400 ≤ rp_Status (apiError e)) as Hapi by (intros; apply writeAPIError_status).
  split_and!; try (by eapply serve_credentials).
  - unfold serve, createRoom. unfold hbind at 1, refuse_if at 1. destruct (roomMode h); simpl; [|done].
    rewrite (credentials_fail _ _ _ _ _ He). simpl. pose proof (statusForError_range e). lia.
  - unfold serve, createRoom. unfold hbind at 1, refuse_if at 1. destruct (roomMode h); simpl; [|by right].
    rewrite (credentials_fail _ _ _ _ _ He). by left.
Qed.

Lemma ServeHTTP_serve : ServeHTTP h env req s = serve (route h env req).
Proof. done. Qed.

(** A failed authentication, resource by resource. *)
Lemma unauthenticated_refused e :
  (authenticate h env req (hs_sessions s)).1 = Err e → public_request req = false →
  let x := ServeHTTP h env req s in
  400 ≤ rp_Status x.1 ∧ (x.2 = set_store s (authenticate h env req (hs_sessions s)).2 ∨ x.2 = s).
Proof.
  intros He Hpub x. subst x. rewrite ServeHTTP_serve. unfold public_request in Hpub.
  assert (∀ e, 400 ≤ rp_Status (apiError e)) as Hapi by (intros; apply writeAPIError_status).
  assert (∀ f (k : principal → H R Response), (∀ e, 400 ≤ rp_Status (f e)) →
    let x := serve (hbind (credentials (authenticate h env req) f) k) in
    400 ≤ rp_Status x.1 ∧ x.2 = set_store s (authenticate h env req (hs_sessions s)).2) as Hc
    by (intros f k Hf; by apply serve_credentials with e).
  destruct (admin_refused e (requireAdmin_err e He)) as ((?&?)&(?&?)&(?&?)&(?&?)).
  unfold route.
  destruct (bool_decide (hr_Method req = "POST")); simpl in *.
  - apply orb_false_iff in Hpub as [-> ->].
    repeat (case_match; [first [by auto | split; [apply (Hc apiError); done|left; by apply (Hc apiError)]]|]).
    split; [apply writeAPIError_status|by right].
  - repeat (case_match; [first [by auto | split; [apply (Hc apiError); done|left; by apply (Hc apiError)]]|]).
    split; [apply writeAPIError_status|by right].
Qed.

End Refused.

(** ** The reach of a node's session *)

(** Nothing but the node [nd] differs: the other nodes, their endpoints and
    memberships, the set of networks, the invites up to the node they name. *)
Record only_node (nd : string) (r r' : MemoryRepository) : Prop := {
  on_nodes : ∀ d, d ≠ nd → nodes r' !! d = nodes r !! d;
  on_endpoints : ∀ d, d ≠ nd → endpoints r' !! d = endpoints r !! d;
  on_members : ∀ net d, d ≠ nd → lookup2 (memberships r') net d = lookup2 (memberships r) net d;
  on_networks : ∀ net, nw_IPv4Pool <$> networks r' !! net = nw_IPv4Pool <$> networks r !! net;
  on_tokens : inviteByToken r' = inviteByToken r;
  on_invites : ∀ id, (λ i, (iv_ConsumedAt i, iv_RevokedAt i)) <$> invites r' !! id =
                     (λ i, (iv_ConsumedAt i, iv_RevokedAt i)) <$> invites r !! id
}.

Lemma only_node_refl nd r : only_node nd r r.
Proof. by split. Qed.

Lemma only_node_trans nd r1 r2 r3 : only_node nd r1 r2 → only_node nd r2 r3 → only_node nd r1 r3.
Proof.
  intros [A1 A2 A3 A4 A5 A6] [B1 B2 B3 B4 B5 B6]. split; intros.
  - by rewrite B1, A1.
  - by rewrite B2, A2.
  - by rewrite B3, A3.
  - by rewrite B4, A4.
  - by rewrite B5, A5.
  - by rewrite B6, A6.
Qed.

Lemma bumps_pool l nets net :
  NoDup l → (∀ id, id ∈ l → is_Some (nets !! id)) →
  nw_IPv4Pool <$> bumps l nets !! net = nw_IPv4Pool <$> nets !! net.
Proof.
  intros Hl Hin. rewrite bumps_lookup by done. case_decide as Hd; [|done]. destruct (Hin _ Hd) as [n ->]. done.
Qed.

Lemma only_node_TouchNode ctx nd t r : only_node nd r (TouchNode ctx nd t r).2.
Proof.
  unfold TouchNode. run_m; try apply only_node_refl. split; simpl; intros; try done. by rewrite lookup_insert_ne.
Qed.

Lemma only_node_UpdateNodeClientVersion ctx nd v r : only_node nd r (UpdateNodeClientVersion ctx nd v r).2.
Proof.
  unfold UpdateNodeClientVersion. run_m; try apply only_node_refl. split; simpl; intros; try done.
  by rewrite lookup_insert_ne.
Qed.

Lemma only_node_ReplaceEndpoints ctx nd l r : repo_wf r → only_node nd r (ReplaceEndpoints ctx nd l r).2.
Proof.
  intros Hwf. unfold ReplaceEndpoints. run_m; try apply only_node_refl. rewrite incrementAll_eq.
  split; simpl; intros; try done.
  - by rewrite lookup_insert_ne.
  - apply bumps_pool; [apply networks_of_NoDup|]. intros id. apply networks_of_exist, Hwf.
Qed.

Lemma only_node_RemoveNode ctx nd r : repo_wf r → only_node nd r (RemoveNode ctx nd r).2.
Proof.
  intros Hwf. apply (outcome_snd _ _ (only_node nd r) _ (RemoveNode_run ctx nd r)).
  - intros _ r' ->. apply only_node_refl.
  - intros _ r' (_ & n & affected & Hn & -> & Hnd & _ & Haff & _). split; simpl; intros; try done.
    + by rewrite lookup_delete_ne.
    + by rewrite lookup_delete_ne.
    + rewrite lookup2_fmap_delete. by rewrite decide_False.
    + apply bumps_pool; [done|]. intros id [Hid|(d & a & Ha & _)]%Haff.
      * apply (networks_of_exist r nd); [apply Hwf|done].
      * destruct (proj1 (wf_relays _ Hwf) _ _ _ Ha) as (_&_&_&_&Hm&_).
        apply (networks_of_exist r d); [apply Hwf|by apply networks_of_elem].
    + rewrite lookup_fmap, <- option_fmap_compose. destruct (invites r !! id) as [i|]; [|done]. simpl.
      by case_bool_decide; rewrite ?cloneInvite_id.
Qed.

Section NodeScope.
Variables (h : Handler) (env : Env) (s0 : HState MemoryRepository) (nd : string).

Definition node_scope (s : HState MemoryRepository) : Prop :=
  repo_wf (hs_repo s) ∧ only_node nd (hs_repo s0) (hs_repo s) ∧ hs_room s = hs_room s0.

Lemma keeps_scope {A} (m : M MemoryRepository A) f :
  (∀ r, repo_wf r → repo_wf (m r).2 ∧ only_node nd r (m r).2) → keeps node_scope (attempt m f).
Proof.
  intros Hm. apply keeps_attempt. intros s (Hwf & Ho & Hroom). destruct (Hm _ Hwf). split_and!; [done| |done].
  by eapply only_node_trans.
Qed.

(** A node session acts on its own node or not at all. *)
Lemma nodeAction_self {B} p nodeID (k : H MemoryRepository B) :
  se_Role (pl_session p) = RoleNode → se_Subject (pl_session p) = nd →
  (nodeID = nd → keeps node_scope k) → keeps node_scope (authorizeNodeAction env p nodeID ;? k).
Proof.
  intros Hrole Hsub Hk. destruct (decide (nodeID = nd)) as [->|Hne].
  - apply keeps_bind; [apply keeps_nodeAction|]. intros _. by apply Hk.
  - intros s Hs. unfold hbind, authorizeNodeAction. rewrite bool_decide_eq_true_2 by done.
    unfold hbind at 1, refuse_if. rewrite Hsub, bool_decide_eq_false_2 by done. done.
Qed.

Lemma node_heartbeat req p :
  se_Role (pl_session p) = RoleNode → se_Subject (pl_session p) = nd →
  (authenticate h env req (hs_sessions s0)).1 = Ok p → repo_wf (hs_repo s0) →
  node_scope (heartbeat h env req s0).2 ∧ node_scope (leaveNode h env req s0).2.
Proof.
  intros Hrole Hsub Ha Hwf. destruct (authenticate h env req (hs_sessions s0)) as [[p'|] st] eqn:E; simplify_eq/=.
  unfold heartbeat, leaveNode. rewrite !(credentials_ok _ _ _ _ _ _ E).
  assert (node_scope (set_store s0 st)) as H0 by (split_and!; [done|apply only_node_refl|done]).
  split; (match goal with |- node_scope (match ?x with _ => _ end _).2 => destruct x as [nodeID|]; [|done] end);
    revert H0; generalize (set_store s0 st); (apply nodeAction_self; [done..|]); intros ->.
  - walk.
    + apply keeps_read, GetNode_state.
    + apply keeps_scope. intros r Hr. split; [by apply ReplaceEndpoints_wf|by apply only_node_ReplaceEndpoints].
    + apply keeps_scope. intros r Hr. split; [by apply UpdateNodeClientVersion_wf|apply only_node_UpdateNodeClientVersion].
    + apply keeps_scope. intros r Hr. split; [by apply TouchNode_wf|apply only_node_TouchNode].
  - walk; [apply keeps_read, GetNode_state|].
    apply keeps_scope. intros r Hr. split; [by apply RemoveNode_wf|by apply only_node_RemoveNode].
Qed.

Lemma node_reads req p :
  (authenticate h env req (hs_sessions s0)).1 = Ok p → repo_wf (hs_repo s0) →
  node_scope (snapshot h env req s0).2 ∧ node_scope (events h env req s0).2.
Proof.
  intros Ha Hwf. destruct (authenticate h env req (hs_sessions s0)) as [[p'|] st] eqn:E; simplify_eq/=.
  unfold snapshot, events. rewrite !(credentials_ok _ _ _ _ _ _ E).
  assert (node_scope (set_store s0 st)) as H0 by (split_and!; [done|apply only_node_refl|done]).
  revert H0. generalize (set_store s0 st). intros s Hs.
  split; revert s Hs; match goal with |- ∀ s, node_scope s → node_scope (?m s).2 => change (keeps node_scope m) end;
    walk; apply keeps_read, BuildSnapshotAt_state.
Qed.

End NodeScope.

Lemma serve_snd {R} (s : HState R) m : (serve s m).2 = (m s).2.
Proof. unfold serve. by destruct (m s) as [[]]. Qed.

Lemma node_scope_refl nd (s : HState MemoryRepository) : repo_wf (hs_repo s) → node_scope s nd s.
Proof. intros. split_and!; [done|apply only_node_refl|done]. Qed.

Lemma node_scope_store nd (s : HState MemoryRepository) st : repo_wf (hs_repo s) → node_scope s nd (set_store s st).
Proof. intros. split_and!; [done|apply only_node_refl|done]. Qed.

(** Sequences of requests, each with its environment. *)
Definition serve_all {R} `{TransactionalRepository R} (h : Handler) (l : list (Env * HttpRequest)) (s : HState R) : HState R :=
  fold_left (λ s x, (ServeHTTP h x.1 x.2 s).2) l s.

Lemma serve_all_wf h (l : list (Env * HttpRequest)) (s : HState MemoryRepository) :
  Forall (λ x, env_ok x.1) l → handler_wf s → handler_wf (serve_all h l s).
Proof.
  intros Hl. revert s. induction Hl as [|[env req] l Henv Hl IH]; intros s Hs; [done|]. simpl in *.
  apply IH. rewrite ServeHTTP_serve, serve_snd. by apply route_wf.
Qed.

(** ** Claims *)

(** C16: the control plane stays consistent under any traffic. Starting from a
    handler on an empty repository, after any sequence of requests, whatever
    their credentials, bodies, clocks and draws, the repository is well formed,
    every stored session has a role and, for a node, a scope, and the room, once
    created, is an existing network. *)
Theorem ServeHTTP_wf maxAge options (l : list (Env * HttpRequest)) :
  Forall (λ x, env_ok x.1) l → ho_SessionStore options = None →
  let '(h, s) := NewHandler (NewMemoryRepositoryWithEndpointMaxAge maxAge) options in
  handler_wf (serve_all h l s).
Proof.
  intros Hl Hst. unfold NewHandler. rewrite Hst. apply serve_all_wf; [done|].
  split_and!; [apply empty_wf|apply NewSessionStore_wf|done].
Qed.

(** C36: without credentials nothing changes. If the authorization header of a
    request does not authenticate, and the request is not an enrollment or a
    room join, the answer is an error and repository, room and limiter are
    untouched; only an expired token is forgotten. *)
Theorem unauthenticated_no_effect {R} {TR : TransactionalRepository R} h env req (s : HState R) e :
  (authenticate h env req (hs_sessions s)).1 = Err e → public_request req = false →
  let '(p, s') := ServeHTTP h env req s in
  400 ≤ rp_Status p ∧ hs_repo s' = hs_repo s ∧ hs_room s' = hs_room s ∧ hs_limiter s' = hs_limiter s.
Proof.
  intros He Hpub. pose proof (unauthenticated_refused h env req s e He Hpub) as H.
  destruct (ServeHTTP h env req s) as [p s']. simpl in H. destruct H as [? [-> | ->]]; done.
Qed.


(** ** A run: an administrator creates a network and an invite, a node enrolls *)
Definition demo_options : HandlerOptions :=
  {| ho_BootstrapToken := "bootstrap-secret"; ho_BootstrapSubject := ""; ho_SessionTTL := 0; ho_InviteTTL := 0;
     ho_SessionStore := None; ho_MaxBodyBytes := 0; ho_EnrollmentRecoveryAttempts := 0; ho_RoomMode := true;
     ho_RoomJoinPerIP := 0; ho_RoomJoinGlobal := 0 |}.
Definition demo_handler : Handler := (NewHandler NewMemoryRepository demo_options).1.
Definition demo_state : HState MemoryRepository := (NewHandler NewMemoryRepository demo_options).2.

(** Everything happens at [now]; the invite token ends in the encoding of 32 bytes. *)
Definition demo_env (now : Time) (id : string) : Env :=
  {| env_ctx := liveContext; env_authNow := now; env_scopeNow := now; env_now := now; env_inviteNow := now;
     env_revokeNow := now; env_issueNow := now; env_limitNow := now; env_wall := now; env_newID := λ _, id;
     env_tokenRandom := Ok (replicate 32 9); env_sessionRandom := [Ok (replicate 32 7)]; env_entropy := λ k, Ok (Z.of_nat k);
     env_ParseDuration := λ _, Some Minute; env_ParseRFC3339 := λ _, None; env_recoveryCtx := λ _, liveContext;
     env_recoveryTimer := λ _, true; env_Upgrade := None |}.
Definition demo_http (method path authorization : string) (body : decoded enrollBody) : HttpRequest :=
  {| hr_Method := method; hr_Path := path; hr_Authorization := authorization; hr_RemoteAddr := "[2001:db8::1]:5000";
     hr_ContentLength := 10;
     hr_network := Decoded {| bn_ID := "lab"; bn_Name := "Lab"; bn_Pool := "10.0.0.0/24" |} false;
     hr_invite := Decoded "1m" false; hr_enroll := body; hr_heartbeat := DecodeInvalid; hr_room := DecodeInvalid;
     hr_join := DecodeInvalid |}.
Definition demo_body : decoded enrollBody :=
  Decoded {| be_Invite := ("inv." +:+ RawURLEncode (replicate 32 9))%string; be_NodeID := "n1"; be_DisplayName := "one";
             be_PublicKey := "key"; be_Platform := "windows"; be_ClientVersion := "1" |} false.
Definition demo_admin : string := "Bearer bootstrap-secret".
Definition demo_bearer : string := ("Bearer " +:+ RawURLEncode (replicate 32 7))%string.
Definition demo_setup : list (Env * HttpRequest) :=
  [(demo_env 100 "lab", demo_http "POST" "/v1/networks" demo_admin DecodeInvalid);
   (demo_env 101 "inv", demo_http "POST" "/v1/networks/lab/invites" demo_admin DecodeInvalid)].
Definition demo_enroll_step : Env * HttpRequest :=
  (demo_env 102 "", demo_http "POST" "/v1/enrollments" "" demo_body).

(** The run ends with the node enrolled at the first address of the pool. *)
Example demo_run :
  let '(p, s) := ServeHTTP demo_handler demo_enroll_step.1 demo_enroll_step.2 (serve_all demo_handler demo_setup demo_state) in
  rp_Status p = StatusCreated ∧
  mb_VirtualIPv4 <$> lookup2 (memberships (hs_repo s)) "lab" "n1" = Some [10; 0; 0; 1].
Proof. vm_compute. split; reflexivity. Qed.

Lemma demo_reads now id : env_ok (demo_env now id).
Proof. by repeat constructor. Qed.

Lemma ServeHTTP_wf_witness : handler_wf (serve_all demo_handler (demo_setup ++ [demo_enroll_step]) demo_state).
Proof.
  apply (ServeHTTP_wf DefaultEndpointMaxAge demo_options (demo_setup ++ [demo_enroll_step])); [|reflexivity].
  repeat constructor; apply demo_reads.
Defined.

Lemma unauthenticated_no_effect_witness :
  hs_repo (ServeHTTP demo_handler (demo_env 5 "x") (demo_http "POST" "/v1/networks" "Bearer wrong" DecodeInvalid) demo_state).2
  = hs_repo demo_state.
Proof.
  pose proof (unauthenticated_no_effect demo_handler (demo_env 5 "x")
    (demo_http "POST" "/v1/networks" "Bearer wrong" DecodeInvalid) demo_state ErrInvalidCredential) as Hw.
  destruct (ServeHTTP _ _ _ _) as [p s']. apply Hw; vm_compute; reflexivity.
Defined.

Definition demo_ready : HState MemoryRepository := serve_all demo_handler demo_setup demo_state.
Definition demo_enrolled : HState MemoryRepository :=
  (ServeHTTP demo_handler demo_enroll_step.1 demo_enroll_step.2 demo_ready).2.

Lemma demo_ready_wf : handler_wf demo_ready.
Proof.
  apply serve_all_wf; [repeat constructor; apply demo_reads|].
  split_and!; [apply empty_wf|apply NewSessionStore_wf|done].
Qed.
Lemma demo_enrolled_wf : handler_wf demo_enrolled.
Proof.
  apply (serve_all_wf demo_handler [demo_enroll_step] demo_ready); [|apply demo_ready_wf].
  apply Forall_singleton, demo_reads.
Qed.

