(* ===== verification/HandlerEnroll.v ===== *)
(** * Enrollment over HTTP

    The handler's enrollment agrees with the enrollment service, and what it
    hands out works: the session of a successful enrollment or room join reads
    the node's snapshot. *)

From S2P Require Import Prelude GoStd Crypto Model Pool Repository RepositoryInv RepositoryThm Snapshot Interface Auth Enrollment Room Handler HandlerThm.
From Stdlib Require Import Ascii.

Open Scope Z_scope.

(** ** Enrollment over HTTP and the enrollment service *)

(** The request of the service that a request of the handler stands for. *)
Definition service_request (q : enrollmentRequest) : Request :=
  {| rq_InviteToken := eq_InviteToken q; rq_Invite := ""; rq_NodeID := eq_NodeID q;
     rq_DisplayName := eq_DisplayName q; rq_PublicKey := eq_PublicKey q; rq_Platform := eq_Platform q;
     rq_ClientVersion := eq_ClientVersion q |}.

Lemma index_byte_elem c l k : index_byte c l = Some k → c ∈ l.
Proof. intros (a & b & -> & _)%index_byte_Some. set_solver. Qed.

(** The two accept the same requests and refer to the same invite and node. *)
Lemma enrollment_reference_eq newID q inviteID tokenHash nodeID :
  enrollment_reference newID q = Ok (inviteID, tokenHash, nodeID) ↔
  enroll_request ParseInviteToken newID (service_request q) =
    Ok ({| ir_ID := inviteID; ir_TokenHash := tokenHash |}, nodeID).
Proof.
  unfold enrollment_reference, enroll_request, ParseInviteToken, IndexByte. simpl.
  replace (if bool_decide (eq_InviteToken q = "") then "" else eq_InviteToken q) with (eq_InviteToken q)
    by (by case_bool_decide).
  destruct (index_byte "." (bytes (eq_InviteToken q))) as [k|] eqn:Ek.
  2: { by repeat case_match. }
  rewrite (blank_dot (eq_InviteToken q)) by (by eapply index_byte_elem).
  rewrite (bool_decide_eq_false_2 (eq_InviteToken q = "")) by (intros H0; by rewrite H0 in Ek).
  simpl. destruct (ContainsAny (eq_InviteToken q) token_space); rewrite ?orb_true_r, ?orb_false_r; simpl.
  { by repeat case_match. }
  repeat case_match; naive_solver.
Qed.

(** The handler's callback is the service's transaction followed by the session. *)
Lemma enroll_callback_eq {R} `{TransactionalRepository R} env store q inviteID tokenHash nodeID ctx (r : R) :
  revokedNetworks store = ∅ →
  enroll_callback env store q inviteID tokenHash nodeID ctx r =
  match enroll_body (env_wall env) (env_now env) (env_entropy env) nodeID (service_request q)
          {| ir_ID := inviteID; ir_TokenHash := tokenHash |} ctx r with
  | (Err e, w) => (Err e, w)
  | (Ok res, w) =>
    match IssueNodeSession (env_issueNow env) (env_sessionRandom env) (rs_SessionSubject res) (rs_SessionNetworkID res) store with
    | (Err e, _) => (Err e, w)
    | (Ok (token, session), st) =>
      (Ok ({| en_Node := rs_Node res; en_Membership := rs_Membership res; en_Network := rs_Network res;
              en_Subject := rs_Subject res; en_NetworkID := rs_NetworkID res; en_Session := session;
              en_SessionToken := token |}, st), w)
    end
  end.
Proof.
  intros Hrev. unfold enroll_callback, enroll_body, bind, lift, check, ret, throw. simpl.
  destruct (repo_AddNode _ _ _) as [[u|e] r1]; [|done].
  destruct (repo_ConsumeInviteForNode _ _ _ _ _ _ _) as [[i|e] r2]; [|done].
  destruct (repo_GetNetwork _ _ _) as [[n|e] r3]; [|done].
  unfold IsNetworkRevoked. rewrite Hrev, bool_decide_eq_false_2 by set_solver. simpl.
  destruct (NewPool _) as [p|e]; [|done]. rewrite enroll_allocate_eq.
  destruct (allocate _ _ _ _ _ _ _ _) as [[[m|] err] r4]; repeat (case_match; simplify_eq/=; try done).
Qed.

(** *** From an enrollment to the first snapshot *)

Lemma RandomNext_length e p occ ip : RandomNext e p occ = Ok ip → length ip = 4%nat.
Proof.
  unfold RandomNext. intros Hr. repeat (case_match; simplify_eq). revert Hr. generalize 0 at 1.
  induction (Z.to_nat (usableCount p)) as [|k IH]; intros o; cbn [random_loop]; [done|].
  case_bool_decide; [apply IH|]. intros [= <-]. apply (put_be_length 4).
Qed.

(** The membership the allocation returns is the stored one. *)
Lemma allocate_stored fuel attempts entropy ctx p m occ (r r' : MemoryRepository) m' err :
  allocate fuel attempts entropy ctx p m occ r = ((Some m', err), r') →
  lookup2 (memberships r') (mb_NetworkID m) (mb_NodeID m) = Some m' ∧
  mb_NetworkID m' = mb_NetworkID m ∧ mb_NodeID m' = mb_NodeID m ∧ mb_Status m' = mb_Status m.
Proof.
  revert attempts m occ r. induction fuel as [|fuel IH]; intros attempts m occ r; simpl; [done|].
  destruct (RandomNext _ _ _) as [ip|e] eqn:Er; [|done]. simpl.
  pose proof (AddMembership_run ctx (mb_with_IP m ip) r) as Hrun.
  destruct (AddMembership ctx (mb_with_IP m ip) r) as [[[]|e] r1]; unfold outcome in Hrun; simpl in Hrun.
  - destruct Hrun as (_ & _ & _ & _ & _ & _ & ->). intros [= <- <- <-]. split_and!; try done.
    unfold membership_added. simpl. rewrite lookup2_insert, decide_True by done. unfold stored_membership. simpl.
    by rewrite To4_4 by (by eapply RandomNext_length).
  - case_match; [|done]. intros Ha%IH. done.
Qed.

Lemma url_char_graphic v : 0 ≤ v < 64 → 45 ≤ code (url_char v) < 128.
Proof.
  intros Hv. unfold url_char, std_char. repeat case_match; try (rewrite code_chr by lia; lia); vm_compute; split; done.
Qed.

Lemma encode_graphic l : Forall is_byte l → Forall (λ c, 45 ≤ code c < 128) (encode_quanta url_char false l).
Proof. apply encode_quanta_Forall; [apply url_char_graphic|done]. Qed.

Lemma token_plain l : Forall is_byte l → ContainsAny (RawURLEncode l) token_space = false.
Proof.
  intros Hb. apply ContainsAny_false. unfold RawURLEncode. rewrite bytes_of_bytes. intros c Hc Hin.
  pose proof (encode_graphic l Hb) as Hg. rewrite Forall_forall in Hg. specialize (Hg c Hin).
  unfold token_space in Hc. rewrite !elem_of_cons in Hc.
  destruct Hc as [->|[->|[->|[->|Hc%not_elem_of_nil]]]]; [by vm_compute in Hg; destruct Hg..|done].
Qed.

(** A path of the form [/v1/collection/id/suffix] *)
Definition path4 (collection id suffix : string) : string :=
  ("/v1/" +:+ collection +:+ "/" +:+ id +:+ "/" +:+ suffix)%string.
Definition plain_segment (id : string) : Prop := id ≠ "" ∧ "/"%char ∉ bytes id ∧ "%"%char ∉ bytes id.

Lemma PathUnescape_plain id : "%"%char ∉ bytes id → PathUnescape id = Some id.
Proof.
  intros Hid. unfold PathUnescape. assert (∀ l, "%"%char ∉ l → unescape_bytes l = Some l) as Hu.
  { induction l as [|c l IH]; [done|]. rewrite not_elem_of_cons. intros [Hc Hl]. simpl.
    by rewrite bool_decide_eq_false_2, IH. }
  rewrite Hu by done. simpl. by rewrite of_bytes_bytes.
Qed.

Lemma path4_split collection id suffix :
  "/"%char ∉ bytes collection → "/"%char ∉ bytes id → "/"%char ∉ bytes suffix →
  Split (TrimPrefix (path4 collection id suffix) "/") "/"%char = ["v1"; collection; id; suffix].
Proof.
  intros Hc Hi Hs.
  assert (TrimPrefix (path4 collection id suffix) "/" = ("v1" +:+ "/" +:+ collection +:+ "/" +:+ id +:+ "/" +:+ suffix)%string)
    as -> by (unfold TrimPrefix, path4; simpl; by rewrite of_bytes_bytes).
  unfold Split. rewrite !bytes_app. change (bytes "/") with ["/"%char]. cbn [app].
  rewrite (split_bytes_app _ (bytes "v1")) by (by apply (bool_decide_eq_false_1 _)).
  rewrite !split_bytes_app by done. rewrite split_bytes_nosep by done. csimpl. by rewrite !of_bytes_bytes.
Qed.

Lemma path4_resourceID collection id suffix :
  "/"%char ∉ bytes collection → plain_segment id → "/"%char ∉ bytes suffix →
  resourceID (path4 collection id suffix) collection suffix = Some id.
Proof.
  intros Hc (Hne & Hi & Hp) Hs. unfold resourceID. rewrite path4_split by done.
  rewrite !bool_decide_eq_true_2, (bool_decide_eq_false_2 (id = "")) by done. simpl.
  rewrite PathUnescape_plain, (bool_decide_eq_true_2 (suffix = suffix)) by done. simpl. by rewrite bool_decide_eq_false_2.
Qed.

Lemma path4_hasPathSuffix collection id suffix other :
  collection ≠ "" → "/"%char ∉ bytes collection → plain_segment id → "/"%char ∉ bytes suffix → suffix ≠ "" →
  "/"%char ∉ bytes other →
  hasPathSuffix (path4 collection id suffix) ("/" +:+ other) = bool_decide (suffix = other).
Proof.
  intros Hne Hc (Hid & Hi & Hp) Hs Hs' Ho. unfold hasPathSuffix. rewrite path4_split by done.
  assert (HasSuffix (path4 collection id suffix) "/" = false) as ->.
  { unfold HasSuffix, path4. rewrite !bytes_app. 
    destruct (exists_last (l := bytes suffix)) as (l & c & E); [by intros E; apply Hs', bytes_inj|].
    rewrite E, !app_assoc, reverse_snoc. simpl.
    case_match; [|done]. subst c. destruct Hs. rewrite E. set_solver. }
  assert (HasPrefix (path4 collection id suffix) "/v1/" = true) as -> by (by destruct collection).
  rewrite (bool_decide_eq_true_2 ("v1" = "v1")), (bool_decide_eq_false_2 (collection = "")) by done.
  assert (TrimPrefix ("/" +:+ other) "/" = other) as ->.
  { trans (of_bytes (bytes other)); [by destruct other|apply of_bytes_bytes]. }
  done.
Qed.

(** What a successful enrollment leaves: the stored session and the active
    membership of its node. *)
Record enrolled (env : Env) (res : enrollmentResult) (s : HState MemoryRepository) : Prop := {
  el_token : ∃ value, Ok value ∈ env_sessionRandom env ∧ en_SessionToken res = RawURLEncode value;
  el_session : sessions (hs_sessions s) !! en_SessionToken res = Some (en_Session res);
  el_scope : se_Subject (en_Session res) = nd_ID (en_Node res) ∧ se_Role (en_Session res) = RoleNode ∧
    se_NetworkID (en_Session res) = en_NetworkID res;
  el_network : blank (en_NetworkID res) = false ∧ en_NetworkID res ∉ revokedNetworks (hs_sessions s);
  el_member : lookup2 (memberships (hs_repo s)) (en_NetworkID res) (nd_ID (en_Node res)) = Some (en_Membership res);
  el_active : mb_NetworkID (en_Membership res) = en_NetworkID res ∧ mb_Status (en_Membership res) = MembershipActive
}.

Lemma enroll_callback_stored env store q inviteID tokenHash nodeID ctx (r w : MemoryRepository) res st :
  enroll_callback env store q inviteID tokenHash nodeID ctx r = (Ok (res, st), w) →
  lookup2 (memberships w) (en_NetworkID res) nodeID = Some (en_Membership res) ∧
  mb_NetworkID (en_Membership res) = en_NetworkID res ∧ mb_Status (en_Membership res) = MembershipActive.
Proof.
  unfold enroll_callback. intros (_ & r1 & _ & H1)%bind_Ok_inv. apply bind_Ok_inv in H1 as (i & r2 & _ & H2).
  apply bind_Ok_inv in H2 as (n & r3 & _ & H3). apply bind_Ok_inv in H3 as (_ & r4 & _ & H4).
  apply bind_Ok_inv in H4 as (p & r5 & _ & H5). apply bind_Ok_inv in H5 as ([allocated err] & r6 & Ha & H6).
  rewrite enroll_allocate_eq in Ha. apply bind_Ok_inv in H6 as (u & r7 & H7 & H8).
  destruct allocated as [m|]; [|done]. destruct (allocate _ _ _ _ _ _ _ _) as [o r'] eqn:E.
  injection Ha as -> <-. apply allocate_stored in E as (Hm & Hn & _ & Hs). simpl in *.
  assert (r7 = r') as -> by (rewrite run_check in H7; repeat case_match; by simplify_eq).
  apply bind_Ok_inv in H8 as (n' & r8 & H8 & H9). assert (r8 = r') as ->.
  { pose proof (GetNetwork_state ctx (nw_ID n) r') as Hst. by rewrite H8 in Hst. }
  destruct (IssueNodeSession _ _ _ _ _) as [[[token se]|e] st']; [|done]. injection H9 as <- <- <-. done.
Qed.

Lemma enrollControl_enrolled h env newID q (s s' : HState MemoryRepository) res :
  enrollControl h env newID q s = ((Some res, None), s') → enrolled env res s'.
Proof.
  unfold enrollControl. destruct (enrollment_reference newID q) as [[[inviteID tokenHash] nodeID]|e]; [|done]. simpl.
  set (f := enroll_callback env (hs_sessions s) q inviteID tokenHash nodeID).
  pose proof (WithTransaction_run (env_ctx env) f (hs_repo s)) as Hrun.
  destruct (WithTransaction (env_ctx env) (Some f) (hs_repo s)) as [[[res' st]|e] r']; unfold outcome in Hrun; simpl in *; [|done].
  destruct Hrun as (w & Hf & _ & ->). intros [= -> <-].
  destruct (enroll_callback_session _ _ _ _ _ _ _ _ _ _ _ Hf) as [Hi Hid].
  destruct (enroll_callback_stored _ _ _ _ _ _ _ _ _ _ _ Hf) as (Hm & Hn & Hs).
  unfold IssueNodeSession in Hi.
  pose proof (IssueSession_run (env_issueNow env) (env_sessionRandom env) nodeID RoleNode (en_NetworkID res)
    (hs_sessions s)) as Hrun. rewrite Hi in Hrun. unfold outcome in Hrun. simpl in Hrun.
  destruct Hrun as (Hse & _ & Hwf & Hrev & Htok & _ & ->). simpl in *.
  rewrite Hse in *. destruct Hwf as [_ Hwf]. simpl in Hwf. subst nodeID.
  split; simpl; rewrite ?Hse; try done; [apply lookup_insert_eq|].
  assert (blank (en_NetworkID res) = false) as Hb by (destruct Hwf as [?|[_ ?]]; done).
  split; [done|]. destruct Hrev as [Hrev|]; [|done]. by rewrite Hrev in Hb.
Qed.

Lemma writeEnrollmentResult_ok result err er :
  rp_Payload (writeEnrollmentResult result err) = PEnrollment er →
  ∃ res, result = Some res ∧ err = None ∧ er = makeEnrollmentResponse res.
Proof.
  unfold writeEnrollmentResult. destruct err, result; repeat case_match; simpl; try done. intros [= <-]. eauto.
Qed.

(** Where the enrollment of a response comes from: [silent] steps answer with
    no enrollment, a handler that [grants] one has enrolled the node. *)
Section Grants.
Variables (h : Handler) (env : Env).

Definition silent {A} (m : H MemoryRepository A) : Prop :=
  ∀ s p s' er, m s = (inr p, s') → rp_Payload p ≠ PEnrollment er.
Definition grants (m : H MemoryRepository Response) : Prop :=
  ∀ s p s' er, m s = (inl p, s') ∨ m s = (inr p, s') → rp_Payload p = PEnrollment er →
    ∃ res, er = makeEnrollmentResponse res ∧ enrolled env res s'.

Lemma grants_bind {A} (m : H MemoryRepository A) k : silent m → (∀ a, grants (k a)) → grants (hbind m k).
Proof.
  intros Hm Hk s p s' er. unfold hbind. destruct (m s) as [[a|p'] s1] eqn:E; [apply Hk|].
  intros [?|[= <- <-]] Hp; [done|]. by destruct (Hm _ _ _ er E).
Qed.

Lemma grants_reply p : (∀ er, rp_Payload p ≠ PEnrollment er) → grants (reply p).
Proof. intros Hp s p' s' er [?|[= <- <-]] Her; [done|]. by destruct (Hp er). Qed.

Lemma silent_refuse b status code : silent (refuse_if b (writeErrorCode status code)).
Proof. intros s p s' er. unfold refuse_if. destruct b; [|done]. by intros [= <- <-]. Qed.
Lemma silent_expect {A} (r : result A) f : (∀ e er, rp_Payload (f e) ≠ PEnrollment er) → silent (expect r f).
Proof. intros Hf s p s' er. unfold expect. destruct r; [done|]. by intros [= <- <-]. Qed.
Lemma silent_attempt {A} (m : M MemoryRepository A) : silent (attempt m apiError).
Proof. intros s p s' er. unfold attempt. destruct (m _) as [[]]; [done|]. by intros [= <- <-]. Qed.

Lemma joinRoom_grants req : grants (joinRoom h env req).
Proof.
  unfold joinRoom. apply grants_bind; [apply silent_refuse|]. intros _. apply grants_bind; [by intros ? ? ? ?|].
  intros s0. destruct (active (hs_room s0)); [|by apply grants_reply].
  apply grants_bind; [|intros _].
  { intros hs p s' er. destruct (allow _ _ _) as [[] l]; [done|]. by intros [= <- <-]. }
  apply grants_bind; [apply silent_expect; intros; by case_match|]. intros body.
  apply grants_bind; [apply silent_attempt|]. intros invite hs p s' er.
  destruct (enrollControl _ _ _ _ _) as [[result [e|]] s1] eqn:E.
  - match goal with |- context [let '(e, s2) := ?x in _] => destruct x as [e' s2] end.
    intros [?|[= <- <-]]; [done|].
    by repeat case_match.
  - intros [[= <- <-]|?] Hp; [|done]. apply (writeEnrollmentResult_ok result None) in Hp as (res & -> & _ & ->).
    eauto using enrollControl_enrolled.
Qed.

Lemma enroll_grants req : grants (enroll h env req).
Proof.
  unfold enroll. apply grants_bind; [by apply silent_expect|]. intros body s p s' er.
  destruct (enrollControl _ _ _ _ s) as [[result err] s1] eqn:E. intros [[= <- <-]|?]; [|done].
  intros (res & -> & -> & ->)%writeEnrollmentResult_ok. eauto using enrollControl_enrolled.
Qed.

Lemma public_enrolled req s p s' er :
  ServeHTTP h env req s = (p, s') → public_request req = true → rp_Payload p = PEnrollment er →
  ∃ res, er = makeEnrollmentResponse res ∧ enrolled env res s'.
Proof.
  unfold public_request. intros Hs Hpub. apply andb_true_iff in Hpub as [Hpost Hpath].
  assert (grants (route h env req)) as Hg.
  { unfold route. rewrite Hpost.
    apply orb_true_iff in Hpath as [Hpath|Hpath]; apply bool_decide_eq_true in Hpath; rewrite Hpath; [apply enroll_grants|apply joinRoom_grants]. }
  apply (Hg s). rewrite ServeHTTP_serve in Hs. unfold serve in Hs.
  destruct (route h env req s) as [[p'|p'] s1]; injection Hs as -> ->; auto.
Qed.

End Grants.

(** The token of an enrollment authenticates as its node until it expires. *)
Lemma enrolled_authenticate h env env' req res s :
  enrolled env res s → env_ok env → (∀ value, Ok value ∈ env_sessionRandom env → Forall is_byte value) →
  is_Some (ValidateBootstrapToken (bootstrapToken h) (en_SessionToken res)) →
  hr_Authorization req = ("Bearer " +:+ en_SessionToken res)%string →
  env_authNow env' < se_ExpiresAt (en_Session res) →
  authenticate h env' req (hs_sessions s) =
    (Ok {| pl_session := en_Session res; pl_bootstrap := false |}, hs_sessions s).
Proof.
  intros [(value & Hv & Htok) Hse (_ & _ & Hnet) (_ & Hrev) _ _] Henv Hbytes [e Hboot] Hauth Hnow.
  assert (en_SessionToken res ≠ "").
  { rewrite Htok. apply RawURLEncode_nonempty. unfold env_ok, reads32 in Henv. rewrite Forall_forall in Henv. exact (Henv _ Hv). }
  assert (ContainsAny (en_SessionToken res) token_space = false) by (rewrite Htok; by apply token_plain, Hbytes).
  unfold authenticate. rewrite Hauth, ParseBearerHeader_bearer, bind_lift, Hboot by done.
  unfold bind. rewrite (Authenticate_live _ _ (en_Session res)); try done. split; [done|right; by rewrite Hnet].
Qed.

(** A node with an active membership gets its snapshot. *)
Lemma node_snapshot h env req (s : HState MemoryRepository) se net nd m :
  authenticate h env req (hs_sessions s) = (Ok {| pl_session := se; pl_bootstrap := false |}, hs_sessions s) →
  se_Subject se = nd ∧ se_Role se = RoleNode ∧ se_NetworkID se = net →
  blank net = false ∧ net ∉ revokedNetworks (hs_sessions s) → env_scopeNow env < se_ExpiresAt se →
  env_ctx env = liveContext → repo_wf (hs_repo s) →
  lookup2 (memberships (hs_repo s)) net nd = Some m → mb_Status m = MembershipActive →
  resourceID (hr_Path req) "networks" "snapshot" = Some net →
  ∃ snap, snapshot h env req s = (inl (writeJSON StatusOK (PSnapshot snap)), s) ∧
    as_NetworkID snap = net ∧ as_LocalNodeID snap = nd ∧ as_LocalVirtualIPv4 snap = mb_VirtualIPv4 m.
Proof.
  intros Ha (Hsub & Hrole & Hnet) (Hblank & Hrev) Hnow Hctx Hr Hm Hact Hid.
  unfold snapshot. rewrite (credentials_ok _ _ _ _ _ _ Ha). cbn [pl_session]. rewrite Hrole, Hid, Hsub.
  unfold hbind at 1, refuse_if at 1. rewrite bool_decide_eq_true_2 by done. simpl negb. cbv iota.
  unfold hbind at 1, authorizeNetwork, AuthorizeNetwork. rewrite Hblank. cbn [hs_sessions set_store pl_session].
  rewrite (bool_decide_eq_false_2 _ Hrev), Hrole, Hnet. unfold Before.
  rewrite (proj2 (Z.ltb_lt (env_scopeNow env) _)), andb_false_r by done. simpl. rewrite bool_decide_eq_true_2 by done. simpl.
  unfold hbind, attempt. rewrite Hctx. cbn [repo_BuildSnapshot Memory_TransactionalRepository hs_repo set_store].
  unfold BuildSnapshot. pose proof (BuildSnapshotAt_run (env_wall env) liveContext net nd (env_wall env) (hs_repo s) Hr) as Hrun.
  destruct (BuildSnapshotAt _ _ _ _ _ _) as [[snap|e] r']; unfold outcome in Hrun; simpl in Hrun.
  - destruct Hrun as (-> & _ & _ & Hof). exists (snapshotResponse snap). split; [by destruct s|].
    destruct (so_network _ _ _ _ _ Hof) as (n & _ & ? & _), (so_local _ _ _ _ _ Hof) as (m' & Hm' & _ & ? & ?).
    simplify_eq. done.
  - exfalso. destruct Hrun as [_ [?|[_ Hno]]]; [done|]. unfold membershipIsActiveLocked in Hno.
    by rewrite Hm, bool_decide_eq_true_2 in Hno.
Qed.

(** ** Claims *)

Definition with_session (res : Result) (token : string) (session : Session) : enrollmentResult :=
  {| en_Node := rs_Node res; en_Membership := rs_Membership res; en_Network := rs_Network res;
     en_Subject := rs_Subject res; en_NetworkID := rs_NetworkID res; en_Session := session;
     en_SessionToken := token |}.

(** The handler enrolls exactly as the enrollment service does, with a
    session on top. While no network is revoked: where the service refuses, the
    handler refuses too and changes nothing, with the same error once the request
    is accepted; where the service succeeds, the handler leaves the same
    repository and the same node, membership and network, plus the session
    issued for them; and if no session can be issued nothing has happened. *)
Theorem enrollControl_agrees h env newID q (s : HState MemoryRepository) :
  revokedNetworks (hs_sessions s) = ∅ →
  let service := service_request q in
  match Enroll ParseInviteToken (env_wall env) (env_now env) newID (env_entropy env) (env_ctx env) service (hs_repo s) with
  | (Err e, r') => r' = hs_repo s ∧ ∃ e', enrollControl h env newID q s = ((None, Some e'), s) ∧
      (is_ok (enroll_request ParseInviteToken newID service) = true → e' = e)
  | (Ok res, r') =>
    match IssueNodeSession (env_issueNow env) (env_sessionRandom env) (rs_SessionSubject res)
            (rs_SessionNetworkID res) (hs_sessions s) with
    | (Err e, _) => enrollControl h env newID q s = ((None, Some e), s)
    | (Ok (token, session), st) =>
      enrollControl h env newID q s = ((Some (with_session res token session), None), set_store (set_repo s r') st)
    end
  end.
Proof.
  intros Hrev service. unfold Enroll, enrollControl.
  destruct (enroll_request ParseInviteToken newID service) as [[[inviteID tokenHash] nodeID]|e] eqn:Eq.
  - rewrite (proj2 (enrollment_reference_eq _ _ _ _ _) Eq). cbn [repo_WithTransaction Memory_TransactionalRepository].
    unfold WithTransaction. rewrite !bind_check. destruct (contextError (env_ctx env)) as [e|].
    { split; [done|]. exists e. by rewrite set_repo_same. }
    rewrite enroll_callback_eq by done. fold service.
    destruct (enroll_body _ _ _ _ _ _ _ _) as [[res|e] w].
    + by destruct (IssueNodeSession _ _ _ _ _) as [[[token session]|e] st]; rewrite ?set_repo_same.
    + split; [done|]. exists e. by rewrite set_repo_same.
  - split; [done|]. destruct (enrollment_reference newID q) as [[[inviteID tokenHash] nodeID]|e'] eqn:Er; [|by exists e'].
    apply enrollment_reference_eq in Er. fold service in Er. congruence.
Qed.

(** C12: what an enrollment hands out works at once. When an enrollment or a room
    join answers with a node, a membership and a session token, then, as long as
    the session has not expired, a request for the snapshot of that network with
    that token as bearer credential succeeds, and the snapshot is that of the
    node, with the address the enrollment announced. *)
Theorem enrolled_gets_snapshot h env req (s : HState MemoryRepository) p s' er env' req' :
  handler_wf s → env_ok env → (∀ value, Ok value ∈ env_sessionRandom env → Forall is_byte value) →
  ServeHTTP h env req s = (p, s') → public_request req = true → rp_Payload p = PEnrollment er →
  is_Some (ValidateBootstrapToken (bootstrapToken h) (er_SessionToken er)) →
  plain_segment (am_NetworkID (er_Membership er)) →
  hr_Method req' = "GET" → hr_Path req' = path4 "networks" (am_NetworkID (er_Membership er)) "snapshot" →
  hr_Authorization req' = ("Bearer " +:+ er_SessionToken er)%string →
  env_ctx env' = liveContext →
  env_authNow env' < ax_ExpiresAt (er_Session er) → env_scopeNow env' < ax_ExpiresAt (er_Session er) →
  ∃ snap, ServeHTTP h env' req' s' = (writeJSON StatusOK (PSnapshot snap), s') ∧
    as_NetworkID snap = am_NetworkID (er_Membership er) ∧ as_LocalNodeID snap = ao_ID (er_Node er) ∧
    as_LocalVirtualIPv4 snap = am_VirtualIPv4 (er_Membership er).
Proof.
  intros Hwf Henv Hbytes Hs Hpub Hp Hboot Hseg Hmethod Hpath Hauth Hctx Hnow Hscope.
  destruct (public_enrolled h env req s p s' er Hs Hpub Hp) as (res & -> & He).
  assert (handler_wf s') as (Hr & _ & _).
  { replace s' with (ServeHTTP h env req s).2 by (by rewrite Hs). rewrite ServeHTTP_serve, serve_snd. by apply route_wf. }
  pose proof (enrolled_authenticate h env env' req' res s' He Henv Hbytes Hboot Hauth Hnow) as Ha.
  destruct He as [_ _ Hscope' Hnet Hm (Hmn & Hact)]. simpl in *. rewrite Hmn in *.
  rewrite ServeHTTP_serve. unfold serve.
  assert (route h env' req' = snapshot h env' req') as ->.
  { unfold route. rewrite Hmethod, Hpath. rewrite (path4_hasPathSuffix _ _ "snapshot" "snapshot"); try done;
      by apply (bool_decide_eq_false_1 _). }
  destruct (node_snapshot h env' req' s' _ _ _ _ Ha Hscope' Hnet Hscope Hctx Hr Hm Hact) as (snap & -> & ?); [|eauto].
  rewrite Hpath. apply path4_resourceID; [by apply (bool_decide_eq_false_1 _)|done|by apply (bool_decide_eq_false_1 _)].
Qed.

Definition demo_enroll_query : enrollmentRequest :=
  {| eq_InviteToken := ("inv." +:+ RawURLEncode (replicate 32 9))%string; eq_NodeID := "n1"; eq_DisplayName := "one";
     eq_PublicKey := "key"; eq_Platform := "windows"; eq_ClientVersion := "1" |}.
Definition demo_service : result Result * MemoryRepository :=
  Enroll ParseInviteToken 102 102 "" (λ k, Ok (Z.of_nat k)) liveContext (service_request demo_enroll_query) (hs_repo demo_ready).

(** The run of the handler, through the service. *)
Lemma enrollControl_agrees_witness :
  is_ok demo_service.1 = true ∧
  hs_repo (enrollControl demo_handler (demo_env 102 "") "" demo_enroll_query demo_ready).2 = demo_service.2.
Proof.
  assert (is_ok demo_service.1 = true) as Hok by (vm_compute; reflexivity). split; [exact Hok|].
  pose proof (enrollControl_agrees demo_handler (demo_env 102 "") "" demo_enroll_query demo_ready) as Hw.
  cbv zeta in Hw. specialize (Hw ltac:(vm_compute; reflexivity)).
  change (Enroll _ _ _ _ _ _ _ _) with demo_service in Hw.
  destruct demo_service as [[res|e] r'] eqn:E; [|discriminate Hok].
  destruct (IssueNodeSession _ _ _ _ _) as [[[token session]|e] st] eqn:Ei; [by rewrite Hw|].
  exfalso. revert Ei. assert (res = default res (match demo_service.1 with Ok x => Some x | Err _ => None end)) as ->
    by (by rewrite E). clear Hw. vm_compute. discriminate.
Defined.

Lemma enrolled_gets_snapshot_witness :
  ∃ snap, ServeHTTP demo_handler (demo_env 103 "") (demo_http "GET" "/v1/networks/lab/snapshot" demo_bearer DecodeInvalid)
      demo_enrolled = (writeJSON StatusOK (PSnapshot snap), demo_enrolled) ∧
    as_NetworkID snap = "lab" ∧ as_LocalNodeID snap = "n1" ∧ as_LocalVirtualIPv4 snap = [10; 0; 0; 1].
Proof.
  assert (∃ er, rp_Payload (ServeHTTP demo_handler demo_enroll_step.1 demo_enroll_step.2 demo_ready).1 = PEnrollment er ∧
    er_SessionToken er = RawURLEncode (replicate 32 7) ∧ am_NetworkID (er_Membership er) = "lab" ∧ ao_ID (er_Node er) = "n1" ∧
    am_VirtualIPv4 (er_Membership er) = [10; 0; 0; 1] ∧ ax_ExpiresAt (er_Session er) = 102 + 60 * Minute)
    as (er & Hp & Htoken & Hnet & Hnode & Hip & Hexp) by (eexists; split_and!; vm_compute; reflexivity).
  pose proof (enrolled_gets_snapshot demo_handler demo_enroll_step.1 demo_enroll_step.2 demo_ready
    (ServeHTTP demo_handler demo_enroll_step.1 demo_enroll_step.2 demo_ready).1 demo_enrolled er
    (demo_env 103 "") (demo_http "GET" "/v1/networks/lab/snapshot" demo_bearer DecodeInvalid)) as Hw.
  rewrite Htoken, Hnet, Hnode, Hip, Hexp in Hw.
  refine (Hw demo_ready_wf (demo_reads 102 "") _ (surjective_pairing _) eq_refl Hp _ _ eq_refl eq_refl eq_refl eq_refl _ _).
  - intros value Hv. apply list_elem_of_singleton in Hv. injection Hv as ->. repeat constructor; discriminate.
  - vm_compute. by eexists.
  - split_and!; [discriminate|by apply (bool_decide_eq_false_1 _)..].
  - vm_compute. reflexivity.
  - vm_compute. reflexivity.
Defined.
