(* ===== verification/PathSelector.v ===== *)
(** * The path selector

    [internal/path/selector.go]: the state machine that chooses between the
    direct and the relayed path from a sequence of health observations.  The
    clock is read once per observation without a time and is an argument; the
    mutex makes the calls sequential. *)

From S2P Require Import Prelude GoStd.

Open Scope Z_scope.

(** ** States and observations *)
Definition Direct : string := "direct".
Definition Suspect : string := "suspect".
Definition Relay : string := "relay".
Definition Disconnected : string := "disconnected".

Definition validState (state : string) : bool :=
  let s := ToLower state in
  bool_decide (s = Direct) || bool_decide (s = Suspect) || bool_decide (s = Relay) || bool_decide (s = Disconnected).

Record Observation := {
  ob_At : Time;
  ob_DirectHealthy : bool;
  ob_RelayHealthy : bool;
  ob_MemberActive : bool
}.

Record Options := {
  op_DirectFailureThreshold : Z;
  op_RecoverySuccessThreshold : Z
}.

Record Selector := {
  directFailureThreshold : Z;
  recoverySuccessThreshold : Z;
  sl_state : string;
  directFailures : Z;
  directSuccesses : Z;
  lastAt : Time
}.

Definition NewSelector (options : Options) (initial : string) : result Selector :=
  if negb (validState initial) then Err path_ErrInvalidState
  else
    let failure := if op_DirectFailureThreshold options <=? 0 then 2 else op_DirectFailureThreshold options in
    let recovery := if op_RecoverySuccessThreshold options <=? 0 then 2 else op_RecoverySuccessThreshold options in
    Ok {| directFailureThreshold := failure; recoverySuccessThreshold := recovery; sl_state := ToLower initial;
          directFailures := 0; directSuccesses := 0; lastAt := 0 |}.

(** The three fields that an observation writes besides the time. *)
Definition moved (s : Selector) (state : string) (failures successes : Z) : Selector :=
  {| directFailureThreshold := directFailureThreshold s; recoverySuccessThreshold := recoverySuccessThreshold s;
     sl_state := state; directFailures := failures; directSuccesses := successes; lastAt := lastAt s |}.
Definition at_time (s : Selector) (t : Time) : Selector :=
  {| directFailureThreshold := directFailureThreshold s; recoverySuccessThreshold := recoverySuccessThreshold s;
     sl_state := sl_state s; directFailures := directFailures s; directSuccesses := directSuccesses s; lastAt := t |}.

(** The path that is left when the direct one is given up. *)
Definition fallback (relayHealthy : bool) : string := if relayHealthy then Relay else Disconnected.

(** The switch on the state, for an active member. The [int] counters are kept
    at their width. *)
Definition observe_active (s : Selector) (o : Observation) : Selector * option error :=
  let failures := wrap64 (directFailures s + 1) in
  let successes := wrap64 (directSuccesses s + 1) in
  if bool_decide (sl_state s = Direct) then
    if ob_DirectHealthy o then (moved s (sl_state s) 0 0, None)
    else if failures <? directFailureThreshold s then (moved s Suspect failures 0, None)
    else (moved s (fallback (ob_RelayHealthy o)) failures 0, None)
  else if bool_decide (sl_state s = Suspect) then
    if ob_DirectHealthy o then
      (moved s (if recoverySuccessThreshold s <=? successes then Direct else sl_state s) 0 successes, None)
    else
      (moved s (if directFailureThreshold s <=? failures then fallback (ob_RelayHealthy o) else sl_state s) failures 0, None)
  else if bool_decide (sl_state s = Relay) then
    if ob_DirectHealthy o then
      (moved s (if recoverySuccessThreshold s <=? successes then Direct else sl_state s) 0 successes, None)
    else (moved s (if negb (ob_RelayHealthy o) then Disconnected else sl_state s) 0 0, None)
  else if bool_decide (sl_state s = Disconnected) then
    if ob_DirectHealthy o then
      (moved s (if recoverySuccessThreshold s <=? successes then Direct else Suspect) 0 successes, None)
    else if ob_RelayHealthy o then (moved s Relay 0 0, None)
    else (s, None)
  else (s, Some (ESentinel path_ErrInvalidState)).

Definition ObserveWithError (clock : Time) (o : Observation) (s : Selector) : (string * option error) * Selector :=
  let at_ := if IsZero (ob_At o) then clock else ob_At o in
  if negb (IsZero (lastAt s)) && Before at_ (lastAt s) then ((sl_state s, Some (ESentinel ErrOutOfOrderObservation)), s)
  else
    let s := at_time s at_ in
    if negb (ob_MemberActive o) then ((Disconnected, None), moved s Disconnected 0 0)
    else let '(s', err) := observe_active s o in ((sl_state s', err), s').

Definition Observe (clock : Time) (o : Observation) (s : Selector) : string * Selector :=
  let '((state, _), s') := ObserveWithError clock o s in (state, s').

Definition State (s : Selector) : string := sl_state s.

(** Calls of the service's monitor: each with the reading of the clock. *)
Definition observe_all (l : list (Time * Observation)) (s : Selector) : Selector :=
  fold_left (λ s x, (ObserveWithError x.1 x.2 s).2) l s.

(** ** Invariant *)
Record selector_wf (s : Selector) : Prop := {
  sw_thresholds : 1 ≤ directFailureThreshold s ≤ MaxInt64 ∧ 1 ≤ recoverySuccessThreshold s ≤ MaxInt64;
  sw_failures : 0 ≤ directFailures s ≤ directFailureThreshold s;
  sw_successes : 0 ≤ directSuccesses s ≤ recoverySuccessThreshold s;
  sw_state :
    sl_state s = Direct ∧ directFailures s = 0 ∨
    sl_state s = Suspect ∧ directFailures s < directFailureThreshold s ∧ directSuccesses s < recoverySuccessThreshold s ∨
    sl_state s = Relay ∧ directSuccesses s < recoverySuccessThreshold s ∨
    sl_state s = Disconnected ∧ directSuccesses s = 0
}.

Lemma wrap64_small z : -2^63 ≤ z ≤ MaxInt64 → wrap64 z = z.
Proof. unfold wrap64, MaxInt64. intros. rewrite Z.mod_small; lia. Qed.

(** Evaluates the observation in each state of a well-formed selector. *)
Ltac selector_cases H :=
  destruct H as [[? ?] ? ? [[Hstate ?]|[[Hstate [? ?]]|[[Hstate ?]|[Hstate ?]]]]];
  unfold observe_active, fallback; rewrite Hstate; simpl bool_decide; 
  rewrite ?(wrap64_small (directFailures _ + 1)) by lia; rewrite ?(wrap64_small (directSuccesses _ + 1)) by lia;
  repeat case_match; simplify_eq/=.

Ltac selector_state :=
  first [ left; split; [done|lia] | right; left; split_and!; [done|lia|lia]
        | right; right; left; split; [done|lia] | right; right; right; split; [done|lia] ].

Lemma observe_active_wf s o : selector_wf s → selector_wf (observe_active s o).1 ∧ (observe_active s o).2 = None.
Proof.
  intros Hwf. selector_cases Hwf; split; try done; constructor; simpl; try lia; selector_state.
Qed.

(** The time of an observation, and whether it is not older than the last one. *)
Definition observed_at (x : Time * Observation) : Time := if IsZero (ob_At x.2) then x.1 else ob_At x.2.
Definition in_order (s : Selector) (x : Time * Observation) : bool :=
  IsZero (lastAt s) || negb (Before (observed_at x) (lastAt s)).

Lemma Observe_run (x : Time * Observation) s :
  selector_wf s →
  ObserveWithError x.1 x.2 s =
  if in_order s x then
    let s' := if ob_MemberActive x.2 then (observe_active (at_time s (observed_at x)) x.2).1
              else moved (at_time s (observed_at x)) Disconnected 0 0 in
    ((sl_state s', None), s')
  else ((sl_state s, Some (ESentinel ErrOutOfOrderObservation)), s).
Proof.
  intros Hwf. unfold ObserveWithError, in_order. fold (observed_at x).
  replace (IsZero (lastAt s) || negb (Before (observed_at x) (lastAt s)))
    with (negb (negb (IsZero (lastAt s)) && Before (observed_at x) (lastAt s)))
    by (rewrite negb_andb, negb_involutive; done).
  destruct (negb (IsZero (lastAt s)) && _); [done|]. simpl. destruct (ob_MemberActive x.2); [|done]. simpl.
  assert (selector_wf (at_time s (observed_at x))) as Hwf' by (by destruct Hwf).
  destruct (observe_active_wf _ x.2 Hwf') as [_ He]. destruct (observe_active _ _) as [s' err]. simpl in *. by subst.
Qed.

Lemma Observe_wf x s : selector_wf s → selector_wf (ObserveWithError x.1 x.2 s).2.
Proof.
  intros Hwf. rewrite Observe_run by done. destruct (in_order s x); [|done]. simpl.
  assert (selector_wf (at_time s (observed_at x))) as Hwf' by (by destruct Hwf).
  destruct (ob_MemberActive x.2); [by apply observe_active_wf|].
  destruct Hwf' as [? ? ? ?]. constructor; simpl in *; try lia. selector_state.
Qed.

Lemma observe_all_wf l s : selector_wf s → selector_wf (observe_all l s).
Proof. revert s. induction l as [|x l IH]; intros s Hwf; [done|]. simpl. by apply IH, Observe_wf. Qed.

Definition typed_options (o : Options) : Prop :=
  op_DirectFailureThreshold o ≤ MaxInt64 ∧ op_RecoverySuccessThreshold o ≤ MaxInt64.

Lemma NewSelector_wf options initial s : typed_options options → NewSelector options initial = Ok s → selector_wf s.
Proof.
  intros [? ?]. unfold NewSelector, validState. destruct (negb _) eqn:E; [done|]. intros [= <-].
  apply negb_false_iff in E. rewrite !orb_true_iff, !bool_decide_eq_true in E.
  constructor; simpl; repeat case_match; unfold MaxInt64 in *; try lia;
    destruct E as [[[E|E]|E]|E]; rewrite E; selector_state.
Qed.

(** ** Runs of observations *)

(** Times do not go back, from [t] on. *)
Fixpoint ordered (t : Time) (l : list (Time * Observation)) : bool :=
  match l with
  | [] => true
  | x :: l => (IsZero t || negb (Before (observed_at x) t)) && ordered (observed_at x) l
  end.

Definition direct_up (x : Time * Observation) : bool := ob_MemberActive x.2 && ob_DirectHealthy x.2.
Definition direct_down (x : Time * Observation) : bool := ob_MemberActive x.2 && negb (ob_DirectHealthy x.2).

(** One accepted observation of an active member. *)
Lemma active_step x s :
  selector_wf s → in_order s x = true → ob_MemberActive x.2 = true →
  (ObserveWithError x.1 x.2 s).2 = (observe_active (at_time s (observed_at x)) x.2).1.
Proof. intros Hwf Ho Ha. rewrite Observe_run by done. by rewrite Ho, Ha. Qed.

Lemma observe_active_kept s o :
  let s' := (observe_active s o).1 in
  directFailureThreshold s' = directFailureThreshold s ∧ recoverySuccessThreshold s' = recoverySuccessThreshold s ∧
  lastAt s' = lastAt s.
Proof. unfold observe_active. repeat case_match; done. Qed.

Lemma up_step s o :
  selector_wf s → ob_DirectHealthy o = true →
  let s' := (observe_active s o).1 in
  (sl_state s = Direct → sl_state s' = Direct) ∧
  (sl_state s ≠ Direct → directSuccesses s' = directSuccesses s + 1 ∧
     (sl_state s' = Direct ↔ recoverySuccessThreshold s ≤ directSuccesses s + 1)).
Proof.
  intros Hwf Hup. selector_cases Hwf; split; intros Hs; try done; split; try done; split; intros; try done; lia.
Qed.

Lemma down_step s o :
  selector_wf s → ob_DirectHealthy o = false → sl_state s = Direct ∨ sl_state s = Suspect →
  let s' := (observe_active s o).1 in
  directFailures s' = directFailures s + 1 ∧
  sl_state s' = if directFailures s + 1 <? directFailureThreshold s then Suspect else fallback (ob_RelayHealthy o).
Proof.
  intros Hwf Hdown Hst. selector_cases Hwf; split; try done; try lia; destruct Hst as [Hst|Hst]; rewrite Hstate in Hst; discriminate Hst.
Qed.

Lemma observe_up l s :
  selector_wf s → ordered (lastAt s) l = true → forallb direct_up l = true →
  sl_state (observe_all l s) = Direct ↔
  sl_state s = Direct ∨ recoverySuccessThreshold s ≤ directSuccesses s + Z.of_nat (length l).
Proof.
  revert s. induction l as [|x l IH]; intros s Hwf Hord Hup; simpl in *.
  { split; [auto|]. intros [?|Hle]; [done|]. destruct Hwf as [? ? ? [[? ?]|[(? & ? & ?)|[[? ?]|[? ?]]]]]; [done|lia..]. }
  apply andb_true_iff in Hord as [Ho Hord], Hup as [Hx Hup]. apply andb_true_iff in Hx as [Ha Hd].
  rewrite active_step by done. set (s1 := at_time s (observed_at x)).
  assert (selector_wf s1) as Hwf1 by (by destruct Hwf). destruct (up_step s1 x.2 Hwf1 Hd) as [Hin Hout].
  destruct (observe_active_kept s1 x.2) as (_ & Hr & Ht). simpl in Hr, Ht, Hin, Hout.
  rewrite IH; [|by apply observe_active_wf|by rewrite Ht|done]. rewrite Hr. clear IH Hr Ht.
  destruct (decide (sl_state s = Direct)) as [Hs|Hs]; [naive_solver|]. destruct (Hout Hs) as [-> ->].
  split; (intros [?|?]; [|right; lia]); [right; lia|done].
Qed.

Lemma observe_down l x s :
  selector_wf s → sl_state s = Direct ∨ sl_state s = Suspect → ordered (lastAt s) (l ++ [x]) = true →
  forallb direct_down (l ++ [x]) = true → directFailures s + Z.of_nat (length l) < directFailureThreshold s →
  sl_state (observe_all (l ++ [x]) s) =
    if directFailures s + Z.of_nat (length l) + 1 <? directFailureThreshold s then Suspect
    else fallback (ob_RelayHealthy x.2).
Proof.
  revert s. induction l as [|y l IH]; intros s Hwf Hs Hord Hdown Hlen; simpl in *;
    apply andb_true_iff in Hord as [Ho Hord], Hdown as [Hx Hdown]; apply andb_true_iff in Hx as [Ha Hd%negb_true_iff];
    rewrite active_step by done;
    match goal with |- context [(observe_active ?s1 ?o).1] =>
      assert (selector_wf s1) as Hwf1 by (by destruct Hwf); destruct (down_step s1 o Hwf1 Hd Hs) as [Hf Hst];
      destruct (observe_active_kept s1 o) as (Ht & _ & Hl) end; simpl in Hf, Hst, Ht, Hl.
  - rewrite Hst. by rewrite Z.add_0_r.
  - rewrite (proj2 (Z.ltb_lt _ _)) in Hst by lia.
    rewrite IH; [|by apply observe_active_wf|by right|by rewrite Hl|done|]; rewrite Hf, Ht; [|lia].
    by replace (directFailures s + 1 + Z.of_nat (length l)) with (directFailures s + Z.of_nat (S (length l))) by lia.
Qed.

(** ** Claims *)

(** The selector never leaves its states and its counters never overflow.
    After any observations of any kind and time, the state is one of the four,
    the failure and success counters stay within their thresholds, a suspected
    path has not reached either threshold, a lost one has no successes, and an
    observation reports an error only when it is out of order. *)
Theorem selector_bounded options initial s l x :
  typed_options options → NewSelector options initial = Ok s →
  let s' := observe_all l s in
  selector_wf s' ∧
  ((ObserveWithError x.1 x.2 s').1.2 = if in_order s' x then None else Some (ESentinel ErrOutOfOrderObservation)).
Proof.
  intros Ht Hs s'. assert (selector_wf s') as Hwf by (by eapply observe_all_wf, NewSelector_wf). split; [done|].
  rewrite Observe_run by done. by destruct (in_order s' x).
Qed.

Definition demo_options : Options := {| op_DirectFailureThreshold := 3; op_RecoverySuccessThreshold := 2 |}.
Definition demo_selector : Selector :=
  {| directFailureThreshold := 3; recoverySuccessThreshold := 2; sl_state := Direct; directFailures := 0;
     directSuccesses := 0; lastAt := 0 |}.
Definition demo_up (t : Time) : Time * Observation :=
  (t, {| ob_At := 0; ob_DirectHealthy := true; ob_RelayHealthy := false; ob_MemberActive := true |}).
Definition demo_down (t : Time) : Time * Observation :=
  (t, {| ob_At := 0; ob_DirectHealthy := false; ob_RelayHealthy := true; ob_MemberActive := true |}).

Lemma demo_selector_wf : selector_wf demo_selector.
Proof. by apply (NewSelector_wf demo_options "Direct"). Qed.

Lemma selector_bounded_witness :
  selector_wf (observe_all [demo_down 5; demo_up 6] demo_selector) ∧
  (ObserveWithError 4 (demo_up 4).2 (observe_all [demo_down 5; demo_up 6] demo_selector)).1.2
    = Some (ESentinel ErrOutOfOrderObservation).
Proof.
  apply (selector_bounded demo_options "Direct" demo_selector [demo_down 5; demo_up 6] (demo_up 4)); [|reflexivity].
  split; vm_compute; discriminate.
Defined.

(** C39: the direct path comes back exactly when it should. From any state of the
    machine, while the member is active and every observation in order sees the
    direct path healthy, the selector is on the direct path after them exactly
    if it was before or the successes in a row have reached the recovery
    threshold; so as many healthy observations as the threshold always suffice. *)
Theorem direct_recovers s l :
  selector_wf s → ordered (lastAt s) l = true → forallb direct_up l = true →
  (sl_state (observe_all l s) = Direct ↔
    sl_state s = Direct ∨ recoverySuccessThreshold s ≤ directSuccesses s + Z.of_nat (length l)) ∧
  (recoverySuccessThreshold s ≤ Z.of_nat (length l) → sl_state (observe_all l s) = Direct).
Proof.
  intros Hwf Ho Hup. rewrite observe_up by done. split; [done|]. intros Hlen. right.
  destruct (sw_successes s Hwf). lia.
Qed.

Lemma direct_recovers_witness :
  sl_state (observe_all [demo_up 14; demo_up 15] (observe_all [demo_down 11; demo_down 12; demo_down 13] demo_selector)) = Direct.
Proof.
  apply (direct_recovers (observe_all [demo_down 11; demo_down 12; demo_down 13] demo_selector) [demo_up 14; demo_up 15]).
  - apply observe_all_wf, demo_selector_wf.
  - reflexivity.
  - reflexivity.
  - vm_compute. discriminate.
Defined.

(** A failing direct path is given up after exactly the failure threshold.
    From the direct path, with every observation of an active member in order and
    unhealthy: below the threshold the path is suspected, and with the failure
    that reaches it the selector moves to the relay if that observation saw it
    healthy and is disconnected otherwise. *)
Theorem direct_fails_over s l x :
  selector_wf s → sl_state s = Direct → ordered (lastAt s) (l ++ [x]) = true → forallb direct_down (l ++ [x]) = true →
  Z.of_nat (length l) < directFailureThreshold s →
  sl_state (observe_all (l ++ [x]) s) =
    if Z.of_nat (length l) + 1 <? directFailureThreshold s then Suspect
    else if ob_RelayHealthy x.2 then Relay else Disconnected.
Proof.
  intros Hwf Hs Ho Hdown Hlen.
  assert (directFailures s = 0) as Hf by (destruct Hwf as [_ _ _ [[_ ?]|[[Hx _]|[[Hx _]|[Hx _]]]]]; [done|rewrite Hs in Hx; discriminate Hx..]).
  rewrite observe_down; rewrite ?Hf; auto.
Qed.

Lemma direct_fails_over_witness :
  sl_state (observe_all ([demo_down 11; demo_down 12] ++ [demo_down 13]) demo_selector) = Relay.
Proof.
  apply (direct_fails_over demo_selector [demo_down 11; demo_down 12] (demo_down 13)); try reflexivity.
  apply demo_selector_wf.
Defined.

(** The reported path is justified by the last observation. After an accepted
    observation an inactive member is disconnected, the direct path is reported
    only if it was just seen healthy, the relay only if it or the direct path
    was, and a path that has both failed for an active member is not reported
    as direct or relayed. A refused observation changes nothing. *)
Theorem path_justified s x :
  selector_wf s →
  let '((state, err), s') := ObserveWithError x.1 x.2 s in
  (in_order s x = false → s' = s) ∧
  (in_order s x = true →
    state = sl_state s' ∧ (ob_MemberActive x.2 = false → state = Disconnected) ∧
    (state = Direct → ob_DirectHealthy x.2 = true) ∧
    (state = Relay → ob_RelayHealthy x.2 = true ∨ ob_DirectHealthy x.2 = true)).
Proof.
  intros Hwf. rewrite Observe_run by done. destruct (in_order s x); [|done]. split; [done|]. intros _.
  split; [done|]. destruct (ob_MemberActive x.2); [|done]. split; [done|].
  assert (selector_wf (at_time s (observed_at x))) as Hwf' by (by destruct Hwf). clear Hwf.
  selector_cases Hwf'; split; auto; intros Hc; rewrite ?Hstate in Hc; try discriminate Hc; rewrite ?negb_false_iff in *; auto.
Qed.

Lemma path_justified_witness :
  let '((state, err), s') := ObserveWithError 5 (demo_up 5).2 demo_selector in state = Direct → ob_DirectHealthy (demo_up 5).2 = true.
Proof.
  pose proof (path_justified demo_selector (demo_up 5) demo_selector_wf) as Hw.
  destruct (ObserveWithError _ _ _) as [[state err] s']. apply Hw. reflexivity.
Defined.
