(* ===== verification/NetIP.v ===== *)
(** * Prefixes, address-port pairs and decimal numbers

    What the data plane uses of [net/netip] and [strconv] beyond addresses. *)

From S2P Require Import Prelude GoStd.
From Stdlib Require Import Ascii.
From stdpp Require Import pretty.

Open Scope Z_scope.

(** ** [strconv.Itoa] for a number that is not negative *)
Definition Itoa (z : Z) : string := pretty (Z.to_N z).

Definition is_digit (c : ascii) : Prop := 48 ≤ code c ≤ 57.

Lemma pretty_digits x s :
  Forall is_digit (bytes s) → Forall is_digit (bytes (pretty_N_go x s)).
Proof.
  revert s. induction x as [x IH] using (well_founded_induction N.lt_wf_0). intros s Hs.
  destruct (decide (x = 0%N)) as [->|Hx]; [by rewrite pretty_N_go_0|].
  rewrite pretty_N_go_step by lia. apply IH; [apply N.div_lt; lia|]. constructor; [|done].
  pose proof (N.mod_lt x 10 ltac:(lia)) as Hm. revert Hm. generalize (x `mod` 10)%N. intros d Hd. unfold pretty_N_char.
  destruct d as [|d]; [by vm_compute|]. do 9 (destruct d as [d|d|]; try (by vm_compute); try lia).
Qed.

Lemma Itoa_digits z : Forall is_digit (bytes (Itoa z)).
Proof.
  unfold Itoa. unfold pretty, pretty_N. case_decide; [by repeat constructor|]. apply pretty_digits. constructor.
Qed.

Lemma Itoa_inj x y : 0 ≤ x → 0 ≤ y → Itoa x = Itoa y → x = y.
Proof. unfold Itoa. intros Hx Hy ?%(inj pretty). lia. Qed.

(** ** [netip.Prefix] *)
Record Prefix := { pf_Addr : Addr; pf_bitsPlusOne : Z }.
#[global] Instance Prefix_eq_dec : EqDecision Prefix.
Proof. solve_decision. Defined.

Definition BitLen (a : Addr) : Z := match a with AddrZero => 0 | Addr4 _ => 32 | Addr6 _ _ => 128 end.
Definition without_zone (a : Addr) : Addr := match a with Addr6 v _ => Addr6 v "" | _ => a end.
Definition PrefixFrom (ip : Addr) (bits : Z) : Prefix :=
  {| pf_Addr := without_zone ip;
     pf_bitsPlusOne := if Addr_IsValid ip && (0 <=? bits) && (bits <=? BitLen ip) then bits + 1 else 0 |}.
Definition Prefix_IsValid (p : Prefix) : bool := 0 <? pf_bitsPlusOne p.
Definition Prefix_Bits (p : Prefix) : Z := pf_bitsPlusOne p - 1.
Definition Prefix_String (p : Prefix) : string :=
  if negb (Prefix_IsValid p) then "invalid Prefix" else (Addr_String (pf_Addr p) +:+ "/" +:+ Itoa (Prefix_Bits p))%string.

(** ** [netip.AddrPort] *)
Record AddrPort := { ap_ip : Addr; ap_port : Z }.
#[global] Instance AddrPort_eq_dec : EqDecision AddrPort.
Proof. solve_decision. Defined.

Definition AddrPort_zero : AddrPort := {| ap_ip := AddrZero; ap_port := 0 |}.
Definition AddrPort_IsValid (p : AddrPort) : bool := Addr_IsValid (ap_ip p).
Definition AddrPort_String (p : AddrPort) : string :=
  match ap_ip p with
  | AddrZero => "invalid AddrPort"
  | Addr4 _ => (Addr_String (ap_ip p) +:+ ":" +:+ Itoa (ap_port p))%string
  | Addr6 _ _ => ("[" +:+ Addr_String (ap_ip p) +:+ "]:" +:+ Itoa (ap_port p))%string
  end.

(** ** The text of an IPv4 address determines it *)
Definition dec_value (l : list ascii) : Z := fold_left (λ v c, 10 * v + (code c - 48)) l 0.

Lemma byte_cases (P : Z → Prop) : Forall P (seqZ 0 256) → ∀ v, is_byte v → P v.
Proof. intros HP v Hv. rewrite Forall_forall in HP. apply HP, elem_of_seqZ. unfold is_byte in Hv. lia. Qed.

Lemma dec_byte_value b : is_byte b → dec_value (dec_byte b) = b ∧ "."%char ∉ dec_byte b ∧ "|"%char ∉ dec_byte b.
Proof.
  revert b. apply byte_cases. apply (bool_decide_eq_true_1 _). vm_compute. reflexivity.
Qed.

Lemma dec_byte_inj a b : is_byte a → is_byte b → dec_byte a = dec_byte b → a = b.
Proof. intros Ha Hb H. rewrite <- (proj1 (dec_byte_value a Ha)), H. by apply dec_byte_value. Qed.

Lemma dotted_inj x y :
  length x = 4%nat → length y = 4%nat → Forall is_byte x → Forall is_byte y → dotted x = dotted y → x = y.
Proof.
  destruct x as [|a [|b [|c [|d [|]]]]], y as [|a' [|b' [|c' [|d' [|]]]]]; try done. intros _ _ Hx Hy H.
  decompose_Forall_hyps. apply (f_equal (split_bytes "."%char)) in H. cbn [dotted] in H.
  repeat (rewrite split_bytes_app in H by (by apply dec_byte_value)).
  rewrite !split_bytes_nosep in H by (by apply dec_byte_value).
  injection H as ? ? ? ?. repeat (f_equal; [by apply dec_byte_inj|]). f_equal. by apply dec_byte_inj.
Qed.

(** A valid IPv4 address of 32 bits. *)
Definition addr4_ok (a : Addr) : Prop := match a with Addr4 v => 0 ≤ v < 2^32 | _ => False end.

Lemma Addr_String_inj a b : addr4_ok a → addr4_ok b → Addr_String a = Addr_String b → a = b.
Proof.
  destruct a as [|v|], b as [|w|]; cbn [addr4_ok]; try tauto. intros Hv Hw H%(f_equal bytes). unfold Addr_String in H.
  rewrite !bytes_of_bytes in H.
  apply dotted_inj in H; try apply (put_be_length 4); try apply (put_be_byte 4).
  apply (f_equal be_value) in H. rewrite !be_value_put_be in H. change (2 ^ (8 * Z.of_nat 4)) with (2^32) in H.
  rewrite !Z.mod_small in H by lia. by subst.
Qed.

Lemma Addr_String_plain a : addr4_ok a → "|"%char ∉ bytes (Addr_String a).
Proof.
  destruct a as [|v|]; cbn [addr4_ok]; try tauto. intros _. unfold Addr_String. rewrite bytes_of_bytes.
  pose proof (put_be_length 4 v) as Hl. pose proof (put_be_byte 4 v) as Hb. destruct (put_be 4 v) as [|a [|b [|c [|d [|]]]]]; try done.
  decompose_Forall_hyps. cbn [dotted]. rewrite !elem_of_app, !elem_of_cons, !elem_of_app, !elem_of_cons, !elem_of_app, !elem_of_cons.
  intros [Hin|[Hin|[Hin|[Hin|[Hin|[Hin|Hin]]]]]]; first [discriminate Hin|revert Hin; by apply dec_byte_value].
Qed.

Lemma Addr_String_nonempty a : addr4_ok a → Addr_String a ≠ "".
Proof.
  destruct a as [|v|]; cbn [addr4_ok]; try tauto. intros _. unfold Addr_String. rewrite of_bytes_nil.
  pose proof (put_be_length 4 v) as Hl. destruct (put_be 4 v) as [|a [|b [|c [|d [|]]]]]; try done. cbn [dotted].
  by destruct (dec_byte a).
Qed.

(** ** The text of an IPv4 address parses to it *)
Lemma parse_dec_byte b : is_byte b →
  ∀ rest acc, parse4_fields (dec_byte b ++ rest) 0 0 acc = parse4_fields rest b (length (dec_byte b)) acc ∧ length (dec_byte b) ≠ 0%nat.
Proof.
  revert b. refine (byte_cases _ _). let l := eval vm_compute in (seqZ 0 256) in change (seqZ 0 256) with l.
  repeat (constructor; [intros rest acc; split; [reflexivity|discriminate]|]). constructor.
Qed.

Lemma parse4_dotted ip : length ip = 4%nat → Forall is_byte ip → parseIPv4 (dotted ip) = Some ip.
Proof.
  destruct ip as [|a [|b [|c [|d [|]]]]]; try done. intros _ H. decompose_Forall_hyps. unfold parseIPv4. cbn [dotted].
  assert (∀ x y rest acc, is_byte x → is_byte y → length acc ≠ 3%nat →
    parse4_fields (dec_byte x ++ "."%char :: dec_byte y ++ rest) 0 0 acc = parse4_fields (dec_byte y ++ rest) 0 0 (x :: acc)) as Hdot.
  { intros x y rest acc Hx Hy Hacc. destruct (parse_dec_byte x Hx ("."%char :: dec_byte y ++ rest) acc) as [-> Hl].
    simpl. rewrite (bool_decide_eq_false_2 (length (dec_byte x) = 0%nat)), (bool_decide_eq_false_2 (_ = [])),
      (bool_decide_eq_false_2 (length acc = 3%nat)); [done|done| |done].
    destruct (parse_dec_byte y Hy [] []) as [_ Hy']. by destruct (dec_byte y). }
  rewrite Hdot, Hdot by done. rewrite <- (app_nil_r (dec_byte d)), Hdot by done.
  destruct (parse_dec_byte d ltac:(done) [] [c; b; a]) as [-> _]. reflexivity.
Qed.

Lemma parse_family_dotted ip : length ip = 4%nat → Forall is_byte ip → ParseAddr (of_bytes (dotted ip)) = Some (AddrFrom4 ip).
Proof.
  intros Hlen Hb. unfold ParseAddr. rewrite bytes_of_bytes. pose proof (parse4_dotted ip Hlen Hb) as Hp.
  destruct ip as [|a [|b [|c [|d [|]]]]]; try done. clear Hlen. decompose_Forall_hyps.
  assert (∀ x rest whole, is_byte x → parse_family (dec_byte x ++ "."%char :: rest) whole = (ip ← parseIPv4 whole; Some (AddrFrom4 ip))) as Hf.
  { intros x rest whole Hx. revert x Hx rest. refine (byte_cases _ _).
    let l := eval vm_compute in (seqZ 0 256) in change (seqZ 0 256) with l.
    repeat (constructor; [intros rest; reflexivity|]). constructor. }
  rewrite Hf by done. by rewrite Hp.
Qed.

Lemma ParseIP_IP_String ip : length ip = 4%nat → Forall is_byte ip → To4 (ParseIP (IP_String ip)) = ip.
Proof.
  intros Hlen Hb. unfold IP_String. rewrite bool_decide_eq_false_2 by (by intros ->).
  rewrite (bool_decide_eq_true_2 (_ ∨ _)) by auto. cbn [negb]. 
  rewrite (To4_4 ip Hlen), (bool_decide_eq_true_2 (length ip = 4%nat) Hlen).
  assert (put_be 4 (be_value ip) = ip) as Hp by (rewrite <- Hlen; by apply put_be_be_value).
  unfold Addr_String, AddrFrom4. rewrite Hp. unfold ParseIP. rewrite parse_family_dotted by done.
  cbn [AddrFrom4 Zone As16]. rewrite bool_decide_eq_true_2 by done. by rewrite As16_To4.
Qed.
