(* ===== verification/NetIP6.v ===== *)
(** * The text of an IPv6 address parses to it

    [netip.Addr.String] with its zero compression, and [netip.ParseAddr]. *)

From S2P Require Import Prelude GoStd NetIP.
From Stdlib Require Import Ascii.

Open Scope Z_scope.

(** ** One group *)
Definition is_group (g : Z) : Prop := 0 ≤ g < 65536.

Lemma hex_val_digit d : 0 ≤ d < 16 → hex_val (digit d) = Some d.
Proof.
  intros Hd. assert (Forall (λ d, hex_val (digit d) = Some d) (seqZ 0 16)) as H by (repeat constructor).
  rewrite Forall_forall in H. apply H, elem_of_seqZ. lia.
Qed.

Lemma group_spec g : is_group g →
  hex_digits (hex16 g) 0 0 = Some (g, length (hex16 g), []) ∧ hex16 g ≠ [] ∧ Forall (λ c, is_Some (hex_val c)) (hex16 g).
Proof.
  unfold is_group. intros Hg. unfold hex16. change 15 with (Z.ones 4). rewrite !Z.land_ones, !Z.shiftr_div_pow2 by lia.
  change (2 ^ 12) with 4096. change (2 ^ 8) with 256. change (2 ^ 4) with 16.
  assert (∃ a b c d, g / 4096 = a ∧ g / 256 mod 16 = b ∧ g / 16 mod 16 = c ∧ g mod 16 = d ∧ 0 ≤ a < 16 ∧ 0 ≤ b < 16 ∧ 0 ≤ c < 16 ∧
    0 ≤ d < 16 ∧ g = 4096 * a + 256 * b + 16 * c + d) as (a & b & c & d & -> & -> & -> & -> & Ha & Hb & Hc & Hd & Hv)
    by (do 4 eexists; split_and!; try reflexivity; divlia).
  destruct (Z.ltb_spec g 16); [|destruct (Z.ltb_spec g 256); [|destruct (Z.ltb_spec g 4096)]];
    cbn [fmap list_fmap drop hex_digits length]; rewrite !hex_val_digit by lia;
    (split; [repeat (rewrite bool_decide_eq_false_2 by lia); do 3 f_equal; lia|split; [done|]]);
    repeat (apply Forall_cons; split; [rewrite hex_val_digit by lia; by eexists|]); constructor.
Qed.

Lemma hex_digits_app l acc off v n rest : hex_digits l acc off = Some (v, n, []) →
  match rest with [] => True | c :: _ => hex_val c = None end → hex_digits (l ++ rest) acc off = Some (v, n, rest).
Proof.
  revert acc off. induction l as [|c l IH]; intros acc off; cbn [hex_digits app].
  - intros [= <- <-] Hr. destruct rest as [|c rest]; [done|]. cbn [hex_digits]. by rewrite Hr.
  - destruct (hex_val c); [|done]. case_bool_decide; [done|]. apply IH.
Qed.

(** ** The loop *)
Definition two (g : Z) : list Z := [g / 256; g mod 256].
Definition flat (gs : list Z) : list Z := gs ≫= two.
Lemma flat_length gs : length (flat gs) = (2 * length gs)%nat.
Proof. induction gs as [|g gs IH]; [done|]. cbn [flat mbind list_bind]. simpl. unfold flat in IH. rewrite IH. lia. Qed.
Lemma flat_cons g gs : flat (g :: gs) = two g ++ flat gs.
Proof. done. Qed.
Lemma flat_app l k : flat (l ++ k) = flat l ++ flat k.
Proof. apply bind_app. Qed.

Definition colon : ascii := ":"%char.
Lemma colons_cons w ws : ws ≠ [] → colons (w :: ws) = w ++ colon :: colons ws.
Proof. by destruct ws. Qed.

(** The first byte of the text of groups is a hex digit. *)
Lemma colons_head g gs : is_group g → ∃ c l, colons (hex16 <$> g :: gs) = c :: l ∧ is_Some (hex_val c).
Proof.
  intros Hg. destruct (group_spec g Hg) as (_ & Hne & Hf). destruct (hex16 g) as [|c w] eqn:E; [done|].
  apply Forall_cons in Hf as [Hc _]. destruct gs as [|h gs]; [exists c, w; cbn; by rewrite E|].
  rewrite fmap_cons, colons_cons by done. rewrite E. by exists c, (w ++ colon :: colons (hex16 <$> h :: gs)).
Qed.

(** One group is read, and then the text ends or goes on after a colon. *)
Lemma step_end fuel g e ip : is_group g → (length ip < 16)%nat →
  parse6_loop (S fuel) (hex16 g) e ip = Some ([], e, ip ++ two g).
Proof.
  intros Hg Hip. destruct (group_spec g Hg) as (H1 & Hne & _). cbn [parse6_loop]. rewrite bool_decide_eq_false_2 by lia.
  rewrite H1. rewrite bool_decide_eq_false_2 by (by destruct (hex16 g)). done.
Qed.
Lemma step_colon fuel g e ip c rest : is_group g → (length ip < 16)%nat → is_Some (hex_val c) →
  parse6_loop (S fuel) (hex16 g ++ colon :: c :: rest) e ip = parse6_loop fuel (c :: rest) e (ip ++ two g).
Proof.
  intros Hg Hip Hc. destruct (group_spec g Hg) as (H1 & Hne & _). cbn [parse6_loop]. rewrite bool_decide_eq_false_2 by lia.
  rewrite (hex_digits_app _ _ _ _ _ (colon :: c :: rest) H1) by done. rewrite bool_decide_eq_false_2 by (by destruct (hex16 g)).
  unfold colon. destruct c as [[] [] [] [] [] [] [] []]; try reflexivity. by destruct Hc.
Qed.
Lemma step_ellipsis fuel g ip rest : is_group g → (length ip < 16)%nat →
  parse6_loop (S fuel) (hex16 g ++ colon :: colon :: rest) None ip =
    if bool_decide (rest = []) then Some ([], Some (length (ip ++ two g)), ip ++ two g)
    else parse6_loop fuel rest (Some (length (ip ++ two g))) (ip ++ two g).
Proof.
  intros Hg Hip. destruct (group_spec g Hg) as (H1 & Hne & _). cbn [parse6_loop]. rewrite bool_decide_eq_false_2 by lia.
  rewrite (hex_digits_app _ _ _ _ _ (colon :: colon :: rest) H1) by done. rewrite bool_decide_eq_false_2 by (by destruct (hex16 g)).
  unfold colon. cbv beta iota. rewrite bool_decide_eq_true_2 by done. by destruct rest.
Qed.

Lemma loop_groups gs fuel e ip : Forall is_group gs → gs ≠ [] → (length gs ≤ fuel)%nat → (length ip + 2 * length gs ≤ 16)%nat →
  parse6_loop fuel (colons (hex16 <$> gs)) e ip = Some ([], e, ip ++ flat gs).
Proof.
  revert fuel ip. induction gs as [|g gs IH]; [done|]. intros [|fuel] ip [Hg Hgs]%Forall_cons _ Hf Hl; [simpl in Hf; lia|].
  cbn [length] in *. destruct (decide (gs = [])) as [->|Hne].
  - cbn [fmap list_fmap colons]. rewrite step_end by (done || lia). rewrite flat_cons. cbn [flat mbind list_bind]. by rewrite app_nil_r.
  - rewrite fmap_cons, colons_cons by (by destruct gs). destruct gs as [|h gs]; [done|].
    destruct (colons_head h gs) as (c & l & Hc & Hx); [by apply Forall_cons in Hgs as []|]. rewrite Hc.
    rewrite step_colon by (done || lia). rewrite <- Hc. rewrite IH; [by rewrite (flat_cons g), app_assoc|done|done|lia|].
    rewrite length_app. cbn [two length] in *. lia.
Qed.

Lemma loop_prefix pre rest fuel ip : Forall is_group pre → pre ≠ [] → (length ip + 2 * length pre ≤ 16)%nat →
  parse6_loop (length pre + fuel) (colons (hex16 <$> pre) ++ colon :: colon :: rest) None ip =
    if bool_decide (rest = []) then Some ([], Some (length (ip ++ flat pre)), ip ++ flat pre)
    else parse6_loop fuel rest (Some (length (ip ++ flat pre))) (ip ++ flat pre).
Proof.
  revert ip. induction pre as [|g pre IH]; [done|]. intros ip [Hg Hgs]%Forall_cons _ Hl. cbn [length Nat.add] in *.
  destruct (decide (pre = [])) as [->|Hne].
  - cbn [fmap list_fmap colons]. rewrite step_ellipsis by (done || lia). rewrite flat_cons. cbn [flat mbind list_bind]. by rewrite app_nil_r.
  - rewrite fmap_cons, colons_cons by (by destruct pre). destruct pre as [|h pre]; [done|].
    destruct (colons_head h pre) as (c & l & Hc & Hx); [by apply Forall_cons in Hgs as []|].
    rewrite <- app_assoc. cbn [app]. rewrite Hc. cbn [app]. rewrite step_colon by (done || lia).
    specialize (IH (ip ++ two g)). rewrite Hc in IH. cbn [app] in IH. rewrite IH; [by rewrite (flat_cons g), app_assoc|done|done|].
    rewrite length_app. cbn [two length] in *. lia.
Qed.

(** ** The longest run of zero groups *)
Lemma zero_run_spec l : ∃ k, l = replicate (zero_run l) 0 ++ k ∧ (zero_run l ≤ length l)%nat.
Proof.
  induction l as [|g l (k & IH & Hl)]; [by exists []|]. destruct g as [|p|p]; [|by exists (Z.pos p :: l); split; [|simpl; lia]|by exists (Z.neg p :: l); split; [|simpl; lia]].
  exists k. cbn [zero_run replicate length app]. split; [by rewrite <- IH|lia].
Qed.
Lemma zero_run_split gs i : (i ≤ length gs)%nat → let n := zero_run (drop i gs) in
  gs = take i gs ++ replicate n 0 ++ drop (i + n) gs ∧ (i + n ≤ length gs)%nat.
Proof.
  intros Hi n. destruct (zero_run_spec (drop i gs)) as (k & Hk & Hl). fold n in Hk, Hl. rewrite length_drop in Hl. split; [|lia].
  rewrite <- drop_drop. rewrite <- (take_drop i gs) at 1. f_equal. rewrite Hk at 1. f_equal. rewrite Hk.
  by rewrite drop_app_ge, length_replicate, Nat.sub_diag by (rewrite length_replicate; lia).
Qed.

Definition run_ok (gs : list Z) (se : nat * nat) : Prop :=
  let '(s, e) := se in (s + 2 ≤ e ≤ 8)%nat ∧ gs = take s gs ++ replicate (e - s) 0 ++ drop e gs.

Lemma longest_run_spec gs se : length gs = 8%nat → longest_run gs = Some se → run_ok gs se.
Proof.
  intros Hl. unfold longest_run.
  assert (∀ l best, Forall (λ i, i < 8)%nat l → (∀ se, best = Some se → run_ok gs se) →
    ∀ se, fold_left (λ best i,
      let n := zero_run (drop i gs) in
      let cur := match best with Some (s, e) => (e - s)%nat | None => 0%nat end in
      if bool_decide (2 ≤ n)%nat && bool_decide (cur < n)%nat then Some (i, i + n)%nat else best) l best = Some se → run_ok gs se) as H.
  { induction l as [|i l IH]; intros best Hi Hb; [done|]. apply Forall_cons in Hi as [Hi Hli]. cbn [fold_left]. apply IH; [done|].
    intros se'. cbv zeta. destruct (_ && _) eqn:E; [|apply Hb]. intros [= <-]. apply andb_prop in E as [E%bool_decide_eq_true _].
    destruct (zero_run_split gs i ltac:(lia)) as [H1 H2]. split; [lia|].
    replace (i + zero_run (drop i gs) - i)%nat with (zero_run (drop i gs)) by lia. exact H1. }
  apply H; [|done]. repeat constructor; lia.
Qed.

(** ** The whole address *)
Definition finish (x : option (list ascii * option nat * list Z)) : option (list Z) :=
  match x with
  | None => None
  | Some (rest, ellipsis, ip) =>
    if negb (bool_decide (rest = [])) then None
    else match ellipsis with
         | None => if bool_decide (length ip < 16)%nat then None else Some ip
         | Some e =>
           if bool_decide (length ip < 16)%nat then Some (take e ip ++ replicate (16 - length ip) 0 ++ drop e ip) else None
         end
  end.
Lemma body_hex c l : is_Some (hex_val c) → parseIPv6_body (c :: l) = finish (parse6_loop 9 (c :: l) None []).
Proof.
  intros Hc. unfold parseIPv6_body, finish. generalize (parse6_loop 9). intros loop.
  destruct c as [[] [] [] [] [] [] [] []]; first [reflexivity|by destruct Hc].
Qed.
Lemma body_colons c l : parseIPv6_body (colon :: colon :: c :: l) = finish (parse6_loop 9 (c :: l) (Some 0%nat) []).
Proof. unfold parseIPv6_body, finish. generalize (parse6_loop 9). reflexivity. Qed.

Lemma parse_compressed gs s e : Forall is_group gs → length gs = 8%nat → run_ok gs (s, e) →
  parseIPv6_body (colons (hex16 <$> take s gs) ++ colon :: colon :: colons (hex16 <$> drop e gs)) = Some (flat gs).
Proof.
  intros Hg Hl [Hse Hgs]. pose proof (Forall_take _ s _ Hg) as Hpre. pose proof (Forall_drop _ e _ Hg) as Hpost.
  pose proof (length_take_le gs s ltac:(lia)) as Hlp. pose proof (length_drop gs e) as Hlq.
  revert Hgs Hpre Hpost Hlp Hlq. generalize (take s gs), (drop e gs). intros pre post Hgs Hpre Hpost Hlp Hlq.
  assert (flat gs = flat pre ++ replicate (2 * (e - s)) 0 ++ flat post) as ->.
  { rewrite Hgs at 1. rewrite !flat_app. do 2 f_equal. clear. induction (e - s)%nat as [|n IH]; [done|].
    cbn [replicate]. rewrite flat_cons, IH. by replace (2 * S n)%nat with (S (S (2 * n))) by lia. }
  assert (∀ ip : list Z, length ip = (length (flat pre) + length (flat post))%nat → (16 - length ip)%nat = (2 * (e - s))%nat) as Hn.
  { intros ip ->. rewrite !flat_length. lia. }
  assert (Hsum : finish (Some ([], Some (length (flat pre)), flat pre ++ flat post)) =
    Some (flat pre ++ replicate (2 * (e - s)) 0 ++ flat post)).
  { unfold finish. rewrite bool_decide_eq_true_2 by done. cbn [negb]. rewrite bool_decide_eq_true_2 by (rewrite length_app, !flat_length; lia).
    rewrite take_app_length, drop_app_length, Hn by (by rewrite length_app). done. }
  destruct pre as [|g pre].
  - cbn [fmap list_fmap colons app]. destruct post as [|h post].
    + simpl in Hlp, Hlq. replace (2 * (e - s))%nat with 16%nat by lia. reflexivity.
    + destruct (colons_head h post) as (c & l & Hc & Hx); [by apply Forall_cons in Hpost as []|]. rewrite Hc, body_colons, <- Hc.
      rewrite loop_groups; [exact Hsum|done|done|simpl in *; lia|simpl in *; lia].
  - destruct (colons_head g pre) as (c & l & Hc & Hx); [by apply Forall_cons in Hpre as []|]. rewrite Hc. cbn [app].
    rewrite body_hex by done. rewrite app_comm_cons, <- Hc.
    replace 9%nat with (length (g :: pre) + (9 - length (g :: pre)))%nat by lia.
    rewrite loop_prefix by (done || (simpl length in *; lia)). change ([] ++ flat (g :: pre)) with (flat (g :: pre)).
    destruct post as [|h post].
    + cbn [fmap list_fmap colons]. rewrite bool_decide_eq_true_2 by done. rewrite <- Hsum. cbn [flat mbind list_bind]. by rewrite app_nil_r.
    + destruct (colons_head h post) as (c' & l' & Hc' & _); [by apply Forall_cons in Hpost as []|].
      rewrite bool_decide_eq_false_2 by (by rewrite Hc'). rewrite loop_groups; [exact Hsum|done|done|simpl in *; lia|].
      rewrite flat_length. simpl length in *. lia.
Qed.

Lemma groups_ok v : Forall is_group (groups v) ∧ length (groups v) = 8%nat.
Proof.
  split; [|done]. unfold groups. apply Forall_fmap, Forall_forall. intros i _. unfold is_group. simpl.
  change 65535 with (Z.ones 16). rewrite Z.land_ones by lia. apply Z.mod_pos_bound. lia.
Qed.

Lemma two_bytes v k : 0 ≤ k →
  two (Z.land (Z.shiftr v k) 65535) = [Z.land (Z.shiftr v (k + 8)) 255; Z.land (Z.shiftr v k) 255].
Proof.
  intros Hk. unfold two. change 65535 with (Z.ones 16). change 255 with (Z.ones 8).
  rewrite !Z.land_ones, <- Z.shiftr_shiftr by lia. set (x := Z.shiftr v k). rewrite Z.shiftr_div_pow2 by lia.
  change (2 ^ 16) with 65536. change (2 ^ 8) with 256. f_equal; [|f_equal]; divlia.
Qed.
Lemma flat_groups v : flat (groups v) = put_be 16 v.
Proof.
  unfold groups. cbn [seq fmap list_fmap]. rewrite !flat_cons. change (flat []) with (@nil Z). rewrite !two_bytes by lia. reflexivity.
Qed.

Lemma parse_append6 v : parseIPv6_body (append6 v) = Some (put_be 16 v).
Proof.
  rewrite <- flat_groups. destruct (groups_ok v) as [Hg Hl]. unfold append6. destruct (longest_run (groups v)) as [[s e]|] eqn:E.
  - apply parse_compressed; [done..|]. by apply longest_run_spec.
  - revert Hg Hl. generalize (groups v). intros gs Hg Hl. destruct gs as [|g gs]; [done|].
    destruct (colons_head g gs) as (c & l & Hc & Hx); [by apply Forall_cons in Hg as []|]. rewrite Hc, body_hex by done.
    rewrite <- Hc, loop_groups by (done || (simpl length in *; lia)). unfold finish. rewrite bool_decide_eq_true_2 by done. cbn [negb].
    rewrite bool_decide_eq_false_2; [done|]. change ([] ++ ?x) with x. rewrite flat_length. lia.
Qed.

Definition addr_char (c : ascii) : Prop := is_Some (hex_val c) ∨ c = colon.

Lemma colons_chars gs : Forall is_group gs → Forall addr_char (colons (hex16 <$> gs)).
Proof.
  induction gs as [|g gs IH]; [constructor|]. intros [Hg Hgs]%Forall_cons.
  assert (Forall addr_char (hex16 g)) as H.
  { destruct (group_spec g Hg) as (_ & _ & H). eapply Forall_impl; [exact H|]. by left. }
  destruct (decide (gs = [])) as [->|Hne]; [done|]. rewrite fmap_cons, colons_cons by (by destruct gs).
  apply Forall_app. split; [done|]. constructor; [by right|auto].
Qed.

Lemma append6_chars v : Forall addr_char (append6 v) ∧ colon ∈ append6 v.
Proof.
  destruct (groups_ok v) as [Hg Hl]. unfold append6. destruct (longest_run _) as [[s e]|].
  - split; [|set_solver]. apply Forall_app. split; [by apply colons_chars, Forall_take|].
    constructor; [by right|]. constructor; [by right|]. by apply colons_chars, Forall_drop.
  - split; [by apply colons_chars|]. destruct (groups v) as [|g [|h gs]]; try done. rewrite fmap_cons, colons_cons by done. set_solver.
Qed.

Lemma parse_family_colon l whole : Forall addr_char l → colon ∈ l → parse_family l whole = parseIPv6 whole.
Proof.
  induction l as [|c l IH]; [by intros _ ?%elem_of_nil|]. intros [Hc Hl]%Forall_cons Hin. cbn [parse_family].
  destruct Hc as [Hc| ->]; [|done].
  assert (c ≠ "."%char ∧ c ≠ ":"%char ∧ c ≠ "%"%char) as (H1 & H2 & H3)
    by (split_and!; intros ->; by destruct Hc).
  rewrite !bool_decide_eq_false_2 by done. apply IH; [done|]. apply elem_of_cons in Hin as [<-|]; [done|done].
Qed.

Lemma index_percent l : Forall addr_char l → index_byte "%"%char l = None.
Proof.
  intros H. apply index_byte_None. intros Hin. rewrite Forall_forall in H. by destruct (H _ Hin) as [[? ?]|].
Qed.

Lemma ParseAddr_append6 v : 0 ≤ v < 2^128 → ParseAddr (of_bytes (append6 v)) = Some (Addr6 v "").
Proof.
  intros Hv. unfold ParseAddr. rewrite bytes_of_bytes. destruct (append6_chars v) as [Hc Hin]. rewrite parse_family_colon by done.
  unfold parseIPv6. rewrite index_percent by done. rewrite parse_append6. cbn [mbind option_bind]. rewrite be_value_put_be.
  by rewrite Z.mod_small.
Qed.

Lemma mapped_prefix v : Z.shiftr v 32 = 65535 → take 12 (put_be 16 v) = v4InV6Prefix.
Proof.
  intros H. assert (∀ k, 0 ≤ k → Z.shiftr v (32 + k) = Z.shiftr 65535 k) as Hk by (intros k Hk; by rewrite <- Z.shiftr_shiftr, H by lia).
  cbn [put_be take]. unfold v4InV6Prefix.
  repeat match goal with |- context [Z.shiftr v (8 * Z.of_nat ?n)] =>
    replace (8 * Z.of_nat n) with (32 + 8 * Z.of_nat (n - 4)) by lia; rewrite (Hk (8 * Z.of_nat (n - 4))) by lia end.
  reflexivity.
Qed.

Lemma ParseIP_String4 ip : length ip = 4%nat → Forall is_byte ip → ParseIP (Addr_String (AddrFrom4 ip)) = v4InV6Prefix ++ ip.
Proof.
  intros Hq Hbq. assert (put_be 4 (be_value ip) = ip) as Hp by (rewrite <- Hq; by apply put_be_be_value).
  unfold Addr_String, AddrFrom4. rewrite Hp. unfold ParseIP. rewrite parse_family_dotted by done. cbn [AddrFrom4 Zone As16].
  rewrite bool_decide_eq_true_2 by done. by rewrite Hp.
Qed.

(** [net.ParseIP] on the text of an address gives its 16-byte form. *)
Lemma ParseIP_String ip : length ip = 4%nat ∨ length ip = 16%nat → Forall is_byte ip → ParseIP (IP_String ip) = To16 ip.
Proof.
  intros Hlen Hb. unfold IP_String. rewrite bool_decide_eq_false_2 by (intros ->; by destruct Hlen).
  rewrite (bool_decide_eq_true_2 (_ ∨ _)) by done. cbn [negb].
  destruct (bool_decide (length (To4 ip) = 4%nat)) eqn:E4; [apply bool_decide_eq_true in E4|apply bool_decide_eq_false in E4].
  - rewrite ParseIP_String4 by (done || by apply To4_byte). destruct Hlen as [Hl|Hl]; [unfold To16; by rewrite To4_4, bool_decide_eq_true_2|].
    unfold To16, To4 in *. rewrite (bool_decide_eq_false_2 (length ip = 4%nat)), (bool_decide_eq_true_2 (length ip = 16%nat)) in * by lia.
    cbn [andb] in *. destruct (bool_decide (take 12 ip = _)) eqn:Ep; [|done]. apply bool_decide_eq_true in Ep. rewrite <- Ep. apply take_drop.
  - destruct Hlen as [Hl|Hl]; [by rewrite To4_4 in E4|].
    pose proof (be_value_bound ip Hb) as Hv. rewrite Hl in Hv. change (8 * Z.of_nat 16) with 128 in Hv.
    assert (put_be 16 (be_value ip) = ip) as Hp by (rewrite <- Hl; by apply put_be_be_value).
    unfold Addr_String, AddrFrom16. cbn [Is4In6].
    assert ((Z.shiftr (be_value ip) 32 =? 65535) = false) as ->.
    { apply Z.eqb_neq. intros H%mapped_prefix. rewrite Hp in H. apply E4. unfold To4. rewrite bool_decide_eq_false_2 by lia.
      rewrite (bool_decide_eq_true_2 (_ = 16%nat)), (bool_decide_eq_true_2 (_ = v4InV6Prefix)) by done. cbn [andb]. rewrite length_drop. lia. }
    change (zone_suffix "") with (@nil ascii). rewrite app_nil_r. unfold ParseIP. rewrite ParseAddr_append6 by done.
    cbn [Zone As16]. rewrite bool_decide_eq_true_2, Hp by done. unfold To16. by rewrite bool_decide_eq_false_2, bool_decide_eq_true_2 by lia.
Qed.

(** ** Parsed addresses have their width *)
Lemma parse4_fields_ok l val n acc ip :
  is_byte val → Forall is_byte acc → parse4_fields l val n acc = Some ip → length ip = 4%nat ∧ Forall is_byte ip.
Proof.
  revert val n acc. induction l as [|c l IH]; intros val n acc Hv Ha; cbn [parse4_fields].
  - case_bool_decide as Hl; [|done]. intros [= <-]. rewrite length_reverse. split; [simpl; lia|].
    rewrite Forall_reverse. by constructor.
  - destruct (digit_val c) as [d|] eqn:Ed.
    + destruct (_ && _); [done|]. destruct (255 <? val * 10 + d) eqn:E; [done|]. apply IH; [|done].
      unfold digit_val in Ed. destruct (_ && _) eqn:Eb in Ed; [|done]. injection Ed as <-. unfold is_byte in *. lia.
    + case_bool_decide; [|done]. destruct (_ || _); [done|]. case_bool_decide; [done|]. apply IH; [done|by constructor].
Qed.

Lemma hex_digits_bound l acc off v n rest :
  hex_digits l acc off = Some (v, n, rest) → 0 ≤ acc < 16 ^ Z.of_nat off → (off ≤ 4)%nat → 0 ≤ v < 65536.
Proof.
  revert acc off. induction l as [|c l IH]; intros acc off; cbn [hex_digits].
  - intros [= <- _ _] Ha Ho. pose proof (Z.pow_le_mono_r 16 (Z.of_nat off) 4). lia.
  - destruct (hex_val c) as [d|] eqn:Ed.
    + case_bool_decide; [done|]. intros Hh Ha Ho. apply IH in Hh; [done| |lia]. unfold hex_val in Ed.
      assert (0 ≤ d < 16) by (repeat case_match; simplify_eq; lia). rewrite Nat2Z.inj_succ, Z.pow_succ_r by lia. lia.
    + intros [= <- _ _] Ha Ho. pose proof (Z.pow_le_mono_r 16 (Z.of_nat off) 4). lia.
Qed.

(** The bytes saved so far: an even number of them, at most sixteen. *)
Definition saved (ip : list Z) : Prop := Forall is_byte ip ∧ (length ip ≤ 16)%nat ∧ Nat.Even (length ip).
Lemma saved_two ip g : saved ip → (length ip < 16)%nat → 0 ≤ g < 65536 → saved (ip ++ [g / 256; g mod 256]).
Proof.
  intros (Hb & Hl & k & Hk) Hlt Hg. split_and!.
  - apply Forall_app. split; [done|]. repeat constructor; unfold is_byte; divlia.
  - rewrite length_app. simpl. lia.
  - rewrite length_app. simpl. exists (S k). lia.
Qed.

Lemma parse6_loop_ok fuel s e ip rest e' ip' : parse6_loop fuel s e ip = Some (rest, e', ip') → saved ip → saved ip'.
Proof.
  revert s e ip. induction fuel as [|fuel IH]; intros s e ip; cbn [parse6_loop]; [by intros [= _ _ <-]|].
  case_bool_decide as Hl; [by intros [= _ _ <-]|]. destruct (hex_digits s 0 0) as [[[v n] r]|] eqn:Eh; [|done].
  case_bool_decide; [done|]. intros Hr Hs. pose proof (saved_two ip v Hs ltac:(lia) ltac:(eapply hex_digits_bound; [done|simpl; lia|lia])) as Hs2.
  assert (∀ x, Some ([], x, ip ++ [v / 256; v mod 256]) = Some (rest, e', ip') → saved ip') as Hend by (by intros x [= _ _ <-]).
  revert Hr. destruct r as [|c r]; [apply Hend|].
  destruct (decide (c = "."%char)) as [->|Hdot].
  { destruct (_ && _); [done|]. destruct (bool_decide (16 < length ip + 4)%nat) eqn:E4; [done|]. apply bool_decide_eq_false in E4.
    destruct (parseIPv4 s) as [f|] eqn:Ef; [|done]. intros [= _ _ <-]. apply parse4_fields_ok in Ef as [Hf Hfb]; [|done|by constructor].
    destruct Hs as (Hb & _ & k & Hk). split_and!; [by apply Forall_app|rewrite length_app; lia|].
    rewrite length_app, Hf. exists (S (S k)). lia. }
  destruct (decide (c = ":"%char)) as [->|Hcol].
  2: { destruct c as [[] [] [] [] [] [] [] []]; first [done|by destruct Hdot|by destruct Hcol]. }
  destruct r as [|c r]; [done|]. destruct (decide (c = ":"%char)) as [->|Hcol].
  - case_bool_decide; [|done]. destruct r as [|c r]; [apply Hend|]. intros Hr. by apply IH in Hr.
  - intros Hr. apply (IH (c :: r) e (ip ++ [v / 256; v mod 256])); [|done].
    destruct c as [[] [] [] [] [] [] [] []]; first [exact Hr|by destruct Hcol].
Qed.

Lemma finish_ok x ip : (∀ rest e i, x = Some (rest, e, i) → saved i) → finish x = Some ip → length ip = 16%nat ∧ Forall is_byte ip.
Proof.
  intros Hx. unfold finish. destruct x as [[[rest e] i]|]; [|done]. destruct (Hx _ _ _ eq_refl) as (Hb & Hl & _).
  destruct (negb _); [done|]. destruct e as [e|]; case_bool_decide; try done; intros [= <-].
  - split; [|by apply Forall_app; split; [apply Forall_take|apply Forall_app; split; [apply Forall_replicate|apply Forall_drop]]].
    rewrite !length_app, length_replicate. rewrite <- (take_drop e i) in Hl at 1. pose proof (f_equal length (take_drop e i)) as Ht.
    rewrite length_app in Ht. lia.
  - split; [lia|done].
Qed.

Lemma parseIPv6_body_ok l ip : parseIPv6_body l = Some ip → length ip = 16%nat ∧ Forall is_byte ip.
Proof.
  assert (∀ s e, finish (parse6_loop 9 s e []) = Some ip → length ip = 16%nat ∧ Forall is_byte ip) as Hrun.
  { intros s e. apply finish_ok. intros rest e' i Hi. eapply parse6_loop_ok; [exact Hi|]. split_and!; [constructor|simpl; lia|by exists 0%nat]. }
  destruct l as [|a [|b [|c l]]].
  - apply (Hrun [] None).
  - intros H. apply (Hrun [a] None). rewrite <- H. unfold parseIPv6_body, finish. generalize (parse6_loop 9). intros loop.
    by destruct a as [[] [] [] [] [] [] [] []].
  - destruct (decide (a = colon ∧ b = colon)) as [[-> ->]|Hne].
    { intros [= <-]. split; [done|]. apply (Forall_replicate _ 16 0). unfold is_byte. lia. }
    intros H. apply (Hrun [a; b] None). rewrite <- H. unfold parseIPv6_body, finish. generalize (parse6_loop 9). intros loop.
    unfold colon in Hne. destruct a as [[] [] [] [] [] [] [] []]; try reflexivity. destruct b as [[] [] [] [] [] [] [] []]; try reflexivity.
    by destruct Hne.
  - destruct (decide (a = colon ∧ b = colon)) as [[-> ->]|Hne]; [rewrite body_colons; apply Hrun|].
    intros H. apply (Hrun (a :: b :: c :: l) None). rewrite <- H. unfold parseIPv6_body, finish. generalize (parse6_loop 9). intros loop.
    unfold colon in Hne. destruct a as [[] [] [] [] [] [] [] []]; try reflexivity. destruct b as [[] [] [] [] [] [] [] []]; try reflexivity.
    by destruct Hne.
Qed.

Lemma ParseAddr_ok s a : ParseAddr s = Some a →
  match a with AddrZero => False | Addr4 v => 0 ≤ v < 2^32 | Addr6 v _ => 0 ≤ v < 2^128 end.
Proof.
  unfold ParseAddr. generalize (bytes s) at 1. intros l. induction l as [|c l IH]; cbn [parse_family]; [done|].
  case_bool_decide.
  { destruct (parseIPv4 (bytes s)) as [ip|] eqn:E; [|done]. simpl. intros [= <-].
    apply parse4_fields_ok in E as [Hl Hb]; [|done|by constructor]. pose proof (be_value_bound ip Hb) as Hv. by rewrite Hl in Hv. }
  assert (∀ l z, (ip ← parseIPv6_body l; Some (Addr6 (be_value ip) z)) = Some a →
    match a with AddrZero => False | Addr4 v => 0 ≤ v < 2^32 | Addr6 v _ => 0 ≤ v < 2^128 end) as H6.
  { intros k z. destruct (parseIPv6_body k) as [ip|] eqn:E; [|done]. simpl. intros [= <-].
    apply parseIPv6_body_ok in E as [Hl Hb]. pose proof (be_value_bound ip Hb) as Hv. by rewrite Hl in Hv. }
  case_bool_decide; [|by case_bool_decide]. unfold parseIPv6. destruct (index_byte _ _) as [i|]; [|apply H6].
  case_bool_decide; [done|apply H6].
Qed.
Lemma ParseAddr_width s v : ParseAddr s = Some (Addr4 v) → 0 ≤ v < 2^32.
Proof. apply ParseAddr_ok. Qed.
