(* ===== verification/Wgnt.v ===== *)
(** * The WireGuard adapter contract

    [internal/wgnt/api.go]: keys, configurations and their validation, and the
    interface that the platform adapters implement. *)

From S2P Require Import Prelude GoStd Crypto NetIP.
From Stdlib Require Import Ascii.

Open Scope Z_scope.

(** ** Keys *)
Definition KeySize : nat := 32.

(** A key is an array of 32 bytes. *)
Definition Key : Type := list Z.
Definition zeroKey : Key := replicate KeySize 0.
Definition key_ok (k : Key) : Prop := length k = KeySize ∧ Forall is_byte k.

Definition Key_IsZero (key : Key) : bool := bool_decide (key = zeroKey).
Definition Base64 (key : Key) : string := StdEncode key.
Definition ParseKey (value : string) : result Key :=
  match StdDecode value with
  | Some decoded => if bool_decide (length decoded = KeySize) then Ok decoded else Err (EWrap wgnt_ErrInvalidConfig)
  | None => Err (EWrap wgnt_ErrInvalidConfig)
  end.

(** ** Configurations *)
Definition Handle : Type := Z.
Definition Handle_Valid (h : Handle) : bool := negb (h =? 0).

Record Peer := {
  wp_PublicKey : Key;
  wp_Endpoint : AddrPort;
  wp_PersistentKeepalive : Duration;
  wp_AllowedIPs : list Prefix
}.
Record Configuration := {
  cf_PrivateKey : Key;
  cf_ListenPort : Z;
  cf_Peers : list Peer;
  cf_ReplacePeers : bool
}.
Record PeerStatus := {
  ps_PublicKey : Key;
  ps_Endpoint : AddrPort;
  ps_AllowedIPs : list Prefix;
  ps_TxBytes : Z;
  ps_RxBytes : Z;
  ps_LastHandshake : Time
}.
Record Status := {
  st_Name : string;
  st_LUID : Z;
  st_Up : bool;
  st_PublicKey : Key;
  st_ListenPort : Z;
  st_Peers : list PeerStatus
}.

(** The keepalive is a whole number of seconds that fits 16 bits; [%] truncates. *)
Definition keepalive_ok (d : Duration) : bool :=
  negb ((d <? 0) || (65535 * Second <? d) || negb (Z.rem d Second =? 0)).

Definition allowed_ok (p : Prefix) : bool :=
  Prefix_IsValid p &&
  negb (Is4 (pf_Addr p) && negb (Prefix_Bits p =? 32) || Is6 (pf_Addr p) && negb (Prefix_Bits p =? 128)).

(** The loop over the peers, with the keys seen so far. *)
Fixpoint validate_peers (seen : gset Key) (peers : list Peer) : option error :=
  match peers with
  | [] => None
  | peer :: peers =>
    if Key_IsZero (wp_PublicKey peer) then Some (EWrap wgnt_ErrInvalidConfig)
    else if bool_decide (wp_PublicKey peer ∈ seen) then Some (EWrap wgnt_ErrInvalidConfig)
    else if AddrPort_IsValid (wp_Endpoint peer) && (ap_port (wp_Endpoint peer) =? 0) then Some (EWrap wgnt_ErrInvalidConfig)
    else if negb (keepalive_ok (wp_PersistentKeepalive peer)) then Some (EWrap wgnt_ErrInvalidConfig)
    else if negb (forallb allowed_ok (wp_AllowedIPs peer)) then Some (EWrap wgnt_ErrInvalidConfig)
    else validate_peers ({[wp_PublicKey peer]} ∪ seen) peers
  end.

Definition Validate (c : Configuration) : option error :=
  if Key_IsZero (cf_PrivateKey c) then Some (EWrap wgnt_ErrInvalidConfig)
  else validate_peers ∅ (cf_Peers c).

(** ** The adapter interface, over the state [W] of the system *)
Class Adapter (W : Type) := {
  ad_Ensure : string → M W Handle;
  ad_Configure : Context → Handle → Configuration → M W unit;
  ad_SetUp : Context → Handle → M W unit;
  ad_SetDown : Context → Handle → M W unit;
  ad_Delete : Context → Handle → M W unit;
  ad_Status : Context → Handle → M W Status
}.

(** [checkContext], and the same function of the other data-plane packages. *)
Definition checkContext (ctx : Context) : option error :=
  match ctx with
  | nilContext => Some (ESentinel Canceled)
  | liveContext => None
  | doneContext e => Some (ESentinel e)
  end.

(** ** Properties *)

(** A peer that the adapter accepts: a key, an endpoint with a port or none, whole
    seconds of keepalive in 16 bits, and host routes only. *)
Record peer_ok (p : Peer) : Prop := {
  po_key : wp_PublicKey p ≠ zeroKey;
  po_endpoint : AddrPort_IsValid (wp_Endpoint p) = true → ap_port (wp_Endpoint p) ≠ 0;
  po_keepalive : ∃ s, 0 ≤ s ≤ 65535 ∧ wp_PersistentKeepalive p = s * Second;
  po_allowed : Forall (λ a, Prefix_IsValid a = true ∧
    match pf_Addr a with Addr4 _ => Prefix_Bits a = 32 | Addr6 _ _ => Prefix_Bits a = 128 | AddrZero => True end) (wp_AllowedIPs p)
}.

Lemma keepalive_ok_spec d : keepalive_ok d = true ↔ ∃ s, 0 ≤ s ≤ 65535 ∧ d = s * Second.
Proof.
  unfold keepalive_ok, Second. rewrite negb_true_iff, !orb_false_iff, negb_false_iff, !Z.ltb_ge, Z.eqb_eq. split.
  - intros [[H1 H2] H3]. exists (d / 1000000000). rewrite Z.rem_mod_nonneg in H3 by lia. divlia.
  - intros (s & Hs & ->). split; [lia|]. rewrite Z.rem_mod_nonneg by lia. apply Z.mod_mul. lia.
Qed.

Lemma allowed_ok_spec a : allowed_ok a = true ↔
  Prefix_IsValid a = true ∧
    match pf_Addr a with Addr4 _ => Prefix_Bits a = 32 | Addr6 _ _ => Prefix_Bits a = 128 | AddrZero => True end.
Proof.
  unfold allowed_ok. rewrite andb_true_iff, negb_true_iff, orb_false_iff.
  destruct (pf_Addr a); simpl; rewrite ?negb_false_iff, ?Z.eqb_eq; tauto.
Qed.

Lemma validate_peers_spec seen peers :
  validate_peers seen peers = None ↔
  Forall peer_ok peers ∧ NoDup (wp_PublicKey <$> peers) ∧ Forall (λ p, wp_PublicKey p ∉ seen) peers.
Proof.
  revert seen. induction peers as [|p peers IH]; intros seen; simpl.
  { split; [repeat constructor|done]. }
  rewrite !Forall_cons, NoDup_cons. unfold Key_IsZero. case_bool_decide as Hz.
  { split; [done|]. by intros [[[] _] _]. }
  case_bool_decide as Hseen; [split; [done|tauto]|].
  destruct (AddrPort_IsValid _ && _) eqn:Ee.
  { apply andb_true_iff in Ee as [Ev Ep%Z.eqb_eq]. split; [done|]. intros [[[_ He _ _] _] _]. by destruct (He Ev). }
  destruct (keepalive_ok _) eqn:Ek; simpl.
  2: { split; [done|]. intros [[[_ _ Hk _] _] _]. apply keepalive_ok_spec in Hk. congruence. }
  destruct (forallb _ _) eqn:Ea; simpl.
  2: { split; [done|]. intros [[[_ _ _ Ha] _] _]. apply not_true_iff_false in Ea. destruct Ea. apply forallb_forall.
       intros a Hin%list_elem_of_In. apply allowed_ok_spec. rewrite Forall_forall in Ha. auto. }
  rewrite IH. split.
  - intros (Hf & Hnd & Hs). split_and!; try done.
    + constructor; try done; [|by apply keepalive_ok_spec|].
      * intros Hv Hp. rewrite Hv in Ee. simpl in Ee. apply Z.eqb_neq in Ee. done.
      * rewrite forallb_forall in Ea. apply Forall_forall. intros a Hin%list_elem_of_In. by apply allowed_ok_spec, Ea.
    + intros (q & Hq & Hin)%list_elem_of_fmap. rewrite Forall_forall in Hs. destruct (Hs q Hin). set_solver.
    + rewrite Forall_forall in Hs |- *. intros q Hin. specialize (Hs q Hin). set_solver.
  - intros ([_ Hf] & [Hin Hnd] & [_ Hs]). split_and!; try done. rewrite Forall_forall in Hs |- *. intros q Hq.
    specialize (Hs q Hq). rewrite elem_of_union, elem_of_singleton. intros [Heq|?]; [|done].
    apply Hin. rewrite <- Heq. by apply list_elem_of_fmap_2.
Qed.

(** A printed key parses back, and whatever parses has the size of a key. *)
Lemma ParseKey_Base64 k : key_ok k → ParseKey (Base64 k) = Ok k.
Proof.
  intros [Hl Hb]. unfold ParseKey, Base64. rewrite StdDecode_StdEncode by done. by rewrite bool_decide_eq_true_2.
Qed.
Lemma ParseKey_length value k : ParseKey value = Ok k → length k = KeySize.
Proof. unfold ParseKey. destruct (StdDecode value); [|done]. case_bool_decide; [|done]. by intros [= <-]. Qed.

(** ** Claims *)

(** A configuration passes validation exactly if its private key is set, the
    public keys of its peers are set and pairwise different, every endpoint has
    a port, keepalives are whole seconds up to 65535, and every allowed IP is a
    host route; a default route is never among them. *)
Theorem Validate_correct c :
  Validate c = None ↔
  cf_PrivateKey c ≠ zeroKey ∧ Forall peer_ok (cf_Peers c) ∧ NoDup (wp_PublicKey <$> cf_Peers c).
Proof.
  unfold Validate, Key_IsZero. case_bool_decide; [naive_solver|]. rewrite validate_peers_spec. split; [tauto|].
  intros (_ & Hf & Hnd). split_and!; try done. apply Forall_forall. set_solver.
Qed.

