(* ===== verification/Routes.v ===== *)
(** * The route reconciler

    [internal/netwin/route_reconciler.go]: the virtual address and the host
    routes that the overlay owns in the operating system, applied by a backend
    one at a time, with rollback.  Go ranges over a map in an order of its own;
    [range n] is the order of the [n]-th loop. *)

From S2P Require Import Prelude GoStd NetIP Wgnt.
From Stdlib Require Import Ascii.

Open Scope Z_scope.

Record Address := { na_IP : Addr; na_PrefixLength : Z; na_InterfaceLUID : Z }.
Record Route := { rt_Destination : Prefix; rt_InterfaceLUID : Z; rt_NextHop : Addr; rt_Metric : Z }.
#[global] Instance Address_eq_dec : EqDecision Address.
Proof. solve_decision. Defined.
#[global] Instance Route_eq_dec : EqDecision Route.
Proof. solve_decision. Defined.

(** The operations of the operating system: the boolean is [created]. *)
Class Backend (W : Type) := {
  be_EnsureAddress : Context → Address → M W bool;
  be_RemoveAddress : Context → Address → M W unit;
  be_EnsureRoute : Context → Route → M W bool;
  be_RemoveRoute : Context → Route → M W unit
}.

Definition validateAddress (a : Address) : option error :=
  if negb (Addr_IsValid (na_IP a)) || negb (Is4 (na_IP a)) || negb (na_PrefixLength a =? 32) || (na_InterfaceLUID a =? 0)
  then Some (EWrap ErrInvalidRoute) else None.

Definition validateRoute (r : Route) : option error :=
  if Prefix_IsValid (rt_Destination r) && (Prefix_Bits (rt_Destination r) =? 0) then Some (EWrap ErrDefaultRoute)
  else if negb (Prefix_IsValid (rt_Destination r)) || negb (Is4 (pf_Addr (rt_Destination r)))
          || negb (Prefix_Bits (rt_Destination r) =? 32) || (rt_InterfaceLUID r =? 0)
  then Some (EWrap ErrInvalidRoute)
  else if Addr_IsValid (rt_NextHop r) && negb (Is4 (rt_NextHop r)) then Some (EWrap ErrInvalidRoute)
  else None.

Definition routeKey (r : Route) : string :=
  let nextHop := if Addr_IsValid (rt_NextHop r) then Addr_String (rt_NextHop r) else "" in
  (Itoa (rt_InterfaceLUID r) +:+ "|" +:+ Prefix_String (rt_Destination r) +:+ "|" +:+ nextHop +:+ "|" +:+ Itoa (rt_Metric r))%string.

Record RouteReconciler := {
  rr_address : option Address;
  rr_addressOwned : bool;
  rr_ownedRoutes : gmap string Route
}.
Definition NewRouteReconciler : RouteReconciler :=
  {| rr_address := None; rr_addressOwned := false; rr_ownedRoutes := ∅ |}.

(** The routes by key, refused when one is invalid or repeated. *)
Fixpoint desired_routes (desired : gmap string Route) (routes : list Route) : result (gmap string Route) :=
  match routes with
  | [] => Ok desired
  | route :: routes =>
    match validateRoute route with
    | Some err => Err err
    | None =>
      let key := routeKey route in
      match desired !! key with
      | Some _ => Err (EWrap ErrInvalidRoute)
      | None => desired_routes (<[key := route]> desired) routes
      end
    end
  end.

Section Reconciler.
Context {W : Type} `{Backend W}.
Variable range : nat → gmap string Route → list (string * Route).
Variable ctx : Context.

(** Removes the owned routes that are not desired; what was removed, and the
    error that stopped the loop. *)
Fixpoint remove_loop (desired : gmap string Route) (l : list (string * Route)) (removed : gmap string Route) (w : W)
    : (gmap string Route * option error) * W :=
  match l with
  | [] => ((removed, None), w)
  | (key, route) :: l =>
    match desired !! key with
    | Some _ => remove_loop desired l removed w
    | None =>
      match be_RemoveRoute ctx route w with
      | (Err err, w') => ((removed, Some err), w')
      | (Ok _, w') => remove_loop desired l (<[key := route]> removed) w'
      end
    end
  end.

(** Ensures the desired routes that are not owned yet; those it created. *)
Fixpoint ensure_loop (previous : gmap string Route) (l : list (string * Route)) (added : gmap string Route) (w : W)
    : (gmap string Route * option error) * W :=
  match l with
  | [] => ((added, None), w)
  | (key, route) :: l =>
    match previous !! key with
    | Some _ => ensure_loop previous l added w
    | None =>
      match be_EnsureRoute ctx route w with
      | (Err err, w') => ((added, Some err), w')
      | (Ok created, w') => ensure_loop previous l (if created : bool then <[key := route]> added else added) w'
      end
    end
  end.

Fixpoint rollback_added (l : list (string * Route)) (err : option error) (w : W) : option error * W :=
  match l with
  | [] => (err, w)
  | (_, route) :: l => let '(r, w') := be_RemoveRoute ctx route w in rollback_added l (errors_Join err (error_of r)) w'
  end.
Fixpoint rollback_removed (l : list (string * Route)) (err : option error) (w : W) : option error * W :=
  match l with
  | [] => (err, w)
  | (_, route) :: l => let '(r, w') := be_EnsureRoute ctx route w in rollback_removed l (errors_Join err (error_of r)) w'
  end.

(** Its part on the addresses. *)
Definition rollback_address (previousAddress : option Address) (previousAddressOwned : bool) (newAddress : Address)
    (newAddressOwned : bool) (err : option error) (w : W) : option error * W :=
  let '(err, w) :=
    if newAddressOwned && negb (bool_decide (previousAddress = Some newAddress)) then
      let '(r, w') := be_RemoveAddress ctx newAddress w in (errors_Join err (error_of r), w')
    else (err, w) in
  match previousAddress with
  | Some previous =>
    if previousAddressOwned && (negb newAddressOwned || negb (bool_decide (previous = newAddress))) then
      let '(r, w') := be_EnsureAddress ctx previous w in (errors_Join err (error_of r), w')
    else (err, w)
  | None => (err, w)
  end.

(** The [rollbackError]. *)
Definition rollback (previousAddress : option Address) (previousAddressOwned : bool)
    (addedRoutes removedRoutes : gmap string Route) (newAddress : Address) (newAddressOwned : bool) (w : W)
    : option error * W :=
  let '(err, w) := rollback_added (range 2 addedRoutes) None w in
  let '(err, w) := rollback_removed (range 3 removedRoutes) err w in
  rollback_address previousAddress previousAddressOwned newAddress newAddressOwned err w.

(** An error that stopped the call and the error of the rollback after it; no
    rollback happens before the address is ensured. *)
Inductive reconciled :=
| Done
| Refused (err : error)
| RolledBack (original : error) (rollbackError : option error).

Definition reconcile_routes (address : Address) (routes : list Route) (rr : RouteReconciler) (w : W)
    : reconciled * (RouteReconciler * W) :=
  match validateAddress address with
  | Some err => (Refused err, (rr, w))
  | None =>
    match desired_routes ∅ routes with
    | Err err => (Refused err, (rr, w))
    | Ok desired =>
      match checkContext ctx with
      | Some err => (Refused err, (rr, w))
      | None =>
        let previousAddress := rr_address rr in
        let previousAddressOwned := rr_addressOwned rr in
        let previousRoutes := rr_ownedRoutes rr in
        let same := bool_decide (previousAddress = Some address) in
        let newAddressOwned := previousAddressOwned && same in
        let addressChanged := previousAddressOwned && bool_decide (is_Some previousAddress) && negb same in
        let '(ensured, w) :=
          if addressChanged || negb newAddressOwned then be_EnsureAddress ctx address w else (Ok newAddressOwned, w) in
        match ensured with
        | Err err => (Refused err, (rr, w))
        | Ok newAddressOwned =>
          let undo added removed err w :=
            let '(rollbackError, w') :=
              rollback previousAddress previousAddressOwned added removed address newAddressOwned w in
            (RolledBack err rollbackError, (rr, w')) in
          let '((removed, err), w) := remove_loop desired (range 0 previousRoutes) ∅ w in
          match err with
          | Some err => undo ∅ removed err w
          | None =>
            let '((added, err), w) := ensure_loop previousRoutes (range 1 desired) ∅ w in
            match err with
            | Some err => undo added removed err w
            | None =>
              let '(r, w) := match previousAddress with
                             | Some previous => if addressChanged then be_RemoveAddress ctx previous w else (Ok tt, w)
                             | None => (Ok tt, w)
                             end in
              match r with
              | Err err => undo added removed err w
              | Ok _ =>
                (Done, ({| rr_address := if newAddressOwned : bool then Some address else None;
                           rr_addressOwned := newAddressOwned;
                           rr_ownedRoutes := filter (λ x, is_Some (desired !! x.1)) previousRoutes ∪ added |}, w))
              end
            end
          end
        end
      end
    end
  end.

(** The error that the caller sees. *)
Definition reconciled_error (r : reconciled) : option error :=
  match r with
  | Done => None
  | Refused err => Some err
  | RolledBack err rollbackError => errors_Join (Some err) rollbackError
  end.
Definition Reconcile (address : Address) (routes : list Route) : M (RouteReconciler * W) unit :=
  λ s, let '(r, s') := reconcile_routes address routes s.1 s.2 in
       (match reconciled_error r with Some e => Err e | None => Ok tt end, s').

(** [Clear]: removes what is owned, keeps as owned what could not be removed. *)
Fixpoint clear_loop (l : list (string * Route)) (owned : gmap string Route) (joined : option error) (w : W)
    : (gmap string Route * option error) * W :=
  match l with
  | [] => ((owned, joined), w)
  | (key, route) :: l =>
    match be_RemoveRoute ctx route w with
    | (Err err, w') => clear_loop l owned (errors_Join joined (Some err)) w'
    | (Ok _, w') => clear_loop l (delete key owned) joined w'
    end
  end.

Definition Clear : M (RouteReconciler * W) unit := λ '(rr, w),
  match checkContext ctx with
  | Some err => (Err err, (rr, w))
  | None =>
    let '((owned, joined), w) := clear_loop (range 4 (rr_ownedRoutes rr)) (rr_ownedRoutes rr) None w in
    let '((address, addressOwned, joined), w) :=
      match rr_address rr with
      | Some a =>
        if rr_addressOwned rr then
          match be_RemoveAddress ctx a w with
          | (Err err, w') => ((Some a, true, errors_Join joined (Some err)), w')
          | (Ok _, w') => ((None, false, joined), w')
          end
        else ((Some a, false, joined), w)
      | None => ((None, rr_addressOwned rr, joined), w)
      end in
    (match joined with Some e => Err e | None => Ok tt end,
     ({| rr_address := address; rr_addressOwned := addressOwned; rr_ownedRoutes := owned |}, w))
  end.

End Reconciler.

(** ** Keys of routes *)

(** The fields are within their Go types. *)
Definition route_typed (r : Route) : Prop :=
  0 ≤ rt_InterfaceLUID r < 2^64 ∧ 0 ≤ rt_Metric r < 2^32 ∧
  (∀ v, pf_Addr (rt_Destination r) = Addr4 v → 0 ≤ v < 2^32) ∧ (∀ v, rt_NextHop r = Addr4 v → 0 ≤ v < 2^32).
Definition route_ok (r : Route) : Prop := validateRoute r = None ∧ route_typed r.

Lemma digits_plain c l : code c < 48 ∨ 57 < code c → Forall is_digit l → c ∉ l.
Proof. intros Hc Hl Hin. rewrite Forall_forall in Hl. specialize (Hl c Hin). unfold is_digit in Hl. lia. Qed.

Lemma validateRoute_shape r :
  validateRoute r = None →
  (∃ v, rt_Destination r = {| pf_Addr := Addr4 v; pf_bitsPlusOne := 33 |}) ∧ rt_InterfaceLUID r ≠ 0 ∧
  (rt_NextHop r = AddrZero ∨ ∃ v, rt_NextHop r = Addr4 v).
Proof.
  unfold validateRoute. case_match; [done|]. case_match eqn:E; [done|]. case_match eqn:E'; [done|]. intros _.
  rewrite !orb_false_iff, !negb_false_iff, Z.eqb_eq, Z.eqb_neq in E. destruct E as [[[_ E4] E32] El]. split_and!; [|done|].
  - destruct (rt_Destination r) as [[|v|v z] b]; try done. unfold Prefix_Bits in E32. simpl in *. exists v. f_equal. lia.
  - destruct (rt_NextHop r) as [|v|v z]; eauto. by destruct v.
Qed.

Definition next_hop_text (a : Addr) : string := if Addr_IsValid a then Addr_String a else "".

Lemma routeKey_split r :
  route_ok r →
  split_bytes "|"%char (bytes (routeKey r)) =
    [bytes (Itoa (rt_InterfaceLUID r)); bytes (Prefix_String (rt_Destination r));
     bytes (next_hop_text (rt_NextHop r)); bytes (Itoa (rt_Metric r))].
Proof.
  intros [Hv (_ & _ & Hd & Hn)]. destruct (validateRoute_shape r Hv) as ((v & Hdest) & _ & Hnext).
  assert (∀ z, "|"%char ∉ bytes (Itoa z)) as Hi by (intros z; apply digits_plain; [right; by vm_compute|apply Itoa_digits]).
  unfold routeKey. fold (next_hop_text (rt_NextHop r)). rewrite !bytes_app. change (bytes "|") with ["|"%char]. cbn [app].
  rewrite split_bytes_app by apply Hi. rewrite split_bytes_app.
  2: { rewrite Hdest. unfold Prefix_String. cbn [Prefix_IsValid pf_bitsPlusOne pf_Addr]. simpl negb. cbv iota.
       rewrite !bytes_app. change (bytes "/") with ["/"%char]. rewrite !elem_of_app. intros [Hin|[Hin|Hin]].
       - revert Hin. apply Addr_String_plain. apply Hd. by rewrite Hdest.
       - apply list_elem_of_singleton in Hin. discriminate Hin.
       - by apply Hi in Hin. }
  rewrite split_bytes_app.
  2: { unfold next_hop_text. destruct Hnext as [->|[w Hw]]; [by apply not_elem_of_nil|]. rewrite Hw.
       apply Addr_String_plain. by apply Hn. }
  by rewrite split_bytes_nosep by apply Hi.
Qed.

Lemma next_hop_inj a b :
  a = AddrZero ∨ (∃ v, a = Addr4 v) → b = AddrZero ∨ (∃ v, b = Addr4 v) →
  (∀ v, a = Addr4 v → 0 ≤ v < 2^32) → (∀ v, b = Addr4 v → 0 ≤ v < 2^32) →
  next_hop_text b = next_hop_text a → a = b.
Proof.
  intros [->|[v ->]] [->|[w ->]] Ha Hb; unfold next_hop_text; cbn [Addr_IsValid]; [done|..]; intros E.
  - by destruct (Addr_String_nonempty (Addr4 w) (Hb w eq_refl)).
  - by destruct (Addr_String_nonempty (Addr4 v) (Ha v eq_refl)).
  - symmetry. by apply Addr_String_inj; [apply Hb|apply Ha|].
Qed.

Lemma routeKey_inj r r' : route_ok r → route_ok r' → routeKey r = routeKey r' → r = r'.
Proof.
  intros Hr Hr' Hk. pose proof (routeKey_split r Hr) as Hs. rewrite Hk, (routeKey_split r' Hr') in Hs.
  destruct Hr as [Hv (Hl & Hm & Hd & Hn)], Hr' as [Hv' (Hl' & Hm' & Hd' & Hn')].
  destruct (validateRoute_shape r Hv) as ((v & Hdest) & _ & Hnext), (validateRoute_shape r' Hv') as ((v' & Hdest') & _ & Hnext').
  injection Hs as E1 E2 E3 E4. apply bytes_inj in E1, E2, E3, E4.
  apply Itoa_inj in E1, E4; try lia.
  assert (rt_Destination r = rt_Destination r') as E2'.
  { rewrite Hdest, Hdest' in *. f_equal. apply Addr_String_inj; [by apply Hd|by apply Hd'|].
    unfold Prefix_String in E2. cbn [Prefix_IsValid pf_bitsPlusOne pf_Addr] in E2. simpl negb in E2. cbv iota in E2.
    apply (f_equal bytes) in E2. rewrite !bytes_app in E2. apply bytes_inj. symmetry. exact (app_inv_tail _ _ _ E2). }
  assert (rt_NextHop r = rt_NextHop r') as E3' by (apply next_hop_inj; auto).
  destruct r, r'. cbn [rt_InterfaceLUID rt_Metric rt_Destination rt_NextHop] in E1, E4, E2', E3'. congruence.
Qed.
