(* ===== verification/RoutesThm.v ===== *)
(** * Properties of the route reconciler

    What the backend promises, as a class of laws, and what the reconciler
    makes of it: it touches nothing it does not own, it reaches what is asked,
    and a failure is undone. *)

From S2P Require Import Prelude GoStd NetIP Wgnt Routes.

Open Scope Z_scope.

(** The addresses and routes of the system. An operation that fails has done
    nothing; [created] tells whether the resource was absent. *)
Class BackendLaws (W : Type) `{Backend W} := {
  has_address : W → Address → Prop;
  has_route : W → Route → Prop;
  law_EnsureAddress ctx a w :
    match be_EnsureAddress ctx a w with
    | (Ok created, w') => (∀ b, has_address w' b ↔ has_address w b ∨ b = a) ∧ (∀ r, has_route w' r ↔ has_route w r) ∧
        (created = true ↔ ¬ has_address w a)
    | (Err _, w') => (∀ b, has_address w' b ↔ has_address w b) ∧ (∀ r, has_route w' r ↔ has_route w r)
    end;
  law_RemoveAddress ctx a w :
    match be_RemoveAddress ctx a w with
    | (Ok _, w') => (∀ b, has_address w' b ↔ has_address w b ∧ b ≠ a) ∧ (∀ r, has_route w' r ↔ has_route w r)
    | (Err _, w') => (∀ b, has_address w' b ↔ has_address w b) ∧ (∀ r, has_route w' r ↔ has_route w r)
    end;
  law_EnsureRoute ctx x w :
    match be_EnsureRoute ctx x w with
    | (Ok created, w') => (∀ r, has_route w' r ↔ has_route w r ∨ r = x) ∧ (∀ a, has_address w' a ↔ has_address w a) ∧
        (created = true ↔ ¬ has_route w x)
    | (Err _, w') => (∀ a, has_address w' a ↔ has_address w a) ∧ (∀ r, has_route w' r ↔ has_route w r)
    end;
  law_RemoveRoute ctx x w :
    match be_RemoveRoute ctx x w with
    | (Ok _, w') => (∀ r, has_route w' r ↔ has_route w r ∧ r ≠ x) ∧ (∀ a, has_address w' a ↔ has_address w a)
    | (Err _, w') => (∀ a, has_address w' a ↔ has_address w a) ∧ (∀ r, has_route w' r ↔ has_route w r)
    end;
  has_route_dec w r : has_route w r ∨ ¬ has_route w r;
  has_address_dec w a : has_address w a ∨ ¬ has_address w a
}.

(** ** Maps of routes by key *)
Definition keyed (m : gmap string Route) : Prop := ∀ k r, m !! k = Some r → k = routeKey r ∧ route_ok r.
Definition in_map (m : gmap string Route) (r : Route) : Prop := ∃ k, m !! k = Some r.

Lemma keyed_empty : keyed ∅.
Proof. intros k r. by rewrite lookup_empty. Qed.
Lemma in_map_empty r : ¬ in_map ∅ r.
Proof. intros [k Hk]. by rewrite lookup_empty in Hk. Qed.

Lemma keyed_insert m x : keyed m → route_ok x → keyed (<[routeKey x := x]> m).
Proof. intros Hm Hx k r. rewrite lookup_insert_Some. intros [[<- <-]|[_ ?]]; [done|by apply Hm]. Qed.

Lemma in_map_insert m x r : keyed m → route_ok x → in_map (<[routeKey x := x]> m) r ↔ r = x ∨ in_map m r.
Proof.
  intros Hm Hx. split.
  - intros [k Hk]. apply lookup_insert_Some in Hk as [[_ <-]|[_ Hk]]; [by left|right; by exists k].
  - intros [->|[k Hk]]; [exists (routeKey x); apply lookup_insert_eq|].
    destruct (decide (k = routeKey x)) as [->|Hne].
    + destruct (Hm _ _ Hk) as [Hkey Hr]. exists (routeKey x). rewrite lookup_insert_eq. f_equal.
      by apply routeKey_inj.
    + exists k. by rewrite lookup_insert_ne.
Qed.

Lemma in_map_key m r : keyed m → in_map m r ↔ m !! routeKey r = Some r.
Proof. intros Hm. split; [|by eexists]. intros [k Hk]. by destruct (Hm _ _ Hk) as [-> _]. Qed.

Lemma in_map_None m r : keyed m → route_ok r → m !! routeKey r = None ↔ ¬ in_map m r.
Proof.
  intros Hm Hr. rewrite in_map_key by done. split; [by intros ->|]. intros Hn.
  destruct (m !! routeKey r) as [y|] eqn:E; [|done]. destruct Hn. destruct (Hm _ _ E) as [Hk Hy].
  f_equal. symmetry. by apply routeKey_inj.
Qed.

Lemma in_map_ok m r : keyed m → in_map m r → route_ok r.
Proof. intros Hm [k Hk]. by destruct (Hm _ _ Hk). Qed.

Lemma in_map_dec m r : keyed m → in_map m r ∨ ¬ in_map m r.
Proof. intros Hm. rewrite in_map_key by done. destruct (decide (m !! routeKey r = Some r)); auto. Qed.

Lemma desired_routes_spec routes m d :
  keyed m → Forall route_typed routes → desired_routes m routes = Ok d →
  keyed d ∧ (∀ r, in_map d r ↔ r ∈ routes ∨ in_map m r).
Proof.
  revert m. induction routes as [|x routes IH]; intros m Hm Ht; simpl.
  { intros [= <-]. split; [done|]. intros r. split; [auto|]. by intros [?%not_elem_of_nil|?]. }
  apply Forall_cons in Ht as [Hx Ht]. destruct (validateRoute x) eqn:Ev; [done|].
  destruct (m !! routeKey x); [done|]. intros Hd. assert (route_ok x) as Hok by done.
  apply IH in Hd as [Hk Hin]; [|by apply keyed_insert|done]. split; [done|]. intros r.
  rewrite Hin, in_map_insert, elem_of_cons by done. tauto.
Qed.

(** An order of iteration visits each entry. *)
Definition range_ok (range : nat → gmap string Route → list (string * Route)) : Prop :=
  ∀ n m, range n m ≡ₚ map_to_list m.

Lemma range_elem range n m k r : range_ok range → (k, r) ∈ range n m ↔ m !! k = Some r.
Proof. intros Hr. rewrite (Hr n m). apply elem_of_map_to_list. Qed.

Section Loops.
Context {W : Type} `{BackendLaws W}.
Variable ctx : Context.

(** The same system, as far as addresses and routes go. *)
Definition same_os (w w' : W) : Prop :=
  (∀ a, has_address w' a ↔ has_address w a) ∧ (∀ r, has_route w' r ↔ has_route w r).

(** Every entry of a list is keyed and valid. *)
Definition listed (l : list (string * Route)) : Prop := ∀ k r, (k, r) ∈ l → k = routeKey r ∧ route_ok r.

Lemma listed_cons k r l : listed ((k, r) :: l) → k = routeKey r ∧ route_ok r ∧ listed l.
Proof. intros Hl. destruct (Hl k r) as [? ?]; [by left|]. split_and!; [done..|]. intros ? ? ?. apply Hl. by right. Qed.

(** The routes of [w0] without those that were removed. *)
Lemma remove_loop_spec w0 desired l removed w :
  listed l → keyed removed → (∀ r, has_route w r ↔ has_route w0 r ∧ ¬ in_map removed r) →
  let '((removed', err), w') := remove_loop ctx desired l removed w in
  keyed removed' ∧ (∀ r, has_route w' r ↔ has_route w0 r ∧ ¬ in_map removed' r) ∧
  (∀ a, has_address w' a ↔ has_address w a) ∧
  (∀ r, in_map removed' r → in_map removed r ∨ ∃ k, (k, r) ∈ l ∧ desired !! k = None) ∧
  (err = None → ∀ k r, (k, r) ∈ l → desired !! k = None → in_map removed' r) ∧
  (∀ r, in_map removed r → in_map removed' r).
Proof.
  revert removed w. induction l as [|[k x] l IH]; intros removed w Hl Hk Hw; cbn [remove_loop].
  { split_and!; try done; auto. intros _ k r Hin. by apply not_elem_of_nil in Hin. }
  apply listed_cons in Hl as (-> & Hx & Hl). destruct (desired !! routeKey x) as [y|] eqn:Ed.
  - specialize (IH removed w Hl Hk Hw). destruct (remove_loop _ _ _ _ _) as [[removed' err] w'].
    destruct IH as (? & ? & ? & Hsub & Hall & ?). split_and!; try done.
    + intros r Hr. destruct (Hsub r Hr) as [?|(k & ? & ?)]; [by left|right]. exists k. split; [by right|done].
    + intros Herr k r Hin Hd. apply elem_of_cons in Hin as [Heq|Hin]; [|by eapply Hall]. injection Heq as -> ->. congruence.
  - pose proof (law_RemoveRoute ctx x w) as Hlaw. destruct (be_RemoveRoute ctx x w) as [[u|e] w1].
    2: { destruct Hlaw as [Ha Hr]. split_and!; try done; auto. intros r. by rewrite Hr. }
    destruct Hlaw as [Hr Ha].
    assert (∀ r, has_route w1 r ↔ has_route w0 r ∧ ¬ in_map (<[routeKey x := x]> removed) r) as Hw1.
    { intros r. rewrite Hr, Hw, in_map_insert by done. tauto. }
    specialize (IH _ w1 Hl (keyed_insert _ _ Hk Hx) Hw1). destruct (remove_loop _ _ _ _ _) as [[removed' err] w'].
    destruct IH as (? & ? & Ha' & Hsub & Hall & Hmono). split_and!; try done.
    + intros a. by rewrite Ha'.
    + intros r Hin. destruct (Hsub r Hin) as [Hi|(k & ? & ?)].
      * apply in_map_insert in Hi as [->|Hi]; [|by left|done..]. right. exists (routeKey x). split; [by left|done].
      * right. exists k. split; [by right|done].
    + intros Herr k r Hin Hd. apply elem_of_cons in Hin as [Heq|Hin]; [|by eapply Hall]. injection Heq as -> ->.
      apply Hmono, in_map_insert; auto.
    + intros r Hin. apply Hmono, in_map_insert; auto.
Qed.

(** The routes of [w0] and those that were created. *)
Lemma ensure_loop_spec w0 previous l added w :
  listed l → keyed added → (∀ r, has_route w r ↔ has_route w0 r ∨ in_map added r) → (∀ r, in_map added r → ¬ has_route w0 r) →
  let '((added', err), w') := ensure_loop ctx previous l added w in
  keyed added' ∧ (∀ r, has_route w' r ↔ has_route w0 r ∨ in_map added' r) ∧
  (∀ a, has_address w' a ↔ has_address w a) ∧ (∀ r, in_map added' r → ¬ has_route w0 r) ∧
  (∀ r, in_map added' r → in_map added r ∨ ∃ k, (k, r) ∈ l ∧ previous !! k = None) ∧
  (err = None → ∀ k r, (k, r) ∈ l → previous !! k = None → has_route w' r) ∧
  (∀ r, in_map added r → in_map added' r).
Proof.
  revert added w. induction l as [|[k x] l IH]; intros added w Hl Hk Hw Hnew; cbn [ensure_loop].
  { split_and!; try done; auto. intros _ k r Hin. by apply not_elem_of_nil in Hin. }
  apply listed_cons in Hl as (-> & Hx & Hl). destruct (previous !! routeKey x) as [y|] eqn:Ed.
  - specialize (IH added w Hl Hk Hw Hnew). destruct (ensure_loop _ _ _ _ _) as [[added' err] w'].
    destruct IH as (? & ? & ? & ? & Hsub & Hall & ?). split_and!; try done.
    + intros r Hr. destruct (Hsub r Hr) as [?|(k & ? & ?)]; [by left|right]. exists k. split; [by right|done].
    + intros Herr k r Hin Hd. apply elem_of_cons in Hin as [Heq|Hin]; [|by eapply Hall]. injection Heq as -> ->. congruence.
  - pose proof (law_EnsureRoute ctx x w) as Hlaw. destruct (be_EnsureRoute ctx x w) as [[created|e] w1].
    2: { destruct Hlaw as [Ha Hr]. split_and!; try done; auto. intros r. by rewrite Hr. }
    destruct Hlaw as (Hr & Ha & Hc). set (added1 := if created then <[routeKey x := x]> added else added).
    assert (keyed added1) as Hk1 by (subst added1; destruct created; [by apply keyed_insert|done]).
    assert (∀ r, in_map added1 r ↔ in_map added r ∨ created = true ∧ r = x) as Hin1.
    { intros r. subst added1. destruct created; [rewrite in_map_insert by done; tauto|]. split; [auto|]. by intros [?|[? _]]. }
    assert (∀ r, has_route w1 r ↔ has_route w0 r ∨ in_map added1 r) as Hw1.
    { intros r. rewrite Hr, Hw, Hin1. split; [|naive_solver]. intros [[?|?]| ->]; [tauto..|].
      destruct (has_route_dec w x) as [Hh|Hh]; [apply Hw in Hh; tauto|]. apply Hc in Hh. tauto. }
    assert (∀ r, in_map added1 r → ¬ has_route w0 r) as Hnew1.
    { intros r [Hi|[Ht ->]]%Hin1; [by apply Hnew|]. apply Hc in Ht. intros Hh. apply Ht, Hw. by left. }
    specialize (IH added1 w1 Hl Hk1 Hw1 Hnew1). fold added1. destruct (ensure_loop _ _ _ _ _) as [[added' err] w'].
    destruct IH as (? & Hw' & Ha' & ? & Hsub & Hall & Hmono). split_and!; try done.
    + intros a. by rewrite Ha'.
    + intros r Hi. destruct (Hsub r Hi) as [[?|[_ ->]]%Hin1|(k & ? & ?)]; [by left|right..].
      * exists (routeKey x). split; [by left|done].
      * exists k. split; [by right|done].
    + intros Herr k r Hi Hd. apply elem_of_cons in Hi as [Heq|Hi]; [|by eapply Hall]. injection Heq as -> ->.
      apply Hw'. assert (has_route w1 x) as [?|?]%Hw1 by (apply Hr; by right); auto.
    + intros r Hi. apply Hmono, Hin1. by left.
Qed.

(** The two loops of the rollback, with and without errors. *)
Lemma rollback_added_spec l err w :
  let '(err', w') := rollback_added ctx l err w in
  (∀ a, has_address w' a ↔ has_address w a) ∧ (∀ r, has_route w r → r ∉ l.*2 → has_route w' r) ∧
  (err' = None → err = None ∧ ∀ r, has_route w' r ↔ has_route w r ∧ r ∉ l.*2).
Proof.
  revert err w. induction l as [|[k x] l IH]; intros err w; simpl.
  { split_and!; try done. intros ->. split; [done|]. intros r. split; [|tauto]. intros ?. split; [done|]. by apply not_elem_of_nil. }
  pose proof (law_RemoveRoute ctx x w) as Hlaw. destruct (be_RemoveRoute ctx x w) as [o w1].
  specialize (IH (errors_Join err (error_of o)) w1). destruct (rollback_added _ _ _ _) as [err' w'].
  destruct IH as (Ha' & Hkeep & Hnone). setoid_rewrite not_elem_of_cons.
  destruct o as [u|e]; [destruct Hlaw as [Hr Ha]|destruct Hlaw as [Ha Hr]]; split_and!.
  - intros a. by rewrite Ha'.
  - intros r Hw [Hne Hl]. apply Hkeep; [|done]. by apply Hr.
  - intros [Hj Hall]%Hnone. apply errors_Join_None in Hj as [-> _]. split; [done|]. intros r. rewrite Hall, Hr. tauto.
  - intros a. by rewrite Ha'.
  - intros r Hw [Hne Hl]. apply Hkeep; [|done]. by apply Hr.
  - intros [Hj _]%Hnone. by apply errors_Join_None in Hj as [_ ?].
Qed.

Lemma rollback_removed_spec l err w :
  let '(err', w') := rollback_removed ctx l err w in
  (∀ a, has_address w' a ↔ has_address w a) ∧ (∀ r, has_route w r → has_route w' r) ∧
  (err' = None → err = None ∧ ∀ r, has_route w' r ↔ has_route w r ∨ r ∈ l.*2).
Proof.
  revert err w. induction l as [|[k x] l IH]; intros err w; simpl.
  { split_and!; try done. intros ->. split; [done|]. intros r. split; [tauto|]. by intros [?|?%not_elem_of_nil]. }
  pose proof (law_EnsureRoute ctx x w) as Hlaw. destruct (be_EnsureRoute ctx x w) as [o w1].
  specialize (IH (errors_Join err (error_of o)) w1). destruct (rollback_removed _ _ _ _) as [err' w'].
  destruct IH as (Ha' & Hkeep & Hnone). setoid_rewrite elem_of_cons.
  destruct o as [u|e]; [destruct Hlaw as (Hr & Ha & _)|destruct Hlaw as [Ha Hr]]; split_and!.
  - intros a. by rewrite Ha'.
  - intros r Hw. apply Hkeep, Hr. by left.
  - intros [Hj Hall]%Hnone. apply errors_Join_None in Hj as [-> _]. split; [done|]. intros r. rewrite Hall, Hr. tauto.
  - intros a. by rewrite Ha'.
  - intros r Hw. by apply Hkeep, Hr.
  - intros [Hj _]%Hnone. by apply errors_Join_None in Hj as [_ ?].
Qed.

End Loops.

Lemma range_snd range n m r : range_ok range → r ∈ (range n m).*2 ↔ in_map m r.
Proof.
  intros Hr. rewrite list_elem_of_fmap. split.
  - intros ([k x] & -> & Hin). exists k. by apply (range_elem range n).
  - intros [k Hk]. exists (k, r). split; [done|]. by apply range_elem.
Qed.
Lemma range_listed range n m : range_ok range → keyed m → listed (range n m).
Proof. intros Hr Hm k r Hin. by apply Hm, (range_elem range n). Qed.

Section Undo.
Context {W : Type} `{BackendLaws W}.
Variables (range : nat → gmap string Route → list (string * Route)) (ctx : Context).
Hypothesis Hrange : range_ok range.

(** The address the rollback gives up. *)
Definition given_up (previous : option Address) (owned : bool) (address a : Address) : Prop :=
  owned = true ∧ previous ≠ Some address ∧ a = address.

Lemma rollback_address_spec previous previousOwned address owned err w :
  let '(err', w') := rollback_address ctx previous previousOwned address owned err w in
  (∀ r, has_route w' r ↔ has_route w r) ∧
  (∀ a, has_address w a → ¬ given_up previous owned address a → has_address w' a) ∧
  (err' = None → err = None ∧ ∀ a, has_address w' a ↔
     has_address w a ∧ ¬ given_up previous owned address a ∨
     previousOwned = true ∧ previous = Some a ∧ (owned = false ∨ a ≠ address)).
Proof.
  unfold rollback_address, given_up.
  match goal with |- let '(_, _) := (let '(_, _) := ?x in _) in _ => assert (let '(e1, w1) := x in
    (∀ r, has_route w1 r ↔ has_route w r) ∧
    (∀ a, has_address w a → ¬ given_up previous owned address a → has_address w1 a) ∧
    (e1 = None → err = None ∧ ∀ a, has_address w1 a ↔ has_address w a ∧ ¬ given_up previous owned address a)) as H1;
    [|destruct x as [e1 w1]; destruct H1 as (Hr1 & Hk1 & Hn1)] end.
  { unfold given_up. destruct owned; simpl; [|split_and!; [done|auto|]; intros ->; split; [done|]; naive_solver].
    case_bool_decide as Hp; simpl; [split_and!; [done|auto|]; intros ->; split; [done|]; naive_solver|].
    pose proof (law_RemoveAddress ctx address w) as Hlaw. destruct (be_RemoveAddress ctx address w) as [[u|e] w'].
    - destruct Hlaw as [Ha Hr]. split_and!; [done| |].
      + intros a Hw Hne. apply Ha. split; [done|]. intros ->. by apply Hne.
      + intros [-> _]%errors_Join_None. split; [done|]. intros a. rewrite Ha. naive_solver.
    - destruct Hlaw as [Ha Hr]. split_and!; [done| |].
      + intros a Hw _. by apply Ha.
      + intros [_ ?]%errors_Join_None. done. }
  destruct previous as [prev|]; [|split_and!; auto; intros ->; destruct (Hn1 eq_refl) as [-> Ha]; split; [done|];
    intros a; rewrite Ha; naive_solver].
  destruct (previousOwned && _) eqn:Eb.
  - apply andb_true_iff in Eb as [-> Eb].
    assert (owned = false ∨ prev ≠ address) as Hb
      by (apply orb_true_iff in Eb as [?%negb_true_iff|?%negb_true_iff%bool_decide_eq_false]; auto).
    pose proof (law_EnsureAddress ctx prev w1) as Hlaw. destruct (be_EnsureAddress ctx prev w1) as [[u|e] w'].
    + destruct Hlaw as (Ha & Hr & _). split_and!.
      * intros r. by rewrite Hr.
      * intros a Hw Hg. apply Ha. left. auto.
      * intros [Hj _]%errors_Join_None. destruct (Hn1 Hj) as [-> Ha1]. split; [done|]. intros a. rewrite Ha, Ha1.
        unfold given_up. naive_solver.
    + destruct Hlaw as (Ha & Hr). split_and!.
      * intros r. by rewrite Hr.
      * intros a Hw Hg. apply Ha. auto.
      * by intros [_ ?]%errors_Join_None.
  - split_and!; auto. intros He. destruct (Hn1 He) as [-> Ha1]. split; [done|]. intros a. rewrite Ha1. unfold given_up.
    split; [auto|]. intros [?|(-> & [= ->] & Hb)]; [done|]. simpl in Eb. apply orb_false_iff in Eb as [E1 E2].
    rewrite negb_false_iff in E1, E2. apply bool_decide_eq_true in E2. destruct Hb; congruence.
Qed.

(** Undoing the steps since [w0]. *)
Lemma rollback_keeps previous previousOwned address owned w0 w removed added :
  (∀ r, has_route w r ↔ has_route w0 r ∧ ¬ in_map removed r ∨ in_map added r) → (∀ r, in_map added r → ¬ has_route w0 r) →
  (∀ a, has_address w0 a → has_address w a) → (given_up previous owned address address → ¬ has_address w0 address) →
  let '(err, w') := rollback range ctx previous previousOwned added removed address owned w in
  (∀ r, has_route w0 r → ¬ in_map removed r → has_route w' r) ∧ (∀ a, has_address w0 a → has_address w' a).
Proof.
  intros Hroutes Hadded Haddr Hgiven. unfold rollback.
  pose proof (rollback_added_spec ctx (range 2 added) None w) as H1.
  destruct (rollback_added _ _ _ _) as [e1 w1]. destruct H1 as (Ha1 & Hk1 & _).
  pose proof (rollback_removed_spec ctx (range 3 removed) e1 w1) as H2.
  destruct (rollback_removed _ _ _ _) as [e2 w2]. destruct H2 as (Ha2 & Hk2 & _).
  pose proof (rollback_address_spec previous previousOwned address owned e2 w2) as H3.
  destruct (rollback_address _ _ _ _ _ _ _) as [e3 w3]. destruct H3 as (Hr3 & Hk3 & _). split.
  - intros r Hr Hn. apply Hr3, Hk2, Hk1; [apply Hroutes; auto|]. rewrite range_snd by done. intros Hi. by apply (Hadded r).
  - intros a Hw. apply Hk3; [by apply Ha2, Ha1, Haddr|]. intros Hg. pose proof Hg as (? & ? & ->). by apply Hgiven.
Qed.

Lemma rollback_restores previous previousOwned address owned w0 w removed added w' :
  keyed removed →
  (∀ r, has_route w r ↔ has_route w0 r ∧ ¬ in_map removed r ∨ in_map added r) → (∀ r, in_map added r → ¬ has_route w0 r) →
  (∀ r, in_map removed r → has_route w0 r) → (∀ a, has_address w a ↔ has_address w0 a ∨ a = address) →
  (given_up previous owned address address ↔ ¬ has_address w0 address) →
  (previousOwned = true → ∀ a, previous = Some a → has_address w0 a) →
  rollback range ctx previous previousOwned added removed address owned w = (None, w') → same_os w0 w'.
Proof.
  intros Hkeyed Hroutes Hadded Hremoved Haddr Hgiven Hprev. unfold rollback.
  pose proof (rollback_added_spec ctx (range 2 added) None w) as H1.
  destruct (rollback_added _ _ _ _) as [e1 w1]. destruct H1 as (Ha1 & _ & Hn1).
  pose proof (rollback_removed_spec ctx (range 3 removed) e1 w1) as H2.
  destruct (rollback_removed _ _ _ _) as [e2 w2]. destruct H2 as (Ha2 & _ & Hn2).
  pose proof (rollback_address_spec previous previousOwned address owned e2 w2) as H3.
  destruct (rollback_address _ _ _ _ _ _ _) as [e3 w3]. destruct H3 as (Hr3 & _ & Hn3). intros [= -> ->].
  destruct (Hn3 eq_refl) as [-> Ha3], (Hn2 eq_refl) as [-> Hr2], (Hn1 eq_refl) as [_ Hr1]. split.
  - intros a. rewrite Ha3, Ha2, Ha1, Haddr. unfold given_up in *. split.
    + intros [[[?| ->] Hn]|(Ho & Hp & _)]; [done| |by apply Hprev].
      destruct (has_address_dec w0 address) as [?|Hno]; [done|]. apply Hgiven in Hno. naive_solver.
    + intros Hw. left. split; [auto|]. intros (Ho & Hp & ->). exact (proj1 Hgiven (conj Ho (conj Hp eq_refl)) Hw).
  - intros r. rewrite Hr3, Hr2, Hr1, Hroutes, !range_snd by done. split.
    + intros [[[[? _]|?] ?]|?]; [done|done|auto].
    + intros Hw. destruct (in_map_dec removed r Hkeyed) as [?|Hn]; [by right|]. left. split; [by left|].
      intros Hi. by apply (Hadded r).
Qed.

End Undo.

(** ** A call of [Reconcile] *)

(** The reconciler's records: routes under their keys, an address exactly when
    it is owned; and all of it present in the system. *)
Record rr_keyed (rr : RouteReconciler) : Prop := {
  rk_routes : keyed (rr_ownedRoutes rr);
  rk_address : rr_addressOwned rr = bool_decide (is_Some (rr_address rr))
}.
Definition rr_present {W} `{BackendLaws W} (rr : RouteReconciler) (w : W) : Prop :=
  (∀ r, in_map (rr_ownedRoutes rr) r → has_route w r) ∧ (∀ a, rr_address rr = Some a → has_address w a).

Section Call.
Context {W : Type} `{BackendLaws W}.
Variables (range : nat → gmap string Route → list (string * Route)) (ctx : Context).
Hypothesis Hrange : range_ok range.
Variables (address : Address) (routes : list Route) (rr : RouteReconciler) (w : W).
Hypothesis Hkeyed : rr_keyed rr.
Hypothesis Htyped : Forall route_typed routes.

(** Where a call stands before its last step: [created] the address, [removed]
    and [added] routes since [w]. *)
Record steps (desired : gmap string Route) (created : bool) (removed added : gmap string Route) (w1 : W) : Prop := {
  sp_desired : keyed desired ∧ ∀ r, in_map desired r ↔ r ∈ routes;
  sp_routes : ∀ r, has_route w1 r ↔ has_route w r ∧ ¬ in_map removed r ∨ in_map added r;
  sp_removed : keyed removed ∧ ∀ r, in_map removed r → in_map (rr_ownedRoutes rr) r ∧ r ∉ routes;
  sp_added : keyed added ∧ ∀ r, in_map added r → ¬ has_route w r ∧ r ∈ routes ∧ ¬ in_map (rr_ownedRoutes rr) r;
  sp_addresses : ∀ a, has_address w a → has_address w1 a;
  sp_given : given_up (rr_address rr) created address address → ¬ has_address w address;
  sp_created : created = true ↔ rr_address rr = Some address ∨ ¬ has_address w address;
  sp_present : rr_present rr w → (∀ a, has_address w1 a ↔ has_address w a ∨ a = address) ∧
    (¬ has_address w address → given_up (rr_address rr) created address address)
}.

(** The first step. *)
Lemma address_step created w1 :
  (let same := bool_decide (rr_address rr = Some address) in
   let newOwned := rr_addressOwned rr && same in
   let changed := rr_addressOwned rr && bool_decide (is_Some (rr_address rr)) && negb same in
   if changed || negb newOwned then be_EnsureAddress ctx address w else (Ok newOwned, w)) = (Ok created, w1) →
  (∀ a, has_address w a → has_address w1 a) ∧ (∀ r, has_route w1 r ↔ has_route w r) ∧
  (given_up (rr_address rr) created address address → ¬ has_address w address) ∧
  (created = true ↔ rr_address rr = Some address ∨ ¬ has_address w address) ∧
  (rr_present rr w → (∀ a, has_address w1 a ↔ has_address w a ∨ a = address) ∧
    (¬ has_address w address → given_up (rr_address rr) created address address)).
Proof.
  cbv zeta. rewrite (rk_address _ Hkeyed). destruct (decide (rr_address rr = Some address)) as [Hsame|Hsame].
  - rewrite (bool_decide_eq_true_2 _ Hsame), (bool_decide_eq_true_2 (is_Some _)) by (by rewrite Hsame). simpl.
    intros [= <- <-]. unfold given_up.
    split_and!; try done; try tauto. intros [_ Hp]. specialize (Hp address Hsame). split; [|tauto].
    intros a. split; [tauto|]. by intros [?| ->].
  - rewrite (bool_decide_eq_false_2 _ Hsame), andb_false_r, orb_true_r. intros He. pose proof (law_EnsureAddress ctx address w) as Hlaw.
    rewrite He in Hlaw. destruct Hlaw as (Ha & Hr & Hc). unfold given_up. split_and!; try done.
    + intros a Hw. apply Ha. by left.
    + intros (? & _). by apply Hc.
    + rewrite Hc. split; [by right|]. by intros [?|?].
    + intros _. split; [done|]. intros Hn. split_and!; [by apply Hc|done..].
Qed.

(** The removals and insertions. *)
Lemma steps_loops desired created w1 removed err w2 :
  keyed desired → (∀ r, in_map desired r ↔ r ∈ routes) →
  (∀ a, has_address w a → has_address w1 a) → (∀ r, has_route w1 r ↔ has_route w r) →
  (given_up (rr_address rr) created address address → ¬ has_address w address) →
  (created = true ↔ rr_address rr = Some address ∨ ¬ has_address w address) →
  (rr_present rr w → (∀ a, has_address w1 a ↔ has_address w a ∨ a = address) ∧
    (¬ has_address w address → given_up (rr_address rr) created address address)) →
  remove_loop ctx desired (range 0 (rr_ownedRoutes rr)) ∅ w1 = ((removed, err), w2) →
  steps desired created removed ∅ w2 ∧
  (err = None →
    (∀ r, in_map (rr_ownedRoutes rr) r → r ∉ routes → in_map removed r) ∧
    let '((added, err), w3) := ensure_loop ctx (rr_ownedRoutes rr) (range 1 desired) ∅ w2 in
    steps desired created removed added w3 ∧
    (err = None → ∀ r, r ∈ routes → ¬ in_map (rr_ownedRoutes rr) r → has_route w3 r)).
Proof.
  intros Hd Hdin Haddr Hroutes Hgiven Hcreated Hpresent Hrem.
  pose proof (rk_routes _ Hkeyed) as Hown.
  pose proof (remove_loop_spec ctx w desired (range 0 (rr_ownedRoutes rr)) ∅ w1 (range_listed _ _ _ Hrange Hown) keyed_empty) as H1.
  rewrite Hrem in H1. destruct H1 as (Hk & Hr & Ha & Hsub & Hall & _).
  { intros r. rewrite Hroutes. split; [|tauto]. intros ?. split; [done|apply in_map_empty]. }
  assert (∀ r, in_map removed r → in_map (rr_ownedRoutes rr) r ∧ r ∉ routes) as Hremoved.
  { intros r Hin. destruct (Hsub r Hin) as [[]%in_map_empty|(k & Hl & Hnone)]. rewrite range_elem in Hl by done.
    destruct (Hown _ _ Hl) as [-> Hok]. split; [by eexists|]. rewrite <- Hdin. by apply in_map_None in Hnone. }
  split.
  { constructor; try done.
    - intros r. rewrite Hr. split; [tauto|]. by intros [?|?%in_map_empty].
    - split; [apply keyed_empty|]. by intros r ?%in_map_empty.
    - intros a ?. by apply Ha, Haddr.
    - intros [Hp ?]%Hpresent. split; [|done]. intros a. by rewrite Ha, Hp. }
  intros ->. split.
  { intros r [k Hin] Hn. destruct (Hown _ _ Hin) as [-> Hok]. eapply (Hall eq_refl); [by apply range_elem|].
    apply in_map_None; [done..|]. by rewrite Hdin. }
  pose proof (ensure_loop_spec ctx w2 (rr_ownedRoutes rr) (range 1 desired) ∅ w2 (range_listed _ _ _ Hrange Hd) keyed_empty) as H2.
  destruct (ensure_loop _ _ _ _ _) as [[added err] w3]. destruct H2 as (Hk2 & Hr2 & Ha2 & Hnew & Hsub2 & Hall2 & _).
  { intros r. split; [auto|]. by intros [?|?%in_map_empty]. } { by intros r ?%in_map_empty. }
  assert (∀ r, in_map added r → r ∈ routes ∧ ¬ in_map (rr_ownedRoutes rr) r) as Hadded.
  { intros r Hin. destruct (Hsub2 r Hin) as [[]%in_map_empty|(k & Hl & Hnone)]. rewrite range_elem in Hl by done.
    destruct (Hd _ _ Hl) as [-> Hok]. split; [apply Hdin; by eexists|]. by apply in_map_None in Hnone. }
  split.
  - constructor; try done.
    + intros r. by rewrite Hr2, Hr.
    + split; [done|]. intros r Hin. destruct (Hadded r Hin) as [? ?]. split_and!; try done. intros Hw.
      apply (Hnew r Hin), Hr. split; [done|]. intros [? ?]%Hremoved. done.
    + intros a ?. by apply Ha2, Ha, Haddr.
    + intros [Hp ?]%Hpresent. split; [|done]. intros a. by rewrite Ha2, Ha, Hp.
  - intros He r Hin Hn. apply Hdin in Hin as [k Hin]. destruct (Hd _ _ Hin) as [-> Hok].
    eapply (Hall2 He); [by apply range_elem|]. by apply in_map_None.
Qed.

Lemma steps_same desired created removed added w1 w2 :
  steps desired created removed added w1 → same_os w1 w2 → steps desired created removed added w2.
Proof.
  intros [] [Ha Hr]. constructor; try done.
  - intros r. by rewrite Hr.
  - intros a ?. apply Ha. auto.
  - intros [Hp ?]%sp_present0. split; [|done]. intros a. by rewrite Ha.
Qed.

(** The last step: the address that was owned, if it is another one, goes. *)
Lemma last_step w3 o w4 :
  (match rr_address rr with
   | Some previous =>
     if rr_addressOwned rr && bool_decide (is_Some (rr_address rr)) && negb (bool_decide (rr_address rr = Some address))
     then be_RemoveAddress ctx previous w3 else (Ok tt, w3)
   | None => (Ok tt, w3)
   end) = (o, w4) →
  match o with
  | Ok _ => (∀ r, has_route w4 r ↔ has_route w3 r) ∧
      (∀ a, has_address w4 a ↔ has_address w3 a ∧ (rr_address rr = Some a → a = address))
  | Err _ => same_os w3 w4
  end.
Proof.
  rewrite (rk_address _ Hkeyed). destruct (rr_address rr) as [previous|] eqn:Ep; [|intros [= <- <-]; split; [done|]; intros a; split; [by intros|tauto]].
  rewrite bool_decide_eq_true_2 by done. case_bool_decide as Hs; simpl.
  - injection Hs as ->. intros [= <- <-]. split; [done|]. intros a. split; [|tauto]. intros ?. split; [done|]. by intros [= ->].
  - pose proof (law_RemoveAddress ctx previous w3) as Hlaw. intros He. rewrite He in Hlaw. destruct o as [u|e].
    + destruct Hlaw as [Ha Hr]. split; [done|]. intros a. rewrite Ha. split.
      * intros [? Hne]. split; [done|]. intros [= <-]. done.
      * intros [? Hne]. split; [done|]. intros ->. destruct Hs. by rewrite Hne.
    + by destruct Hlaw.
Qed.

(** How a call ends. *)
Lemma reconcile_cases :
  let '(o, (rr', w')) := reconcile_routes range ctx address routes rr w in
  match o with
  | Refused _ => rr' = rr ∧ same_os w w'
  | RolledBack _ rollbackError => rr' = rr ∧ ∃ desired created removed added w1, steps desired created removed added w1 ∧
      rollback range ctx (rr_address rr) (rr_addressOwned rr) added removed address created w1 = (rollbackError, w')
  | Done => ∃ desired created removed added w1, steps desired created removed added w1 ∧
      (∀ r, in_map (rr_ownedRoutes rr) r → r ∉ routes → in_map removed r) ∧
      (∀ r, r ∈ routes → ¬ in_map (rr_ownedRoutes rr) r → has_route w1 r) ∧
      (∀ r, has_route w' r ↔ has_route w1 r) ∧
      (∀ a, has_address w' a ↔ has_address w1 a ∧ (rr_address rr = Some a → a = address)) ∧
      rr' = {| rr_address := if created then Some address else None; rr_addressOwned := created;
               rr_ownedRoutes := filter (λ x, is_Some (desired !! x.1)) (rr_ownedRoutes rr) ∪ added |}
  end.
Proof.
  unfold reconcile_routes. destruct (validateAddress address); [done|].
  destruct (desired_routes ∅ routes) as [desired|] eqn:Ed; [|done].
  destruct (desired_routes_spec _ _ _ keyed_empty Htyped Ed) as [Hd Hdin].
  assert (∀ r, in_map desired r ↔ r ∈ routes) as Hdin' by (intros r; rewrite Hdin; pose proof (in_map_empty r); tauto).
  destruct (checkContext ctx); [done|]. cbv zeta.
  match goal with |- context [if ?b then be_EnsureAddress ctx address w else ?x] =>
    destruct (if b then be_EnsureAddress ctx address w else x) as [ensured w1] eqn:Ea end.
  destruct ensured as [created|e].
  2: { split; [done|]. case_match; [|done]. pose proof (law_EnsureAddress ctx address w) as Hlaw. by rewrite Ea in Hlaw. }
  apply address_step in Ea as (Haddr & Hroutes & Hgiven & Hcreated & Hpresent).
  destruct (remove_loop _ _ _ _ _) as [[removed err] w2] eqn:Er.
  destruct (steps_loops _ _ _ _ _ _ Hd Hdin' Haddr Hroutes Hgiven Hcreated Hpresent Er) as [Hst Hnext].
  destruct err as [e|].
  { destruct (rollback _ _ _ _ _ _ _ _ _) as [rb w'] eqn:Eb. split; [done|]. eauto 10. }
  destruct (Hnext eq_refl) as [Hall Hens]. destruct (ensure_loop _ _ _ _ _) as [[added err] w3] eqn:Ee.
  destruct Hens as [Hst3 Hall3]. destruct err as [e|].
  { destruct (rollback _ _ _ _ _ _ _ _ _) as [rb w'] eqn:Eb. split; [done|]. eauto 10. }
  match goal with |- context [let '(r, w) := ?x in match r with _ => _ end] => destruct x as [o w4] eqn:El end.
  pose proof (last_step _ _ _ El) as Hlast. destruct o as [u|e].
  - destruct Hlast as [Hr4 Ha4]. exists desired, created, removed, added, w3. split_and!; auto.
  - destruct (rollback _ _ _ _ _ _ _ _ _) as [rb w'] eqn:Eb. split; [done|].
    exists desired, created, removed, added, w4. split; [by eapply steps_same|done].
Qed.

Lemma owned_after desired created removed added w1 :
  steps desired created removed added w1 →
  let owned' := filter (λ x, is_Some (desired !! x.1)) (rr_ownedRoutes rr) ∪ added in
  keyed owned' ∧ ∀ r, in_map owned' r ↔ in_map (rr_ownedRoutes rr) r ∧ r ∈ routes ∨ in_map added r.
Proof.
  intros [[Hd Hdin] _ _ [Hka Hadd] _ _ _ _] owned'. pose proof (rk_routes _ Hkeyed) as Hown. split.
  - intros k r. unfold owned'. rewrite lookup_union_Some_raw. intros [[? _]%map_lookup_filter_Some|[_ ?]]; [by apply Hown|by apply Hka].
  - intros r. split.
    + intros [k Hk]. unfold owned' in Hk. rewrite lookup_union_Some_raw in Hk.
      destruct Hk as [[Hk [y Hy]]%map_lookup_filter_Some|[_ Hk]]; [|right; by exists k]. left. split; [by exists k|].
      destruct (Hown _ _ Hk) as [-> Hok], (Hd _ _ Hy) as [Hkey Hok']. apply routeKey_inj in Hkey as ->; [|done..].
      apply Hdin. by eexists.
    + intros [[[k Hk] Hin]|Hin].
      * exists k. unfold owned'. rewrite lookup_union_Some_raw. left. apply map_lookup_filter_Some. split; [done|]. simpl.
        destruct (Hown _ _ Hk) as [-> _]. apply Hdin, in_map_key in Hin; [|done]. by rewrite Hin.
      * destruct (Hadd r Hin) as (_ & _ & Hn). pose proof (in_map_ok _ _ Hka Hin) as Hok. exists (routeKey r). unfold owned'.
        rewrite lookup_union_Some_raw. right. split; [|by apply in_map_key].
        apply map_lookup_filter_None. left. by apply in_map_None.
Qed.

(** Nothing that the reconciler does not own is removed or claimed. *)
Lemma reconcile_keeps :
  let '(o, (rr', w')) := reconcile_routes range ctx address routes rr w in
  rr_keyed rr' ∧
  (∀ r, has_route w r → ¬ in_map (rr_ownedRoutes rr) r → has_route w' r ∧ ¬ in_map (rr_ownedRoutes rr') r) ∧
  (∀ a, has_address w a → rr_address rr ≠ Some a → has_address w' a ∧ rr_address rr' ≠ Some a).
Proof.
  pose proof reconcile_cases as Hc. destruct (reconcile_routes _ _ _ _ _ _) as [[|e|e rb] [rr' w']].
  - destruct Hc as (desired & created & removed & added & w1 & Hst & _ & _ & Hr & Ha & ->).
    destruct (owned_after _ _ _ _ _ Hst) as [Hk Hin]. destruct Hst as [_ Hroutes [_ Hrem] [_ Hadd] Haddr _ Hcr _]. split_and!.
    + split; [done|]. simpl. by destruct created.
    + intros r Hw Hn. simpl. rewrite Hr, Hroutes, Hin. split; [left; split; [done|]; by intros [? _]%Hrem|].
      intros [[? _]|Hi]; [done|]. by destruct (Hadd r Hi).
    + intros a Hw Hn. rewrite Ha. split; [split; [auto|done]|]. simpl. destruct created; [|done]. intros [= ->].
      destruct (proj1 Hcr eq_refl); done.
  - destruct Hc as [-> [Ha Hr]]. split_and!; [done|..].
    + intros r Hw Hn. by rewrite Hr.
    + intros a Hw Hn. by rewrite Ha.
  - destruct Hc as (-> & desired & created & removed & added & w1 & Hst & Hrb).
    destruct Hst as [_ Hroutes [_ Hrem] [_ Hadd] Haddr Hg _ _].
    pose proof (rollback_keeps range ctx Hrange (rr_address rr) (rr_addressOwned rr) address created w w1 removed added Hroutes) as Hb.
    rewrite Hrb in Hb. destruct Hb as [Hbr Hba]; [by intros r (? & _)%Hadd|done|done|]. split_and!; [done|..].
    + intros r Hw Hn. split; [|done]. apply Hbr; [done|]. by intros [? _]%Hrem.
    + intros a Hw Hn. auto.
Qed.

(** The result of a call when what is owned is there. *)
Lemma reconcile_result :
  rr_present rr w →
  let '(o, (rr', w')) := reconcile_routes range ctx address routes rr w in
  match o with
  | Done =>
    (∀ r, has_route w' r ↔ r ∈ routes ∨ has_route w r ∧ ¬ in_map (rr_ownedRoutes rr) r) ∧
    (∀ a, has_address w' a ↔ a = address ∨ has_address w a ∧ rr_address rr ≠ Some a) ∧
    (∀ r, in_map (rr_ownedRoutes rr') r ↔ r ∈ routes ∧ (in_map (rr_ownedRoutes rr) r ∨ ¬ has_route w r)) ∧
    (rr_address rr' = Some address ↔ rr_address rr = Some address ∨ ¬ has_address w address) ∧
    rr_present rr' w'
  | Refused _ => rr' = rr ∧ same_os w w'
  | RolledBack _ rollbackError => rr' = rr ∧ (rollbackError = None → same_os w w')
  end.
Proof.
  intros Hpres. pose proof reconcile_cases as Hc. destruct (reconcile_routes _ _ _ _ _ _) as [[|e|e rb] [rr' w']]; [|done|].
  2: { destruct Hc as (-> & desired & created & removed & added & w1 & Hst & Hrb). split; [done|]. intros ->.
       destruct Hst as [_ Hroutes [Hkr Hrem] [_ Hadd] _ Hg _ Hp]. destruct (Hp Hpres) as [Haddr Hg'], Hpres as [Hpr Hpa].
       apply (rollback_restores range ctx Hrange _ _ _ _ _ _ _ _ _ Hkr Hroutes) in Hrb; try done.
       - by intros r (? & _)%Hadd.
       - intros r [? _]%Hrem. auto. }
  destruct Hc as (desired & created & removed & added & w1 & Hst & Hall & Hall' & Hr & Ha & ->).
  destruct (owned_after _ _ _ _ _ Hst) as [Hk Hin]. destruct Hst as [_ Hroutes [_ Hrem] [_ Hadd] Haddr Hg Hcr Hp].
  destruct (Hp Hpres) as [Haddr' Hg'], Hpres as [Hpr Hpa].
  assert (∀ r, has_route w' r ↔ r ∈ routes ∨ has_route w r ∧ ¬ in_map (rr_ownedRoutes rr) r) as Hr'.
  { intros r. rewrite Hr. split.
    - rewrite Hroutes. intros [[Hw Hn]|(_ & ? & _)%Hadd]; [|by left].
      destruct (in_map_dec (rr_ownedRoutes rr) r (rk_routes _ Hkeyed)) as [Ho|Ho]; [|by right].
      destruct (decide (r ∈ routes)); [by left|]. by destruct Hn; apply Hall.
    - intros [Hi|[Hw Hn]]; [|apply Hroutes; left; split; [done|]; by intros [? _]%Hrem].
      destruct (in_map_dec (rr_ownedRoutes rr) r (rk_routes _ Hkeyed)) as [Ho|Ho]; [|by apply Hall'].
      apply Hroutes. left. split; [auto|]. by intros [_ ?]%Hrem. }
  assert (∀ a, has_address w' a ↔ a = address ∨ has_address w a ∧ rr_address rr ≠ Some a) as Ha'.
  { intros a. rewrite Ha, Haddr'. destruct (decide (rr_address rr = Some a)) as [E|E]; [|tauto].
    split; [intros [_ Hx]; left; auto|]. intros [->|[_ ?]]; [|done]. split; [by right|done]. }
  split_and!; [done|done|..]; simpl.
  - intros r. rewrite Hin. split.
    + intros [[? ?]|(? & ? & ?)%Hadd]; auto.
    + intros [Hi [?|Hw]]; [by left|right]. assert (has_route w1 r) as [[? _]|?]%Hroutes; [|done|done].
      apply Hall'; [done|]. intros Ho. by apply Hw, Hpr.
  - rewrite <- Hcr. by destruct created.
  - split; simpl.
    + intros r [[Ho Hi]|(_ & Hi & _)%Hadd]%Hin; apply Hr'; by left.
    + intros a. destruct created; [|done]. intros [= <-]. apply Ha'. by left.
Qed.

End Call.

(** ** A call of [Clear] *)
Section ClearCall.
Context {W : Type} `{BackendLaws W}.
Variables (range : nat → gmap string Route → list (string * Route)) (ctx : Context).
Hypothesis Hrange : range_ok range.

Lemma in_map_delete m x r : keyed m → route_ok x → in_map (delete (routeKey x) m) r ↔ in_map m r ∧ r ≠ x.
Proof.
  intros Hm Hx. split.
  - intros [k [Hne Hk]%lookup_delete_Some]. split; [by exists k|]. intros ->. by destruct (Hm _ _ Hk).
  - intros [[k Hk] Hne]. exists k. apply lookup_delete_Some. split; [|done]. intros <-.
    destruct (Hm _ _ Hk) as [Hkey Hok]. by apply Hne, routeKey_inj.
Qed.

Lemma clear_loop_spec l owned joined w :
  listed l → keyed owned →
  let '((owned', joined'), w') := clear_loop ctx l owned joined w in
  keyed owned' ∧ (∀ a, has_address w' a ↔ has_address w a) ∧ (∀ r, has_route w r → r ∉ l.*2 → has_route w' r) ∧
  (∀ r, in_map owned' r → in_map owned r) ∧
  ((∀ r, in_map owned r → has_route w r) → ∀ r, in_map owned' r → has_route w' r) ∧
  (joined' = None → joined = None ∧ (∀ r, has_route w' r ↔ has_route w r ∧ r ∉ l.*2) ∧
     ∀ r, in_map owned' r ↔ in_map owned r ∧ r ∉ l.*2).
Proof.
  revert owned joined w. induction l as [|[k x] l IH]; intros owned joined w Hl Hk; simpl.
  { split_and!; try done; auto. intros ->. pose proof (λ r : Route, not_elem_of_nil r) as Hnil.
    split_and!; [done|intros r; specialize (Hnil r); tauto..]. }
  apply listed_cons in Hl as (-> & Hx & Hl). pose proof (law_RemoveRoute ctx x w) as Hlaw.
  destruct (be_RemoveRoute ctx x w) as [[u|e] w1].
  - destruct Hlaw as [Hr Ha]. assert (keyed (delete (routeKey x) owned)) as Hk'.
    { intros k r [_ ?]%lookup_delete_Some. by apply Hk. }
    specialize (IH (delete (routeKey x) owned) joined w1 Hl Hk'). destruct (clear_loop _ _ _ _ _) as [[owned' joined'] w'].
    setoid_rewrite not_elem_of_cons. destruct IH as (? & Ha' & Hkeep & Hsub & Hpres & Hnone). pose proof (λ r, in_map_delete owned x r Hk Hx) as Hdel.
    split_and!; try done.
    + intros a. by rewrite Ha'.
    + intros r Hw [Hne Hn]. apply Hkeep; [by apply Hr|done].
    + intros r Hi. by apply Hsub, Hdel in Hi as [? _].
    + intros Hown r Hi. apply Hpres; [|done]. intros r' [Ho Hne]%Hdel. apply Hr. auto.
    + intros (-> & Hr' & Ho')%Hnone. split; [done|]. split; intros r; [rewrite Hr', Hr|rewrite Ho', Hdel]; tauto.
  - destruct Hlaw as [Ha Hr]. specialize (IH owned (errors_Join joined (Some e)) w1 Hl Hk).
    destruct (clear_loop _ _ _ _ _) as [[owned' joined'] w']. destruct IH as (? & Ha' & Hkeep & Hsub & Hpres & Hnone).
    setoid_rewrite not_elem_of_cons. split_and!; try done.
    + intros a. by rewrite Ha'.
    + intros r Hw [Hne Hn]. apply Hkeep; [by apply Hr|done].
    + intros Hown r Hi. apply Hpres; [|done]. intros r' Ho. apply Hr. auto.
    + intros (Hj & _)%Hnone. by apply errors_Join_None in Hj as [_ ?].
Qed.

(** Whatever fails, only what is owned is removed; without an error, all of it. *)
Lemma clear_cases rr w :
  rr_keyed rr →
  let '(o, (rr', w')) := Clear range ctx (rr, w) in
  rr_keyed rr' ∧ (rr_present rr w → rr_present rr' w') ∧
  (∀ r, has_route w r → ¬ in_map (rr_ownedRoutes rr) r → has_route w' r ∧ ¬ in_map (rr_ownedRoutes rr') r) ∧
  (∀ a, has_address w a → rr_address rr ≠ Some a → has_address w' a ∧ rr_address rr' ≠ Some a) ∧
  (is_ok o = true →
     (∀ r, has_route w' r ↔ has_route w r ∧ ¬ in_map (rr_ownedRoutes rr) r) ∧
     (∀ a, has_address w' a ↔ has_address w a ∧ rr_address rr ≠ Some a) ∧
     (∀ r, ¬ in_map (rr_ownedRoutes rr') r) ∧ rr_address rr' = None).
Proof.
  intros [Hk Hown]. unfold Clear. destruct (checkContext ctx); [by split_and!; auto|].
  pose proof (clear_loop_spec (range 4 (rr_ownedRoutes rr)) (rr_ownedRoutes rr) None w (range_listed _ _ _ Hrange Hk) Hk) as Hl.
  destruct (clear_loop _ _ _ _ _) as [[owned' joined] w1]. destruct Hl as (Hk' & Ha & Hkeep & Hsub & Hpres & Hnone).
  assert (∀ r, has_route w r → ¬ in_map (rr_ownedRoutes rr) r → has_route w1 r ∧ ¬ in_map owned' r) as Hkeep'.
  { intros r Hw Hn. split; [apply Hkeep; [done|]; by rewrite range_snd|]. by intros ?%Hsub. }
  assert (joined = None → (∀ r, has_route w1 r ↔ has_route w r ∧ ¬ in_map (rr_ownedRoutes rr) r) ∧ ∀ r, ¬ in_map owned' r) as Hnone'.
  { intros (_ & Hr & Ho)%Hnone. split; intros r; [rewrite Hr, range_snd by done; done|]. rewrite Ho, range_snd by done. tauto. }
  clear Hnone Hkeep Hsub. rewrite Hown. destruct (rr_address rr) as [a|] eqn:Ea; simpl.
  - pose proof (law_RemoveAddress ctx a w1) as Hlaw. destruct (be_RemoveAddress ctx a w1) as [[u|e] w2]; simpl.
    + destruct Hlaw as [Ha2 Hr2]. split_and!; simpl.
      * by split.
      * intros [Hp _]. split; simpl; [|done]. intros r Hi. apply Hr2. by eapply Hpres.
      * intros r Hw Hn. rewrite Hr2. auto.
      * intros b Hw Hn. split; [|done]. apply Ha2. split; [by apply Ha|congruence].
      * destruct joined; [done|]. intros _. destruct (Hnone' eq_refl) as [Hr Ho]. split_and!; try done.
        -- intros r. by rewrite Hr2.
        -- intros b. rewrite Ha2, Ha. split; intros [? ?]; (split; [done|congruence]).
    + destruct Hlaw as [Ha2 Hr2]. split_and!; simpl.
      * by split.
      * intros [Hp Hpa]. split; simpl; [|]. { intros r Hi. apply Hr2. by eapply Hpres. } intros b Hb. apply Ha2, Ha. apply Hpa. congruence.
      * intros r Hw Hn. rewrite Hr2. auto.
      * intros b Hw Hn. split; [by apply Ha2, Ha|done].
      * by destruct joined.
  - split_and!; simpl.
    + by split.
    + intros [Hp _]. split; simpl; [|done]. by eapply Hpres.
    + done.
    + intros b Hw _. split; [by apply Ha|done].
    + destruct joined; [done|]. intros _. destruct (Hnone' eq_refl) as [Hr Ho]. split_and!; try done. intros b. rewrite Ha. split; [by intros|tauto].
Qed.

End ClearCall.

(** ** Histories of calls *)
Inductive route_call :=
| CReconcile (ctx : Context) (address : Address) (routes : list Route)
| CClear (ctx : Context).

Definition call_typed (c : route_call) : Prop :=
  match c with CReconcile _ _ routes => Forall route_typed routes | CClear _ => True end.
Definition run_call {W} `{Backend W} range (c : route_call) (s : RouteReconciler * W) : RouteReconciler * W :=
  match c with
  | CReconcile ctx address routes => (Reconcile range ctx address routes s).2
  | CClear ctx => (Clear range ctx s).2
  end.
Definition run_calls {W} `{Backend W} range (l : list route_call) (s : RouteReconciler * W) : RouteReconciler * W :=
  fold_left (λ s c, run_call range c s) l s.

Lemma Reconcile_snd {W} `{Backend W} range ctx address routes (s : RouteReconciler * W) :
  (Reconcile range ctx address routes s).2 = (reconcile_routes range ctx address routes s.1 s.2).2.
Proof. unfold Reconcile. by destruct (reconcile_routes _ _ _ _ _ _). Qed.

(** What is there and not owned stays so. *)
Lemma run_call_keeps {W} `{BackendLaws W} range c (s : RouteReconciler * W) :
  range_ok range → call_typed c → rr_keyed s.1 →
  let s' := run_call range c s in
  rr_keyed s'.1 ∧
  (∀ r, has_route s.2 r → ¬ in_map (rr_ownedRoutes s.1) r → has_route s'.2 r ∧ ¬ in_map (rr_ownedRoutes s'.1) r) ∧
  (∀ a, has_address s.2 a → rr_address s.1 ≠ Some a → has_address s'.2 a ∧ rr_address s'.1 ≠ Some a).
Proof.
  intros Hrange Hc Hk s'. destruct s as [rr w]. subst s'. destruct c as [ctx address routes|ctx]; cbn [run_call fst snd call_typed] in *.
  - rewrite Reconcile_snd. simpl. pose proof (reconcile_keeps range ctx Hrange address routes rr w Hk Hc) as Hr.
    by destruct (reconcile_routes _ _ _ _ _ _) as [o [rr' w']].
  - pose proof (clear_cases range ctx Hrange rr w Hk) as Hr. destruct (Clear _ _ _) as [o [rr' w']].
    destruct Hr as (? & _ & ? & ? & _). by split_and!.
Qed.

Lemma run_calls_keeps {W} `{BackendLaws W} range l (s : RouteReconciler * W) :
  range_ok range → Forall call_typed l → rr_keyed s.1 →
  let s' := run_calls range l s in
  rr_keyed s'.1 ∧
  (∀ r, has_route s.2 r → ¬ in_map (rr_ownedRoutes s.1) r → has_route s'.2 r ∧ ¬ in_map (rr_ownedRoutes s'.1) r) ∧
  (∀ a, has_address s.2 a → rr_address s.1 ≠ Some a → has_address s'.2 a ∧ rr_address s'.1 ≠ Some a).
Proof.
  intros Hrange Hl. revert s. induction Hl as [|c l Hc Hl IH]; intros s Hk; simpl; [split_and!; auto|].
  destruct (run_call_keeps range c s Hrange Hc Hk) as (Hk' & Hr & Ha). destruct (IH _ Hk') as (? & Hr' & Ha').
  split_and!; [done|intros r Hw Hn; destruct (Hr r Hw Hn); auto|intros a Hw Hn; destruct (Ha a Hw Hn); auto].
Qed.

Lemma NewRouteReconciler_keyed : rr_keyed NewRouteReconciler.
Proof. split; [apply keyed_empty|done]. Qed.

(** ** A system that fails on schedule

    Lists of addresses and routes, and for the coming operations whether they fail. *)
Record OS := { os_addresses : list Address; os_routes : list Route; os_failures : list bool }.

Definition os_step {A} (ok : OS → A * OS) : M OS A := λ w,
  let rest := {| os_addresses := os_addresses w; os_routes := os_routes w; os_failures := tail (os_failures w) |} in
  match head (os_failures w) with
  | Some true => (Err (EForeign 1), rest)
  | _ => let '(a, w') := ok rest in (Ok a, w')
  end.
Definition os_with_addresses (w : OS) l : OS := {| os_addresses := l; os_routes := os_routes w; os_failures := os_failures w |}.
Definition os_with_routes (w : OS) l : OS := {| os_addresses := os_addresses w; os_routes := l; os_failures := os_failures w |}.

#[global] Instance OS_Backend : Backend OS := {|
  be_EnsureAddress _ a := os_step (λ w,
    if decide (a ∈ os_addresses w) then (false, w) else (true, os_with_addresses w (a :: os_addresses w)));
  be_RemoveAddress _ a := os_step (λ w, (tt, os_with_addresses w (filter (.≠ a) (os_addresses w))));
  be_EnsureRoute _ r := os_step (λ w,
    if decide (r ∈ os_routes w) then (false, w) else (true, os_with_routes w (r :: os_routes w)));
  be_RemoveRoute _ r := os_step (λ w, (tt, os_with_routes w (filter (.≠ r) (os_routes w))))
|}.

#[global] Instance OS_BackendLaws : BackendLaws OS.
Proof.
  refine {| has_address w a := a ∈ os_addresses w; has_route w r := r ∈ os_routes w |}.
  - intros ctx a w. simpl. unfold os_step. destruct (head (os_failures w)) as [[]|]; try done; simpl; case_decide;
      simpl; split_and!; try done; set_solver.
  - intros ctx a w. simpl. unfold os_step. destruct (head (os_failures w)) as [[]|]; try done; simpl; split; try done;
      intros b; rewrite list_elem_of_filter; tauto.
  - intros ctx a w. simpl. unfold os_step. destruct (head (os_failures w)) as [[]|]; try done; simpl; case_decide;
      simpl; split_and!; try done; set_solver.
  - intros ctx a w. simpl. unfold os_step. destruct (head (os_failures w)) as [[]|]; try done; simpl; split; try done;
      intros b; rewrite list_elem_of_filter; tauto.
  - intros w r. destruct (decide (r ∈ os_routes w)); auto.
  - intros w a. destruct (decide (a ∈ os_addresses w)); auto.
Defined.

(** ** Claims *)

(** C11: the overlay never takes away what is not its own. Starting with a new
    reconciler on any system, after any sequence of calls, in any order of the
    map iterations and whichever operations fail, every address and route that
    was in the system at the start is still there and is not claimed as owned. *)
Theorem foreign_untouched {W} {B : Backend W} {L : BackendLaws W} range (l : list route_call) (w : W) :
  range_ok range → Forall call_typed l →
  let '(rr, w') := run_calls range l (NewRouteReconciler, w) in
  (∀ r, has_route w r → has_route w' r ∧ ¬ in_map (rr_ownedRoutes rr) r) ∧
  (∀ a, has_address w a → has_address w' a ∧ rr_address rr ≠ Some a).
Proof.
  intros Hrange Hl. pose proof (run_calls_keeps range l (NewRouteReconciler, w) Hrange Hl NewRouteReconciler_keyed) as Hr.
  destruct (run_calls _ _ _) as [rr w']. destruct Hr as (_ & Hr & Ha).
  split; [intros r Hw; apply Hr; [done|apply in_map_empty]|intros a Hw; by apply Ha].
Qed.

(** C35: a reconciliation does what it says or nothing. When the records of the
    reconciler are true: on success the system has exactly the requested routes
    and address besides what the overlay does not own, and the overlay owns
    what it owned or created of them; a refused call changes nothing; and a call
    that fails half-way and whose rollback meets no error leaves every address,
    every route and the records as they were. *)
Theorem Reconcile_correct {W} {B : Backend W} {L : BackendLaws W} range ctx address routes rr (w : W) :
  range_ok range → Forall route_typed routes → rr_keyed rr → rr_present rr w →
  let '(o, (rr', w')) := reconcile_routes range ctx address routes rr w in
  match o with
  | Done =>
    (∀ r, has_route w' r ↔ r ∈ routes ∨ has_route w r ∧ ¬ in_map (rr_ownedRoutes rr) r) ∧
    (∀ a, has_address w' a ↔ a = address ∨ has_address w a ∧ rr_address rr ≠ Some a) ∧
    (∀ r, in_map (rr_ownedRoutes rr') r ↔ r ∈ routes ∧ (in_map (rr_ownedRoutes rr) r ∨ ¬ has_route w r)) ∧
    (rr_address rr' = Some address ↔ rr_address rr = Some address ∨ ¬ has_address w address) ∧
    rr_present rr' w'
  | Refused _ => rr' = rr ∧ same_os w w'
  | RolledBack _ rollbackError => rr' = rr ∧ (rollbackError = None → same_os w w')
  end.
Proof. intros Hrange Ht Hk Hp. by apply reconcile_result. Qed.

(** Clearing removes exactly what is owned. Without an error the system is
    left with what the overlay does not own and the records are empty; with one,
    the records still tell what is left. *)
Theorem Clear_correct {W} {B : Backend W} {L : BackendLaws W} range ctx rr (w : W) :
  range_ok range → rr_keyed rr → rr_present rr w →
  let '(o, (rr', w')) := Clear range ctx (rr, w) in
  rr_keyed rr' ∧ rr_present rr' w' ∧
  (is_ok o = true →
     (∀ r, has_route w' r ↔ has_route w r ∧ ¬ in_map (rr_ownedRoutes rr) r) ∧
     (∀ a, has_address w' a ↔ has_address w a ∧ rr_address rr ≠ Some a) ∧
     (∀ r, ¬ in_map (rr_ownedRoutes rr') r) ∧ rr_address rr' = None).
Proof.
  intros Hrange Hk Hp. pose proof (clear_cases range ctx Hrange rr w Hk) as Hc.
  destruct (Clear _ _ _) as [o [rr' w']]. destruct Hc as (? & Hp' & _ & _ & ?). auto.
Qed.

(** A user's route, and an overlay of two peers whose second route fails. *)
Definition demo_range (n : nat) (m : gmap string Route) : list (string * Route) := map_to_list m.
Lemma demo_range_ok : range_ok demo_range.
Proof. by intros n m. Qed.
Lemma NewRouteReconciler_present (w : OS) : rr_present NewRouteReconciler w.
Proof. split; [|done]. by intros r ?%in_map_empty. Qed.
Definition demo_route (n : Z) : Route :=
  {| rt_Destination := PrefixFrom (AddrFrom4 [10; 0; 0; n]) 32; rt_InterfaceLUID := 7; rt_NextHop := AddrZero; rt_Metric := 0 |}.
Definition demo_address : Address := {| na_IP := AddrFrom4 [10; 0; 0; 1]; na_PrefixLength := 32; na_InterfaceLUID := 7 |}.
Definition demo_os (failures : list bool) : OS :=
  {| os_addresses := []; os_routes := [demo_route 2]; os_failures := failures |}.
Lemma demo_route_typed n : 0 ≤ n < 256 → route_typed (demo_route n).
Proof.
  intros Hn. unfold route_typed. simpl rt_InterfaceLUID. simpl rt_Metric. split_and!; try lia; [|done].
  intros v. unfold demo_route, PrefixFrom, AddrFrom4. cbn [rt_Destination pf_Addr without_zone]. intros [= <-].
  pose proof (be_value_bound [10; 0; 0; n]) as Hb. cbn [length] in Hb. unfold is_byte in *.
  apply Hb. repeat constructor; lia.
Qed.
Definition demo_calls : list route_call :=
  [CReconcile liveContext demo_address [demo_route 2; demo_route 3]; CClear liveContext].

Lemma demo_routes_typed l : Forall (λ n, 0 ≤ n < 256) l → Forall route_typed (demo_route <$> l).
Proof. intros Hl. apply Forall_fmap. eapply Forall_impl; [done|]. apply demo_route_typed. Qed.

Lemma foreign_untouched_witness :
  has_route (run_calls demo_range demo_calls (NewRouteReconciler, demo_os [false; true])).2 (demo_route 2).
Proof.
  pose proof (foreign_untouched demo_range demo_calls (demo_os [false; true]) demo_range_ok) as Hw.
  destruct (run_calls _ _ _) as [rr w']. apply Hw; [|by left].
  apply Forall_cons. split; [|by apply Forall_singleton]. apply (demo_routes_typed [2; 3]). repeat constructor; lia.
Defined.

Lemma Reconcile_correct_witness :
  let '(o, (rr', w')) := reconcile_routes demo_range liveContext demo_address [demo_route 3; demo_route 4] NewRouteReconciler
    (demo_os [false; false; true]) in
  o = RolledBack (EForeign 1) None ∧ same_os (demo_os [false; false; true]) w'.
Proof.
  pose proof (Reconcile_correct demo_range liveContext demo_address [demo_route 3; demo_route 4] NewRouteReconciler
    (demo_os [false; false; true]) demo_range_ok) as Hw.
  destruct (reconcile_routes _ _ _ _ _ _) as [o [rr' w']] eqn:E.
  assert (o = RolledBack (EForeign 1) None) as ->.
  { transitivity (reconcile_routes demo_range liveContext demo_address [demo_route 3; demo_route 4] NewRouteReconciler
      (demo_os [false; false; true])).1; [by rewrite E|vm_compute; reflexivity]. }
  split; [reflexivity|]. destruct Hw as [_ Hw]; [|apply NewRouteReconciler_keyed|apply NewRouteReconciler_present|by apply Hw].
  apply (demo_routes_typed [3; 4]). repeat constructor; lia.
Defined.

(** After a successful call, [Clear] empties the records and keeps the user's route. *)
Definition demo_owned : RouteReconciler * OS :=
  (reconcile_routes demo_range liveContext demo_address [demo_route 3] NewRouteReconciler (demo_os [])).2.
Lemma demo_owned_ok : rr_keyed demo_owned.1 ∧ rr_present demo_owned.1 demo_owned.2.
Proof.
  assert (Forall route_typed [demo_route 3]) as Ht by (apply (demo_routes_typed [3]); repeat constructor; lia).
  pose proof (reconcile_keeps demo_range liveContext demo_range_ok demo_address [demo_route 3] NewRouteReconciler
    (demo_os []) NewRouteReconciler_keyed Ht) as Hk.
  pose proof (reconcile_result demo_range liveContext demo_range_ok demo_address [demo_route 3] NewRouteReconciler
    (demo_os []) NewRouteReconciler_keyed Ht (NewRouteReconciler_present _)) as Hr.
  unfold demo_owned. destruct (reconcile_routes _ _ _ _ _ _) as [o [rr' w']] eqn:E.
  assert (o = Done) as ->.
  { transitivity (reconcile_routes demo_range liveContext demo_address [demo_route 3] NewRouteReconciler (demo_os [])).1;
      [by rewrite E|vm_compute; reflexivity]. }
  split; [apply Hk|apply Hr].
Qed.

Lemma Clear_correct_witness :
  let '(o, (rr', w')) := Clear demo_range liveContext demo_owned in
  o = Ok tt ∧ rr_address demo_owned.1 = Some demo_address ∧ rr_address rr' = None ∧ has_route w' (demo_route 2).
Proof.
  destruct demo_owned_ok as [Hk Hp].
  pose proof (Clear_correct demo_range liveContext demo_owned.1 demo_owned.2 demo_range_ok Hk Hp) as Hw.
  rewrite <- (surjective_pairing demo_owned) in Hw.
  assert ((Clear demo_range liveContext demo_owned).1 = Ok tt) as Ho by (vm_compute; reflexivity).
  destruct (Clear _ _ _) as [o [rr' w']]. simpl in Ho. subst o. destruct Hw as (_ & _ & Hw).
  destruct (Hw eq_refl) as (Hr & _ & _ & Ha). split_and!; [reflexivity|vm_compute; reflexivity|exact Ha|].
  apply Hr. split; [vm_compute; right; left|]. intros [k Hin]. revert Hin.
  assert (rr_ownedRoutes demo_owned.1 = {[routeKey (demo_route 3) := demo_route 3]}) as -> by (vm_compute; reflexivity).
  intros [_ Heq]%lookup_singleton_Some. discriminate Heq.
Defined.
