(* ===== verification/Reconcile.v ===== *)
(** * The snapshot applier

    [internal/reconcile/snapshot.go]: a control-plane snapshot becomes a
    WireGuard configuration, an address and host routes, applied to the system
    with the generation of the snapshot.  The applier's operations act on its own
    record and on the state [W] of the system behind the two interfaces. *)

From S2P Require Import Prelude GoStd Crypto NetIP Wgnt Routes Model.
From Stdlib Require Import Ascii.

Open Scope Z_scope.

Class RouteManager (W : Type) := {
  rm_Reconcile : Context → Address → list Route → M W unit;
  rm_Clear : Context → M W unit
}.

Record Options := {
  op_PrivateKey : Key;
  op_InterfaceName : string;
  op_ListenPort : Z;
  op_PersistentKeepalive : Duration
}.

Record appliedState := {
  as_applied : bool;
  as_handle : Handle;
  as_up : bool;
  as_config : Configuration;
  as_address : Address;
  as_routes : list Route;
  as_networkID : string
}.
Definition zeroAddress : Address := {| na_IP := AddrZero; na_PrefixLength := 0; na_InterfaceLUID := 0 |}.
Definition zeroConfiguration : Configuration :=
  {| cf_PrivateKey := zeroKey; cf_ListenPort := 0; cf_Peers := []; cf_ReplacePeers := false |}.
Definition zeroState : appliedState :=
  {| as_applied := false; as_handle := 0; as_up := false; as_config := zeroConfiguration;
     as_address := zeroAddress; as_routes := []; as_networkID := "" |}.

Record Applier := { ap_options : Options; ap_state : appliedState; ap_generation : Z }.

Definition NewApplier (o : Options) : result Applier :=
  if Key_IsZero (op_PrivateKey o) then Err reconcile_ErrInvalidOptions
  else
    let name := if blank (op_InterfaceName o) then "IPv6Mesh" else op_InterfaceName o in
    let port := if op_ListenPort o =? 0 then 51820 else op_ListenPort o in
    if (op_PersistentKeepalive o <? 0) || (65535 * Second <? op_PersistentKeepalive o)
       || negb (Z.rem (op_PersistentKeepalive o) Second =? 0)
    then Err (EWrap reconcile_ErrInvalidOptions)
    else Ok {| ap_options := {| op_PrivateKey := op_PrivateKey o; op_InterfaceName := name; op_ListenPort := port;
                                op_PersistentKeepalive := op_PersistentKeepalive o |};
               ap_state := zeroState; ap_generation := 0 |}.

(** ** Endpoints *)
Record endpointChoice := { ec_address : AddrPort; ec_family : Z; ec_priority : Z; ec_observed : Time }.

(** The body of the loop over the candidates: [None] is [continue]. *)
Definition endpoint_choice (c : EndpointCandidate) : option endpointChoice :=
  if is_nil (ep_Address c) || (ep_Port c =? 0) || IsZero (ep_ObservedAt c) || (ep_Priority c <? 0) then None
  else match ParseAddr (IP_String (ep_Address c)) with
  | None => None
  | Some address =>
    if IsUnspecified address || IsLoopback address || IsLinkLocalUnicast address || IsMulticast address
       || negb (IsGlobalUnicast address) then None
    else
      let choice family := Some {| ec_address := {| ap_ip := address; ap_port := ep_Port c |}; ec_family := family;
                                   ec_priority := ep_Priority c; ec_observed := ep_ObservedAt c |} in
      if bool_decide (ep_Family c = FamilyIPv6) && Is6 address then choice 0
      else if negb (bool_decide (ep_Family c = FamilyIPv4)) || negb (Is4 address) then None
      else choice 1
  end.

Definition choice_less : endpointChoice → endpointChoice → bool :=
  lex_less ec_family Z.ltb
    (lex_less ec_priority Z.ltb
      (lex_less ec_observed After
        (λ x y, sltb (AddrPort_String (ec_address x)) (AddrPort_String (ec_address y))))).

(** The candidates of a peer: its endpoints, and the relay's address if the peer
    is the relay. *)
Definition endpoint_candidates (peer : Peer) (relay : option RelayAssignment) : list EndpointCandidate :=
  pr_Endpoints peer ++
  match relay with
  | Some r =>
    if bool_decide (ra_Status r = RelayAssignmentActive) && bool_decide (ra_RelayNodeID r = pr_NodeID peer)
       && negb (is_nil (ra_Address r)) && negb (ra_Port r =? 0)
    then [{| ep_NodeID := pr_NodeID peer; ep_Address := ra_Address r; ep_Port := ra_Port r; ep_Family := ra_Family r;
             ep_Interface := "relay"; ep_Priority := 0; ep_ObservedAt := ra_AssignedAt r |}]
    else []
  | None => []
  end.

Definition selectEndpoint (peer : Peer) (relay : option RelayAssignment) : AddrPort :=
  let choices := SliceStable choice_less (omap endpoint_choice (endpoint_candidates peer relay)) in
  match choices with
  | [] => AddrPort_zero
  | choice :: _ => ec_address choice
  end.

(** ** Planning *)
Definition ipv4Addr (value : IP) : option Addr :=
  let address := To4 value in if is_nil address then None else Some (AddrFrom4 address).

Definition host_route (ip : Addr) : Route :=
  {| rt_Destination := PrefixFrom ip 32; rt_InterfaceLUID := 0; rt_NextHop := AddrZero; rt_Metric := 0 |}.

(** The loop over the peers, with the keys and addresses seen so far. *)
Fixpoint plan_peers (o : Options) (localNodeID : string) (localIP : Addr) (relay : option RelayAssignment)
    (seenKeys : list Key) (seenAddresses : list Addr) (peers : list Peer)
    : result (list Wgnt.Peer * list Route) :=
  match peers with
  | [] => Ok ([], [])
  | peer :: peers =>
    if blank (pr_NodeID peer) || bool_decide (pr_NodeID peer = localNodeID) then Err (EWrap ErrInvalidSnapshot)
    else match ParseKey (pr_PublicKey peer) with
    | Err _ => Err (EWrap ErrInvalidSnapshot)
    | Ok publicKey =>
      if Key_IsZero publicKey then Err (EWrap ErrInvalidSnapshot)
      else if bool_decide (publicKey ∈ seenKeys) then Err (EWrap ErrInvalidSnapshot)
      else match ipv4Addr (pr_VirtualIPv4 peer) with
      | None => Err (EWrap ErrInvalidSnapshot)
      | Some virtualIP =>
        if bool_decide (virtualIP = localIP) then Err (EWrap ErrInvalidSnapshot)
        else if bool_decide (virtualIP ∈ seenAddresses) then Err (EWrap ErrInvalidSnapshot)
        else
          match plan_peers o localNodeID localIP relay (publicKey :: seenKeys) (virtualIP :: seenAddresses) peers with
          | Err e => Err e
          | Ok (wps, routes) =>
            Ok ({| wp_PublicKey := publicKey; wp_Endpoint := selectEndpoint peer relay;
                   wp_PersistentKeepalive := op_PersistentKeepalive o; wp_AllowedIPs := [PrefixFrom virtualIP 32] |} :: wps,
                host_route virtualIP :: routes)
          end
      end
    end
  end.

Definition snapshot_relay_of (s : NetworkSnapshot) : option RelayAssignment :=
  match sn_RelayAssignment s with Some r => Some r | None => sn_Relay s end.

Definition plan (o : Options) (s : NetworkSnapshot) : result (Configuration * Address * list Route) :=
  if blank (sn_NetworkID s) || blank (sn_LocalNodeID s) then Err (EWrap ErrInvalidSnapshot)
  else match ipv4Addr (sn_LocalVirtualIPv4 s) with
  | None => Err (EWrap ErrInvalidSnapshot)
  | Some localIP =>
    match plan_peers o (sn_LocalNodeID s) localIP (snapshot_relay_of s) [] [] (sn_Peers s) with
    | Err e => Err e
    | Ok (peers, routes) =>
      let configuration := {| cf_PrivateKey := op_PrivateKey o; cf_ListenPort := op_ListenPort o; cf_Peers := peers;
                              cf_ReplacePeers := true |} in
      match Validate configuration with
      | Some err => Err err
      | None => Ok (configuration, {| na_IP := localIP; na_PrefixLength := 32; na_InterfaceLUID := 0 |}, routes)
      end
    end
  end.

(** ** Applying *)
Definition with_luid (luid : Z) (r : Route) : Route :=
  {| rt_Destination := rt_Destination r; rt_InterfaceLUID := luid; rt_NextHop := rt_NextHop r; rt_Metric := rt_Metric r |}.

Section Applying.
Context {W : Type} `{Adapter W} `{RouteManager W}.

(** A call of the system whose error is added to [joined]. *)
Definition attempt_join (m : M W unit) (joined : error) (w : W) : bool * error * W :=
  match m w with
  | (Ok _, w') => (true, joined, w')
  | (Err err, w') => (false, EJoin joined (EWrap err), w')
  end.

(** The error that [rollback] returns, and the system it leaves. *)
Definition applier_rollback (ctx : Context) (previous : appliedState) (handle : Handle) (original : error) (w : W) : error * W :=
  if as_applied previous then
    let '(_, joined, w) := attempt_join (rm_Reconcile ctx (as_address previous) (as_routes previous)) original w in
    let '(configured, joined, w) := attempt_join (ad_Configure ctx (as_handle previous) (as_config previous)) joined w in
    if configured && as_up previous then
      let '(_, joined, w) := attempt_join (ad_SetUp ctx (as_handle previous)) joined w in (joined, w)
    else (joined, w)
  else
    let '(_, joined, w) := attempt_join (rm_Clear ctx) original w in
    let '(_, joined, w) := attempt_join (ad_SetDown ctx handle) joined w in
    let '(_, joined, w) := attempt_join (ad_Delete ctx handle) joined w in
    (joined, w).

Definition Apply (ctx : Context) (snapshot : NetworkSnapshot) : M (Applier * W) unit := λ '(applier, w),
  let o := ap_options applier in
  let failed (err : error) (w : W) : result unit * (Applier * W) := (Err err, (applier, w)) in
  match checkContext ctx with
  | Some err => failed err w
  | None =>
    if sn_Generation snapshot <=? 0 then failed (EWrap ErrInvalidSnapshot) w
    else if sn_Generation snapshot <? ap_generation applier then failed (EWrap ErrStaleSnapshot) w
    else if sn_Generation snapshot =? ap_generation applier then (Ok tt, (applier, w))
    else match plan o snapshot with
    | Err err => failed err w
    | Ok (configuration, address, routes) =>
      match ad_Ensure (op_InterfaceName o) w with
      | (Err err, w) => failed (EWrap err) w
      | (Ok handle, w) =>
        if negb (Handle_Valid handle) then failed (EWrap reconcile_ErrInvalidOptions) w
        else match ad_Status ctx handle w with
        | (Err err, w) => failed (EWrap err) w
        | (Ok status, w) =>
          if st_LUID status =? 0 then failed (EWrap ErrInvalidSnapshot) w
          else
            let address := {| na_IP := na_IP address; na_PrefixLength := na_PrefixLength address;
                              na_InterfaceLUID := st_LUID status |} in
            let routes := with_luid (st_LUID status) <$> routes in
            let previous := ap_state applier in
            let undo err w := let '(joined, w) := applier_rollback ctx previous handle (EWrap err) w in failed joined w in
            match rm_Reconcile ctx address routes w with
            | (Err err, w) => failed (EWrap err) w
            | (Ok _, w) =>
              match ad_Configure ctx handle configuration w with
              | (Err err, w) => undo err w
              | (Ok _, w) =>
                match ad_SetUp ctx handle w with
                | (Err err, w) => undo err w
                | (Ok _, w) =>
                  (Ok tt, ({| ap_options := o;
                              ap_state := {| as_applied := true; as_handle := handle; as_up := true;
                                             as_config := configuration; as_address := address; as_routes := routes;
                                             as_networkID := sn_NetworkID snapshot |};
                              ap_generation := sn_Generation snapshot |}, w))
                end
              end
            end
        end
      end
    end
  end.

Definition applier_Clear (ctx : Context) : M (Applier * W) unit := λ '(applier, w),
  match checkContext ctx with
  | Some err => (Err err, (applier, w))
  | None =>
    if negb (as_applied (ap_state applier)) then (Ok tt, (applier, w))
    else
      let handle := as_handle (ap_state applier) in
      let '(r1, w) := rm_Clear ctx w in
      let '(r2, w) := ad_SetDown ctx handle w in
      let '(r3, w) := ad_Delete ctx handle w in
      let joined := fold_left (λ joined r, match r with Ok _ => joined | Err e => errors_Join joined (Some e) end)
                      [r1; r2; r3] None in
      match joined with
      | None => (Ok tt, ({| ap_options := ap_options applier; ap_state := zeroState; ap_generation := 0 |}, w))
      | Some err => (Err err, (applier, w))
      end
  end.

Definition Generation (applier : Applier) : Z := ap_generation applier.

End Applying.

(** The route reconciler over a backend is a route manager. *)
#[global] Instance Reconciler_RouteManager {W} `{Backend W} range : RouteManager (RouteReconciler * W) := {|
  rm_Reconcile ctx := Reconcile range ctx;
  rm_Clear ctx := Clear range ctx
|}.
