(* ===== verification/ReconcileThm.v ===== *)
(** * Properties of the snapshot applier *)

From S2P Require Import Prelude GoStd Crypto NetIP Wgnt Routes Repository RepositoryInv RepositoryThm Snapshot Model Reconcile.

Open Scope Z_scope.

(** ** Endpoints *)
#[global] Instance Time_After_total : StrictTotal After.
Proof.
  split; [split|]; unfold After; intros.
  - lia.
  - lia.
  - assert (x = y) by lia. done.
Qed.

Lemma choice_less_weak : StrictWeak choice_less.
Proof. unfold choice_less. apply _. Qed.

(** The eligible choices of a peer. *)
Definition choices (peer : Peer) (relay : option RelayAssignment) : list endpointChoice :=
  omap endpoint_choice (endpoint_candidates peer relay).

Lemma selectEndpoint_spec peer relay :
  (choices peer relay = [] ∧ selectEndpoint peer relay = AddrPort_zero) ∨
  ∃ ch, ch ∈ choices peer relay ∧ selectEndpoint peer relay = ec_address ch ∧
    ∀ ch', ch' ∈ choices peer relay → choice_less ch' ch = false.
Proof.
  unfold selectEndpoint. fold (choices peer relay).
  pose proof (SliceStable_perm choice_less (choices peer relay)) as Hperm.
  pose proof (@SliceStable_sorted _ choice_less choice_less_weak (choices peer relay)) as Hsorted.
  destruct (SliceStable choice_less (choices peer relay)) as [|ch l].
  - left. split; [|done]. by apply Permutation_nil_l in Hperm as <-.
  - right. exists ch. split_and!; [rewrite <- Hperm; by left|done|]. intros ch' Hin. rewrite <- Hperm in Hin.
    apply elem_of_cons in Hin as [->|Hin].
    + destruct (choice_less ch ch) eqn:E; [|done]. pose proof (@less_asym _ _ choice_less_weak ch ch E). congruence.
    + unfold sorted_by in Hsorted. inversion_clear Hsorted as [|? ? _ Hall]. rewrite Forall_forall in Hall. auto.
Qed.

Lemma endpoint_choice_Some c ch :
  endpoint_choice c = Some ch →
  ap_port (ec_address ch) = ep_Port c ∧ ep_Port c ≠ 0 ∧ AddrPort_IsValid (ec_address ch) = true ∧
  IsGlobalUnicast (ap_ip (ec_address ch)) = true ∧ ec_family ch = (if Is6 (ap_ip (ec_address ch)) then 0 else 1).
Proof.
  unfold endpoint_choice. case_match eqn:E; [done|]. rewrite !orb_false_iff in E. destruct E as [[[_ Hport%Z.eqb_neq] _] _].
  destruct (ParseAddr _) as [a|]; [|done]. case_match eqn:E; [done|]. rewrite !orb_false_iff, negb_false_iff in E.
  destruct E as [_ Hg]. assert (Addr_IsValid a = true) as Hv by (by destruct a).
  destruct (bool_decide (ep_Family c = FamilyIPv6) && Is6 a) eqn:E6.
  - apply andb_true_iff in E6 as [_ E6]. intros [= <-]. simpl. by rewrite E6.
  - destruct (negb _ || negb _) eqn:E4; [done|]. apply orb_false_iff in E4 as [_ E4%negb_false_iff]. intros [= <-]. simpl.
    split_and!; try done. by destruct a.
Qed.

Lemma selectEndpoint_port peer relay :
  AddrPort_IsValid (selectEndpoint peer relay) = true → ap_port (selectEndpoint peer relay) ≠ 0.
Proof.
  destruct (selectEndpoint_spec peer relay) as [[_ ->]|(ch & Hin & -> & _)]; [done|]. intros _.
  apply list_elem_of_omap in Hin as (c & _ & (-> & ? & _)%endpoint_choice_Some). done.
Qed.

(** ** Planning *)

(** What planning needs of a peer: its key and its address. *)
Record peer_planned (localNodeID : string) (localIP : Addr) (p : Peer) (k : Key) (ip : Addr) : Prop := {
  pp_id : blank (pr_NodeID p) = false ∧ pr_NodeID p ≠ localNodeID;
  pp_key : ParseKey (pr_PublicKey p) = Ok k ∧ k ≠ zeroKey;
  pp_ip : ipv4Addr (pr_VirtualIPv4 p) = Some ip ∧ ip ≠ localIP
}.

Definition planned_peer (o : Options) (relay : option RelayAssignment) (p : Peer) (ki : Key * Addr) : Wgnt.Peer :=
  {| wp_PublicKey := ki.1; wp_Endpoint := selectEndpoint p relay;
     wp_PersistentKeepalive := op_PersistentKeepalive o; wp_AllowedIPs := [PrefixFrom ki.2 32] |}.

Lemma plan_peers_spec o ln lip relay seenKeys seenAddresses peers wps routes :
  plan_peers o ln lip relay seenKeys seenAddresses peers = Ok (wps, routes) ↔
  ∃ kis, Forall2 (λ p ki, peer_planned ln lip p ki.1 ki.2) peers kis ∧ NoDup kis.*1 ∧ NoDup kis.*2 ∧
    Forall (λ ki, ki.1 ∉ seenKeys ∧ ki.2 ∉ seenAddresses) kis ∧
    wps = zip_with (planned_peer o relay) peers kis ∧ routes = host_route <$> kis.*2.
Proof.
  revert seenKeys seenAddresses wps routes. induction peers as [|p peers IH]; intros sk sa wps routes; cbn [plan_peers].
  { split.
    - intros [= <- <-]. exists []. split_and!; try done; constructor.
    - intros (kis & ->%Forall2_nil_inv_l & _ & _ & _ & -> & ->). done. }
  split.
  - case_match eqn:E1; [done|]. apply orb_false_iff in E1 as [Hb Hl%bool_decide_eq_false].
    destruct (ParseKey _) as [k|] eqn:Ek; [|done]. unfold Key_IsZero. case_bool_decide as Hz; [done|].
    case_bool_decide as Hsk; [done|]. destruct (ipv4Addr _) as [ip|] eqn:Ei; [|done].
    case_bool_decide as Hlip; [done|]. case_bool_decide as Hsa; [done|].
    destruct (plan_peers _ _ _ _ _ _ _) as [[wps' routes']|] eqn:E; [|done]. intros [= <- <-].
    apply IH in E as (kis & Hall & Hnd1 & Hnd2 & Hseen & -> & ->). exists ((k, ip) :: kis).
    rewrite Forall_forall in Hseen. split_and!.
    + by repeat constructor.
    + simpl. constructor; [|done]. intros (ki & -> & Hin)%list_elem_of_fmap. destruct (Hseen _ Hin) as [Hn _]. apply Hn. by left.
    + simpl. constructor; [|done]. intros (ki & -> & Hin)%list_elem_of_fmap. destruct (Hseen _ Hin) as [_ Hn]. apply Hn. by left.
    + constructor; [done|]. apply Forall_forall. intros ki Hin. destruct (Hseen _ Hin) as [Hn1 Hn2].
      apply not_elem_of_cons in Hn1 as [_ ?], Hn2 as [_ ?]. done.
    + done.
    + done.
  - intros (kis & Hall & Hnd1 & Hnd2 & Hseen & -> & ->).
    apply Forall2_cons_inv_l in Hall as ([k ip] & kis' & [[Hb Hl] [Hk Hz] [Hi Hlip]] & Hall & ->).
    simpl in *. rewrite Hb, Hk, Hi. apply NoDup_cons in Hnd1 as [Hk1 Hnd1], Hnd2 as [Hi1 Hnd2].
    apply Forall_cons in Hseen as [[Hs1 Hs2] Hseen]. simpl in Hs1, Hs2. unfold Key_IsZero.
    rewrite !bool_decide_eq_false_2 by done. simpl.
    rewrite (proj2 (IH (k :: sk) (ip :: sa) (zip_with (planned_peer o relay) peers kis') (host_route <$> kis'.*2))); [done|].
    exists kis'. split_and!; try done. rewrite Forall_forall in Hseen |- *. intros ki Hin. destruct (Hseen _ Hin).
    rewrite !not_elem_of_cons. split_and!; try done.
    + intros <-. apply Hk1. by apply (list_elem_of_fmap_2 fst).
    + intros <-. apply Hi1. by apply (list_elem_of_fmap_2 snd).
Qed.

(** The options of an applier that [NewApplier] made. *)
Definition options_ok (o : Options) : Prop :=
  op_PrivateKey o ≠ zeroKey ∧ keepalive_ok (op_PersistentKeepalive o) = true.

Lemma NewApplier_ok o a : NewApplier o = Ok a → options_ok (ap_options a) ∧ ap_generation a = 0 ∧ ap_state a = zeroState.
Proof.
  unfold NewApplier, Key_IsZero. case_bool_decide; [done|]. case_match eqn:E; [done|]. intros [= <-].
  split_and!; try done. split; [done|]. unfold keepalive_ok. simpl. by rewrite E.
Qed.

Lemma ipv4Addr_Some value ip : ipv4Addr value = Some ip → ip = Addr4 (be_value (To4 value)) ∧ length (To4 value) = 4%nat.
Proof.
  unfold ipv4Addr. destruct (is_nil (To4 value)) eqn:E; [done|]. intros [= <-]. split; [done|]. by apply To4_length.
Qed.

Lemma planned_peers_ok o relay peers (kis : list (Key * Addr)) ln lip :
  options_ok o → Forall2 (λ p ki, peer_planned ln lip p ki.1 ki.2) peers kis →
  Forall peer_ok (zip_with (planned_peer o relay) peers kis) ∧
  wp_PublicKey <$> zip_with (planned_peer o relay) peers kis = kis.*1.
Proof.
  intros [_ Hka]. induction 1 as [|p [k ip] peers kis [_ [_ Hz] [Hi _]] _ [IH1 IH2]]; [by repeat constructor|]. simpl.
  split; [|by f_equal]. constructor; [|done]. simpl in Hi, Hz. apply ipv4Addr_Some in Hi as [-> _]. constructor; simpl.
  - done.
  - apply selectEndpoint_port.
  - by apply keepalive_ok_spec.
  - by repeat constructor.
Qed.

Lemma planned_valid o relay peers (kis : list (Key * Addr)) ln lip :
  options_ok o → Forall2 (λ p ki, peer_planned ln lip p ki.1 ki.2) peers kis → NoDup kis.*1 →
  Validate {| cf_PrivateKey := op_PrivateKey o; cf_ListenPort := op_ListenPort o;
              cf_Peers := zip_with (planned_peer o relay) peers kis; cf_ReplacePeers := true |} = None.
Proof.
  intros Ho Hall Hnd. destruct (planned_peers_ok o relay peers kis ln lip Ho Hall) as [Hok Hkeys].
  unfold Validate, Key_IsZero. simpl. rewrite bool_decide_eq_false_2 by apply Ho.
  apply validate_peers_spec. rewrite Hkeys. split_and!; try done. apply Forall_forall. set_solver.
Qed.

(** What a snapshot needs to be applied. *)
Record plannable (s : NetworkSnapshot) (localIP : Addr) (kis : list (Key * Addr)) : Prop := {
  pl_ids : blank (sn_NetworkID s) = false ∧ blank (sn_LocalNodeID s) = false;
  pl_local : ipv4Addr (sn_LocalVirtualIPv4 s) = Some localIP;
  pl_peers : Forall2 (λ p ki, peer_planned (sn_LocalNodeID s) localIP p ki.1 ki.2) (sn_Peers s) kis;
  pl_keys : NoDup kis.*1;
  pl_ips : NoDup kis.*2
}.

Definition planned (o : Options) (s : NetworkSnapshot) (localIP : Addr) (kis : list (Key * Addr))
    : Configuration * Address * list Route :=
  ({| cf_PrivateKey := op_PrivateKey o; cf_ListenPort := op_ListenPort o;
      cf_Peers := zip_with (planned_peer o (snapshot_relay_of s)) (sn_Peers s) kis; cf_ReplacePeers := true |},
   {| na_IP := localIP; na_PrefixLength := 32; na_InterfaceLUID := 0 |}, host_route <$> kis.*2).

Lemma plan_spec o s x :
  options_ok o → plan o s = Ok x ↔ ∃ localIP kis, plannable s localIP kis ∧ x = planned o s localIP kis.
Proof.
  intros Ho. unfold plan. split.
  - case_match eqn:E; [done|]. apply orb_false_iff in E. destruct (ipv4Addr _) as [lip|] eqn:El; [|done].
    destruct (plan_peers _ _ _ _ _ _ _) as [[wps routes]|] eqn:Ep; [|done].
    apply plan_peers_spec in Ep as (kis & Hall & Hnd1 & Hnd2 & _ & -> & ->).
    rewrite (planned_valid o _ _ _ _ _ Ho Hall Hnd1). intros [= <-]. exists lip, kis. done.
  - intros (lip & kis & [[Hn Hl] Hlip Hall Hnd1 Hnd2] & ->). rewrite Hn, Hl, Hlip. simpl.
    rewrite (proj2 (plan_peers_spec o _ lip (snapshot_relay_of s) [] [] (sn_Peers s)
      (zip_with (planned_peer o (snapshot_relay_of s)) (sn_Peers s) kis) (host_route <$> kis.*2))).
    2: { exists kis. split_and!; try done. apply Forall_forall. intros ki _. split; apply not_elem_of_nil. }
    by rewrite (planned_valid o _ _ _ _ _ Ho Hall Hnd1).
Qed.

(** ** Snapshots of the repository can be applied *)

(** The stored public keys are WireGuard keys, different nodes having different
    ones. *)
Definition keys_ok (r : MemoryRepository) : Prop :=
  (∀ id n, nodes r !! id = Some n → ∃ k, ParseKey (nd_PublicKey n) = Ok k ∧ k ≠ zeroKey) ∧
  (∀ id id' n n' k, nodes r !! id = Some n → nodes r !! id' = Some n' →
     ParseKey (nd_PublicKey n) = Ok k → ParseKey (nd_PublicKey n') = Ok k → id = id').

Definition decoded_key (p : Peer) : Key := match ParseKey (pr_PublicKey p) with Ok k => k | Err _ => [] end.

Lemma ValidateMembership_ids m :
  ValidateMembership m = None → blank (mb_NetworkID m) = false ∧ blank (mb_NodeID m) = false.
Proof.
  unfold ValidateMembership, required. destruct (blank (mb_NetworkID m)); [done|]. by destruct (blank (mb_NodeID m)).
Qed.

Lemma NoDup_fmap_eq {A B} (f : A → B) l x y : NoDup (f <$> l) → x ∈ l → y ∈ l → f x = f y → x = y.
Proof.
  intros Hnd [i Hi]%list_elem_of_lookup [j Hj]%list_elem_of_lookup Heq.
  assert (i = j) as ->; [|congruence]. eapply NoDup_lookup; [done|by rewrite list_lookup_fmap, Hi|].
  by rewrite list_lookup_fmap, Hj, Heq.
Qed.

Lemma AddrFrom4_inj x y :
  length x = 4%nat → length y = 4%nat → Forall is_byte x → Forall is_byte y → AddrFrom4 x = AddrFrom4 y → x = y.
Proof. intros ? ? ? ? [= Heq]. apply be_value_inj; congruence. Qed.

Lemma snapshot_plannable r net local now s :
  repo_wf r → keys_ok r → snapshot_of r net local now s →
  ∃ localIP kis, plannable s localIP kis.
Proof.
  intros Hwf [Hkey Hinj] Hof. pose proof (snapshot_addresses _ _ _ _ _ Hwf Hof) as [Hl Hnd]%NoDup_cons.
  destruct Hof as [(n & Hn & Hnet & _) (m & Hm & _ & Hlocal & Hip) Hp Hs _ _].
  destruct (wf_members _ Hwf) as [Hm1 _], (wf_nodes _ Hwf) as [Hn1 _].
  destruct (Hm1 _ _ _ Hm) as (Hmn & Hmid & Hmv & Hlen & Hbytes & _).
  apply ValidateMembership_ids in Hmv as [Hb1 Hb2]. rewrite Hmn in Hb1. rewrite Hmid in Hb2. rewrite <- Hip in Hlen, Hbytes.
  assert (NoDup (sn_Peers s)) as Hnd'.
  { eapply StronglySorted_irrefl_NoDup; [|exact Hs]. unfold by_NodeID. intros x. by rewrite sltb_irrefl. }
  (* each peer: its node, key and address *)
  assert (∀ p, p ∈ sn_Peers s → ∃ nd n', nd ≠ local ∧ pr_NodeID p = nd ∧ blank nd = false ∧ nodes r !! nd = Some n' ∧
    pr_PublicKey p = nd_PublicKey n' ∧ length (pr_VirtualIPv4 p) = 4%nat ∧ Forall is_byte (pr_VirtualIPv4 p)) as Hpeer.
  { intros p (nd & m' & n' & Hne & Hm' & _ & Hn' & ->)%Hp. destruct (Hm1 _ _ _ Hm') as (_ & Hid & Hv & ? & ? & _).
    apply ValidateMembership_ids in Hv as [_ Hb]. destruct (Hn1 _ _ Hn') as (Hid' & _). simpl. rewrite Hid in Hb.
    exists nd, n'. split_and!; done. }
  assert (∀ p, p ∈ sn_Peers s → ParseKey (pr_PublicKey p) = Ok (decoded_key p) ∧ decoded_key p ≠ zeroKey) as Hdec.
  { intros p (nd & n' & _ & _ & _ & Hn' & Hpk & _)%Hpeer. destruct (Hkey _ _ Hn') as (k & Hk & Hz).
    unfold decoded_key. by rewrite Hpk, Hk. }
  assert (∀ p q, p ∈ sn_Peers s → q ∈ sn_Peers s → pr_NodeID p = pr_NodeID q → p = q) as Hsame.
  { intros p q (nd & m1 & n1 & _ & Hm1' & _ & Hn1' & ->)%Hp (nd' & m2 & n2 & _ & Hm2' & _ & Hn2' & ->)%Hp Heq. simpl in Heq.
    destruct (Hm1 _ _ _ Hm1') as (_ & Hi1 & _), (Hm1 _ _ _ Hm2') as (_ & Hi2 & _).
    destruct (Hn1 _ _ Hn1') as [Hj1 _], (Hn1 _ _ Hn2') as [Hj2 _]. assert (nd = nd') as <- by congruence. congruence. }
  assert (∀ ip, length ip = 4%nat → ipv4Addr ip = Some (AddrFrom4 ip)) as Hipv4.
  { intros ip Hlen'. unfold ipv4Addr. by rewrite To4_4, is_nil_4. }
  exists (AddrFrom4 (sn_LocalVirtualIPv4 s)), ((λ p, (decoded_key p, AddrFrom4 (pr_VirtualIPv4 p))) <$> sn_Peers s).
  constructor; rewrite <- ?list_fmap_compose; [split; congruence|auto|..]; simpl.
  - apply Forall2_fmap_r, Forall_Forall2_diag, Forall_forall. intros p Hin. simpl.
    destruct (Hpeer p Hin) as (nd & n' & Hne & Hid & Hb & Hn' & _ & Hlen' & Hbytes'). destruct (Hdec p Hin).
    constructor; [rewrite Hlocal, Hid; done|done|]. split; [auto|]. intros Heq%AddrFrom4_inj; try done.
    apply Hl. rewrite <- Heq. by apply list_elem_of_fmap_2.
  - apply NoDup_fmap_inj_on; [done|]. intros p q Hpin Hqin Heq. simpl in Heq.
    destruct (Hpeer p Hpin) as (nd & n1 & _ & Hi1 & _ & Hn1' & Hk1 & _), (Hpeer q Hqin) as (nd' & n2 & _ & Hi2 & _ & Hn2' & Hk2 & _).
    destruct (Hdec p Hpin) as [Hd1 _], (Hdec q Hqin) as [Hd2 _]. rewrite Hk1 in Hd1. rewrite Hk2, <- Heq in Hd2.
    apply Hsame; try done. rewrite Hi1, Hi2. by eapply Hinj.
  - apply NoDup_fmap_inj_on; [done|]. intros p q Hpin Hqin Heq. simpl in Heq.
    destruct (Hpeer p Hpin) as (_ & _ & _ & _ & _ & _ & _ & ? & ?), (Hpeer q Hqin) as (_ & _ & _ & _ & _ & _ & _ & ? & ?).
    apply AddrFrom4_inj in Heq; try done. by eapply (NoDup_fmap_eq pr_VirtualIPv4).
Qed.

(** ** Applying *)

(** What is visible of the data plane, and what its operations promise. A failed
    configuration may leave the adapter in any state. *)
Class DataPlaneLaws (W : Type) `{Adapter W} `{RouteManager W} := {
  dp_config : W → Handle → option Configuration;
  dp_up : W → Handle → bool;
  dp_routes : W → option (Address * list Route);
  law_Ensure name w :
    let w' := (ad_Ensure name w).2 in dp_config w' = dp_config w ∧ dp_up w' = dp_up w ∧ dp_routes w' = dp_routes w;
  law_Status ctx h w :
    let w' := (ad_Status ctx h w).2 in dp_config w' = dp_config w ∧ dp_up w' = dp_up w ∧ dp_routes w' = dp_routes w;
  law_Reconcile ctx a rs w :
    let '(o, w') := rm_Reconcile ctx a rs w in
    dp_config w' = dp_config w ∧ dp_up w' = dp_up w ∧
    dp_routes w' = if is_ok o then Some (a, rs) else dp_routes w;
  law_Configure ctx h c w :
    let '(o, w') := ad_Configure ctx h c w in
    dp_routes w' = dp_routes w ∧ dp_up w' = dp_up w ∧ (∀ h', h' ≠ h → dp_config w' h' = dp_config w h') ∧
    (is_ok o = true → dp_config w' h = Some c);
  law_SetUp ctx h w :
    let '(o, w') := ad_SetUp ctx h w in
    dp_routes w' = dp_routes w ∧ dp_config w' = dp_config w ∧ (∀ h', h' ≠ h → dp_up w' h' = dp_up w h') ∧
    (is_ok o = true → dp_up w' h = true);
  law_Clear ctx w :
    let '(o, w') := rm_Clear ctx w in
    dp_config w' = dp_config w ∧ dp_up w' = dp_up w ∧ (is_ok o = true → dp_routes w' = None);
  law_SetDown ctx h w :
    let '(o, w') := ad_SetDown ctx h w in
    dp_routes w' = dp_routes w ∧ dp_config w' = dp_config w ∧ (∀ h', h' ≠ h → dp_up w' h' = dp_up w h');
  law_Delete ctx h w :
    let '(o, w') := ad_Delete ctx h w in
    dp_routes w' = dp_routes w ∧ (∀ h', h' ≠ h → dp_config w' h' = dp_config w h' ∧ dp_up w' h' = dp_up w h') ∧
    (is_ok o = true → dp_config w' h = None ∧ dp_up w' h = false)
}.

(** The data plane is what the applier's record says. *)
Definition in_sync {W} `{DataPlaneLaws W} (st : appliedState) (w : W) : Prop :=
  if as_applied st
  then dp_config w (as_handle st) = Some (as_config st) ∧ (as_up st = true → dp_up w (as_handle st) = true) ∧
       dp_routes w = Some (as_address st, as_routes st)
  else dp_routes w = None.

(** Whether an undo step failed as well. *)
Definition is_join (e : error) : bool := match e with EJoin _ _ => true | _ => false end.

Section ApplyFacts.
Context {W : Type} `{DataPlaneLaws W}.
Variable ctx : Context.

Lemma attempt_join_ok (m : M W unit) joined w ok joined' w' :
  attempt_join m joined w = (ok, joined', w') → is_join joined' = false →
  ok = true ∧ joined' = joined ∧ m w = (Ok tt, w').
Proof. unfold attempt_join. destruct (m w) as [[[]|e] w1]; by intros [= <- <- <-]. Qed.

(** An undo without errors brings the data plane back to the record. *)
Lemma applier_rollback_sync previous handle original w joined w' :
  applier_rollback ctx previous handle original w = (joined, w') → is_join joined = false →
  in_sync previous w'.
Proof.
  unfold applier_rollback, in_sync. destruct (as_applied previous).
  - destruct (attempt_join (rm_Reconcile _ _ _) _ _) as [[ok1 j1] w1] eqn:E1.
    destruct (attempt_join (ad_Configure _ _ _) _ _) as [[ok2 j2] w2] eqn:E2.
    destruct (ok2 && as_up previous) eqn:Eu.
    + destruct (attempt_join (ad_SetUp _ _) _ _) as [[ok3 j3] w3] eqn:E3. intros [= <- <-] Hj.
      apply attempt_join_ok in E3 as (_ & -> & E3); [|done]. apply attempt_join_ok in E2 as (_ & -> & E2); [|done].
      apply attempt_join_ok in E1 as (_ & -> & E1); [|done].
      pose proof (law_Reconcile ctx (as_address previous) (as_routes previous) w) as L1. rewrite E1 in L1.
      pose proof (law_Configure ctx (as_handle previous) (as_config previous) w1) as L2. rewrite E2 in L2.
      pose proof (law_SetUp ctx (as_handle previous) w2) as L3. rewrite E3 in L3.
      destruct L1 as (_ & _ & L1), L2 as (L2r & _ & _ & L2), L3 as (L3r & L3c & _ & L3). simpl in L1.
      rewrite L3r, L2r, L1, L3c. auto.
    + intros [= <- <-] Hj. apply attempt_join_ok in E2 as (-> & -> & E2); [|done].
      apply attempt_join_ok in E1 as (_ & -> & E1); [|done]. simpl in Eu.
      pose proof (law_Reconcile ctx (as_address previous) (as_routes previous) w) as L1. rewrite E1 in L1.
      pose proof (law_Configure ctx (as_handle previous) (as_config previous) w1) as L2. rewrite E2 in L2.
      destruct L1 as (_ & _ & L1), L2 as (L2r & _ & _ & L2). simpl in L1. rewrite L2r, L1. split_and!; [auto|congruence|done].
  - destruct (attempt_join (rm_Clear _) _ _) as [[ok1 j1] w1] eqn:E1.
    destruct (attempt_join (ad_SetDown _ _) _ _) as [[ok2 j2] w2] eqn:E2.
    destruct (attempt_join (ad_Delete _ _) _ _) as [[ok3 j3] w3] eqn:E3. intros [= <- <-] Hj.
    apply attempt_join_ok in E3 as (_ & -> & E3); [|done]. apply attempt_join_ok in E2 as (_ & -> & E2); [|done].
    apply attempt_join_ok in E1 as (_ & -> & E1); [|done].
    pose proof (law_Clear ctx w) as L1. rewrite E1 in L1. pose proof (law_SetDown ctx handle w1) as L2. rewrite E2 in L2.
    pose proof (law_Delete ctx handle w2) as L3. rewrite E3 in L3.
    destruct L1 as (_ & _ & L1), L2 as (L2 & _), L3 as (L3 & _). rewrite L3, L2. auto.
Qed.

(** The applied record of a snapshot. *)
Definition applied_from (o : Options) (s : NetworkSnapshot) (st : appliedState) : Prop :=
  ∃ localIP kis luid, plannable s localIP kis ∧ luid ≠ 0 ∧ as_applied st = true ∧ as_up st = true ∧
    as_networkID st = sn_NetworkID s ∧ as_config st = (planned o s localIP kis).1.1 ∧
    as_address st = {| na_IP := localIP; na_PrefixLength := 32; na_InterfaceLUID := luid |} ∧
    as_routes st = with_luid luid <$> (host_route <$> kis.*2).

Lemma Apply_run s a w :
  options_ok (ap_options a) →
  let '(o, (a', w')) := Apply ctx s (a, w) in
  match o with
  | Ok _ => sn_Generation s = ap_generation a ∧ a' = a ∧ w' = w ∨
      ap_generation a < sn_Generation s ∧ ap_generation a' = sn_Generation s ∧ ap_options a' = ap_options a ∧
      applied_from (ap_options a) s (ap_state a') ∧ in_sync (ap_state a') w'
  | Err e => a' = a ∧ (in_sync (ap_state a) w → is_join e = false → in_sync (ap_state a) w')
  end.
Proof.
  intros Ho. unfold Apply. destruct (checkContext ctx); [done|].
  destruct (sn_Generation s <=? 0) eqn:Eg0; [done|]. destruct (sn_Generation s <? ap_generation a) eqn:Eg1; [done|].
  destruct (sn_Generation s =? ap_generation a) eqn:Eg2; [left; split_and!; [lia|done..]|].
  destruct (plan (ap_options a) s) as [[[c addr] rs]|] eqn:Ep; [|done].
  apply plan_spec in Ep as (lip & kis & Hpl & [= -> -> ->]); [|done].
  assert (∀ w1 w2 : W, dp_config w2 = dp_config w1 ∧ dp_up w2 = dp_up w1 ∧ dp_routes w2 = dp_routes w1 →
    in_sync (ap_state a) w1 → in_sync (ap_state a) w2) as Hsame.
  { intros w1 w2 (H3 & H4 & H5). unfold in_sync. by rewrite H3, H4, H5. }
  pose proof (law_Ensure (op_InterfaceName (ap_options a)) w) as L1.
  destruct (ad_Ensure _ w) as [[h|e] w1]; simpl in L1; [|by split; eauto].
  destruct (negb (Handle_Valid h)); [by split; eauto|].
  pose proof (law_Status ctx h w1) as L2. destruct (ad_Status ctx h w1) as [[status|e] w2]; simpl in L2; [|by split; eauto].
  destruct (st_LUID status =? 0) eqn:El; [by split; eauto|]. cbv zeta.
  match goal with |- context [rm_Reconcile ctx ?x ?y w2] => set (address := x); set (routes := y) end.
  pose proof (law_Reconcile ctx address routes w2) as L3.
  destruct (rm_Reconcile ctx address routes w2) as [[u|e] w3]; simpl in L3; [|by split; eauto].
  match goal with |- context [ad_Configure ctx h ?x w3] => set (config := x) end.
  pose proof (law_Configure ctx h config w3) as L4. destruct (ad_Configure ctx h config w3) as [[u'|e] w4].
  2: { destruct (applier_rollback _ _ _ _ _) as [j w'] eqn:Er. split; [done|]. intros _ Hj. by eapply applier_rollback_sync. }
  pose proof (law_SetUp ctx h w4) as L5. destruct (ad_SetUp ctx h w4) as [[u''|e] w5].
  2: { destruct (applier_rollback _ _ _ _ _) as [j w'] eqn:Er. split; [done|]. intros _ Hj. by eapply applier_rollback_sync. }
  right. split_and!; [lia|done|done| |].
  - exists lip, kis, (st_LUID status). split_and!; try done. lia.
  - unfold in_sync. simpl. destruct L3 as (_ & _ & L3), L4 as (L4r & _ & _ & L4), L5 as (L5r & L5c & _ & L5).
    rewrite L5r, L4r, L3, L5c. auto.
Qed.

End ApplyFacts.

(** ** A data plane that fails on schedule *)
Record Plane := {
  pn_config : gmap Z Configuration; pn_up : gset Z; pn_routes : option (Address * list Route); pn_failures : list bool
}.
Definition plane_step {A} (a : A) (f : Plane → Plane) : M Plane A := λ w,
  let rest := {| pn_config := pn_config w; pn_up := pn_up w; pn_routes := pn_routes w; pn_failures := tail (pn_failures w) |} in
  match head (pn_failures w) with Some true => (Err (EForeign 2), rest) | _ => (Ok a, f rest) end.
Definition plane_with_config (c : gmap Z Configuration → gmap Z Configuration) (u : gset Z → gset Z) (w : Plane) : Plane :=
  {| pn_config := c (pn_config w); pn_up := u (pn_up w); pn_routes := pn_routes w; pn_failures := pn_failures w |}.
Definition plane_with_routes (r : option (Address * list Route)) (w : Plane) : Plane :=
  {| pn_config := pn_config w; pn_up := pn_up w; pn_routes := r; pn_failures := pn_failures w |}.
Definition plane_status : Status :=
  {| st_Name := "IPv6Mesh"; st_LUID := 7; st_Up := false; st_PublicKey := zeroKey; st_ListenPort := 0; st_Peers := [] |}.

#[global] Instance Plane_Adapter : Adapter Plane := {|
  ad_Ensure _ := plane_step 1 id;
  ad_Configure _ h c := plane_step tt (plane_with_config <[h := c]> id);
  ad_SetUp _ h := plane_step tt (plane_with_config id (λ u, {[h]} ∪ u));
  ad_SetDown _ h := plane_step tt (plane_with_config id (λ u, u ∖ {[h]}));
  ad_Delete _ h := plane_step tt (plane_with_config (delete h) (λ u, u ∖ {[h]}));
  ad_Status _ h := plane_step plane_status id
|}.
#[global] Instance Plane_RouteManager : RouteManager Plane := {|
  rm_Reconcile _ a rs := plane_step tt (plane_with_routes (Some (a, rs)));
  rm_Clear _ := plane_step tt (plane_with_routes None)
|}.
#[global] Instance Plane_laws : DataPlaneLaws Plane.
Proof.
  refine {| dp_config w h := pn_config w !! h; dp_up w h := bool_decide (h ∈ pn_up w); dp_routes := pn_routes |}.
  - intros name w. simpl. unfold plane_step. by destruct (head (pn_failures w)) as [[]|].
  - intros ctx h w. simpl. unfold plane_step. by destruct (head (pn_failures w)) as [[]|].
  - intros ctx a rs w. simpl. unfold plane_step. by destruct (head (pn_failures w)) as [[]|].
  - intros ctx h c w. simpl. unfold plane_step.
    destruct (head (pn_failures w)) as [[]|]; simpl; split_and!; try done; intros; by rewrite ?lookup_insert_eq, ?lookup_insert_ne by done.
  - intros ctx h w. simpl. unfold plane_step.
    destruct (head (pn_failures w)) as [[]|]; simpl; split_and!; try done; intros;
      first [apply bool_decide_ext; set_solver|apply bool_decide_eq_true_2; set_solver].
  - intros ctx w. simpl. unfold plane_step. by destruct (head (pn_failures w)) as [[]|].
  - intros ctx h w. simpl. unfold plane_step.
    destruct (head (pn_failures w)) as [[]|]; simpl; split_and!; try done; intros; apply bool_decide_ext; set_solver.
  - intros ctx h w. simpl. unfold plane_step.
    destruct (head (pn_failures w)) as [[]|]; simpl; split_and!; try done; intros; rewrite ?lookup_delete_eq, ?lookup_delete_ne by done;
      (split; [done|]); first [apply bool_decide_ext; set_solver|apply bool_decide_eq_false_2; set_solver].
Defined.

(** ** Claims *)

(** The endpoint chosen for a peer is the best one. It is the zero value
    exactly if no candidate is eligible; otherwise it is that of an eligible
    candidate, globally routable and with a port, such that no other eligible one
    comes before it in the order family, priority, newest observation, text;
    in particular an IPv4 endpoint is only chosen when there is no IPv6 one. *)
Theorem selectEndpoint_best peer relay :
  (choices peer relay = [] ∧ selectEndpoint peer relay = AddrPort_zero) ∨
  ∃ ch, ch ∈ choices peer relay ∧ selectEndpoint peer relay = ec_address ch ∧
    ap_port (ec_address ch) ≠ 0 ∧ IsGlobalUnicast (ap_ip (ec_address ch)) = true ∧
    (∀ ch', ch' ∈ choices peer relay → choice_less ch' ch = false) ∧
    (Is6 (ap_ip (ec_address ch)) = false → ∀ ch', ch' ∈ choices peer relay → Is6 (ap_ip (ec_address ch')) = false).
Proof.
  destruct (selectEndpoint_spec peer relay) as [?|(ch & Hin & -> & Hmin)]; [by left|right]. exists ch.
  assert (∀ c, c ∈ choices peer relay → ap_port (ec_address c) ≠ 0 ∧ IsGlobalUnicast (ap_ip (ec_address c)) = true ∧
    ec_family c = if Is6 (ap_ip (ec_address c)) then 0 else 1) as Hc.
  { intros c (x & _ & (-> & ? & _ & ? & ?)%endpoint_choice_Some)%list_elem_of_omap. done. }
  destruct (Hc ch Hin) as (? & ? & Hf). split_and!; try done. intros H6 ch' Hin'. destruct (Hc ch' Hin') as (_ & _ & Hf').
  destruct (Is6 (ap_ip (ec_address ch'))); [|done]. specialize (Hmin ch' Hin'). rewrite H6 in Hf.
  unfold choice_less, lex_less in Hmin. rewrite decide_False in Hmin by congruence. by rewrite Hf, Hf' in Hmin.
Qed.

(** Planning accepts exactly the snapshots that describe an overlay, and plans
    exactly that overlay: one WireGuard peer and one host route per peer, with
    its key, its address and its best endpoint. A plan exists if and only if the
    network and the local node are named, the local address is IPv4, and the
    peers are other nodes with valid, pairwise different keys and pairwise
    different addresses that are not the local one. *)
Theorem plan_correct o s x :
  options_ok o → (plan o s = Ok x ↔ ∃ localIP kis, plannable s localIP kis ∧ x = planned o s localIP kis).
Proof. apply plan_spec. Qed.

(** C6: what the control plane hands out, the data plane can apply. For every
    repository that the program can reach, whose nodes registered WireGuard keys
    of their own, every snapshot it builds can be planned. *)
Theorem snapshot_applies o maxAge wall ctx net local now r s r' :
  reachable maxAge r → keys_ok r → options_ok o →
  BuildSnapshotAt wall ctx net local now r = (Ok s, r') →
  ∃ localIP kis, plan o s = Ok (planned o s localIP kis) ∧ length kis = length (sn_Peers s).
Proof.
  intros Hh Hk Ho Hb. pose proof (reachable_wf_ _ _ Hh) as Hwf.
  pose proof (BuildSnapshotAt_run wall ctx net local now r Hwf) as Hrun. rewrite Hb in Hrun.
  unfold outcome in Hrun. simpl in Hrun. destruct Hrun as (_ & _ & _ & Hof).
  destruct (snapshot_plannable _ _ _ _ _ Hwf Hk Hof) as (lip & kis & Hp). exists lip, kis. split.
  - apply plan_spec; [done|]. eauto.
  - symmetry. by eapply Forall2_length, Hp.
Qed.


(** C40: a clear that fails half-way is taken for an applied snapshot. When
    [Clear] returns an error the applier keeps its generation, although routes
    may be gone already, and applying the snapshot of that generation again
    returns success without touching the system. *)
Theorem Clear_failed_then_Apply {W} {A : Adapter W} {RM : RouteManager W} ctx ctx' a (w : W) e a' w' s :
  applier_Clear ctx (a, w) = (Err e, (a', w')) → checkContext ctx' = None → 0 < ap_generation a →
  sn_Generation s = ap_generation a → Apply ctx' s (a', w') = (Ok tt, (a', w')).
Proof.
  intros Hc Hctx Hpos Hg. assert (a' = a) as ->.
  { unfold applier_Clear in Hc. destruct (checkContext ctx); [congruence|]. destruct (negb _); [done|].
    destruct (rm_Clear ctx w) as [r1 w1], (ad_SetDown ctx _ w1) as [r2 w2], (ad_Delete ctx _ w2) as [r3 w3].
    case_match; congruence. }
  unfold Apply. rewrite Hctx, Hg. rewrite (proj2 (Z.leb_gt _ _)), Z.ltb_irrefl, Z.eqb_refl by lia. done.
Qed.

(** ** Two nodes with keys, their repository and its data plane *)
Definition plane_key (n : Z) : Key := replicate 32 n.
Definition plane_ops : list op :=
  [OCreateNetwork demo_network; OAddNode (demo_node "a" (Base64 (plane_key 1))); OAddNode (demo_node "b" (Base64 (plane_key 2)));
   OAddMembership (demo_member "a" [10; 0; 0; 1]); OAddMembership (demo_member "b" [10; 0; 0; 2]);
   OReplaceEndpoints "b" [demo_endpoint "b" 5]].
Definition plane_repo : MemoryRepository := (exec_all plane_ops liveContext NewMemoryRepository).2.
Definition plane_options : Options :=
  {| op_PrivateKey := plane_key 1; op_InterfaceName := "IPv6Mesh"; op_ListenPort := 51820; op_PersistentKeepalive := 25 * Second |}.

Lemma plane_reachable : reachable DefaultEndpointMaxAge plane_repo.
Proof.
  assert (plane_repo = (WithTransaction liveContext (Some (exec_all plane_ops)) NewMemoryRepository).2) as ->
    by (vm_compute; reflexivity).
  exists (length plane_ops + 0)%nat. apply history_transaction with liveContext; [|apply history_refl].
  repeat constructor; simpl; unfold int64, MaxInt64, is_byte; lia.
Qed.

Lemma plane_keys_ok : keys_ok plane_repo.
Proof.
  assert (nodes plane_repo = <["a" := demo_node "a" (Base64 (plane_key 1))]> {["b" := demo_node "b" (Base64 (plane_key 2))]})
    as Hn by (vm_compute; reflexivity).
  assert (∀ id n, nodes plane_repo !! id = Some n → ∃ v, id = (if bool_decide (v = 1) then "a" else "b") ∧ (v = 1 ∨ v = 2) ∧
    ParseKey (nd_PublicKey n) = Ok (plane_key v)) as Hcases.
  { rewrite Hn. intros id n [[<- <-]|[_ [<- <-]%lookup_singleton_Some]]%lookup_insert_Some; [exists 1|exists 2];
      (split_and!; [reflexivity|auto|vm_compute; reflexivity]). }
  split.
  - intros id n (v & _ & Hv & Hk)%Hcases. exists (plane_key v). split; [done|]. destruct Hv as [-> | ->]; discriminate.
  - intros id id' n n' k (v & -> & Hv & Hk)%Hcases (v' & -> & Hv' & Hk')%Hcases H1 H2. rewrite Hk in H1. rewrite Hk' in H2.
    destruct Hv as [-> | ->], Hv' as [-> | ->]; [done|..|done]; rewrite <- H1 in H2; discriminate H2.
Qed.

Lemma plane_options_ok : options_ok plane_options.
Proof. split; [discriminate|reflexivity]. Qed.

Definition plane_snapshot : result NetworkSnapshot * MemoryRepository := BuildSnapshotAt 9 liveContext "net" "a" 8 plane_repo.

Lemma plane_snapshot_ok :
  match plane_snapshot with
  | (Ok s, _) => length (sn_Peers s) = 1%nat ∧ is_ok (plan plane_options s) = true
  | _ => False
  end.
Proof. vm_compute. split; reflexivity. Qed.

Lemma snapshot_applies_witness :
  ∃ s r' localIP kis, plane_snapshot = (Ok s, r') ∧
    plan plane_options s = Ok (planned plane_options s localIP kis) ∧ length kis = 1%nat.
Proof.
  pose proof plane_snapshot_ok as Hok. destruct plane_snapshot as [[s|e] r'] eqn:Hs; [|destruct Hok].
  destruct (snapshot_applies plane_options DefaultEndpointMaxAge 9 liveContext "net" "a" 8 plane_repo s r'
    plane_reachable plane_keys_ok plane_options_ok Hs) as (lip & kis & Hp & Hk).
  exists s, r', lip, kis. split; [reflexivity|]. split; [exact Hp|]. rewrite Hk. apply Hok.
Defined.

Lemma plan_correct_witness :
  ∃ s r' x, plane_snapshot = (Ok s, r') ∧ plan plane_options s = Ok x ∧
    ∃ localIP kis, plannable s localIP kis ∧ x = planned plane_options s localIP kis.
Proof.
  pose proof plane_snapshot_ok as Hok. destruct plane_snapshot as [[s|e] r']; [|destruct Hok].
  destruct Hok as [_ Hok]. destruct (plan plane_options s) as [x|e] eqn:Hp; [|discriminate Hok].
  exists s, r', x. split; [reflexivity|]. split; [exact Hp|].
  apply (plan_correct plane_options s x plane_options_ok). exact Hp.
Defined.

(** The first snapshot is applied; a second one, whose configuration fails, is
    undone; then the applier is cleared and the adapter does not go down. *)
Definition plane_empty (failures : list bool) : Plane :=
  {| pn_config := ∅; pn_up := ∅; pn_routes := None; pn_failures := failures |}.
Definition plane_applier : Applier := {| ap_options := plane_options; ap_state := zeroState; ap_generation := 0 |}.
Definition with_generation (g : Z) (s : NetworkSnapshot) : NetworkSnapshot :=
  {| sn_NetworkID := sn_NetworkID s; sn_Generation := g; sn_ConfigVersion := g; sn_LocalNodeID := sn_LocalNodeID s;
     sn_LocalVirtualIPv4 := sn_LocalVirtualIPv4 s; sn_Peers := sn_Peers s; sn_RelayAssignment := sn_RelayAssignment s;
     sn_Relay := sn_Relay s; sn_GeneratedAt := sn_GeneratedAt s |}.
Definition plane_sn (g : Z) : NetworkSnapshot :=
  match plane_snapshot.1 with
  | Ok s => with_generation g s
  | Err _ => {| sn_NetworkID := ""; sn_Generation := 0; sn_ConfigVersion := 0; sn_LocalNodeID := ""; sn_LocalVirtualIPv4 := [];
                sn_Peers := []; sn_RelayAssignment := None; sn_Relay := None; sn_GeneratedAt := 0 |}
  end.
(** Five calls succeed, then, of the next three, the third fails. *)
Definition plane_applied : Applier * Plane :=
  (Apply liveContext (plane_sn 4) (plane_applier, plane_empty (replicate 8 false ++ [true]))).2.

Definition plane_applied6 : Applier * Plane :=
  (Apply liveContext (plane_sn 4) (plane_applier, plane_empty (replicate 6 false ++ [true]))).2.

Lemma plane_applied_sync : in_sync (ap_state plane_applied.1) plane_applied.2.
Proof. vm_compute. done. Qed.


Definition plane_cleared : result unit * (Applier * Plane) := applier_Clear liveContext plane_applied6.

Lemma plane_cleared_ok :
  is_ok plane_cleared.1 = false ∧ pn_routes plane_cleared.2.2 = None ∧ ap_generation plane_applied6.1 = 4 ∧
  sn_Generation (plane_sn 4) = 4.
Proof. vm_compute. split_and!; reflexivity. Qed.

Lemma Clear_failed_then_Apply_witness :
  ∃ a w e a' w', applier_Clear liveContext (a, w) = (Err e, (a', w')) ∧ pn_routes w' = None ∧
    Apply liveContext (plane_sn 4) (a', w') = (Ok tt, (a', w')).
Proof.
  pose proof plane_cleared_ok as (Hf & Hr & Hg & Hn). destruct plane_cleared as [[u|e] [a' w']] eqn:Hc; [discriminate Hf|].
  unfold plane_cleared in Hc. destruct plane_applied6 as [a w]. simpl in Hr, Hg.
  exists a, w, e, a', w'. split; [exact Hc|]. split; [exact Hr|].
  apply (Clear_failed_then_Apply liveContext liveContext a w e a' w' (plane_sn 4) Hc);
    [reflexivity|rewrite Hg; reflexivity|rewrite Hg; exact Hn].
Defined.
