(* ===== verification/NetURL.v ===== *)
(** * Uniform resource locators

    What the program uses of [net/url] (Go 1.23): [Parse], [String], [PathEscape]
    and their escapes, on byte strings.  [RawPath] and [Fragment] are emptied by
    the program before a locator is printed, so [String] has no case for them. *)

From S2P Require Import Prelude GoStd.
From Stdlib Require Import Ascii.

Open Scope Z_scope.

(** ** Escapes *)
Inductive encoding := encodePath | encodePathSegment | encodeHost | encodeZone | encodeUserPassword.

Definition between (a b : Z) (c : ascii) : bool := (a <=? code c) && (code c <=? b).
Definition letter (c : ascii) : bool := between 97 122 c || between 65 90 c.
Definition decimal (c : ascii) : bool := between 48 57 c.
Definition one_of (chars : string) (c : ascii) : bool := bool_decide (c ∈ bytes chars).

Definition host_mode (mode : encoding) : bool := match mode with encodeHost | encodeZone => true | _ => false end.

Definition shouldEscape (c : ascii) (mode : encoding) : bool :=
  if letter c || decimal c then false
  else if host_mode mode && (one_of "!$&'()*+,;=:[]<>" c || (code c =? 34)) then false
  else if one_of "-_.~" c then false
  else if one_of "$&+,/:;=?@" c then
    match mode with
    | encodePath => one_of "?" c
    | encodePathSegment => one_of "/;,?" c
    | encodeUserPassword => one_of "@/?:" c
    | _ => true
    end
  else true.

(** A percent escape, [None] for a pair that is not hexadecimal. *)
Definition unhex2 (a b : ascii) : option Z :=
  match unhex a, unhex b with Some x, Some y => Some (16 * x + y) | _, _ => None end.

Definition escape_allowed (mode : encoding) (v : Z) : bool :=
  match mode with
  | encodeHost => negb (v <? 128) || (v =? 37)
  | encodeZone => (v =? 37) || (v =? 32) || negb (shouldEscape (chr v) encodeHost)
  | _ => true
  end.

Fixpoint unescape (mode : encoding) (l : list ascii) : option (list ascii) :=
  match l with
  | [] => Some []
  | c :: l' =>
    if bool_decide (c = "%"%char) then
      match l' with
      | a :: b :: l'' =>
        match unhex2 a b with
        | Some v => if escape_allowed mode v then cons (chr v) <$> unescape mode l'' else None
        | None => None
        end
      | _ => None
      end
    else if host_mode mode && (code c <? 128) && shouldEscape c mode then None
    else cons c <$> unescape mode l'
  end.

Definition upper_digit (d : Z) : ascii := chr (if d <? 10 then 48 + d else 55 + d).
Definition escape_byte (mode : encoding) (c : ascii) : list ascii :=
  if shouldEscape c mode then ["%"%char; upper_digit (code c / 16); upper_digit (code c mod 16)] else [c].
Definition escape (mode : encoding) (l : list ascii) : list ascii := l ≫= escape_byte mode.

Definition PathEscape (s : string) : string := of_bytes (escape encodePathSegment (bytes s)).

(** ** Parsing *)
Record URL := {
  u_Scheme : string; u_Opaque : string; u_User : option (string * option string); u_Host : string; u_Path : string;
  u_OmitHost : bool; u_ForceQuery : bool; u_RawQuery : string; u_Fragment : string
}.

(** [strings.Cut] at a byte: before, after, and whether it was found. *)
Fixpoint cut (c : ascii) (l : list ascii) : list ascii * list ascii * bool :=
  match l with
  | [] => ([], [], false)
  | d :: l' => if bool_decide (d = c) then ([], l', true) else let '(a, b, found) := cut c l' in (d :: a, b, found)
  end.

Definition prefixed (p : string) (l : list ascii) : bool := bool_decide (take (length (bytes p)) l = bytes p).

(** [getScheme]: [None] for a locator that starts with a colon, otherwise the
    scheme, empty when there is none, and the rest. *)
Fixpoint scheme_loop (i : nat) (l : list ascii) : option (option (list ascii * list ascii)) :=
  match l with
  | [] => Some None
  | c :: l' =>
    if letter c || (decimal c || one_of "+-." c) && negb (i =? 0)%nat then
      match scheme_loop (S i) l' with
      | Some (Some (scheme, rest)) => Some (Some (c :: scheme, rest))
      | r => r
      end
    else if bool_decide (c = ":"%char) then (if (i =? 0)%nat then None else Some (Some ([], l')))
    else Some None
  end.
Definition getScheme (l : list ascii) : option (list ascii * list ascii) :=
  match scheme_loop 0 l with
  | None => None
  | Some None => Some ([], l)
  | Some (Some r) => Some r
  end.

Definition validOptionalPort (l : list ascii) : bool :=
  match l with [] => true | c :: l' => bool_decide (c = ":"%char) && forallb decimal l' end.

(** The index of the first [%25]. *)
Fixpoint zone_index (l : list ascii) : option nat :=
  match l with
  | [] => None
  | _ :: l' => if prefixed "%25" l then Some 0%nat else S <$> zone_index l'
  end.

Definition parseHost (host : list ascii) : option (list ascii) :=
  if prefixed "[" host then
    match last_index "]"%char host with
    | None => None
    | Some i =>
      if negb (validOptionalPort (drop (S i) host)) then None
      else match zone_index (take i host) with
      | Some zone =>
        match unescape encodeHost (take zone host), unescape encodeZone (drop zone (take i host)), unescape encodeHost (drop i host) with
        | Some h1, Some h2, Some h3 => Some (h1 ++ h2 ++ h3)
        | _, _, _ => None
        end
      | None => unescape encodeHost host
      end
    end
  else match last_index ":"%char host with
  | Some i => if negb (validOptionalPort (drop i host)) then None else unescape encodeHost host
  | None => unescape encodeHost host
  end.

Definition validUserinfo (l : list ascii) : bool :=
  forallb (λ c, letter c || decimal c || one_of "-._:~!$&'()*+,;=%@" c) l.

(** The user information and the host. *)
Definition parseAuthority (authority : list ascii) : option (option (string * option string) * list ascii) :=
  match last_index "@"%char authority with
  | None => match parseHost authority with Some host => Some (None, host) | None => None end
  | Some i =>
    match parseHost (drop (S i) authority) with
    | None => None
    | Some host =>
      let userinfo := take i authority in
      if negb (validUserinfo userinfo) then None
      else match cut ":"%char userinfo with
      | (_, _, false) =>
        match unescape encodeUserPassword userinfo with Some u => Some (Some (of_bytes u, None), host) | None => None end
      | (username, password, true) =>
        match unescape encodeUserPassword username, unescape encodeUserPassword password with
        | Some u, Some p => Some (Some (of_bytes u, Some (of_bytes p)), host)
        | _, _ => None
        end
      end
    end
  end.

Definition is_control (c : ascii) : bool := (code c <? 32) || (code c =? 127).

(** [parse] without the fragment. *)
Definition parse (l : list ascii) : option URL :=
  let url scheme opaque user host path omit force query :=
    {| u_Scheme := of_bytes scheme; u_Opaque := of_bytes opaque; u_User := user; u_Host := of_bytes host;
       u_Path := of_bytes path; u_OmitHost := omit; u_ForceQuery := force; u_RawQuery := of_bytes query; u_Fragment := "" |} in
  if existsb is_control l then None
  else if bool_decide (l = ["*"%char]) then Some (url [] [] None [] l false false [])
  else match getScheme l with
  | None => None
  | Some (scheme, rest) =>
    let scheme := lower1 <$> scheme in
    let '(rest, query, found) := cut "?"%char rest in
    let force := found && bool_decide (query = []) in
    if negb (prefixed "/" rest) && negb (bool_decide (scheme = [])) then Some (url scheme rest None [] [] false force query)
    else if negb (prefixed "/" rest) && bool_decide (":"%char ∈ (cut "/"%char rest).1.1) then None
    else
      let with_path user host rest omit :=
        match unescape encodePath rest with
        | Some path => Some (url scheme [] user host path omit force query)
        | None => None
        end in
      if (negb (bool_decide (scheme = [])) || negb (prefixed "///" rest)) && prefixed "//" rest then
        let '(authority, path, slash) := cut "/"%char (drop 2 rest) in
        match parseAuthority authority with
        | None => None
        | Some (user, host) => with_path user host (if slash then "/"%char :: path else []) false
        end
      else with_path None [] rest (negb (bool_decide (scheme = [])) && prefixed "/" rest)
  end.

(** [url.Parse]. A fragment is decoded as a path is. *)
Definition url_Parse (s : string) : option URL :=
  let '(u, frag, _) := cut "#"%char (bytes s) in
  match parse u with
  | None => None
  | Some url =>
    if bool_decide (frag = []) then Some url
    else match unescape encodePath frag with
    | None => None
    | Some f => Some {| u_Scheme := u_Scheme url; u_Opaque := u_Opaque url; u_User := u_User url; u_Host := u_Host url;
                        u_Path := u_Path url; u_OmitHost := u_OmitHost url; u_ForceQuery := u_ForceQuery url;
                        u_RawQuery := u_RawQuery url; u_Fragment := of_bytes f |}
    end
  end.

(** ** Printing *)
Definition escape_string (mode : encoding) (s : string) : string := of_bytes (escape mode (bytes s)).
Definition EscapedPath (u : URL) : string := if bool_decide (u_Path u = "*") then "*" else escape_string encodePath (u_Path u).
Definition user_String (user : option (string * option string)) : string :=
  match user with
  | None => ""
  | Some (name, password) =>
    (escape_string encodeUserPassword name
     +:+ match password with Some p => ":" +:+ escape_string encodeUserPassword p | None => "" end +:+ "@")%string
  end.

(** [String] of a locator without fragment. *)
Definition URL_String (u : URL) : string :=
  let no_scheme := bool_decide (u_Scheme u = "") in
  let no_host := bool_decide (u_Host u = "") in
  let no_user := bool_decide (u_User u = None) in
  let scheme := if no_scheme then "" else (u_Scheme u +:+ ":")%string in
  let query := if u_ForceQuery u || negb (bool_decide (u_RawQuery u = "")) then ("?" +:+ u_RawQuery u)%string else "" in
  if negb (bool_decide (u_Opaque u = "")) then (scheme +:+ u_Opaque u +:+ query)%string
  else
    let authority :=
      if (no_scheme && no_host && no_user) || (u_OmitHost u && no_host && no_user) then ""
      else ((if no_host && bool_decide (u_Path u = "") && no_user then "" else "//")
            +:+ user_String (u_User u) +:+ escape_string encodeHost (u_Host u))%string in
    let path := EscapedPath u in
    let slash := if negb (bool_decide (path = "")) && negb (HasPrefix path "/") && negb no_host then "/" else "" in
    let dot := if bool_decide ((scheme +:+ authority +:+ slash)%string = "")
                  && bool_decide (":"%char ∈ (cut "/"%char (bytes path)).1.1) then "./" else "" in
    (scheme +:+ authority +:+ slash +:+ dot +:+ path +:+ query)%string.
