(* ===== verification/Json.v ===== *)
(** * JSON texts

    What the program uses of [encoding/json] (Go 1.23): values as trees, the
    compact encoder with HTML escaping, and the decoder.  Bytes of a string that
    are not UTF-8 are replaced by U+FFFD by the decoder and written as [\ufffd] by
    the encoder.  The decoder first undoes the escapes and then replaces, which is
    the same as in one pass because an escape never starts with a continuation
    byte. *)

From S2P Require Import Prelude GoStd NetIP.
From Stdlib Require Import Ascii.
From stdpp Require Import pretty.

Open Scope Z_scope.

(** ** UTF-8 *)
Definition within (a b : Z) (c : ascii) : bool := (a <=? code c) && (code c <=? b).
Definition cont (c : ascii) : bool := within 128 191 c.

(** The length of the well-formed sequence of two to four bytes at the front, or
    zero. *)
Definition multi_len (l : list ascii) : nat :=
  match l with
  | a :: b :: l2 =>
    if within 194 223 a && cont b then 2
    else match l2 with
    | c :: l3 =>
      if within 224 239 a && cont b && cont c && negb ((code a =? 224) && (code b <? 160))
         && negb ((code a =? 237) && (159 <? code b)) then 3
      else match l3 with
      | d :: _ =>
        if within 240 244 a && cont b && cont c && cont d && negb ((code a =? 240) && (code b <? 144))
           && negb ((code a =? 244) && (143 <? code b)) then 4
        else 0
      | [] => 0
      end
    | [] => 0
    end
  | _ => 0
  end.

Arguments multi_len : simpl never.

Inductive tok := TByte (c : ascii) | TSeq (s : list ascii) | TBad.

Fixpoint runes_go (fuel : nat) (l : list ascii) : list tok :=
  match fuel, l with
  | S fuel, a :: l' =>
    if code a <? 128 then TByte a :: runes_go fuel l'
    else match multi_len l with
    | O => TBad :: runes_go fuel l'
    | n => TSeq (take n l) :: runes_go fuel (drop n l)
    end
  | _, _ => []
  end.
Definition runes (l : list ascii) : list tok := runes_go (length l) l.

Definition replacement : list ascii := chr <$> [239; 191; 189].
Definition tok_bytes (t : tok) : list ascii :=
  match t with TByte c => [c] | TSeq s => s | TBad => replacement end.
Definition sanitize (l : list ascii) : list ascii := runes l ≫= tok_bytes.

(** [utf8.EncodeRune], and [utf16.DecodeRune] on a pair of surrogates. *)
Definition encode_rune (r : Z) : list ascii :=
  if (r <? 0) || (1114111 <? r) || ((55296 <=? r) && (r <=? 57343)) then replacement
  else if r <? 128 then [chr r]
  else if r <? 2048 then chr <$> [192 + r / 64; 128 + r mod 64]
  else if r <? 65536 then chr <$> [224 + r / 4096; 128 + r / 64 mod 64; 128 + r mod 64]
  else chr <$> [240 + r / 262144; 128 + r / 4096 mod 64; 128 + r / 64 mod 64; 128 + r mod 64].
Definition is_surrogate (r : Z) : bool := (55296 <=? r) && (r <=? 57343).
Definition surrogate_pair (r s : Z) : option Z :=
  if (55296 <=? r) && (r <=? 56319) && (56320 <=? s) && (s <=? 57343)
  then Some ((r - 55296) * 1024 + (s - 56320) + 65536) else None.

(** ** Strings *)
Definition quote_char : ascii := "034"%char.
Definition backslash : ascii := "092"%char.

(** The short escapes, as the letter after the backslash. *)
Definition short_escape (c : ascii) : option ascii :=
  if bool_decide (c = quote_char) || bool_decide (c = backslash) then Some c
  else if code c =? 8 then Some "b"%char else if code c =? 12 then Some "f"%char
  else if code c =? 10 then Some "n"%char else if code c =? 13 then Some "r"%char
  else if code c =? 9 then Some "t"%char else None.
Definition html_unsafe (c : ascii) : bool := (code c =? 60) || (code c =? 62) || (code c =? 38).

Definition tok_quote (t : tok) : list ascii :=
  match t with
  | TByte c =>
    match short_escape c with
    | Some e => [backslash; e]
    | None =>
      if (code c <? 32) || html_unsafe c
      then [backslash; "u"; "0"; "0"; digit (code c / 16); digit (code c mod 16)]%char
      else [c]
    end
  | TSeq s =>
    if bool_decide (s = chr <$> [226; 128; 168]) then [backslash; "u"; "2"; "0"; "2"; "8"]%char
    else if bool_decide (s = chr <$> [226; 128; 169]) then [backslash; "u"; "2"; "0"; "2"; "9"]%char
    else s
  | TBad => [backslash; "u"; "f"; "f"; "f"; "d"]%char
  end.
Definition quote (s : list ascii) : list ascii := quote_char :: (runes s ≫= tok_quote) ++ [quote_char].

Definition unescape_letter (e : ascii) : option ascii :=
  if bool_decide (e = quote_char) || bool_decide (e = backslash) || bool_decide (e = "/"%char) then Some e
  else if bool_decide (e = "b"%char) then Some (chr 8) else if bool_decide (e = "f"%char) then Some (chr 12)
  else if bool_decide (e = "n"%char) then Some (chr 10) else if bool_decide (e = "r"%char) then Some (chr 13)
  else if bool_decide (e = "t"%char) then Some (chr 9) else None.
Definition hex4 (a b c d : ascii) : option Z :=
  match unhex a, unhex b, unhex c, unhex d with
  | Some x, Some y, Some z, Some w => Some (4096 * x + 256 * y + 16 * z + w)
  | _, _, _, _ => None
  end.
Definition prepend (p : list ascii) (r : option (list ascii * list ascii)) : option (list ascii * list ascii) :=
  match r with Some (s, rest) => Some (p ++ s, rest) | None => None end.

(** The bytes up to the closing quote with the escapes undone, and the rest. *)
Fixpoint unquote (l : list ascii) : option (list ascii * list ascii) :=
  match l with
  | [] => None
  | c :: l' =>
    if bool_decide (c = quote_char) then Some ([], l')
    else if bool_decide (c = backslash) then
      match l' with
      | [] => None
      | e :: l'' =>
        match unescape_letter e with
        | Some b => prepend [b] (unquote l'')
        | None =>
          if negb (bool_decide (e = "u"%char)) then None
          else match l'' with
          | h1 :: h2 :: h3 :: h4 :: l3 =>
            match hex4 h1 h2 h3 h4 with
            | None => None
            | Some r =>
              if is_surrogate r then
                match l3 with
                | b :: u :: g1 :: g2 :: g3 :: g4 :: l4 =>
                  match (if bool_decide (b = backslash) && bool_decide (u = "u"%char)
                         then s ← hex4 g1 g2 g3 g4; surrogate_pair r s else None) with
                  | Some x => prepend (encode_rune x) (unquote l4)
                  | None => prepend replacement (unquote l3)
                  end
                | _ => prepend replacement (unquote l3)
                end
              else prepend (encode_rune r) (unquote l3)
            end
          | _ => None
          end
        end
      end
    else if code c <? 32 then None
    else prepend [c] (unquote l')
  end.
Definition parse_string (l : list ascii) : option (string * list ascii) :=
  match unquote l with Some (s, rest) => Some (of_bytes (sanitize s), rest) | None => None end.

(** ** Numbers: the literal and the rest *)
Fixpoint span_digits (l : list ascii) : list ascii * list ascii :=
  match l with
  | c :: l' => if within 48 57 c then let '(d, r) := span_digits l' in (c :: d, r) else ([], l)
  | [] => ([], [])
  end.
Definition is_char (c : ascii) (l : list ascii) : bool := match l with d :: _ => bool_decide (d = c) | [] => false end.
Definition parse_int_part (l : list ascii) : option (list ascii * list ascii) :=
  match l with
  | c :: l' =>
    if bool_decide (c = "0"%char) then Some (["0"%char], l')
    else if within 49 57 c then let '(d, r) := span_digits l' in Some (c :: d, r) else None
  | [] => None
  end.
Definition parse_fraction (l : list ascii) : option (list ascii * list ascii) :=
  if is_char "."%char l then
    match span_digits (drop 1 l) with
    | ([], _) => None
    | (d, r) => Some ("."%char :: d, r)
    end
  else Some ([], l).
Definition parse_exponent (l : list ascii) : option (list ascii * list ascii) :=
  match l with
  | e :: l' =>
    if bool_decide (e = "e"%char) || bool_decide (e = "E"%char) then
      let '(sign, l'') := if is_char "+"%char l' || is_char "-"%char l' then (take 1 l', drop 1 l') else ([], l') in
      match span_digits l'' with
      | ([], _) => None
      | (d, r) => Some (e :: sign ++ d, r)
      end
    else Some ([], l)
  | [] => Some ([], l)
  end.
Definition parse_number (l : list ascii) : option (list ascii * list ascii) :=
  let '(sign, l) := if is_char "-"%char l then (["-"%char], drop 1 l) else ([], l) in
  match parse_int_part l with
  | None => None
  | Some (i, l) =>
    match parse_fraction l with
    | None => None
    | Some (f, l) =>
      match parse_exponent l with
      | None => None
      | Some (e, l) => Some (sign ++ i ++ f ++ e, l)
      end
    end
  end.

(** ** Values *)
Inductive json :=
| JNull
| JBool (b : bool)
| JNumber (literal : string)
| JString (s : string)
| JArray (l : list json)
| JObject (l : list (string * json)).

Definition is_space (c : ascii) : bool := (code c =? 32) || (code c =? 9) || (code c =? 10) || (code c =? 13).
Fixpoint skip_space (l : list ascii) : list ascii :=
  match l with c :: l' => if is_space c then skip_space l' else l | [] => [] end.

(** [strip p l] is the rest of [l] after the text [p]. *)
Definition strip (p : string) (l : list ascii) : option (list ascii) :=
  if bool_decide (take (length (bytes p)) l = bytes p) then Some (drop (length (bytes p)) l) else None.

Definition maxNestingDepth : Z := 10000.

(** [depth] counts the open arrays and objects. *)
Fixpoint parse_value (fuel : nat) (depth : Z) (l : list ascii) : option (json * list ascii) :=
  match fuel with
  | O => None
  | S fuel =>
    match skip_space l with
    | [] => None
    | c :: l' =>
      if bool_decide (c = quote_char) then
        match parse_string l' with Some (s, r) => Some (JString s, r) | None => None end
      else if bool_decide (c = "{"%char) then
        if maxNestingDepth <? depth + 1 then None
        else if is_char "}"%char (skip_space l') then Some (JObject [], drop 1 (skip_space l'))
        else match parse_members fuel (depth + 1) l' with Some (ms, r) => Some (JObject ms, r) | None => None end
      else if bool_decide (c = "["%char) then
        if maxNestingDepth <? depth + 1 then None
        else if is_char "]"%char (skip_space l') then Some (JArray [], drop 1 (skip_space l'))
        else match parse_elements fuel (depth + 1) l' with Some (vs, r) => Some (JArray vs, r) | None => None end
      else if bool_decide (c = "t"%char) then (r ← strip "true" (c :: l'); Some (JBool true, r))
      else if bool_decide (c = "f"%char) then (r ← strip "false" (c :: l'); Some (JBool false, r))
      else if bool_decide (c = "n"%char) then (r ← strip "null" (c :: l'); Some (JNull, r))
      else match parse_number (c :: l') with Some (t, r) => Some (JNumber (of_bytes t), r) | None => None end
    end
  end
with parse_members (fuel : nat) (depth : Z) (l : list ascii) : option (list (string * json) * list ascii) :=
  match fuel with
  | O => None
  | S fuel =>
    match skip_space l with
    | c :: l1 =>
      if negb (bool_decide (c = quote_char)) then None
      else match parse_string l1 with
      | None => None
      | Some (key, l2) =>
        if negb (is_char ":"%char (skip_space l2)) then None
        else match parse_value fuel depth (drop 1 (skip_space l2)) with
        | None => None
        | Some (v, l3) =>
          if is_char ","%char (skip_space l3) then
            match parse_members fuel depth (drop 1 (skip_space l3)) with
            | Some (ms, r) => Some ((key, v) :: ms, r)
            | None => None
            end
          else if is_char "}"%char (skip_space l3) then Some ([(key, v)], drop 1 (skip_space l3))
          else None
        end
      end
    | [] => None
    end
  end
with parse_elements (fuel : nat) (depth : Z) (l : list ascii) : option (list json * list ascii) :=
  match fuel with
  | O => None
  | S fuel =>
    match parse_value fuel depth l with
    | None => None
    | Some (v, l1) =>
      if is_char ","%char (skip_space l1) then
        match parse_elements fuel depth (drop 1 (skip_space l1)) with
        | Some (vs, r) => Some (v :: vs, r)
        | None => None
        end
      else if is_char "]"%char (skip_space l1) then Some ([v], drop 1 (skip_space l1))
      else None
    end
  end.

(** One value from the front, as [Decoder.Decode] reads it, and a whole text, as
    [json.Unmarshal] and a decoder that refuses trailing data read it. *)
Definition decode_one (l : list ascii) : option (json * list ascii) := parse_value (S (length l)) 0 l.
Definition decode_text (l : list ascii) : option json :=
  match decode_one l with
  | Some (v, r) => if bool_decide (skip_space r = []) then Some v else None
  | None => None
  end.

(** ** The encoder *)
Fixpoint separated (ws : list (list ascii)) : list ascii :=
  match ws with [] => [] | [w] => w | w :: ws => w ++ ","%char :: separated ws end.
Fixpoint print (v : json) : list ascii :=
  match v with
  | JNull => bytes "null"
  | JBool b => bytes (if b then "true" else "false")
  | JNumber t => bytes t
  | JString s => quote (bytes s)
  | JArray l => "["%char :: separated (List.map print l) ++ ["]"%char]
  | JObject l => "{"%char :: separated (List.map (λ '(k, v), quote (bytes k) ++ ":"%char :: print v) l) ++ ["}"%char]
  end.

(** ** Facts about strings *)
Definition tok_ok (t : tok) : Prop :=
  match t with
  | TByte c => code c < 128
  | TSeq s => Forall (λ c, 128 ≤ code c) s ∧ (2 ≤ length s)%nat ∧ ∀ l, multi_len (s ++ l) = length s
  | TBad => True
  end.

Lemma multi_len_spec l n : multi_len l = S n →
  ∃ s l', l = s ++ l' ∧ length s = S n ∧ tok_ok (TSeq s).
Proof.
  unfold tok_ok, multi_len. destruct l as [|a [|b l2]]; try done.
  destruct (within 194 223 a && cont b) eqn:E2.
  { intros [= <-]. exists [a; b], l2. split; [done|]. split; [done|]. unfold within, cont, within in *. split_and!.
    - repeat constructor; lia.
    - done.
    - intros l. simpl. by rewrite E2. }
  destruct l2 as [|c l3]; [done|]. match goal with |- context [if ?x then 3%nat else _] => destruct x eqn:E3 end.
  { intros [= <-]. exists [a; b; c], l3. split; [done|]. split; [done|]. split_and!.
    - unfold within, cont, within in *. repeat constructor; lia.
    - simpl. lia.
    - intros l. simpl. by rewrite E2, E3. }
  destruct l3 as [|d l4]; [done|]. match goal with |- context [if ?x then 4%nat else _] => destruct x eqn:E4 end; [|done].
  intros [= <-]. exists [a; b; c; d], l4. split; [done|]. split; [done|]. split_and!.
  - unfold within, cont, within in *. repeat constructor; lia.
  - simpl. lia.
  - intros l. simpl. by rewrite E2, E3, E4.
Qed.

Lemma runes_fuel fuel fuel' l : (length l ≤ fuel)%nat → (length l ≤ fuel')%nat → runes_go fuel l = runes_go fuel' l.
Proof.
  revert fuel' l. induction fuel as [|fuel IH]; intros [|fuel'] [|a l]; cbn [runes_go length]; try done; try lia. intros H1 H2.
  destruct (code a <? 128); [f_equal; apply IH; lia|]. destruct (multi_len (a :: l)) as [|n]; f_equal; apply IH; rewrite ?length_drop; simpl; lia.
Qed.

Lemma runes_byte a l : code a < 128 → runes (a :: l) = TByte a :: runes l.
Proof. intros H. unfold runes. simpl. by rewrite (proj2 (Z.ltb_lt _ _) H). Qed.
Lemma runes_seq s l : tok_ok (TSeq s) → runes (s ++ l) = TSeq s :: runes l.
Proof.
  intros (Hs & Hl & Hm). destruct s as [|a s]; [simpl in Hl; lia|]. unfold runes. simpl app. specialize (Hm l). simpl app in Hm.
  cbn [length runes_go]. apply Forall_cons in Hs as [Ha _]. rewrite (proj2 (Z.ltb_ge _ _) Ha), Hm. cbn [length].
  change (a :: s ++ l) with ((a :: s) ++ l).
  rewrite (take_app_length' (a :: s) l), (drop_app_length' (a :: s) l) by done. f_equal. apply runes_fuel; rewrite ?length_app; lia.
Qed.
Lemma runes_bad a l : 128 ≤ code a → multi_len (a :: l) = 0%nat → runes (a :: l) = TBad :: runes l.
Proof. intros Ha Hm. unfold runes. cbn [length runes_go]. by rewrite (proj2 (Z.ltb_ge _ _) Ha), Hm. Qed.

(** Induction on the runes of a text. *)
Lemma runes_ind (P : list ascii → Prop) :
  P [] → (∀ a l, code a < 128 → P l → P (a :: l)) → (∀ s l, tok_ok (TSeq s) → P l → P (s ++ l)) →
  (∀ a l, 128 ≤ code a → multi_len (a :: l) = 0%nat → P l → P (a :: l)) → ∀ l, P l.
Proof.
  intros H0 H1 H2 H3 l. remember (length l) as n eqn:E. revert l E. induction n as [n IH] using lt_wf_ind. intros [|a l] ->; [done|].
  destruct (Z.lt_ge_cases (code a) 128) as [Ha|Ha]; [apply H1; [done|]; eapply IH; [|done]; simpl; lia|].
  destruct (multi_len (a :: l)) as [|m] eqn:Em; [apply H3; [done..|]; eapply IH; [|done]; simpl; lia|].
  destruct (multi_len_spec _ _ Em) as (s & l' & Heq & Hl & Hok). rewrite Heq in *. apply H2; [done|].
  eapply IH; [|done]. rewrite length_app. lia.
Qed.

Lemma runes_ok l : Forall tok_ok (runes l).
Proof.
  induction l as [|a l Ha IH|s l Hs IH|a l Ha Hm IH] using runes_ind; [constructor|..].
  - rewrite runes_byte by done. by constructor.
  - rewrite runes_seq by done. by constructor.
  - rewrite runes_bad by done. by constructor.
Qed.

Lemma replacement_ok : tok_ok (TSeq replacement).
Proof. split; [|split; [simpl; lia|done]]. repeat constructor; vm_compute; discriminate. Qed.

Lemma sanitize_byte a l : code a < 128 → sanitize (a :: l) = a :: sanitize l.
Proof. intros H. unfold sanitize. by rewrite runes_byte. Qed.
Lemma sanitize_seq s l : tok_ok (TSeq s) → sanitize (s ++ l) = s ++ sanitize l.
Proof. intros H. unfold sanitize. by rewrite runes_seq. Qed.
Lemma sanitize_bad a l : 128 ≤ code a → multi_len (a :: l) = 0%nat → sanitize (a :: l) = replacement ++ sanitize l.
Proof. intros H1 H2. unfold sanitize. by rewrite runes_bad. Qed.

Lemma sanitize_idemp l : sanitize (sanitize l) = sanitize l.
Proof.
  induction l as [|a l Ha IH|s l Hs IH|a l Ha Hm IH] using runes_ind; [done|..].
  - rewrite sanitize_byte, sanitize_byte by done. congruence.
  - rewrite sanitize_seq, sanitize_seq by done. congruence.
  - rewrite sanitize_bad by done. rewrite sanitize_seq by apply replacement_ok. congruence.
Qed.

(** The decoder undoes what the encoder writes for a rune. *)
Lemma prepend_app p q r : prepend p (prepend q r) = prepend (p ++ q) r.
Proof. destruct r as [[s rest]|]; simpl; [by rewrite app_assoc|done]. Qed.

Lemma unquote_plain c l : 128 ≤ code c → unquote (c :: l) = prepend [c] (unquote l).
Proof.
  intros Hc. cbn [unquote]. rewrite bool_decide_eq_false_2 by (intros ->; by vm_compute in Hc).
  rewrite bool_decide_eq_false_2 by (intros ->; by vm_compute in Hc). by rewrite (proj2 (Z.ltb_ge _ _)) by lia.
Qed.
Lemma unquote_seq s l : Forall (λ c, 128 ≤ code c) s → unquote (s ++ l) = prepend s (unquote l).
Proof.
  induction 1 as [|c s Hc Hs IH]; simpl app; [by destruct (unquote l) as [[? ?]|]|].
  rewrite unquote_plain by done. rewrite IH. by rewrite prepend_app.
Qed.

Lemma unquote_tok t l : tok_ok t → unquote (tok_quote t ++ l) = prepend (tok_bytes t) (unquote l).
Proof.
  destruct t as [c|s|].
  - intros Hc. revert l. destruct c as [[] [] [] [] [] [] [] []]; try reflexivity; vm_compute in Hc; discriminate Hc.
  - intros (Hs & _ & _). cbn [tok_quote tok_bytes]. case_bool_decide as H1; [by rewrite H1|].
    case_bool_decide as H2; [by rewrite H2|]. by apply unquote_seq.
  - done.
Qed.

Lemma unquote_quote s rest : unquote ((runes s ≫= tok_quote) ++ quote_char :: rest) = Some (sanitize s, rest).
Proof.
  unfold sanitize. induction (runes_ok s) as [|t ts Ht Hts IH]; [done|]. cbn [mbind list_bind].
  rewrite <- app_assoc, unquote_tok by done. by setoid_rewrite IH.
Qed.

Definition clean_string (s : string) : string := of_bytes (sanitize (bytes s)).

Lemma parse_quote s rest : ∃ l, quote (bytes s) ++ rest = quote_char :: l ∧ parse_string l = Some (clean_string s, rest).
Proof.
  unfold quote. exists ((runes (bytes s) ≫= tok_quote) ++ quote_char :: rest). split; [by rewrite <- app_comm_cons, <- app_assoc|].
  unfold parse_string. by rewrite unquote_quote, sanitize_idemp.
Qed.

(** ** Integers

    [strconv.FormatInt] and [strconv.ParseInt] in base 10, the latter on the
    literals the decoder accepts. *)
Definition FormatInt (z : Z) : string := if z <? 0 then ("-" +:+ Itoa (- z))%string else Itoa z.

Definition parse_digits (l : list ascii) : option Z :=
  if bool_decide (l = []) || negb (forallb (within 48 57) l) then None else Some (dec_value l).
Definition ParseInt (s : string) : option Z :=
  let l := bytes s in
  let '(neg, l) := if is_char "-"%char l then (true, drop 1 l) else if is_char "+"%char l then (false, drop 1 l) else (false, l) in
  match parse_digits l with
  | None => None
  | Some v => let v := if neg : bool then - v else v in if (- 2^63 <=? v) && (v <=? MaxInt64) then Some v else None
  end.

Lemma within_digit c : is_digit c → within 48 57 c = true.
Proof. unfold is_digit, within. lia. Qed.

Lemma dec_value_app l k : dec_value (l ++ k) = dec_value l * 10 ^ Z.of_nat (length k) + dec_value k.
Proof.
  revert l. induction k as [|c k IH] using rev_ind; intros l; [rewrite app_nil_r; unfold dec_value at 3; simpl; lia|].
  rewrite app_assoc. unfold dec_value in *. rewrite !fold_left_app. cbn [fold_left]. rewrite <- fold_left_app, IH, length_app.
  cbn [length]. replace (Z.of_nat (length k + 1)) with (Z.succ (Z.of_nat (length k))) by lia. rewrite Z.pow_succ_r by lia. ring.
Qed.

Lemma pretty_N_char_code d : (d < 10)%N → code (pretty_N_char d) = 48 + Z.of_N d.
Proof. intros Hd. destruct d as [|d]; [reflexivity|]. do 9 (destruct d as [d|d|]; try reflexivity; try lia). Qed.

(** The digits of a positive number: their value, and a first digit that is not
    zero. *)
Lemma pretty_N_go_spec x s : (x ≠ 0)%N →
  ∃ c l, bytes (pretty_N_go x s) = (c :: l) ++ bytes s ∧ dec_value (c :: l) = Z.of_N x ∧ 49 ≤ code c ≤ 57 ∧
    Forall is_digit (c :: l).
Proof.
  revert s. induction x as [x IH] using (well_founded_induction N.lt_wf_0). intros s Hx.
  rewrite pretty_N_go_step by lia. pose proof (N.mod_lt x 10 ltac:(lia)) as Hm. pose proof (N.div_mod' x 10) as Hdm.
  pose proof (pretty_N_char_code _ Hm) as Hc. destruct (decide (x / 10 = 0)%N) as [E|E].
  - rewrite E, pretty_N_go_0. exists (pretty_N_char (x mod 10)), []. split_and!; [done| |lia|lia|].
    + unfold dec_value. simpl. rewrite Hc. lia.
    + constructor; [unfold is_digit; lia|constructor].
  - destruct (IH (x / 10)%N ltac:(apply N.div_lt; lia) (String (pretty_N_char (x mod 10)) s) E) as (c & l & -> & Hv & Hh & Hd).
    exists c, (l ++ [pretty_N_char (x mod 10)]). split_and!; [|  |lia|lia|].
    + change (bytes (String ?a s)) with (a :: bytes s). by rewrite app_comm_cons, <- !app_assoc.
    + rewrite app_comm_cons, dec_value_app, Hv. unfold dec_value. simpl. rewrite Hc. lia.
    + rewrite app_comm_cons. apply Forall_app. split; [done|].
      constructor; [unfold is_digit; rewrite Hc; clear -Hm; revert Hm; generalize (x mod 10)%N; intros; lia|constructor].
Qed.

Lemma Itoa_spec z : 0 ≤ z →
  bytes (Itoa z) = ["0"%char] ∧ z = 0 ∨
  ∃ c l, bytes (Itoa z) = c :: l ∧ dec_value (c :: l) = z ∧ 49 ≤ code c ≤ 57 ∧ Forall is_digit (c :: l).
Proof.
  intros Hz. unfold Itoa, pretty, pretty_N. case_decide as E; [left; split; [done|lia]|right].
  destruct (pretty_N_go_spec (Z.to_N z) "" E) as (c & l & Hb & Hv & Hh & Hd). rewrite app_nil_r in Hb.
  exists c, l. split_and!; try done; lia.
Qed.

Lemma Itoa_digits_value z : 0 ≤ z → parse_digits (bytes (Itoa z)) = Some z.
Proof.
  intros Hz. unfold parse_digits. destruct (Itoa_spec z Hz) as [[-> ->]|(c & l & -> & Hv & _ & Hd)]; [done|].
  rewrite bool_decide_eq_false_2 by done. rewrite (proj2 (forallb_forall _ _)), Hv; [done|].
  intros x Hx. apply within_digit. rewrite Forall_forall in Hd. by apply Hd, list_elem_of_In.
Qed.

Lemma ParseInt_FormatInt z : - 2^63 ≤ z ≤ MaxInt64 → ParseInt (FormatInt z) = Some z.
Proof.
  intros Hz. unfold ParseInt, FormatInt. destruct (Z.ltb_spec z 0).
  - change (bytes ("-" +:+ Itoa (- z))) with ("-"%char :: bytes (Itoa (- z))). cbn [is_char]. rewrite bool_decide_eq_true_2 by done.
    cbv beta iota zeta. change (drop 1 ("-"%char :: ?l)) with l. rewrite Itoa_digits_value by lia. rewrite Z.opp_involutive.
    by rewrite (proj2 (Z.leb_le _ _)), (proj2 (Z.leb_le _ _)) by lia.
  - pose proof (Itoa_digits_value z ltac:(lia)) as Hd. cbv zeta.
    assert (is_char "-"%char (bytes (Itoa z)) = false ∧ is_char "+"%char (bytes (Itoa z)) = false) as [-> ->].
    { destruct (Itoa_spec z ltac:(lia)) as [[-> _]|(c & l & -> & _ & Hc & _)]; [done|]. cbn [is_char].
      by split; apply bool_decide_eq_false_2; intros ->; vm_compute in Hc; destruct Hc as [Hc _]; apply Hc. }
    cbv beta iota. rewrite Hd. by rewrite (proj2 (Z.leb_le _ _)), (proj2 (Z.leb_le _ _)) by lia.
Qed.

Definition number_end (rest : list ascii) : bool :=
  match rest with
  | c :: _ => negb (within 48 57 c || bool_decide (c = "."%char) || bool_decide (c = "e"%char) || bool_decide (c = "E"%char))
  | [] => true
  end.

Lemma number_end_parts rest : number_end rest = true →
  span_digits rest = ([], rest) ∧ parse_fraction rest = Some ([], rest) ∧ parse_exponent rest = Some ([], rest).
Proof.
  destruct rest as [|c rest]; [done|]. unfold number_end. rewrite negb_true_iff, !orb_false_iff. intros [[[Hd Hp] He] HE].
  unfold parse_fraction, parse_exponent. cbn [span_digits is_char]. by rewrite Hd, Hp, He, HE.
Qed.

Lemma span_digits_app l rest : Forall is_digit l → span_digits rest = ([], rest) → span_digits (l ++ rest) = (l, rest).
Proof.
  intros Hl Hr. induction Hl as [|c l Hc Hl IH]; [done|]. cbn [app span_digits]. by rewrite within_digit, IH.
Qed.

Lemma parse_int_part_Itoa z rest : 0 ≤ z → number_end rest = true →
  parse_int_part (bytes (Itoa z) ++ rest) = Some (bytes (Itoa z), rest) ∧ is_char "-"%char (bytes (Itoa z) ++ rest) = false.
Proof.
  intros Hz (Hs & _)%number_end_parts. destruct (Itoa_spec z Hz) as [[-> _]|(c & l & -> & _ & Hc & Hd)]; [done|].
  apply Forall_cons in Hd as [_ Hd]. cbn [app parse_int_part is_char].
  assert (∀ x, x = "0"%char ∨ x = "-"%char → c ≠ x) as Hne.
  { intros x [-> | ->] ->; vm_compute in Hc; destruct Hc as [Hc _]; by apply Hc. }
  rewrite !bool_decide_eq_false_2 by auto. split; [|done].
  unfold within. rewrite (proj2 (Z.leb_le _ _)), (proj2 (Z.leb_le _ _)) by lia. cbn [andb]. by rewrite span_digits_app.
Qed.

Lemma parse_number_int z rest : number_end rest = true →
  parse_number (bytes (FormatInt z) ++ rest) = Some (bytes (FormatInt z), rest).
Proof.
  intros Hr. destruct (number_end_parts rest Hr) as (_ & Hf & He). unfold parse_number, FormatInt. destruct (Z.ltb_spec z 0).
  - change (bytes ("-" +:+ Itoa (- z))) with ("-"%char :: bytes (Itoa (- z))). cbn [is_char app].
    rewrite bool_decide_eq_true_2 by done. cbv beta iota. change (drop 1 ("-"%char :: ?l)) with l.
    destruct (parse_int_part_Itoa (- z) rest ltac:(lia) Hr) as [-> _]. by rewrite Hf, He, !app_nil_r.
  - destruct (parse_int_part_Itoa z rest ltac:(lia) Hr) as [H1 H2]. rewrite H2, H1. by rewrite Hf, He, !app_nil_r.
Qed.

(** ** The text of a value *)
Section json_ind.
Variable P : json → Prop.
Hypotheses (HN : P JNull) (HB : ∀ b, P (JBool b)) (HD : ∀ t, P (JNumber t)) (HS : ∀ s, P (JString s)).
Hypotheses (HA : ∀ l, Forall P l → P (JArray l)) (HO : ∀ l, Forall (λ kv, P kv.2) l → P (JObject l)).

Fixpoint json_nested_ind (v : json) : P v :=
  match v with
  | JNull => HN
  | JBool b => HB b
  | JNumber t => HD t
  | JString s => HS s
  | JArray l =>
    HA l ((fix go l : Forall P l :=
             match l with [] => List.Forall_nil _ | v :: l => List.Forall_cons _ _ _ (json_nested_ind v) (go l) end) l)
  | JObject l =>
    HO l ((fix go l : Forall (λ kv, P kv.2) l :=
             match l with [] => List.Forall_nil _ | kv :: l => List.Forall_cons _ kv _ (json_nested_ind kv.2) (go l) end) l)
  end.
End json_ind.

(** The values the program encodes: their numbers are integers. *)
Fixpoint json_ok (v : json) : Prop :=
  match v with
  | JNumber t => ∃ z, t = FormatInt z
  | JArray l => foldr (λ v Q, json_ok v ∧ Q) True l
  | JObject l => foldr (λ '(k, v) Q, json_ok v ∧ Q) True l
  | _ => True
  end.
Fixpoint height (v : json) : Z :=
  match v with
  | JArray l => 1 + foldr (λ v h, Z.max (height v) h) 0 l
  | JObject l => 1 + foldr (λ '(k, v) h, Z.max (height v) h) 0 l
  | _ => 0
  end.
(** What the decoder gives back: the strings with their bad bytes replaced. *)
Fixpoint clean (v : json) : json :=
  match v with
  | JString s => JString (clean_string s)
  | JArray l => JArray (List.map clean l)
  | JObject l => JObject (List.map (λ '(k, v), (clean_string k, clean v)) l)
  | _ => v
  end.

Lemma json_ok_array l : json_ok (JArray l) ↔ Forall json_ok l.
Proof. simpl. induction l as [|v l IH]; simpl; [by split|]. rewrite IH. by rewrite Forall_cons. Qed.
Lemma json_ok_object l : json_ok (JObject l) ↔ Forall (λ kv, json_ok kv.2) l.
Proof. simpl. induction l as [|[k v] l IH]; simpl; [by split|]. rewrite IH. by rewrite Forall_cons. Qed.

Lemma height_nonneg v : 0 ≤ height v.
Proof.
  induction v as [| | | |l IH|l IH] using json_nested_ind; simpl; try lia.
  - assert (0 ≤ foldr (λ v h, Z.max (height v) h) 0 l) by (induction IH; simpl; lia). lia.
  - assert (0 ≤ foldr (λ '(k, v) h, Z.max (height v) h) 0 l) by (induction IH as [|[k v] l' H]; simpl in *; lia). lia.
Qed.
Lemma foldr_max_le {A} (f : A → Z) l m :
  foldr (λ v h, Z.max (f v) h) 0 l ≤ m ↔ 0 ≤ m ∧ Forall (λ v, f v ≤ m) l.
Proof.
  induction l as [|v l IH]; cbn [foldr]; [by rewrite Forall_nil; intuition|]. rewrite Z.max_lub_iff, IH, Forall_cons. tauto.
Qed.
Lemma height_array l d : d + height (JArray l) ≤ maxNestingDepth ↔
  d + 1 ≤ maxNestingDepth ∧ Forall (λ v, (d + 1) + height v ≤ maxNestingDepth) l.
Proof.
  cbn [height]. transitivity (foldr (λ v h, Z.max (height v) h) 0 l ≤ maxNestingDepth - d - 1); [lia|].
  rewrite foldr_max_le. assert (Forall (λ v, height v ≤ maxNestingDepth - d - 1) l ↔
    Forall (λ v, (d + 1) + height v ≤ maxNestingDepth) l) as ->; [|intuition lia].
  split; intros HF; (eapply Forall_impl; [exact HF|]); simpl; lia.
Qed.
Lemma height_object l d : d + height (JObject l) ≤ maxNestingDepth ↔
  d + 1 ≤ maxNestingDepth ∧ Forall (λ kv, (d + 1) + height kv.2 ≤ maxNestingDepth) l.
Proof.
  assert (height (JObject l) = height (JArray l.*2)) as ->.
  { cbn [height]. f_equal. induction l as [|[k v] l IH]; [done|]. rewrite fmap_cons. cbn [foldr snd]. by rewrite IH. }
  by rewrite height_array, Forall_fmap.
Qed.

(** The first byte of a text. *)
Lemma FormatInt_head z : ∃ c l, bytes (FormatInt z) = c :: l ∧ (c = "-"%char ∨ 48 ≤ code c ≤ 57).
Proof.
  unfold FormatInt. destruct (Z.ltb_spec z 0); [by eauto|].
  destruct (Itoa_spec z ltac:(lia)) as [[-> _]|(c & l & -> & _ & Hc & _)]; [eexists _, _; split; [done|right; by vm_compute]|].
  eexists _, _. split; [done|]. lia.
Qed.
Lemma print_head v : json_ok v → ∃ c l, print v = c :: l ∧ is_space c = false ∧ c ≠ "]"%char.
Proof.
  destruct v as [| | t| | |]; simpl; intros Hok; try (eexists _, _; split_and!; [done|done|done]).
  - destruct b; eexists _, _; split_and!; done.
  - destruct Hok as [z ->]. destruct (FormatInt_head z) as (c & l & -> & Hc). exists c, l. split; [done|].
    destruct Hc as [->|Hc]; [done|]. unfold is_space. split; [lia|]. intros ->. vm_compute in Hc. destruct Hc as [_ Hc]. by apply Hc.
Qed.
Lemma skip_space_print v rest : json_ok v → skip_space (print v ++ rest) = print v ++ rest.
Proof. intros Hok. destruct (print_head v Hok) as (c & l & -> & Hc & _). simpl. by rewrite Hc. Qed.

(** ** The decoder reads what the encoder writes *)
Definition reads (v : json) : Prop :=
  json_ok v → ∀ fuel depth rest, (length (print v) ≤ fuel)%nat → depth + height v ≤ maxNestingDepth → number_end rest = true →
  parse_value fuel depth (print v ++ rest) = Some (clean v, rest).

Lemma skip_space_char c l : is_space c = false → skip_space (c :: l) = c :: l.
Proof. intros H. cbn [skip_space]. by rewrite H. Qed.
Lemma is_char_same c l : is_char c (c :: l) = true.
Proof. by apply bool_decide_eq_true_2. Qed.
Lemma separated_cons w ws : ws ≠ [] → separated (w :: ws) = w ++ ","%char :: separated ws.
Proof. by destruct ws. Qed.

Lemma elements_read l depth : Forall reads l → Forall json_ok l → Forall (λ v, depth + height v ≤ maxNestingDepth) l → l ≠ [] →
  ∀ fuel rest, (length (separated (List.map print l)) < fuel)%nat →
  parse_elements fuel depth (separated (List.map print l) ++ "]"%char :: rest) = Some (List.map clean l, rest).
Proof.
  induction l as [|v l IH]; [done|]. intros [Hv Hl]%Forall_cons [Hok Hoks]%Forall_cons [Hd Hds]%Forall_cons _ [|fuel] rest Hf;
    [lia|]. cbn [parse_elements]. destruct (decide (l = [])) as [->|Hne].
  - cbn [List.map separated] in *. rewrite Hv by (done || lia). done.
  - cbn [List.map] in *. rewrite separated_cons in * by (by destruct l). rewrite length_app in Hf. cbn [length] in Hf.
    rewrite <- app_assoc, <- app_comm_cons. rewrite Hv by (done || lia). rewrite skip_space_char, is_char_same by done.
    change (drop 1 (","%char :: ?k)) with k. rewrite IH by (done || lia). done.
Qed.

Definition member_text (kv : string * json) : list ascii := quote (bytes kv.1) ++ ":"%char :: print kv.2.
Definition clean_member (kv : string * json) : string * json := (clean_string kv.1, clean kv.2).

Lemma print_object l : print (JObject l) = "{"%char :: separated (List.map member_text l) ++ ["}"%char].
Proof. cbn [print]. do 3 f_equal. apply List.map_ext. by intros []. Qed.
Lemma clean_object l : clean (JObject l) = JObject (List.map clean_member l).
Proof. cbn [clean]. f_equal. apply List.map_ext. by intros []. Qed.

(** One member and what follows it. *)
Lemma member_read kv depth fuel rest :
  reads kv.2 → json_ok kv.2 → depth + height kv.2 ≤ maxNestingDepth → (length (print kv.2) ≤ fuel)%nat → number_end rest = true →
  ∃ l1, skip_space (member_text kv ++ rest) = quote_char :: l1 ∧
    ∃ l2, parse_string l1 = Some (clean_string kv.1, l2) ∧ is_char ":"%char (skip_space l2) = true ∧
      parse_value fuel depth (drop 1 (skip_space l2)) = Some (clean kv.2, rest).
Proof.
  intros Hv Hok Hd Hf Hr. unfold member_text. rewrite <- app_assoc.
  destruct (parse_quote kv.1 ((":"%char :: print kv.2) ++ rest)) as (l1 & -> & Hp). exists l1. split; [done|].
  eexists. split; [done|]. split; [done|]. simpl app. rewrite skip_space_char by done.
  change (drop 1 (":"%char :: ?k)) with k. by apply Hv.
Qed.

Lemma members_read l depth :
  Forall (λ kv, reads kv.2) l → Forall (λ kv, json_ok kv.2) l → Forall (λ kv, depth + height kv.2 ≤ maxNestingDepth) l → l ≠ [] →
  ∀ fuel rest, (length (separated (List.map member_text l)) < fuel)%nat →
  parse_members fuel depth (separated (List.map member_text l) ++ "}"%char :: rest) = Some (List.map clean_member l, rest).
Proof.
  assert (∀ kv, (length (print kv.2) < length (member_text kv))%nat) as Hlen.
  { intros kv. unfold member_text. rewrite length_app. cbn [length]. lia. }
  induction l as [|kv l IH]; [done|]. intros [Hv Hl]%Forall_cons [Hok Hoks]%Forall_cons [Hd Hds]%Forall_cons _ [|fuel] rest Hf;
    [lia|]. specialize (Hlen kv). cbn [parse_members]. destruct (decide (l = [])) as [->|Hne].
  - cbn [List.map separated] in *.
    destruct (member_read kv depth fuel ("}"%char :: rest)) as (l1 & -> & l2 & Hp & Hc & Hpv); [done..|lia|done|].
    rewrite bool_decide_eq_true_2 by done. cbn [negb]. by rewrite Hp, Hc, Hpv.
  - cbn [List.map] in *. rewrite separated_cons in * by (by destruct l). rewrite length_app in Hf. cbn [length] in Hf.
    rewrite <- app_assoc, <- app_comm_cons. match goal with |- context [member_text kv ++ ?r] => set (tail := r) end.
    destruct (member_read kv depth fuel tail) as (l1 & -> & l2 & Hp & Hc & Hpv); [done..|lia|done|].
    rewrite bool_decide_eq_true_2 by done. cbn [negb]. rewrite Hp, Hc, Hpv. cbn [negb]. unfold tail. rewrite skip_space_char, is_char_same by done.
    change (drop 1 (","%char :: ?k)) with k. rewrite IH by (done || lia). done.
Qed.

Lemma print_reads v : reads v.
Proof.
  induction v as [|b|t|s|l IH|l IH] using json_nested_ind; intros Hok [|fuel] depth rest Hf Hd Hr;
    try (exfalso; destruct (print_head _ Hok) as (c & k & Hp & _); rewrite Hp in Hf; simpl in Hf; lia).
  - done.
  - by destruct b.
  - destruct Hok as [z ->]. cbn [parse_value]. rewrite skip_space_print by (simpl; eauto). cbn [print].
    pose proof (parse_number_int z rest Hr) as Hn. destruct (FormatInt_head z) as (c & k & Hb & Hc). rewrite Hb in Hn |- *. simpl app in *.
    assert (∀ x, x ∈ [quote_char; "{"; "["; "t"; "f"; "n"]%char → c ≠ x) as Hne.
    { intros x Hx ->. rewrite !elem_of_cons, elem_of_nil in Hx.
      destruct Hx as [->|[->|[->|[->|[->|[->|[]]]]]]]; (destruct Hc as [Hc|[Hc1 Hc2]];
        [discriminate Hc|vm_compute in Hc1; vm_compute in Hc2; by first [apply Hc1|apply Hc2]]). }
    cbv beta iota. rewrite !bool_decide_eq_false_2 by (apply Hne; set_solver). rewrite Hn. cbn [clean]. f_equal. f_equal. f_equal.
    rewrite <- Hb. apply of_bytes_bytes.
  - cbn [parse_value print]. destruct (parse_quote s rest) as (k & -> & Hp). rewrite skip_space_char by done.
    cbv beta iota. rewrite bool_decide_eq_true_2 by done. by rewrite Hp.
  - cbn [parse_value]. rewrite skip_space_print by done. cbn [print]. simpl app. 
    apply height_array in Hd as [Hd1 Hds]. rewrite json_ok_array in Hok. cbv beta iota.
    rewrite (bool_decide_eq_false_2 ("["%char = quote_char)), (bool_decide_eq_false_2 ("["%char = "{"%char)) by done.
    rewrite bool_decide_eq_true_2 by done. rewrite (proj2 (Z.ltb_ge _ _)) by lia.
    destruct (decide (l = [])) as [->|Hne]; [done|]. rewrite <- app_assoc. simpl app.
    assert (is_char "]"%char (skip_space (separated (List.map print l) ++ "]"%char :: rest)) = false) as ->.
    { destruct l as [|v l]; [done|]. destruct (print_head v) as (c & k & Hp & Hs & Hc); [by apply Forall_cons in Hok as [? _]|].
      destruct (decide (l = [])) as [->|Hl]; cbn [List.map]; [cbn [List.map separated]|rewrite separated_cons by (by destruct l)];
        rewrite Hp; cbn [app skip_space]; rewrite Hs; cbn [is_char]; by apply bool_decide_eq_false_2. }
    rewrite elements_read; [done|done|done|done|done|]. cbn [print length] in Hf. rewrite length_app in Hf. simpl in Hf. lia.
  - cbn [parse_value]. rewrite skip_space_print by done. rewrite print_object in *. simpl app.
    apply height_object in Hd as [Hd1 Hds]. rewrite json_ok_object in Hok. cbv beta iota.
    rewrite (bool_decide_eq_false_2 ("{"%char = quote_char)) by done. rewrite bool_decide_eq_true_2 by done.
    rewrite (proj2 (Z.ltb_ge _ _)) by lia.
    destruct (decide (l = [])) as [->|Hne]; [done|]. rewrite <- app_assoc. simpl app.
    assert (is_char "}"%char (skip_space (separated (List.map member_text l) ++ "}"%char :: rest)) = false) as ->.
    { destruct l as [|kv l]; [done|]. destruct (decide (l = [])) as [->|Hl]; cbn [List.map];
        [|rewrite separated_cons by (by destruct l)]; done. }
    rewrite members_read; [by rewrite clean_object|done|done|done|done|]. cbn [length] in Hf. rewrite length_app in Hf. simpl in Hf. lia.
Qed.

Lemma decode_print v rest : json_ok v → height v ≤ maxNestingDepth → skip_space rest = [] →
  decode_one (print v ++ rest) = Some (clean v, rest) ∧ decode_text (print v ++ rest) = Some (clean v).
Proof.
  intros Hok Hh Hr. assert (decode_one (print v ++ rest) = Some (clean v, rest)) as H.
  { apply print_reads; [done|rewrite length_app; lia|lia|]. destruct rest as [|c rest]; [done|]. simpl in Hr.
    destruct (is_space c) eqn:Es; [|done]. unfold is_space in Es. unfold number_end, within.
    assert (∀ x, is_space x = false → c ≠ x) as Hne. { intros x Hx ->. unfold is_space in Hx. congruence. }
    rewrite !bool_decide_eq_false_2 by (by apply Hne). lia. }
  split; [done|]. unfold decode_text. rewrite H. by rewrite bool_decide_eq_true_2.
Qed.

(** Values that the decoder leaves as they are. *)
Lemma clean_array l : clean (JArray l) = JArray l ↔ Forall (λ v, clean v = v) l.
Proof.
  cbn [clean]. induction l as [|v l IH]; [by split|]. cbn [List.map]. rewrite Forall_cons, <- IH. split.
  - intros [= ? ?]. split; congruence.
  - intros [-> [= ->]]. done.
Qed.
Lemma clean_object_iff l : clean (JObject l) = JObject l ↔ Forall (λ kv, clean_member kv = kv) l.
Proof.
  rewrite clean_object. induction l as [|v l IH]; [by split|]. cbn [List.map]. rewrite Forall_cons, <- IH. split.
  - intros [= H1 H2]. split; [done|]. by rewrite H2.
  - intros [-> [= ->]]. done.
Qed.

(** A text that is UTF-8 survives the encoding unchanged. *)
Definition utf8 (s : string) : bool := bool_decide (clean_string s = s).
Lemma utf8_clean s : utf8 s = true → clean_string s = s.
Proof. apply bool_decide_eq_true_1. Qed.

(** The constant texts of a protocol are UTF-8. *)
Ltac clean_constants :=
  repeat match goal with
  | |- context [clean_string ?s] =>
    lazymatch eval hnf in s with String _ _ => change (clean_string s) with s | EmptyString => change (clean_string s) with s end
  end.
