(* ===== verification/TimeFmt.v ===== *)
(** * Times as text

    [time.RFC3339Nano] in UTC: the calendar, [Format], and [Parse].  The parser is
    the one for RFC 3339 texts of package [time]; what its general layout parser
    makes of other texts (an hour of one digit, a comma before the fraction) is an
    argument. *)

From S2P Require Import Prelude GoStd NetIP Json.
From Stdlib Require Import Ascii.

Open Scope Z_scope.

(** ** The calendar

    Days are counted from January 1 of year 1; [civil] finds the year inside its
    cycle of 400 years by centuries, quadrennia and years, as package [time]
    does. *)
Definition is_leap (y : Z) : bool := (y mod 4 =? 0) && (negb (y mod 100 =? 0) || (y mod 400 =? 0)).
Definition month_days (y : Z) : list Z := [31; if is_leap y then 29 else 28; 31; 30; 31; 30; 31; 31; 30; 31; 30; 31].
Definition days_in (y m : Z) : Z := nth (Z.to_nat (m - 1)) (month_days y) 0.

(** The month and the day of the month, from the day of the year. *)
Fixpoint month_of (m : Z) (lengths : list Z) (d : Z) : Z * Z :=
  match lengths with
  | n :: lengths => if d <? n then (m, d + 1) else month_of (m + 1) lengths (d - n)
  | [] => (m, d + 1)
  end.

Definition civil (days : Z) : Z * Z * Z :=
  let era := days / 146097 in
  let d := days mod 146097 in
  let n100 := Z.min (d / 36524) 3 in
  let d := d - n100 * 36524 in
  let n4 := d / 1461 in
  let d := d - n4 * 1461 in
  let n1 := Z.min (d / 365) 3 in
  let y := 400 * era + 100 * n100 + 4 * n4 + n1 + 1 in
  let '(m, day) := month_of 1 (month_days y) (d - n1 * 365) in
  (y, m, day).

Definition days_before_year (y : Z) : Z := 365 * (y - 1) + (y - 1) / 4 - (y - 1) / 100 + (y - 1) / 400.
Definition days_of (y m d : Z) : Z :=
  days_before_year y + foldr Z.add 0 (take (Z.to_nat (m - 1)) (month_days y)) + d - 1.

(** ** Formatting *)
Definition pad2 (v : Z) : list ascii := [digit (v / 10); digit (v mod 10)].
Definition pad4 (v : Z) : list ascii := pad2 (v / 100) ++ pad2 (v mod 100).
Definition pad9 (v : Z) : list ascii := pad2 (v / 10000000) ++ pad2 (v / 100000 mod 100) ++ pad2 (v / 1000 mod 100) ++ pad2 (v / 10 mod 100) ++ [digit (v mod 10)].

Fixpoint drop_zeros (l : list ascii) : list ascii :=
  match l with c :: l' => if bool_decide (c = "0"%char) then drop_zeros l' else l | [] => [] end.
Definition trim_zeros (l : list ascii) : list ascii := reverse (drop_zeros (reverse l)).
Definition fraction (ns : Z) : list ascii := if ns =? 0 then [] else "."%char :: trim_zeros (pad9 ns).

Definition dayNs : Z := 86400 * Second.
Definition format_bytes (t : Time) : list ascii :=
  let '(y, m, d) := civil (t / dayNs) in
  let s := t mod dayNs / Second in
  pad4 y ++ "-"%char :: pad2 m ++ "-"%char :: pad2 d ++ "T"%char :: pad2 (s / 3600) ++ ":"%char :: pad2 (s / 60 mod 60)
  ++ ":"%char :: pad2 (s mod 60) ++ fraction (t mod Second) ++ ["Z"%char].

(** [Time.MarshalJSON] refuses a year that has not four digits. *)
Definition year_ok (t : Time) : bool := let '(y, _, _) := civil (t / dayNs) in (0 <=? y) && (y <=? 9999).
Definition FormatRFC3339 (t : Time) : option string := if year_ok t then Some (of_bytes (format_bytes t)) else None.

(** ** Parsing *)
Definition parseUint (l : list ascii) (low high : Z) : option Z :=
  if negb (forallb (within 48 57) l) then None
  else let v := dec_value l in if (low <=? v) && (v <=? high) then Some v else None.

(** [parseNanoseconds] on the digits after the point. *)
Definition nanoseconds (digits : list ascii) : Z :=
  let d := take 9 digits in dec_value d * 10 ^ (9 - Z.of_nat (length d)).

Definition parse_zone (l : list ascii) : option Z :=
  if bool_decide (l = ["Z"%char]) then Some 0
  else match l with
  | [s; h1; h2; c; m1; m2] =>
    match parseUint [h1; h2] 0 23, parseUint [m1; m2] 0 59 with
    | Some h, Some m =>
      if bool_decide (c = ":"%char) && (bool_decide (s = "-"%char) || bool_decide (s = "+"%char))
      then Some ((if bool_decide (s = "-"%char) then -1 else 1) * (h * 60 + m) * 60) else None
    | _, _ => None
    end
  | _ => None
  end.

Definition parseRFC3339 (l : list ascii) : option Time :=
  match l with
  | y1 :: y2 :: y3 :: y4 :: p1 :: m1 :: m2 :: p2 :: d1 :: d2 :: p3 :: h1 :: h2 :: p4 :: n1 :: n2 :: p5 :: s1 :: s2 :: rest =>
    match parseUint [y1; y2; y3; y4] 0 9999, parseUint [m1; m2] 1 12 with
    | Some y, Some m =>
      match parseUint [d1; d2] 1 (days_in y m), parseUint [h1; h2] 0 23, parseUint [n1; n2] 0 59, parseUint [s1; s2] 0 59 with
      | Some d, Some h, Some n, Some s =>
        if negb (bool_decide ([p1; p2; p3; p4; p5] = ["-"; "-"; "T"; ":"; ":"]%char)) then None
        else
          let '(ns, zone) :=
            if is_char "."%char rest then
              match span_digits (drop 1 rest) with
              | ([], _) => (0, rest)
              | (digits, zone) => (nanoseconds digits, zone)
              end
            else (0, rest) in
          match parse_zone zone with
          | Some offset => Some (days_of y m d * dayNs + (3600 * h + 60 * n + s - offset) * Second + ns)
          | None => None
          end
      | _, _, _, _ => None
      end
    | _, _ => None
    end
  | _ => None
  end.

Definition ParseRFC3339 (lenient : string → option Time) (s : string) : option Time :=
  match parseRFC3339 (bytes s) with Some t => Some t | None => lenient s end.

(** ** The calendar's inverse

    A day of the year is a month and a day of it (both kinds of year are
    checked), and the cycles give the year and the day of the year. *)
Definition day_ok (leap : bool) (r : Z) : bool :=
  let lengths := [31; if leap then 29 else 28; 31; 30; 31; 30; 31; 31; 30; 31; 30; 31] in
  let '(m, d) := month_of 1 lengths r in
  (foldr Z.add 0 (take (Z.to_nat (m - 1)) lengths) + d - 1 =? r) && (1 <=? m) && (m <=? 12) && (1 <=? d)
  && (d <=? nth (Z.to_nat (m - 1)) lengths 0).

Lemma every_day : forallb (day_ok true) (seqZ 0 366) && forallb (day_ok false) (seqZ 0 365) = true.
Proof. vm_compute. reflexivity. Qed.

Lemma day_of_year leap r : 0 ≤ r < (if leap : bool then 366 else 365) → day_ok leap r = true.
Proof.
  intros Hr. pose proof every_day as H. apply andb_prop in H as [H1 H2].
  destruct leap; [eapply forallb_forall in H1|eapply forallb_forall in H2]; eauto; apply list_elem_of_In, elem_of_seqZ; lia.
Qed.

Lemma civil_year days :
  exists y r, civil days = (let '(m, d) := month_of 1 (month_days y) r in (y, m, d))
    /\ days = days_before_year y + r /\ 0 ≤ r < (if is_leap y then 366 else 365).
Proof.
  unfold civil. set (era := days / 146097). set (d0 := days mod 146097).
  set (n100 := Z.min (d0 / 36524) 3). set (d1 := d0 - n100 * 36524). set (n4 := d1 / 1461).
  set (d2 := d1 - n4 * 1461). set (n1 := Z.min (d2 / 365) 3). set (y := 400 * era + 100 * n100 + 4 * n4 + n1 + 1).
  exists y, (d2 - n1 * 365). split; [reflexivity|].
  assert (H0 : days = 146097 * era + d0 /\ 0 ≤ d0 < 146097) by (unfold era, d0; divlia).
  assert (H100 : 0 ≤ n100 ≤ 3 /\ 0 ≤ d1 /\ (d1 < 36524 \/ n100 = 3 /\ d1 = 36524)) by (unfold d1, n100; divlia).
  assert (H4 : 0 ≤ n4 ≤ 24 /\ 0 ≤ d2 < 1461) by (unfold d2, n4; divlia).
  assert (H1 : 0 ≤ n1 ≤ 3 /\ 0 ≤ d2 - n1 * 365 /\ (d2 - n1 * 365 < 365 \/ n1 = 3 /\ d2 = 1460)) by (unfold n1; divlia).
  assert (Hq : (y - 1) / 4 = 100 * era + 25 * n100 + n4 /\ (y - 1) / 100 = 4 * era + n100 /\ (y - 1) / 400 = era)
    by (unfold y; divlia).
  split; [unfold days_before_year; destruct Hq as (-> & -> & ->); unfold y, d2, d1; lia|].
  split; [lia|]. destruct (is_leap y) eqn:Hl; [lia|]. destruct H1 as (_ & _ & [?|[E1 E2]]); [lia|exfalso].
  revert Hl. apply not_false_iff_true. unfold is_leap. destruct (decide (n4 = 24)) as [E4|E4].
  - assert (n100 = 3) by (unfold d2 in E2; lia).
    replace y with ((era + 1) * 400) by (unfold y; lia).
    rewrite Z_mod_mult. replace ((era + 1) * 400) with ((era + 1) * 100 * 4) by lia. by rewrite Z_mod_mult, orb_true_r.
  - assert (y mod 4 = 0 /\ y mod 100 = 4 * n4 + 4) as [-> ->] by (unfold y; split; divlia).
    simpl. destruct (4 * n4 + 4 =? 0) eqn:E; [lia|reflexivity].
Qed.

Lemma civil_correct days y m d : civil days = (y, m, d) → days_of y m d = days /\ 1 ≤ m ≤ 12 /\ 1 ≤ d ≤ days_in y m.
Proof.
  intros E. destruct (civil_year days) as (y' & r & E' & Hd & Hr). rewrite E' in E.
  pose proof (day_of_year _ _ Hr) as H. unfold day_ok in H. fold (month_days y') in H.
  destruct (month_of 1 (month_days y') r) as [m' d'] eqn:Em. injection E as <- <- <-.
  rewrite !andb_true_iff, !Z.leb_le, Z.eqb_eq in H. unfold days_of, days_in. lia.
Qed.

(** ** Parsing what was formatted *)
Lemma digit_code v : 0 ≤ v < 10 → code (digit v) = 48 + v.
Proof.
  intros Hv. unfold digit, code, chr. rewrite (proj2 (Z.ltb_lt v 10)), N_ascii_embedding by lia. lia.
Qed.
Lemma digit_is v : 0 ≤ v < 10 → is_digit (digit v).
Proof. intros. unfold is_digit. rewrite digit_code; lia. Qed.
Lemma dec_value_digits l : Forall is_digit l → 0 ≤ dec_value l < 10 ^ Z.of_nat (length l).
Proof.
  induction l as [|c l IH] using rev_ind; intros H; [unfold dec_value; simpl; lia|].
  apply Forall_app in H as [H Hc]. apply Forall_cons in Hc as [Hc _]. specialize (IH H). unfold is_digit in Hc.
  rewrite dec_value_app, length_app. cbn [length]. replace (Z.of_nat (length l + 1)) with (Z.succ (Z.of_nat (length l))) by lia.
  rewrite Z.pow_succ_r by lia. unfold dec_value at 2 4. cbn [fold_left Z.of_nat]. lia.
Qed.

Lemma pad2_value v : 0 ≤ v < 100 → Forall is_digit (pad2 v) ∧ dec_value (pad2 v) = v.
Proof.
  intros Hv. assert (0 ≤ v / 10 < 10 ∧ 0 ≤ v mod 10 < 10 ∧ v = 10 * (v / 10) + v mod 10) as (H1 & H2 & H3) by divlia.
  split; [repeat constructor; by apply digit_is|]. unfold dec_value, pad2. cbn [fold_left]. rewrite !digit_code by done. lia.
Qed.

Lemma dec_pair l k : dec_value (l ++ pad2 k) = dec_value l * 100 + dec_value (pad2 k).
Proof. by rewrite dec_value_app. Qed.

Lemma pad4_value v : 0 ≤ v < 10000 → Forall is_digit (pad4 v) ∧ dec_value (pad4 v) = v.
Proof.
  intros Hv. assert (0 ≤ v / 100 < 100 ∧ 0 ≤ v mod 100 < 100 ∧ v = 100 * (v / 100) + v mod 100) as (H1 & H2 & H3) by divlia.
  destruct (pad2_value _ H1) as [D1 V1], (pad2_value _ H2) as [D2 V2]. unfold pad4.
  split; [by apply Forall_app|]. rewrite dec_pair, V1, V2. lia.
Qed.

Lemma pad9_value v : 0 ≤ v < Second → Forall is_digit (pad9 v) ∧ dec_value (pad9 v) = v ∧ length (pad9 v) = 9%nat.
Proof.
  unfold Second. intros Hv.
  assert (H : 0 ≤ v / 10000000 < 100 ∧ 0 ≤ v / 100000 mod 100 < 100 ∧ 0 ≤ v / 1000 mod 100 < 100 ∧ 0 ≤ v / 10 mod 100 < 100 ∧
    0 ≤ v mod 10 < 10 ∧ v = 10000000 * (v / 10000000) + 100000 * (v / 100000 mod 100) + 1000 * (v / 1000 mod 100) + 10 * (v / 10 mod 100) + v mod 10)
    by divlia.
  destruct H as (H1 & H2 & H3 & H4 & H5 & H6).
  destruct (pad2_value _ H1) as [D1 V1], (pad2_value _ H2) as [D2 V2], (pad2_value _ H3) as [D3 V3], (pad2_value _ H4) as [D4 V4].
  unfold pad9. split_and!; [|  |done].
  - repeat (apply Forall_app; split; [done|]). constructor; [by apply digit_is|done].
  - rewrite !app_assoc, dec_value_app, !dec_pair, V1, V2, V3, V4.
    unfold dec_value. cbn [fold_left length Z.of_nat]. rewrite digit_code by done. lia.
Qed.

Lemma drop_zeros_app r : ∃ k, reverse r = reverse (drop_zeros r) ++ replicate k "0"%char.
Proof.
  induction r as [|c r [k IH]]; [by exists 0%nat|]. cbn [drop_zeros]. case_bool_decide as E.
  - exists (S k). subst c. by rewrite reverse_cons, IH, <- app_assoc, <- replicate_cons_app.
  - exists 0%nat. by rewrite app_nil_r.
Qed.
Lemma trim_zeros_app l : ∃ k, l = trim_zeros l ++ replicate k "0"%char.
Proof. destruct (drop_zeros_app (reverse l)) as [k E]. exists k. by rewrite reverse_involutive in E. Qed.

Lemma dec_value_zeros k : dec_value (replicate k "0"%char) = 0.
Proof.
  induction k as [|k IH]; [done|]. change (replicate (S k) "0"%char) with (["0"%char] ++ replicate k "0"%char).
  rewrite dec_value_app, IH. change (dec_value ["0"%char]) with 0. lia.
Qed.

Lemma nanoseconds_trim ns : 0 < ns < Second →
  Forall is_digit (trim_zeros (pad9 ns)) ∧ trim_zeros (pad9 ns) ≠ [] ∧ nanoseconds (trim_zeros (pad9 ns)) = ns.
Proof.
  intros Hns. destruct (pad9_value ns ltac:(lia)) as (Hd & Hv & Hl). destruct (trim_zeros_app (pad9 ns)) as [k E].
  set (z := trim_zeros (pad9 ns)) in *. rewrite E in Hd, Hv, Hl.
  rewrite dec_value_app, dec_value_zeros, length_replicate in Hv. rewrite length_app, length_replicate in Hl.
  apply Forall_app in Hd as [Hd _]. split; [done|]. split.
  - intros E0. rewrite E0 in Hv. unfold dec_value in Hv. simpl in Hv. lia.
  - unfold nanoseconds. rewrite take_ge by lia. replace (9 - Z.of_nat (length z)) with (Z.of_nat k) by lia. lia.
Qed.

Lemma parseUint_digits l v a b : Forall is_digit l ∧ dec_value l = v → a ≤ v ≤ b → parseUint l a b = Some v.
Proof.
  intros [Hd Hv] Hb. unfold parseUint.
  assert (forallb (within 48 57) l = true) as ->.
  { apply forallb_forall. intros c Hc. apply within_digit. rewrite Forall_forall in Hd. by apply Hd, list_elem_of_In. }
  simpl. rewrite Hv. by rewrite (proj2 (Z.leb_le _ _)), (proj2 (Z.leb_le _ _)) by lia.
Qed.

Lemma parse_tail ns : 0 ≤ ns < Second →
  (let rest := fraction ns ++ ["Z"%char] in
   if is_char "."%char rest then
     match span_digits (drop 1 rest) with ([], _) => (0, rest) | (digits, zone) => (nanoseconds digits, zone) end
   else (0, rest)) = (ns, ["Z"%char]).
Proof.
  intros Hns. unfold fraction. destruct (ns =? 0) eqn:E; [apply Z.eqb_eq in E as ->; done|].
  destruct (nanoseconds_trim ns ltac:(lia)) as (Hd & Hn & Hv). cbv zeta. cbn [app is_char]. rewrite bool_decide_eq_true_2 by done.
  change (drop 1 ("."%char :: ?k)) with k. rewrite span_digits_app by done.
  destruct (trim_zeros (pad9 ns)); [done|]. by rewrite Hv.
Qed.

Lemma days_in_max y m : days_in y m ≤ 31.
Proof.
  unfold days_in, month_days. generalize (Z.to_nat (m - 1)). intros n. destruct (is_leap y); do 13 (destruct n as [|n]; [simpl; lia|]); simpl; destruct n; lia.
Qed.

Lemma parse_format t : year_ok t = true → parseRFC3339 (format_bytes t) = Some t.
Proof.
  unfold year_ok, format_bytes. destruct (civil (t / dayNs)) as [[y m] d] eqn:E. intros Hy.
  destruct (civil_correct _ _ _ _ E) as (Hdays & Hm & Hd).
  assert (Hd31 : d ≤ 31) by (pose proof (days_in_max y m); lia).
  set (s := t mod dayNs / Second).
  assert (Hs : 0 ≤ s < 86400 ∧ t mod dayNs = s * Second + t mod Second ∧ 0 ≤ t mod Second < Second)
    by (unfold s, dayNs, Second; divlia).
  assert (Hh : 0 ≤ s / 3600 ≤ 23 ∧ 0 ≤ s / 60 mod 60 ≤ 59 ∧ 0 ≤ s mod 60 ≤ 59 ∧ s = 3600 * (s / 3600) + 60 * (s / 60 mod 60) + s mod 60)
    by (clearbody s; divlia).
  pose proof (parse_tail (t mod Second) ltac:(lia)) as Ht. cbv zeta in Ht.
  unfold pad4, pad2 at 1 2 3 4 5 6 7. unfold parseRFC3339. cbn [app].
  change [digit (y / 100 / 10); digit ((y / 100) mod 10); digit (y mod 100 / 10); digit ((y mod 100) mod 10)] with (pad4 y).
  change [digit (?v / 10); digit (?v mod 10)] with (pad2 v).
  rewrite (parseUint_digits (pad4 y) y) by (try apply pad4_value; lia).
  rewrite (parseUint_digits (pad2 m) m) by (try apply pad2_value; lia).
  rewrite (parseUint_digits (pad2 d) d) by (try apply pad2_value; lia).
  change [digit (s / 3600 / 10); digit ((s / 3600) mod 10)] with (pad2 (s / 3600)).
  change [digit ((s / 60) mod 60 / 10); digit (((s / 60) mod 60) mod 10)] with (pad2 (s / 60 mod 60)).
  change [digit (s mod 60 / 10); digit ((s mod 60) mod 10)] with (pad2 (s mod 60)).
  rewrite !(parseUint_digits (pad2 _) _) by (try apply pad2_value; lia).
  rewrite bool_decide_eq_true_2 by done. cbn [negb]. rewrite Ht. cbn [parse_zone]. f_equal. rewrite Hdays.
  assert (t = t / dayNs * dayNs + t mod dayNs) by (unfold dayNs, Second; divlia). lia.
Qed.

Lemma ParseRFC3339_Format lenient t text : FormatRFC3339 t = Some text → ParseRFC3339 lenient text = Some t.
Proof.
  unfold FormatRFC3339, ParseRFC3339. destruct (year_ok t) eqn:E; [|done]. intros [= <-].
  by rewrite bytes_of_bytes, parse_format.
Qed.

(** The texts of times are ASCII. *)
Definition is_ascii (c : ascii) : Prop := code c < 128.

Lemma parseUint_ascii l a b v : parseUint l a b = Some v → Forall is_ascii l.
Proof.
  unfold parseUint. destruct (forallb _ l) eqn:E; [|done]. intros _. rewrite forallb_forall in E. apply Forall_forall. intros c Hc.
  specialize (E c (proj1 (list_elem_of_In _ _) Hc)). unfold within, is_ascii in *. lia.
Qed.

Lemma span_digits_ascii l d r : span_digits l = (d, r) → l = d ++ r ∧ Forall is_ascii d.
Proof.
  revert d r. induction l as [|c l IH]; cbn [span_digits]; [by intros d r [= <- <-]|]. intros d r. destruct (within 48 57 c) eqn:Ec.
  - destruct (span_digits l) as [d' r']. intros [= <- <-]. destruct (IH _ _ eq_refl) as [-> Hd]. split; [done|].
    constructor; [unfold within, is_ascii in *; lia|done].
  - by intros [= <- <-].
Qed.

Lemma parse_zone_ascii l o : parse_zone l = Some o → Forall is_ascii l.
Proof.
  unfold parse_zone. case_bool_decide as E; [subst l; by repeat constructor|].
  destruct l as [|s [|h1 [|h2 [|c [|m1 [|m2 [|]]]]]]]; try done.
  destruct (parseUint [h1; h2] 0 23) as [h|] eqn:Eh; [|done]. destruct (parseUint [m1; m2] 0 59) as [m|] eqn:Em; [|done].
  apply parseUint_ascii in Eh, Em. case_bool_decide as Ec; [subst c|done]. intros H.
  assert (is_ascii s) by (revert H; case_bool_decide; [by subst|]; case_bool_decide; [by subst|done]).
  change (Forall is_ascii ([s] ++ [h1; h2] ++ [":"%char] ++ [m1; m2])).
  repeat (apply Forall_app; split; [done || by repeat constructor|]). done.
Qed.

Lemma parseRFC3339_ascii l t : parseRFC3339 l = Some t → Forall is_ascii l.
Proof.
  destruct l as [|y1 [|y2 [|y3 [|y4 [|p1 [|m1 [|m2 [|p2 [|d1 [|d2 [|p3 [|h1 [|h2 [|p4 [|n1 [|n2 [|p5 [|s1 [|s2 rest]]]]]]]]]]]]]]]]]]]; try done.
  unfold parseRFC3339. destruct (parseUint [y1; y2; y3; y4] _ _) as [y|] eqn:E1; [|done].
  destruct (parseUint [m1; m2] _ _) as [m|] eqn:E2; [|done]. destruct (parseUint [d1; d2] _ _) as [d|] eqn:E3; [|done].
  destruct (parseUint [h1; h2] _ _) as [h|] eqn:E4; [|done]. destruct (parseUint [n1; n2] _ _) as [n|] eqn:E5; [|done].
  destruct (parseUint [s1; s2] _ _) as [s|] eqn:E6; [|done]. case_bool_decide as Ep; [|done]. injection Ep as -> -> -> -> ->.
  intros H. assert (Forall is_ascii rest) as Hr.
  { cbn [negb] in H. destruct (is_char "."%char rest) eqn:Ed.
    - destruct rest as [|c rest]; [done|]. cbn [is_char] in Ed. apply bool_decide_eq_true_1 in Ed as ->.
      change (drop 1 ("."%char :: rest)) with rest in H. destruct (span_digits rest) as [ds z] eqn:Es. apply span_digits_ascii in Es as [-> Hds].
      destruct ds as [|c ds]; [destruct (parse_zone (_ :: _)) eqn:Ez in H; [by apply parse_zone_ascii in Ez|done]|]. destruct (parse_zone z) eqn:Ez; [|done].
      apply parse_zone_ascii in Ez. constructor; [done|]. by apply Forall_app.
    - destruct (parse_zone rest) eqn:Ez; [|done]. by apply parse_zone_ascii in Ez. }
  apply parseUint_ascii in E1, E2, E3, E4, E5, E6.
  change (Forall is_ascii ([y1; y2; y3; y4] ++ ["-"%char] ++ [m1; m2] ++ ["-"%char] ++ [d1; d2] ++ ["T"%char] ++ [h1; h2] ++ [":"%char] ++ [n1; n2]
    ++ [":"%char] ++ [s1; s2] ++ rest)).
  repeat (apply Forall_app; split; [done || by repeat constructor|]). done.
Qed.

Lemma sanitize_ascii l : Forall is_ascii l → sanitize l = l.
Proof.
  unfold sanitize, runes. intros Hl. assert (∀ fuel, (length l ≤ fuel)%nat → (runes_go fuel l ≫= tok_bytes) = l) as H; [|by apply H].
  induction Hl as [|c l Hc Hl IH]; intros [|fuel] Hf; simpl in Hf; try done; [lia|]. cbn [runes_go]. unfold is_ascii in Hc.
  rewrite (proj2 (Z.ltb_lt _ _)) by lia. cbn [mbind list_bind tok_bytes app]. f_equal. apply IH. lia.
Qed.

Lemma FormatRFC3339_clean t text : FormatRFC3339 t = Some text → clean_string text = text.
Proof.
  unfold FormatRFC3339. destruct (year_ok t) eqn:E; [|done]. intros [= <-]. unfold clean_string. rewrite bytes_of_bytes, sanitize_ascii; [done|].
  eapply parseRFC3339_ascii. by apply parse_format.
Qed.
