(* ===== verification/Wire.v ===== *)
(** * The control API as JSON

    The structs of the HTTP API with their tags: how the server encodes its
    answers and how the client decodes them ([internal/control/http.go] and
    [client.go] declare the same fields twice).  A codec is what [encoding/json]
    does with one type: [into] decodes over the value that is already there, as
    the package does, with [DisallowUnknownFields].  The elements of an array are
    decoded over zero values, also when the array comes twice.  A text for a time
    is read after its escapes are undone. *)

From S2P Require Import Prelude GoStd NetIP Json TimeFmt Model Handler.
From Stdlib Require Import Ascii.

Open Scope Z_scope.

Record codec (A : Type) := { zero : A; to_json : A → option json; into : json → A → option A }.
Arguments zero {A}. Arguments to_json {A}. Arguments into {A}.

(** ** Scalars: null leaves the value that is there, except for slices and
    pointers *)
Definition scalar {A} (z : A) (enc : A → option json) (dec : json → option A) : codec A :=
  {| zero := z; to_json := enc; into j prior := match j with JNull => Some prior | _ => dec j end |}.

Definition c_string : codec string :=
  scalar "" (λ s, Some (JString s)) (λ j, match j with JString s => Some s | _ => None end).
Definition c_bool : codec bool :=
  scalar false (λ b, Some (JBool b)) (λ j, match j with JBool b => Some b | _ => None end).
Definition c_int64 : codec Z :=
  scalar 0 (λ z, Some (JNumber (FormatInt z))) (λ j, match j with JNumber t => ParseInt t | _ => None end).
Definition ParseUint16 (s : string) : option Z :=
  match parse_digits (bytes s) with Some v => if v <=? 65535 then Some v else None | None => None end.
Definition c_uint16 : codec Z :=
  scalar 0 (λ z, Some (JNumber (FormatInt z))) (λ j, match j with JNumber t => ParseUint16 t | _ => None end).

(** [IP.MarshalText] and [IP.UnmarshalText]. *)
Definition c_ip : codec IP := {|
  zero := [];
  to_json ip :=
    if bool_decide (ip = []) then Some (JString "")
    else if bool_decide (length ip = 4%nat ∨ length ip = 16%nat) then Some (JString (IP_String ip)) else None;
  into j _ :=
    match j with
    | JNull => Some []
    | JString s => if bool_decide (s = "") then Some [] else let ip := ParseIP s in if bool_decide (ip = []) then None else Some ip
    | _ => None
    end
|}.

Section Codecs.
(** What [time.Parse] makes of a text that is not RFC 3339. *)
Variable lenient : string → option Time.

Definition c_time : codec Time :=
  scalar 0 (λ t, JString <$> FormatRFC3339 t) (λ j, match j with JString s => ParseRFC3339 lenient s | _ => None end).

Definition c_list {A} (c : codec A) : codec (list A) := {|
  zero := [];
  to_json l := JArray <$> mapM (to_json c) l;
  into j _ := match j with JNull => Some [] | JArray l => mapM (λ v, into c v (zero c)) l | _ => None end
|}.
Definition c_ptr {A} (c : codec A) : codec (option A) := {|
  zero := None;
  to_json x := match x with None => Some JNull | Some a => to_json c a end;
  into j prior := match j with JNull => Some None | _ => Some <$> into c j (default (zero c) prior) end
|}.

(** ** Structs

    A member belongs to the field of its name, or else to the first field whose
    name is the same up to case; the long s and the Kelvin sign fold to letters. *)
Definition upper1 (c : ascii) : ascii := if within 97 122 c then chr (code c - 32) else c.
Fixpoint fold_name (l : list ascii) : list ascii :=
  match l with
  | [] => []
  | c :: l1 =>
    match l1 with
    | d :: l2 =>
      if (code c =? 197) && (code d =? 191) then "S"%char :: fold_name l2
      else match l2 with
      | e :: l3 => if (code c =? 226) && (code d =? 132) && (code e =? 170) then "K"%char :: fold_name l3 else upper1 c :: fold_name l1
      | [] => upper1 c :: fold_name l1
      end
    | [] => [upper1 c]
    end
  end.
Definition same_folded (a b : string) : bool := bool_decide (fold_name (bytes a) = fold_name (bytes b)).
Fixpoint first_folded (key : string) (names : list string) : option string :=
  match names with [] => None | n :: names => if same_folded n key then Some n else first_folded key names end.
Definition field_of (names : list string) (key : string) : option string :=
  if existsb (String.eqb key) names then Some key else first_folded key names.

Definition belongs (names : list string) (name key : string) : bool :=
  match field_of names key with Some n => String.eqb n name | None => false end.
Definition known (names : list string) (key : string) : bool := match field_of names key with Some _ => true | None => false end.

Fixpoint fld {A} (c : codec A) (names : list string) (name : string) (ms : list (string * json)) (a : A) : option A :=
  match ms with
  | [] => Some a
  | (k, v) :: ms => if belongs names name k then match into c v a with Some a => fld c names name ms a | None => None end
                    else fld c names name ms a
  end.
Definition object {A} (names : list string) (build : list (string * json) → option A) (j : json) (prior : A) : option A :=
  match j with
  | JNull => Some prior
  | JObject ms => if forallb (λ kv, known names kv.1) ms then build ms else None
  | _ => None
  end.
(** The members of an encoded struct: every value was encodable. *)
Fixpoint encode_members (ms : list (string * option json)) : option (list (string * json)) :=
  match ms with
  | [] => Some []
  | (k, Some v) :: ms => cons (k, v) <$> encode_members ms
  | (_, None) :: _ => None
  end.
Definition encode_object (ms : list (string * option json)) : option json := JObject <$> encode_members ms.

Definition nodeWireResponse := apiNodeResponse.
Definition node_names : list string := ["id"; "display_name"; "public_key"; "platform"; "client_version"; "last_seen"].
Definition c_node : codec nodeWireResponse := {|
  zero := {| ao_ID := ""; ao_DisplayName := ""; ao_PublicKey := ""; ao_Platform := ""; ao_ClientVersion := ""; ao_LastSeen := 0 |};
  to_json a := encode_object
    [("id", to_json c_string (ao_ID a)); ("display_name", to_json c_string (ao_DisplayName a));
     ("public_key", to_json c_string (ao_PublicKey a)); ("platform", to_json c_string (ao_Platform a));
     ("client_version", to_json c_string (ao_ClientVersion a)); ("last_seen", to_json c_time (ao_LastSeen a))];
  into j p := object node_names (λ ms,
    id ← fld c_string node_names "id" ms (ao_ID p);
    name ← fld c_string node_names "display_name" ms (ao_DisplayName p);
    key ← fld c_string node_names "public_key" ms (ao_PublicKey p);
    platform ← fld c_string node_names "platform" ms (ao_Platform p);
    version ← fld c_string node_names "client_version" ms (ao_ClientVersion p);
    seen ← fld c_time node_names "last_seen" ms (ao_LastSeen p);
    Some {| ao_ID := id; ao_DisplayName := name; ao_PublicKey := key; ao_Platform := platform; ao_ClientVersion := version;
            ao_LastSeen := seen |}) j p
|}.

Definition membershipWireResponse := apiMembershipResponse.
Definition membership_names : list string := ["network_id"; "node_id"; "virtual_ipv4"; "role"; "status"].
Definition c_membership : codec membershipWireResponse := {|
  zero := {| am_NetworkID := ""; am_NodeID := ""; am_VirtualIPv4 := []; am_Role := ""; am_Status := "" |};
  to_json a := encode_object
    [("network_id", to_json c_string (am_NetworkID a)); ("node_id", to_json c_string (am_NodeID a));
     ("virtual_ipv4", to_json c_ip (am_VirtualIPv4 a)); ("role", to_json c_string (am_Role a));
     ("status", to_json c_string (am_Status a))];
  into j p := object membership_names (λ ms,
    network ← fld c_string membership_names "network_id" ms (am_NetworkID p);
    node ← fld c_string membership_names "node_id" ms (am_NodeID p);
    ip ← fld c_ip membership_names "virtual_ipv4" ms (am_VirtualIPv4 p);
    role ← fld c_string membership_names "role" ms (am_Role p);
    status ← fld c_string membership_names "status" ms (am_Status p);
    Some {| am_NetworkID := network; am_NodeID := node; am_VirtualIPv4 := ip; am_Role := role; am_Status := status |}) j p
|}.

Definition networkWireResponse := apiNetworkResponse.
Definition network_names : list string := ["id"; "name"; "pool"; "ipv4_pool"; "owner_id"; "config_version"; "created_at"].
Definition c_network : codec networkWireResponse := {|
  zero := {| an_ID := ""; an_Name := ""; an_Pool := ""; an_IPv4Pool := ""; an_OwnerID := ""; an_ConfigVersion := 0; an_CreatedAt := 0 |};
  to_json a := encode_object
    [("id", to_json c_string (an_ID a)); ("name", to_json c_string (an_Name a)); ("pool", to_json c_string (an_Pool a));
     ("ipv4_pool", to_json c_string (an_IPv4Pool a)); ("owner_id", to_json c_string (an_OwnerID a));
     ("config_version", to_json c_int64 (an_ConfigVersion a)); ("created_at", to_json c_time (an_CreatedAt a))];
  into j p := object network_names (λ ms,
    id ← fld c_string network_names "id" ms (an_ID p);
    name ← fld c_string network_names "name" ms (an_Name p);
    pool ← fld c_string network_names "pool" ms (an_Pool p);
    pool4 ← fld c_string network_names "ipv4_pool" ms (an_IPv4Pool p);
    owner ← fld c_string network_names "owner_id" ms (an_OwnerID p);
    version ← fld c_int64 network_names "config_version" ms (an_ConfigVersion p);
    created ← fld c_time network_names "created_at" ms (an_CreatedAt p);
    Some {| an_ID := id; an_Name := name; an_Pool := pool; an_IPv4Pool := pool4; an_OwnerID := owner; an_ConfigVersion := version;
            an_CreatedAt := created |}) j p
|}.

Definition session_names : list string := ["token"; "subject"; "network_id"; "expires_at"].
Definition c_session : codec sessionResponse := {|
  zero := {| ax_Token := ""; ax_Subject := ""; ax_NetworkID := ""; ax_ExpiresAt := 0 |};
  to_json a := encode_object
    [("token", to_json c_string (ax_Token a)); ("subject", to_json c_string (ax_Subject a));
     ("network_id", to_json c_string (ax_NetworkID a)); ("expires_at", to_json c_time (ax_ExpiresAt a))];
  into j p := object session_names (λ ms,
    token ← fld c_string session_names "token" ms (ax_Token p);
    subject ← fld c_string session_names "subject" ms (ax_Subject p);
    network ← fld c_string session_names "network_id" ms (ax_NetworkID p);
    expires ← fld c_time session_names "expires_at" ms (ax_ExpiresAt p);
    Some {| ax_Token := token; ax_Subject := subject; ax_NetworkID := network; ax_ExpiresAt := expires |}) j p
|}.

Definition enrollmentWireResponse := enrollmentResponse.
Definition enrollment_names : list string := ["node"; "membership"; "network"; "session"; "session_token"].
Definition c_enrollment : codec enrollmentWireResponse := {|
  zero := {| er_Node := zero c_node; er_Membership := zero c_membership; er_Network := zero c_network; er_Session := zero c_session;
             er_SessionToken := "" |};
  to_json a := encode_object
    [("node", to_json c_node (er_Node a)); ("membership", to_json c_membership (er_Membership a));
     ("network", to_json c_network (er_Network a)); ("session", to_json c_session (er_Session a));
     ("session_token", to_json c_string (er_SessionToken a))];
  into j p := object enrollment_names (λ ms,
    node ← fld c_node enrollment_names "node" ms (er_Node p);
    membership ← fld c_membership enrollment_names "membership" ms (er_Membership p);
    network ← fld c_network enrollment_names "network" ms (er_Network p);
    session ← fld c_session enrollment_names "session" ms (er_Session p);
    token ← fld c_string enrollment_names "session_token" ms (er_SessionToken p);
    Some {| er_Node := node; er_Membership := membership; er_Network := network; er_Session := session; er_SessionToken := token |}) j p
|}.

Definition endpointWireResponse := apiEndpointResponse.
Definition endpoint_names : list string := ["node_id"; "address"; "port"; "family"; "interface"; "priority"; "observed_at"].
Definition c_endpoint : codec endpointWireResponse := {|
  zero := {| ae_NodeID := ""; ae_Address := []; ae_Port := 0; ae_Family := ""; ae_Interface := ""; ae_Priority := 0; ae_ObservedAt := 0 |};
  to_json a := encode_object
    [("node_id", to_json c_string (ae_NodeID a)); ("address", to_json c_ip (ae_Address a)); ("port", to_json c_uint16 (ae_Port a));
     ("family", to_json c_string (ae_Family a)); ("interface", to_json c_string (ae_Interface a));
     ("priority", to_json c_int64 (ae_Priority a)); ("observed_at", to_json c_time (ae_ObservedAt a))];
  into j p := object endpoint_names (λ ms,
    node ← fld c_string endpoint_names "node_id" ms (ae_NodeID p);
    address ← fld c_ip endpoint_names "address" ms (ae_Address p);
    port ← fld c_uint16 endpoint_names "port" ms (ae_Port p);
    family ← fld c_string endpoint_names "family" ms (ae_Family p);
    interface ← fld c_string endpoint_names "interface" ms (ae_Interface p);
    priority ← fld c_int64 endpoint_names "priority" ms (ae_Priority p);
    observed ← fld c_time endpoint_names "observed_at" ms (ae_ObservedAt p);
    Some {| ae_NodeID := node; ae_Address := address; ae_Port := port; ae_Family := family; ae_Interface := interface;
            ae_Priority := priority; ae_ObservedAt := observed |}) j p
|}.

Definition relayWireResponse := apiRelayAssignmentResponse.
Definition relay_names : list string :=
  ["id"; "network_id"; "node_id"; "relay_node_id"; "address"; "port"; "family"; "status"; "assigned_at"; "expires_at"].
Definition c_relay : codec relayWireResponse := {|
  zero := {| ar_ID := ""; ar_NetworkID := ""; ar_NodeID := ""; ar_RelayNodeID := ""; ar_Address := []; ar_Port := 0; ar_Family := "";
             ar_Status := ""; ar_AssignedAt := 0; ar_ExpiresAt := None |};
  to_json a := encode_object (
    [("id", to_json c_string (ar_ID a)); ("network_id", to_json c_string (ar_NetworkID a)); ("node_id", to_json c_string (ar_NodeID a));
     ("relay_node_id", to_json c_string (ar_RelayNodeID a)); ("address", to_json c_ip (ar_Address a));
     ("port", to_json c_uint16 (ar_Port a)); ("family", to_json c_string (ar_Family a)); ("status", to_json c_string (ar_Status a));
     ("assigned_at", to_json c_time (ar_AssignedAt a))]
    ++ match ar_ExpiresAt a with Some t => [("expires_at", to_json c_time t)] | None => [] end);
  into j p := object relay_names (λ ms,
    id ← fld c_string relay_names "id" ms (ar_ID p);
    network ← fld c_string relay_names "network_id" ms (ar_NetworkID p);
    node ← fld c_string relay_names "node_id" ms (ar_NodeID p);
    relay ← fld c_string relay_names "relay_node_id" ms (ar_RelayNodeID p);
    address ← fld c_ip relay_names "address" ms (ar_Address p);
    port ← fld c_uint16 relay_names "port" ms (ar_Port p);
    family ← fld c_string relay_names "family" ms (ar_Family p);
    status ← fld c_string relay_names "status" ms (ar_Status p);
    assigned ← fld c_time relay_names "assigned_at" ms (ar_AssignedAt p);
    expires ← fld (c_ptr c_time) relay_names "expires_at" ms (ar_ExpiresAt p);
    Some {| ar_ID := id; ar_NetworkID := network; ar_NodeID := node; ar_RelayNodeID := relay; ar_Address := address; ar_Port := port;
            ar_Family := family; ar_Status := status; ar_AssignedAt := assigned; ar_ExpiresAt := expires |}) j p
|}.

Definition peerWireResponse := peerResponse.
Definition peer_names : list string := ["node_id"; "display_name"; "public_key"; "virtual_ipv4"; "node"; "membership"; "endpoints"].
Definition c_peer : codec peerWireResponse := {|
  zero := {| ap_NodeID := ""; ap_DisplayName := ""; ap_PublicKey := ""; ap_VirtualIPv4 := []; ap_Node := zero c_node;
             ap_Membership := zero c_membership; ap_Endpoints := [] |};
  to_json a := encode_object
    [("node_id", to_json c_string (ap_NodeID a)); ("display_name", to_json c_string (ap_DisplayName a));
     ("public_key", to_json c_string (ap_PublicKey a)); ("virtual_ipv4", to_json c_ip (ap_VirtualIPv4 a));
     ("node", to_json c_node (ap_Node a)); ("membership", to_json c_membership (ap_Membership a));
     ("endpoints", to_json (c_list c_endpoint) (ap_Endpoints a))];
  into j p := object peer_names (λ ms,
    id ← fld c_string peer_names "node_id" ms (ap_NodeID p);
    name ← fld c_string peer_names "display_name" ms (ap_DisplayName p);
    key ← fld c_string peer_names "public_key" ms (ap_PublicKey p);
    ip ← fld c_ip peer_names "virtual_ipv4" ms (ap_VirtualIPv4 p);
    node ← fld c_node peer_names "node" ms (ap_Node p);
    membership ← fld c_membership peer_names "membership" ms (ap_Membership p);
    endpoints ← fld (c_list c_endpoint) peer_names "endpoints" ms (ap_Endpoints p);
    Some {| ap_NodeID := id; ap_DisplayName := name; ap_PublicKey := key; ap_VirtualIPv4 := ip; ap_Node := node;
            ap_Membership := membership; ap_Endpoints := endpoints |}) j p
|}.

Definition snapshotWireResponse := snapshotResponseBody.
Definition snapshot_names : list string :=
  ["network_id"; "generation"; "config_version"; "local_node_id"; "local_virtual_ipv4"; "peers"; "relay_assignment"; "generated_at"].
Definition c_snapshot : codec snapshotWireResponse := {|
  zero := {| as_NetworkID := ""; as_Generation := 0; as_ConfigVersion := 0; as_LocalNodeID := ""; as_LocalVirtualIPv4 := []; as_Peers := [];
             as_RelayAssignment := None; as_GeneratedAt := 0 |};
  to_json a := encode_object (
    [("network_id", to_json c_string (as_NetworkID a)); ("generation", to_json c_int64 (as_Generation a));
     ("config_version", to_json c_int64 (as_ConfigVersion a)); ("local_node_id", to_json c_string (as_LocalNodeID a));
     ("local_virtual_ipv4", to_json c_ip (as_LocalVirtualIPv4 a)); ("peers", to_json (c_list c_peer) (as_Peers a))]
    ++ match as_RelayAssignment a with Some r => [("relay_assignment", to_json c_relay r)] | None => [] end
    ++ [("generated_at", to_json c_time (as_GeneratedAt a))]);
  into j p := object snapshot_names (λ ms,
    network ← fld c_string snapshot_names "network_id" ms (as_NetworkID p);
    generation ← fld c_int64 snapshot_names "generation" ms (as_Generation p);
    version ← fld c_int64 snapshot_names "config_version" ms (as_ConfigVersion p);
    local ← fld c_string snapshot_names "local_node_id" ms (as_LocalNodeID p);
    ip ← fld c_ip snapshot_names "local_virtual_ipv4" ms (as_LocalVirtualIPv4 p);
    peers ← fld (c_list c_peer) snapshot_names "peers" ms (as_Peers p);
    relay ← fld (c_ptr c_relay) snapshot_names "relay_assignment" ms (as_RelayAssignment p);
    generated ← fld c_time snapshot_names "generated_at" ms (as_GeneratedAt p);
    Some {| as_NetworkID := network; as_Generation := generation; as_ConfigVersion := version; as_LocalNodeID := local;
            as_LocalVirtualIPv4 := ip; as_Peers := peers; as_RelayAssignment := relay; as_GeneratedAt := generated |}) j p
|}.

Definition invite_names : list string := ["invite_id"; "network_id"; "token"; "expires_at"].
Definition c_invite : codec inviteResponse := {|
  zero := {| ai_InviteID := ""; ai_NetworkID := ""; ai_Token := ""; ai_ExpiresAt := 0 |};
  to_json a := encode_object
    [("invite_id", to_json c_string (ai_InviteID a)); ("network_id", to_json c_string (ai_NetworkID a));
     ("token", to_json c_string (ai_Token a)); ("expires_at", to_json c_time (ai_ExpiresAt a))];
  into j p := object invite_names (λ ms,
    id ← fld c_string invite_names "invite_id" ms (ai_InviteID p);
    network ← fld c_string invite_names "network_id" ms (ai_NetworkID p);
    token ← fld c_string invite_names "token" ms (ai_Token p);
    expires ← fld c_time invite_names "expires_at" ms (ai_ExpiresAt p);
    Some {| ai_InviteID := id; ai_NetworkID := network; ai_Token := token; ai_ExpiresAt := expires |}) j p
|}.

End Codecs.
