(* ===== verification/WireThm.v ===== *)
(** * The control API as JSON: what is sent is what is received *)

From Stdlib Require Import Ascii.
From S2P Require Import Prelude GoStd NetIP NetIP6 Json TimeFmt Model Handler Wire.

Open Scope Z_scope.

(** [a] is encoded, at most [h] deep, and decoded as [b]. *)
Definition sends {A} (c : codec A) (h : Z) (a b : A) : Prop :=
  ∃ j, to_json c a = Some j ∧ json_ok j ∧ height j ≤ h ∧ into c (clean j) (zero c) = Some b ∧ clean j ≠ JNull.

(** ** Scalars *)
Lemma sends_string s : utf8 s = true → sends c_string 0 s s.
Proof. intros Hs%utf8_clean. exists (JString s). split_and!; try done. cbn [clean]. by rewrite Hs. Qed.
Lemma sends_bool b : sends c_bool 0 b b.
Proof. by exists (JBool b). Qed.
Lemma sends_int64 z : int64 z → sends c_int64 0 z z.
Proof. intros Hz. exists (JNumber (FormatInt z)). split_and!; try done; [by eexists|]. cbn. by apply ParseInt_FormatInt. Qed.
Lemma sends_uint16 z : 0 ≤ z ≤ 65535 → sends c_uint16 0 z z.
Proof.
  intros Hz. exists (JNumber (FormatInt z)). split_and!; try done; [by eexists|]. cbn. unfold ParseUint16, FormatInt.
  rewrite (proj2 (Z.ltb_ge z 0)), Itoa_digits_value by lia. by rewrite (proj2 (Z.leb_le z 65535)) by lia.
Qed.
Lemma sends_time lenient t : year_ok t = true → sends (c_time lenient) 0 t t.
Proof.
  intros Ht. assert (∃ s, FormatRFC3339 t = Some s) as [s Hs] by (unfold FormatRFC3339; rewrite Ht; eauto).
  exists (JString s). cbn [c_time scalar to_json into clean]. rewrite Hs. split_and!; try done.
  rewrite (FormatRFC3339_clean t s Hs). by apply ParseRFC3339_Format.
Qed.

Definition ip_ok (ip : IP) : Prop := ip = [] ∨ (length ip = 4%nat ∨ length ip = 16%nat) ∧ Forall is_byte ip.

Lemma IP_String_ascii ip : length ip = 4%nat ∨ length ip = 16%nat → Forall is_byte ip → Forall is_ascii (bytes (IP_String ip)).
Proof.
  intros Hl Hb. unfold IP_String. rewrite bool_decide_eq_false_2 by (intros ->; by destruct Hl). rewrite bool_decide_eq_true_2 by done.
  cbn [negb]. assert (∀ b, is_byte b → Forall is_ascii (dec_byte b)) as Hd.
  { refine (byte_cases _ _). apply (bool_decide_eq_true_1 _). vm_compute. reflexivity. }
  assert (∀ v, Forall is_ascii (dotted (put_be 4 v))) as Hdot.
  { intros v. pose proof (put_be_byte 4 v) as Hp. destruct (put_be 4 v) as [|a [|b [|c [|d [|]]]]]; try constructor.
    decompose_Forall_hyps. cbn [dotted]. repeat (apply Forall_app; split; [by apply Hd|]; constructor; [done|]). by apply Hd. }
  case_bool_decide; [unfold Addr_String, AddrFrom4; by rewrite bytes_of_bytes|].
  unfold Addr_String, AddrFrom16. destruct (Is4In6 _); rewrite bytes_of_bytes; change (zone_suffix "") with (@nil ascii); rewrite app_nil_r.
  - apply Forall_app. split; [by repeat constructor|done].
  - destruct (append6_chars (be_value ip)) as [Hc _]. eapply Forall_impl; [exact Hc|]. intros c [[d Hx]| ->]; [|done].
    unfold hex_val in Hx. unfold is_ascii. destruct ((48 <=? code c) && _) eqn:E1; [lia|]. destruct ((97 <=? code c) && _) eqn:E2; [lia|].
    destruct ((65 <=? code c) && _) eqn:E3; [lia|done].
Qed.

Lemma sends_ip ip : ip_ok ip → sends c_ip 0 ip (To16 ip).
Proof.
  intros [->|[Hl Hb]]; [by exists (JString "")|]. exists (JString (IP_String ip)). cbn [c_ip to_json into clean].
  assert (ip ≠ []) by (intros ->; by destruct Hl). rewrite bool_decide_eq_false_2, bool_decide_eq_true_2 by done. split_and!; try done.
  pose proof (ParseIP_String ip Hl Hb) as Hp. pose proof (IP_String_ascii ip Hl Hb) as Ha.
  unfold clean_string. rewrite sanitize_ascii, of_bytes_bytes by done. cbv zeta. rewrite Hp.
  assert (To16 ip ≠ []) as Hne by (unfold To16; destruct Hl as [E|E]; rewrite E; done).
  rewrite !bool_decide_eq_false_2; [done|done|]. intros E. rewrite E in Hp. by rewrite <- Hp in Hne.
Qed.

(** ** Lists *)
Lemma sends_list {A} (c : codec A) h (f : A → A) l :
  Forall (λ a, sends c h a (f a)) l → 0 ≤ h → sends (c_list c) (1 + h) l (f <$> l).
Proof.
  intros Hl Hh. assert (∃ js, mapM (to_json c) l = Some js ∧ Forall json_ok js ∧ Forall (λ j, height j ≤ h) js ∧
    mapM (λ v, into c v (zero c)) (List.map clean js) = Some (f <$> l)) as (js & E & Hok & Hhs & Hd).
  { induction Hl as [|a l (j & E & Hok & Hj & Hd & _) Hl (js & Es & Hoks & Hjs & Hds)]; [by exists []|].
    exists (j :: js). cbn [mapM List.map]. rewrite E, Es, Hd. cbn [mbind option_bind]. rewrite Hds.
    by repeat constructor. }
  exists (JArray js). cbn [c_list to_json into clean zero]. rewrite E. split_and!; try done; [by apply json_ok_array|].
  cbn [height]. assert (foldr (λ v h, Z.max (height v) h) 0 js ≤ h) by (by apply foldr_max_le). lia.
Qed.

(** ** Structs *)
Lemma fld_skip {A} (c : codec A) names name k v ms a :
  belongs names name k = false → fld c names name ((k, v) :: ms) a = fld c names name ms a.
Proof. intros H. cbn [fld]. by rewrite H. Qed.
Lemma fld_hit {A} (c : codec A) names name k v ms a b :
  belongs names name k = true → into c v a = Some b → fld c names name ((k, v) :: ms) a = fld c names name ms b.
Proof. intros H E. cbn [fld]. by rewrite H, E. Qed.
Lemma encode_cons k v ms : encode_members ((k, Some v) :: ms) = cons (k, v) <$> encode_members ms.
Proof. done. Qed.

Lemma height_object_le l h : Forall (λ kv, height kv.2 ≤ h - 1) l → 1 ≤ h → height (JObject l) ≤ h.
Proof.
  intros Hl Hh. assert (height (JObject l) = height (JArray l.*2)) as ->.
  { cbn [height]. f_equal. clear. induction l as [|[k v] l IH]; [done|]. rewrite fmap_cons. cbn [foldr snd]. by rewrite IH. }
  cbn [height]. assert (foldr (λ v h, Z.max (height v) h) 0 l.*2 ≤ h - 1); [|lia]. apply foldr_max_le. rewrite Forall_fmap. split; [lia|done].
Qed.

(** One member of the text at a time: it belongs to the field or it does not. *)
Ltac read_fields :=
  repeat match goal with
  | |- context [fld ?c ?names ?name ((?k, ?v) :: ?ms) ?a] =>
    let b := eval vm_compute in (belongs names name k) in
    lazymatch b with
    | false => rewrite (fld_skip c names name k v ms a) by reflexivity
    | true => match goal with H : into _ v _ = Some ?y |- _ => rewrite (fld_hit c names name k v ms a y) by (reflexivity || exact H) end
    end
  | |- context [fld ?c ?names ?name [] ?a] => change (fld c names name [] a) with (Some a)
  end.

(** The members are encoded, and their texts are the struct's. *)
Ltac open_sends :=
  repeat match goal with H : sends _ _ _ _ |- _ => destruct H as (? & ? & ? & ? & ? & ?) end.
Ltac encode_struct :=
  unfold encode_object; repeat match goal with H : to_json _ _ = Some _ |- _ => rewrite H; clear H end;
  cbn [encode_members fmap option_fmap option_map app].
Ltac each_member tac := repeat (apply Forall_cons; split; [cbn [snd]; tac|]); by apply Forall_nil.
Ltac sends_struct :=
  open_sends; eexists; cbn [to_json into zero]; encode_struct;
  (split; [reflexivity|]; split; [apply json_ok_object; each_member ltac:(assumption)|];
   split; [apply height_object_le; [each_member ltac:(lia)|lia]|]; split; [|by rewrite clean_object]);
  rewrite clean_object; cbn [List.map clean_member fst snd]; unfold clean_member; cbn [fst snd]; clean_constants; unfold object;
  match goal with |- context [forallb ?f ?l] => replace (forallb f l) with true by reflexivity end;
  read_fields; try reflexivity.


Definition node_ok (a : apiNodeResponse) : Prop :=
  utf8 (ao_ID a) = true ∧ utf8 (ao_DisplayName a) = true ∧ utf8 (ao_PublicKey a) = true ∧ utf8 (ao_Platform a) = true ∧
  utf8 (ao_ClientVersion a) = true ∧ year_ok (ao_LastSeen a) = true.
Lemma sends_node lenient a : node_ok a → sends (c_node lenient) 1 a a.
Proof.
  intros (H1%sends_string & H2%sends_string & H3%sends_string & H4%sends_string & H5%sends_string & H6%(sends_time lenient)).
  unfold c_node. sends_struct. by destruct a.
Qed.

Definition membership_ok (a : apiMembershipResponse) : Prop :=
  utf8 (am_NetworkID a) = true ∧ utf8 (am_NodeID a) = true ∧ ip_ok (am_VirtualIPv4 a) ∧ utf8 (am_Role a) = true ∧ utf8 (am_Status a) = true.
Definition membership16 (a : apiMembershipResponse) : apiMembershipResponse :=
  {| am_NetworkID := am_NetworkID a; am_NodeID := am_NodeID a; am_VirtualIPv4 := To16 (am_VirtualIPv4 a); am_Role := am_Role a;
     am_Status := am_Status a |}.
Lemma sends_membership a : membership_ok a → sends c_membership 1 a (membership16 a).
Proof.
  intros (H1%sends_string & H2%sends_string & H3%sends_ip & H4%sends_string & H5%sends_string). unfold c_membership. sends_struct.
Qed.

Definition network_ok (a : apiNetworkResponse) : Prop :=
  utf8 (an_ID a) = true ∧ utf8 (an_Name a) = true ∧ utf8 (an_Pool a) = true ∧ utf8 (an_IPv4Pool a) = true ∧ utf8 (an_OwnerID a) = true ∧
  int64 (an_ConfigVersion a) ∧ year_ok (an_CreatedAt a) = true.
Lemma sends_network lenient a : network_ok a → sends (c_network lenient) 1 a a.
Proof.
  intros (H1%sends_string & H2%sends_string & H3%sends_string & H4%sends_string & H5%sends_string & H6%sends_int64 & H7%(sends_time lenient)).
  unfold c_network. sends_struct. by destruct a.
Qed.

Definition session_ok (a : sessionResponse) : Prop :=
  utf8 (ax_Token a) = true ∧ utf8 (ax_Subject a) = true ∧ utf8 (ax_NetworkID a) = true ∧ year_ok (ax_ExpiresAt a) = true.
Lemma sends_session lenient a : session_ok a → sends (c_session lenient) 1 a a.
Proof.
  intros (H1%sends_string & H2%sends_string & H3%sends_string & H4%(sends_time lenient)). unfold c_session. sends_struct. by destruct a.
Qed.

Definition enrollment_ok (a : enrollmentResponse) : Prop :=
  node_ok (er_Node a) ∧ membership_ok (er_Membership a) ∧ network_ok (er_Network a) ∧ session_ok (er_Session a) ∧
  utf8 (er_SessionToken a) = true.
Definition enrollment16 (a : enrollmentResponse) : enrollmentResponse :=
  {| er_Node := er_Node a; er_Membership := membership16 (er_Membership a); er_Network := er_Network a; er_Session := er_Session a;
     er_SessionToken := er_SessionToken a |}.
Lemma sends_enrollment lenient a : enrollment_ok a → sends (c_enrollment lenient) 2 a (enrollment16 a).
Proof.
  intros (H1%(sends_node lenient) & H2%sends_membership & H3%(sends_network lenient) & H4%(sends_session lenient) & H5%sends_string).
  unfold c_enrollment. sends_struct.
Qed.

Definition endpoint_ok (a : apiEndpointResponse) : Prop :=
  utf8 (ae_NodeID a) = true ∧ ip_ok (ae_Address a) ∧ 0 ≤ ae_Port a ≤ 65535 ∧ utf8 (ae_Family a) = true ∧ utf8 (ae_Interface a) = true ∧
  int64 (ae_Priority a) ∧ year_ok (ae_ObservedAt a) = true.
Definition endpoint16 (a : apiEndpointResponse) : apiEndpointResponse :=
  {| ae_NodeID := ae_NodeID a; ae_Address := To16 (ae_Address a); ae_Port := ae_Port a; ae_Family := ae_Family a;
     ae_Interface := ae_Interface a; ae_Priority := ae_Priority a; ae_ObservedAt := ae_ObservedAt a |}.
Lemma sends_endpoint lenient a : endpoint_ok a → sends (c_endpoint lenient) 1 a (endpoint16 a).
Proof.
  intros (H1%sends_string & H2%sends_ip & H3%sends_uint16 & H4%sends_string & H5%sends_string & H6%sends_int64 & H7%(sends_time lenient)).
  unfold c_endpoint. sends_struct.
Qed.

Definition peer_ok (a : peerResponse) : Prop :=
  utf8 (ap_NodeID a) = true ∧ utf8 (ap_DisplayName a) = true ∧ utf8 (ap_PublicKey a) = true ∧ ip_ok (ap_VirtualIPv4 a) ∧
  node_ok (ap_Node a) ∧ membership_ok (ap_Membership a) ∧ Forall endpoint_ok (ap_Endpoints a).
Definition peer16 (a : peerResponse) : peerResponse :=
  {| ap_NodeID := ap_NodeID a; ap_DisplayName := ap_DisplayName a; ap_PublicKey := ap_PublicKey a; ap_VirtualIPv4 := To16 (ap_VirtualIPv4 a);
     ap_Node := ap_Node a; ap_Membership := membership16 (ap_Membership a); ap_Endpoints := endpoint16 <$> ap_Endpoints a |}.
Lemma sends_peer lenient a : peer_ok a → sends (c_peer lenient) 3 a (peer16 a).
Proof.
  intros (H1%sends_string & H2%sends_string & H3%sends_string & H4%sends_ip & H5%(sends_node lenient) & H6%sends_membership & H7).
  assert (sends (c_list (c_endpoint lenient)) 2 (ap_Endpoints a) (endpoint16 <$> ap_Endpoints a)) as H8.
  { apply (sends_list _ 1); [|lia]. eapply Forall_impl; [exact H7|]. apply sends_endpoint. }
  unfold c_peer. sends_struct.
Qed.

Definition relay_ok (a : apiRelayAssignmentResponse) : Prop :=
  utf8 (ar_ID a) = true ∧ utf8 (ar_NetworkID a) = true ∧ utf8 (ar_NodeID a) = true ∧ utf8 (ar_RelayNodeID a) = true ∧ ip_ok (ar_Address a) ∧
  0 ≤ ar_Port a ≤ 65535 ∧ utf8 (ar_Family a) = true ∧ utf8 (ar_Status a) = true ∧ year_ok (ar_AssignedAt a) = true ∧
  match ar_ExpiresAt a with Some t => year_ok t = true | None => True end.
Definition relay16 (a : apiRelayAssignmentResponse) : apiRelayAssignmentResponse :=
  {| ar_ID := ar_ID a; ar_NetworkID := ar_NetworkID a; ar_NodeID := ar_NodeID a; ar_RelayNodeID := ar_RelayNodeID a;
     ar_Address := To16 (ar_Address a); ar_Port := ar_Port a; ar_Family := ar_Family a; ar_Status := ar_Status a;
     ar_AssignedAt := ar_AssignedAt a; ar_ExpiresAt := ar_ExpiresAt a |}.
Lemma into_ptr {A} (c : codec A) j b : into c j (zero c) = Some b → j ≠ JNull → into (c_ptr c) j None = Some (Some b).
Proof. intros H Hj. cbn [c_ptr into default]. destruct j; [done|..]; by rewrite H. Qed.

Lemma sends_relay lenient a : relay_ok a → sends (c_relay lenient) 1 a (relay16 a).
Proof.
  intros (H1%sends_string & H2%sends_string & H3%sends_string & H4%sends_string & H5%sends_ip & H6%sends_uint16 & H7%sends_string &
    H8%sends_string & H9%(sends_time lenient) & H10). unfold c_relay, relay16, sends.
  cbn [to_json into zero]. destruct (ar_ExpiresAt a) as [t|].
  - apply (sends_time lenient) in H10. destruct H10 as (j & Ej & Hok & Hh & Hd & Hn). pose proof (into_ptr _ _ _ Hd Hn) as Hp. clear Hd. sends_struct.
  - sends_struct.
Qed.

Definition snapshot_ok (a : snapshotResponseBody) : Prop :=
  utf8 (as_NetworkID a) = true ∧ int64 (as_Generation a) ∧ int64 (as_ConfigVersion a) ∧ utf8 (as_LocalNodeID a) = true ∧
  ip_ok (as_LocalVirtualIPv4 a) ∧ Forall peer_ok (as_Peers a) ∧
  match as_RelayAssignment a with Some r => relay_ok r | None => True end ∧ year_ok (as_GeneratedAt a) = true.
Definition snapshot16 (a : snapshotResponseBody) : snapshotResponseBody :=
  {| as_NetworkID := as_NetworkID a; as_Generation := as_Generation a; as_ConfigVersion := as_ConfigVersion a;
     as_LocalNodeID := as_LocalNodeID a; as_LocalVirtualIPv4 := To16 (as_LocalVirtualIPv4 a); as_Peers := peer16 <$> as_Peers a;
     as_RelayAssignment := relay16 <$> as_RelayAssignment a; as_GeneratedAt := as_GeneratedAt a |}.
Lemma sends_snapshot lenient a : snapshot_ok a → sends (c_snapshot lenient) 5 a (snapshot16 a).
Proof.
  intros (H1%sends_string & H2%sends_int64 & H3%sends_int64 & H4%sends_string & H5%sends_ip & H6 & H7 & H8%(sends_time lenient)).
  assert (sends (c_list (c_peer lenient)) 4 (as_Peers a) (peer16 <$> as_Peers a)) as H9.
  { apply (sends_list _ 3); [|lia]. eapply Forall_impl; [exact H6|]. apply sends_peer. }
  unfold c_snapshot, snapshot16, sends. cbn [to_json into zero]. destruct (as_RelayAssignment a) as [r|].
  - apply (sends_relay lenient) in H7. destruct H7 as (j & Ej & Hok & Hh & Hd & Hn). pose proof (into_ptr _ _ _ Hd Hn) as Hp. clear Hd. sends_struct.
  - sends_struct.
Qed.

Definition invite_ok (a : inviteResponse) : Prop :=
  utf8 (ai_InviteID a) = true ∧ utf8 (ai_NetworkID a) = true ∧ utf8 (ai_Token a) = true ∧ year_ok (ai_ExpiresAt a) = true.
Lemma sends_invite lenient a : invite_ok a → sends (c_invite lenient) 1 a a.
Proof.
  intros (H1%sends_string & H2%sends_string & H3%sends_string & H4%(sends_time lenient)). unfold c_invite. sends_struct. by destruct a.
Qed.

(** ** Encoding does not depend on how times are parsed *)
Section Encoding.
Variables l1 l2 : string → option Time.

Lemma json_time t : to_json (c_time l1) t = to_json (c_time l2) t.
Proof. reflexivity. Qed.
Lemma json_list {A} (c1 c2 : codec A) l : (∀ a, to_json c1 a = to_json c2 a) → to_json (c_list c1) l = to_json (c_list c2) l.
Proof. intros Hc. unfold c_list. cbn [to_json]. f_equal. induction l as [|a l IH]; [done|]. cbn [mapM]. by rewrite Hc, IH. Qed.
Lemma json_node a : to_json (c_node l1) a = to_json (c_node l2) a.
Proof. unfold c_node. cbn [to_json]. by rewrite json_time. Qed.
Lemma json_network a : to_json (c_network l1) a = to_json (c_network l2) a.
Proof. unfold c_network. cbn [to_json]. by rewrite json_time. Qed.
Lemma json_session a : to_json (c_session l1) a = to_json (c_session l2) a.
Proof. unfold c_session. cbn [to_json]. by rewrite json_time. Qed.
Lemma json_invite a : to_json (c_invite l1) a = to_json (c_invite l2) a.
Proof. unfold c_invite. cbn [to_json]. by rewrite json_time. Qed.
Lemma json_endpoint a : to_json (c_endpoint l1) a = to_json (c_endpoint l2) a.
Proof. unfold c_endpoint. cbn [to_json]. by rewrite json_time. Qed.
Lemma json_relay a : to_json (c_relay l1) a = to_json (c_relay l2) a.
Proof. unfold c_relay. cbn [to_json]. rewrite json_time. by destruct (ar_ExpiresAt a); rewrite ?json_time. Qed.
Lemma json_enrollment a : to_json (c_enrollment l1) a = to_json (c_enrollment l2) a.
Proof. unfold c_enrollment. cbn [to_json]. by rewrite json_node, json_network, json_session. Qed.
Lemma json_peer a : to_json (c_peer l1) a = to_json (c_peer l2) a.
Proof. unfold c_peer. cbn [to_json]. by rewrite json_node, (json_list (c_endpoint l1) (c_endpoint l2)) by apply json_endpoint. Qed.
Lemma json_snapshot a : to_json (c_snapshot l1) a = to_json (c_snapshot l2) a.
Proof.
  unfold c_snapshot. cbn [to_json]. rewrite json_time, (json_list (c_peer l1) (c_peer l2)) by apply json_peer.
  by destruct (as_RelayAssignment a); rewrite ?json_relay.
Qed.
End Encoding.
