(* ===== verification/Ipc.v ===== *)
(** * The local protocol: requests, responses and their validation

    The data of [internal/ipc/protocol.go] and its checks.  Commands, path states
    and error codes are strings, as in Go; [IpcCodec] has the JSON encoding. *)

From S2P Require Import Prelude GoStd.

Open Scope Z_scope.

(** ** Commands *)
Definition CommandStatus : string := "status".
Definition CommandJoin : string := "join".
Definition CommandJoinRoom : string := "join_room".
Definition CommandLeave : string := "leave".
Definition CommandConnect : string := "connect".
Definition CommandDisconnect : string := "disconnect".
Definition CommandRoomMembers : string := "room_members".

Inductive timeoutClass := localCommandTimeout | networkCommandTimeout.

Definition commandTimeoutClass (command : string) : timeoutClass :=
  if bool_decide (command ∈ [CommandJoin; CommandJoinRoom; CommandLeave; CommandConnect; CommandRoomMembers])
  then networkCommandTimeout else localCommandTimeout.

Record Request := { ipq_Type : string; ipq_Invite : string; ipq_DisplayName : string; ipq_ControlURL : string; ipq_NetworkID : string }.

(** ** Responses *)
Definition PathStateDisconnected : string := "disconnected".
Definition PathStateDirect : string := "direct".
Definition PathStateRelay : string := "relay".
Definition RoomMemberOnline : string := "online".

Definition CodeInvalidRequest : string := "invalid_request".
Definition CodeUnauthorized : string := "unauthorized".
Definition CodeAlreadyJoined : string := "already_joined".
Definition CodeNotJoined : string := "not_joined".
Definition CodeWrongNetwork : string := "wrong_network".
Definition CodeNotStarted : string := "not_started".
Definition CodeControlFailed : string := "control_failed".
Definition CodeControlUnreachable : string := "control_unreachable".
Definition CodeOperationTimeout : string := "operation_timeout".
Definition CodeAdapterFailed : string := "adapter_failed".
Definition CodeInternal : string := "internal_error".

Record RoomMember := { rm_DisplayName : string; rm_VirtualIPv4 : string; rm_IsLocal : bool; rm_State : string }.
#[global] Instance RoomMember_eq_dec : EqDecision RoomMember.
Proof. solve_decision. Defined.

Record Status := {
  ss_NetworkID : string; ss_VirtualIPv4 : string; ss_PathState : string; ss_LastHandshake : Time; ss_LastError : string;
  ss_ConfigGeneration : Z
}.
Definition zeroStatus : Status :=
  {| ss_NetworkID := ""; ss_VirtualIPv4 := ""; ss_PathState := ""; ss_LastHandshake := 0; ss_LastError := "";
     ss_ConfigGeneration := 0 |}.
Definition with_PathState (st : Status) (p : string) : Status :=
  {| ss_NetworkID := ss_NetworkID st; ss_VirtualIPv4 := ss_VirtualIPv4 st; ss_PathState := p;
     ss_LastHandshake := ss_LastHandshake st; ss_LastError := ss_LastError st; ss_ConfigGeneration := ss_ConfigGeneration st |}.

Record Error := { er_Code : string; er_Message : string }.

(** Nil [Members] and a nil [Error] are [None]. *)
Record Response := { ipr_OK : bool; ipr_Status : Status; ipr_Members : option (list RoomMember); ipr_Error : option Error }.

Definition SuccessResponse (status : Status) : Response :=
  let status := if bool_decide (ss_PathState status = "") then with_PathState status PathStateDisconnected else status in
  {| ipr_OK := true; ipr_Status := status; ipr_Members := None; ipr_Error := None |}.

Definition ErrorResponse (code : string) : Response :=
  {| ipr_OK := false; ipr_Status := zeroStatus; ipr_Members := None;
     ipr_Error := Some {| er_Code := if bool_decide (code = "") then CodeInternal else code; er_Message := "" |} |}.

(** Appending no members to a nil slice leaves it nil. *)
Definition SuccessMembersResponse (networkID : string) (members : list RoomMember) : Response :=
  {| ipr_OK := true;
     ipr_Status := {| ss_NetworkID := networkID; ss_VirtualIPv4 := ""; ss_PathState := PathStateDisconnected;
                     ss_LastHandshake := 0; ss_LastError := ""; ss_ConfigGeneration := 0 |};
     ipr_Members := match members with [] => None | _ => Some members end; ipr_Error := None |}.

(** ** Validation: whether [validateRequest] and [validateRoomMember] accept *)
Definition validateRequest (r : Request) : bool :=
  if bool_decide (ipq_Type r ∈ [CommandStatus; CommandRoomMembers]) then
    bool_decide (ipq_Invite r = "") && bool_decide (ipq_DisplayName r = "") && bool_decide (ipq_ControlURL r = "")
    && bool_decide (ipq_NetworkID r = "")
  else if bool_decide (ipq_Type r = CommandJoin) then negb (blank (ipq_Invite r) || blank (ipq_DisplayName r))
  else if bool_decide (ipq_Type r = CommandJoinRoom) then
    negb (blank (ipq_ControlURL r) || blank (ipq_DisplayName r))
    && bool_decide (ipq_Invite r = "") && bool_decide (ipq_NetworkID r = "")
  else if bool_decide (ipq_Type r ∈ [CommandLeave; CommandConnect; CommandDisconnect]) then negb (blank (ipq_NetworkID r))
  else false.

Definition validateRoomMember (m : RoomMember) : bool :=
  negb (blank (rm_DisplayName m)) && negb (is_nil (To4 (ParseIP (rm_VirtualIPv4 m)))) && bool_decide (rm_State m = RoomMemberOnline).
