(* ===== verification/IpcCodec.v ===== *)
(** * The local protocol as JSON

    The encoders and decoders of [internal/ipc/protocol.go].  A raw message is the
    tree its text is read as.  [decodeObject] goes through the tokens of the
    decoder, which count no nesting for the object itself.  An error that is only
    a text is [plain]. *)

From S2P Require Import Prelude GoStd NetIP Json TimeFmt Ipc.
From Stdlib Require Import Ascii.

Open Scope Z_scope.


Definition plain : error := EForeign 0.
Definition expect (b : bool) : result unit := if b then Ok tt else Err plain.
(** Every error return of a decoder joins its sentinel with the error. *)
Definition joined {A} (s : sentinel) (r : result A) : result A := match r with Ok a => Ok a | Err e => Err (EJoin s e) end.

(** ** Fields of an object *)
Definition fields := list (string * json).
Fixpoint field (name : string) (l : fields) : option json :=
  match l with (k, v) :: l' => if String.eqb k name then Some v else field name l' | [] => None end.

Definition MaxMessageSize : Z := 2 ^ 20.

(** The keys are not empty and no key comes twice. *)
Fixpoint keys_ok (l : fields) : bool :=
  match l with
  | (k, _) :: l' => negb (String.eqb k "") && negb (existsb (λ '(k', _), String.eqb k' k) l') && keys_ok l'
  | [] => true
  end.
Definition object_fields (v : json) : result fields :=
  match v with JObject l => if keys_ok l then Ok l else Err plain | _ => Err plain end.

Definition decodeObject (data : list ascii) (rejectTrailing : bool) : result fields :=
  if MaxMessageSize <? Z.of_nat (length data) then Err ErrMessageTooLarge
  else match parse_value (S (length data)) (-1) data with
  | None => Err plain
  | Some (v, rest) =>
    l ← object_fields v;
    if rejectTrailing && negb (bool_decide (skip_space rest = [])) then Err plain else Ok l
  end.

Definition decodeString (raw : json) : result string := match raw with JString s => Ok s | _ => Err plain end.
Definition decodeStringField (l : fields) (name : string) : result string :=
  match field name l with None => Err plain | Some raw => decodeString raw end.
Definition decodeBoolField (l : fields) (name : string) : result bool :=
  match field name l with Some (JBool b) => Ok b | _ => Err plain end.
Definition decodeInt (raw : json) : result Z :=
  match raw with JNumber t => match ParseInt t with Some z => Ok z | None => Err plain end | _ => Err plain end.

(** The names of the fields are all allowed. *)
Definition only (allowed : list string) (l : fields) : bool := forallb (λ '(k, _), existsb (String.eqb k) allowed) l.

(** ** Requests: [json.Marshal] writes a map by its sorted keys *)
Definition request_fields (r : Request) : fields :=
  if bool_decide (ipq_Type r = CommandJoin) then
    [("display_name", JString (ipq_DisplayName r)); ("invite", JString (ipq_Invite r)); ("type", JString (ipq_Type r))]
  else if bool_decide (ipq_Type r = CommandJoinRoom) then
    [("control_url", JString (ipq_ControlURL r)); ("display_name", JString (ipq_DisplayName r)); ("type", JString (ipq_Type r))]
  else if bool_decide (ipq_Type r ∈ [CommandLeave; CommandConnect; CommandDisconnect]) then
    [("network_id", JString (ipq_NetworkID r)); ("type", JString (ipq_Type r))]
  else [("type", JString (ipq_Type r))].

Definition MarshalRequest (r : Request) : result (list ascii) :=
  if negb (validateRequest r) then Err plain else Ok (print (JObject (request_fields r))).

Definition DecodeRequest (data : list ascii) : result Request :=
  joined ipc_ErrInvalidRequest (
    l ← decodeObject data true;
    command ← decodeStringField l "type";
    '(request, allowed) ← (
      if bool_decide (command ∈ [CommandStatus; CommandRoomMembers]) then
        Ok ({| ipq_Type := command; ipq_Invite := ""; ipq_DisplayName := ""; ipq_ControlURL := ""; ipq_NetworkID := "" |}, ["type"])
      else if bool_decide (command = CommandJoin) then
        invite ← decodeStringField l "invite";
        name ← decodeStringField l "display_name";
        Ok ({| ipq_Type := command; ipq_Invite := invite; ipq_DisplayName := name; ipq_ControlURL := ""; ipq_NetworkID := "" |},
            ["type"; "invite"; "display_name"])
      else if bool_decide (command = CommandJoinRoom) then
        url ← decodeStringField l "control_url";
        name ← decodeStringField l "display_name";
        Ok ({| ipq_Type := command; ipq_Invite := ""; ipq_DisplayName := name; ipq_ControlURL := url; ipq_NetworkID := "" |},
            ["type"; "control_url"; "display_name"])
      else if bool_decide (command ∈ [CommandLeave; CommandConnect; CommandDisconnect]) then
        id ← decodeStringField l "network_id";
        Ok ({| ipq_Type := command; ipq_Invite := ""; ipq_DisplayName := ""; ipq_ControlURL := ""; ipq_NetworkID := id |},
            ["type"; "network_id"])
      else Err plain);
    _ ← expect (only allowed l);
    _ ← expect (validateRequest request);
    Ok request).

(** ** Responses *)
Definition member_json (m : RoomMember) : json :=
  JObject [("display_name", JString (rm_DisplayName m)); ("virtual_ipv4", JString (rm_VirtualIPv4 m));
           ("is_local", JBool (rm_IsLocal m)); ("state", JString (rm_State m))].
(** A field of [omitempty], or of a map entry that is set under a condition. *)
Definition when (b : bool) (k : string) (v : json) : fields := if b then [(k, v)] else [].
Definition nonempty (s : string) : bool := negb (bool_decide (s = "")).
Definition error_json (e : Error) : json :=
  JObject (("code", JString (er_Code e)) :: when (nonempty (er_Message e)) "message" (JString (er_Message e)) ++ []).

(** The entries of the map, in the order [json.Marshal] writes them. *)
Definition response_fields (ok : bool) (status : Status) (handshake : string) (members : option (list RoomMember)) (err : option Error) : fields :=
  when true "config_generation" (JNumber (FormatInt (ss_ConfigGeneration status)))
  ++ when (bool_decide (is_Some err)) "error" (from_option error_json JNull err)
  ++ when (nonempty (ss_LastError status)) "last_error" (JString (ss_LastError status))
  ++ when (negb (IsZero (ss_LastHandshake status))) "last_handshake" (JString handshake)
  ++ when (bool_decide (is_Some members)) "members" (JArray (List.map member_json (default [] members)))
  ++ when (nonempty (ss_NetworkID status)) "network_id" (JString (ss_NetworkID status))
  ++ when true "ok" (JBool ok)
  ++ when true "path_state" (JString (ss_PathState status))
  ++ when (nonempty (ss_VirtualIPv4 status)) "virtual_ipv4" (JString (ss_VirtualIPv4 status)) ++ [].

Definition disconnected_if_empty (status : Status) : Status :=
  if bool_decide (ss_PathState status = "") then with_PathState status PathStateDisconnected else status.

Definition MarshalResponse (r : Response) : result (list ascii) :=
  if ipr_OK r && bool_decide (is_Some (ipr_Error r)) then Err ipc_ErrInvalidResponse
  else if negb (ipr_OK r) && negb (bool_decide (is_Some (ipr_Error r))) then Err ipc_ErrInvalidResponse
  else if negb (ipr_OK r) && bool_decide (is_Some (ipr_Members r)) then Err ipc_ErrInvalidResponse
  else
    let status := disconnected_if_empty (ipr_Status r) in
    if bool_decide (is_Some (ipr_Members r)) && blank (ss_NetworkID status) then Err ipc_ErrInvalidResponse
    else if negb (forallb validateRoomMember (default [] (ipr_Members r))) then Err (EJoin ipc_ErrInvalidResponse plain)
    else match FormatRFC3339 (ss_LastHandshake status) with
    | None => Err plain
    | Some handshake =>
      let encoded := print (JObject (response_fields (ipr_OK r) status handshake (ipr_Members r) (ipr_Error r))) in
      if MaxMessageSize <? Z.of_nat (length encoded) then Err ErrMessageTooLarge else Ok encoded
    end.

Definition decodeRoomMember (raw : json) : result RoomMember :=
  l ← object_fields raw;
  _ ← expect (only ["display_name"; "virtual_ipv4"; "is_local"; "state"] l);
  name ← decodeStringField l "display_name";
  ip ← decodeStringField l "virtual_ipv4";
  local ← decodeBoolField l "is_local";
  state ← decodeStringField l "state";
  let member := {| rm_DisplayName := name; rm_VirtualIPv4 := ip; rm_IsLocal := local; rm_State := state |} in
  _ ← expect (validateRoomMember member);
  Ok member.

Fixpoint decode_elements (l : list json) : result (list RoomMember) :=
  match l with
  | v :: l => m ← decodeRoomMember v; ms ← decode_elements l; Ok (m :: ms)
  | [] => Ok []
  end.
Definition decodeRoomMembers (raw : json) : result (list RoomMember) :=
  match raw with JArray l => decode_elements l | _ => Err plain end.

(** The error object is unmarshalled into a map: of two equal keys the last one
    stays. *)
Definition decode_error (raw : json) : result Error :=
  match raw with
  | JObject l =>
    let value := reverse l in
    code ← decodeStringField value "code";
    message ← match field "message" value with Some raw => decodeString raw | None => Ok "" end;
    _ ← expect (only ["code"; "message"] value);
    Ok {| er_Code := code; er_Message := message |}
  | _ => Err plain
  end.

Section Decode.
(** What [time.Parse] makes of a text that is not RFC 3339. *)
Variable lenient : string → option Time.

Definition decodeTime (raw : json) : result Time :=
  s ← decodeString raw;
  match ParseRFC3339 lenient s with Some t => Ok t | None => Err plain end.

Definition optional {A} (l : fields) (name : string) (zero : A) (decode : json → result A) : result A :=
  match field name l with Some raw => decode raw | None => Ok zero end.

Definition response_names : list string :=
  ["ok"; "network_id"; "virtual_ipv4"; "path_state"; "last_handshake"; "last_error"; "config_generation"; "members"; "error"].

Definition decode_response (l : fields) : result Response :=
  ok ← decodeBoolField l "ok";
  _ ← expect (only response_names l);
  id ← optional l "network_id" "" decodeString;
  ip ← optional l "virtual_ipv4" "" decodeString;
  path ← optional l "path_state" "" decodeString;
  handshake ← optional l "last_handshake" 0 decodeTime;
  last ← optional l "last_error" "" decodeString;
  generation ← optional l "config_generation" 0 decodeInt;
  members ← optional l "members" None (λ raw,
    _ ← expect ok;
    _ ← expect (negb (blank id));
    ms ← decodeRoomMembers raw;
    Ok (Some ms));
  err ← optional l "error" None (λ raw, e ← decode_error raw; Ok (Some e));
  Ok {| ipr_OK := ok;
        ipr_Status := {| ss_NetworkID := id; ss_VirtualIPv4 := ip; ss_PathState := path; ss_LastHandshake := handshake;
                         ss_LastError := last; ss_ConfigGeneration := generation |};
        ipr_Members := members; ipr_Error := err |}.

Definition DecodeResponse (data : list ascii) : result Response :=
  r ← joined ipc_ErrInvalidResponse (l ← decodeObject data true; decode_response l);
  if Bool.eqb (ipr_OK r) (bool_decide (is_Some (ipr_Error r))) then Err ipc_ErrInvalidResponse
  else Ok {| ipr_OK := ipr_OK r; ipr_Status := disconnected_if_empty (ipr_Status r); ipr_Members := ipr_Members r;
             ipr_Error := ipr_Error r |}.
End Decode.
