(* ===== verification/Service.v ===== *)
(** * The local service

    [internal/service/service.go]: the state machine behind the local protocol.
    The collaborators are records of operations on a world [W]; an operation that
    may be missing, and an interface that a client may not implement, is an
    [option].  [operationMu] makes the operations sequential and [mu] only guards
    the fields, so a method is a function on the fields and the world.  [lower] is
    [strings.ToLower] with its Unicode tables. *)

From S2P Require Import Prelude GoStd Model NetURL Ipc IpcCodec.
From Stdlib Require Import Ascii.

Open Scope Z_scope.

Record JoinRequest := { jq_Invite : string; jq_DisplayName : string; jq_PublicKey : string }.
Record JoinResult := { jr_DisplayName : string; jr_NetworkID : string; jr_VirtualIPv4 : string; jr_ConfigGeneration : Z }.
Definition with_DisplayName (r : JoinResult) (name : string) : JoinResult :=
  {| jr_DisplayName := name; jr_NetworkID := jr_NetworkID r; jr_VirtualIPv4 := jr_VirtualIPv4 r;
     jr_ConfigGeneration := jr_ConfigGeneration r |}.

(** ** Collaborators *)
Record ControlClient (W : Type) := {
  cc_Join : Context → JoinRequest → M W JoinResult;
  cc_Leave : Context → string → M W unit;
  cc_JoinRoom : option (Context → JoinRequest → M W JoinResult);
  cc_Snapshot : option (Context → string → M W NetworkSnapshot)
}.
Record SnapshotApplier (W : Type) := {
  sa_Apply : Context → NetworkSnapshot → M W unit;
  sa_Clear : Context → M W unit
}.
Record AdapterOps (W : Type) := {
  da_Connect : Context → string → M W unit;
  da_Disconnect : Context → string → M W unit
}.
Arguments cc_Join {W}. Arguments cc_Leave {W}. Arguments cc_JoinRoom {W}. Arguments cc_Snapshot {W}.
Arguments sa_Apply {W}. Arguments sa_Clear {W}. Arguments da_Connect {W}. Arguments da_Disconnect {W}.

(** [so_Identity] loads or creates the identity and gives its public key. *)
Record Options (W : Type) := {
  so_Identity : option (M W string);
  so_Control : option (ControlClient W);
  so_ControlURL : string;
  so_Adapter : option (AdapterOps W);
  so_Reconciler : option (SnapshotApplier W)
}.
Arguments so_Identity {W}. Arguments so_Control {W}. Arguments so_ControlURL {W}. Arguments so_Adapter {W}.
Arguments so_Reconciler {W}.

Record Service := { sv_identity : string; sv_started : bool; sv_joined : option JoinResult; sv_status : Status }.

Definition New : Service := {| sv_identity := ""; sv_started := false; sv_joined := None; sv_status := zeroStatus |}.

Definition disconnected_status : Status := with_PathState zeroStatus PathStateDisconnected.
Definition joined_status (r : JoinResult) : Status :=
  {| ss_NetworkID := jr_NetworkID r; ss_VirtualIPv4 := jr_VirtualIPv4 r; ss_PathState := PathStateDisconnected;
     ss_LastHandshake := 0; ss_LastError := ""; ss_ConfigGeneration := jr_ConfigGeneration r |}.

Definition contextErr (ctx : Context) : option error :=
  match ctx with
  | nilContext => Some (ESentinel Canceled)
  | doneContext e => Some (ESentinel e)
  | liveContext => None
  end.

(** ** Error codes

    [errors.As] for [net.Error], [url.Error] and [HTTPError]. [timeout_of] is the
    result of the [Timeout] method of an error that has one. *)
Fixpoint timeout_of (e : error) : option bool :=
  match e with
  | ESentinel DeadlineExceeded => Some true
  | ENet b => Some b
  | EURL e => Some (default false (timeout_of e))
  | _ => None
  end.
Fixpoint as_net (e : error) : option bool :=
  match timeout_of e, e with
  | Some b, _ => Some b
  | None, EWrap e => as_net e
  | None, EJoin a b => match as_net a with Some t => Some t | None => as_net b end
  | None, _ => None
  end.
Fixpoint as_url (e : error) : bool :=
  match e with EURL _ => true | EWrap e => as_url e | EJoin a b => as_url a || as_url b | _ => false end.
Fixpoint as_http (e : error) : option string :=
  match e with
  | EHTTP _ c => Some c
  | EURL e | EWrap e => as_http e
  | EJoin a b => match as_http a with Some c => Some c | None => as_http b end
  | _ => None
  end.

Definition safeControlErrorCode (err : error) : string :=
  if error_is err DeadlineExceeded then CodeOperationTimeout
  else if default false (as_net err) then CodeOperationTimeout
  else if as_url err then CodeControlUnreachable
  else CodeControlFailed.

Definition safeRoomControlErrorCode (err : error) : string :=
  match as_http err with
  | Some c =>
    if bool_decide (c ∈ ["room_not_ready"; "room_mode_disabled"; "node_already_joined"; "room_full"; "join_rate_limited";
                         "enrollment_recovery_pending"]%string)
    then c else CodeControlFailed
  | None => safeControlErrorCode err
  end.

(** ** The service *)
Section Service.
Context {W : Type}.
Variable lower : string → string.
Variable options : Options W.

Definition Op : Type := Service * W → Ipc.Response * (Service * W).
Definition fail (c : string) : Op := λ st, (ErrorResponse c, st).

Fixpoint drop_slashes (l : list ascii) : list ascii :=
  match l with [] => [] | c :: l' => if bool_decide (c = "/"%char) then drop_slashes l' else l end.
Definition TrimRightSlash (s : string) : string := of_bytes (reverse (drop_slashes (reverse (bytes s)))).

Definition canonicalControlURL (value : string) : option string :=
  match url_Parse (TrimSpace value) with
  | None => None
  | Some u =>
    if bool_decide (u_Scheme u = "") || bool_decide (u_Host u = "") || negb (bool_decide (u_User u = None))
       || negb (bool_decide (u_RawQuery u = "")) || negb (bool_decide (u_Fragment u = ""))
    then None
    else Some (URL_String {| u_Scheme := lower (u_Scheme u); u_Opaque := u_Opaque u; u_User := u_User u;
                             u_Host := lower (u_Host u); u_Path := TrimRightSlash (u_Path u); u_OmitHost := u_OmitHost u;
                             u_ForceQuery := u_ForceQuery u; u_RawQuery := u_RawQuery u; u_Fragment := u_Fragment u |})
  end.

Definition Start (ctx : Context) : M (Service * W) unit := λ '(s, w),
  match so_Identity options with
  | None => (Err service_ErrInvalidOptions, (s, w))
  | Some load =>
    if sv_started s then (Ok tt, (s, w))
    else match load w with
    | (Err e, w) => (Err e, (s, w))
    | (Ok publicKey, w) =>
      if blank publicKey then (Err ErrInvalidIdentity, (s, w))
      else match contextErr ctx with
      | Some e => (Err e, (s, w))
      | None => (Ok tt, ({| sv_identity := publicKey; sv_started := true; sv_joined := sv_joined s;
                            sv_status := disconnected_status |}, w))
      end
    end
  end.

Definition Shutdown (ctx : Context) : M (Service * W) unit := λ '(s, w),
  let ctx := match ctx with nilContext => liveContext | _ => ctx end in
  if negb (sv_started s) then (Ok tt, (s, w))
  else
    let '(cleanup, w) :=
      match so_Reconciler options with
      | Some reconciler => sa_Clear reconciler ctx w
      | None =>
        match sv_joined s, so_Adapter options with
        | Some joined, Some adapter =>
          if negb (bool_decide (ss_PathState (sv_status s) = PathStateDisconnected))
          then da_Disconnect adapter ctx (jr_NetworkID joined) w else (Ok tt, w)
        | _, _ => (Ok tt, w)
        end
      end in
    (cleanup, ({| sv_identity := sv_identity s; sv_started := false; sv_joined := None; sv_status := disconnected_status |}, w)).

Definition PublicKey (s : Service) : string := sv_identity s.

(** [rollback] leaves with a context of its own and drops the error. *)
Definition finishJoin (ctx : Context) (result : JoinResult) : Op := λ '(s, w),
  match so_Control options with
  | None => fail CodeControlFailed (s, w)
  | Some controlClient =>
    let rollback (c : string) (w : W) := fail c (s, (cc_Leave controlClient liveContext (jr_NetworkID result) w).2) in
    let finish (w : W) :=
      match sv_joined s with
      | Some _ => rollback CodeAlreadyJoined w
      | None =>
        let status := joined_status result in
        (SuccessResponse status, ({| sv_identity := sv_identity s; sv_started := sv_started s; sv_joined := Some result;
                                     sv_status := status |}, w))
      end in
    if blank (jr_NetworkID result) || blank (jr_VirtualIPv4 result) then rollback CodeControlFailed w
    else match so_Reconciler options with
    | None => finish w
    | Some reconciler =>
      match cc_Snapshot controlClient with
      | None => rollback CodeControlFailed w
      | Some snapshotOf =>
        match snapshotOf ctx (jr_NetworkID result) w with
        | (Err e, w) => rollback (safeControlErrorCode e) w
        | (Ok snapshot, w) =>
          match sa_Apply reconciler ctx snapshot w with
          | (Err _, w) => rollback CodeAdapterFailed w
          | (Ok _, w) => finish w
          end
        end
      end
    end
  end.

Definition join (ctx : Context) (request : Request) : Op := λ '(s, w),
  match sv_joined s with
  | Some _ => fail CodeAlreadyJoined (s, w)
  | None =>
    if blank (ipq_Invite request) || blank (ipq_DisplayName request) then fail CodeInvalidRequest (s, w)
    else match so_Control options with
    | None => fail CodeInvalidRequest (s, w)
    | Some controlClient =>
      match cc_Join controlClient ctx {| jq_Invite := ipq_Invite request; jq_DisplayName := ipq_DisplayName request;
                                         jq_PublicKey := sv_identity s |} w with
      | (Err e, w) => fail (safeControlErrorCode e) (s, w)
      | (Ok result, w) => finishJoin ctx (with_DisplayName result (ipq_DisplayName request)) (s, w)
      end
    end
  end.

Definition joinRoom (ctx : Context) (request : Request) : Op := λ '(s, w),
  match sv_joined s with
  | Some _ => fail CodeAlreadyJoined (s, w)
  | None =>
    match canonicalControlURL (ipq_ControlURL request), canonicalControlURL (so_ControlURL options), so_Control options with
    | Some requestedURL, Some configuredCanonical, Some controlClient =>
      if negb (bool_decide (requestedURL = configuredCanonical)) || blank (ipq_DisplayName request)
      then fail CodeInvalidRequest (s, w)
      else match cc_JoinRoom controlClient with
      | None => fail CodeControlFailed (s, w)
      | Some joinRoomOf =>
        match joinRoomOf ctx {| jq_Invite := ""; jq_DisplayName := ipq_DisplayName request; jq_PublicKey := sv_identity s |} w with
        | (Err e, w) => fail (safeRoomControlErrorCode e) (s, w)
        | (Ok result, w) => finishJoin ctx (with_DisplayName result (ipq_DisplayName request)) (s, w)
        end
      end
    | _, _, _ => fail CodeInvalidRequest (s, w)
    end
  end.

(** The disconnection of the adapter and the clearing in [leave]: whether both
    succeeded. *)
Definition leave_data_plane (ctx : Context) (networkID : string) (s : Service) (w : W) : bool * W :=
  let '(ok, w) :=
    match so_Adapter options with
    | Some adapter =>
      if negb (bool_decide (ss_PathState (sv_status s) = PathStateDisconnected))
      then let '(r, w) := da_Disconnect adapter ctx networkID w in (is_ok r, w) else (true, w)
    | None => (true, w)
    end in
  if negb ok then (false, w)
  else match so_Reconciler options with
  | Some reconciler => let '(r, w) := sa_Clear reconciler ctx w in (is_ok r, w)
  | None => (true, w)
  end.

Definition leave (ctx : Context) (networkID : string) : Op := λ '(s, w),
  match sv_joined s with
  | None => fail CodeNotJoined (s, w)
  | Some joined =>
    if negb (bool_decide (networkID = jr_NetworkID joined)) then fail CodeWrongNetwork (s, w)
    else
      let '(ok, w) := leave_data_plane ctx networkID s w in
      if negb ok then fail CodeAdapterFailed (s, w)
      else match so_Control options with
      | None => fail CodeControlFailed (s, w)
      | Some controlClient =>
        match cc_Leave controlClient ctx networkID w with
        | (Err e, w) => fail (safeControlErrorCode e) (s, w)
        | (Ok _, w) =>
          (SuccessResponse disconnected_status,
           ({| sv_identity := sv_identity s; sv_started := sv_started s; sv_joined := None; sv_status := disconnected_status |}, w))
        end
      end
  end.

(** ** Members of the room *)
Definition member_less : RoomMember → RoomMember → bool :=
  lex_less rm_IsLocal (λ a b, a && negb b)
    (lex_less (λ m, lower (rm_DisplayName m)) sltb
      (lex_less rm_VirtualIPv4 sltb (λ x y, sltb (rm_DisplayName x) (rm_DisplayName y)))).

Definition peer_member (p : Peer) : option RoomMember :=
  let name := TrimSpace (pr_DisplayName p) in
  let ip := To4 (pr_VirtualIPv4 p) in
  if bool_decide (name = "") || is_nil ip then None
  else Some {| rm_DisplayName := name; rm_VirtualIPv4 := IP_String ip; rm_IsLocal := false; rm_State := RoomMemberOnline |}.

Definition projectRoomMembers (joined : JoinResult) (snapshot : NetworkSnapshot) : option (list RoomMember) :=
  let joinedName := TrimSpace (jr_DisplayName joined) in
  let joinedIP := To4 (ParseIP (TrimSpace (jr_VirtualIPv4 joined))) in
  if bool_decide (joinedName = "") || blank (jr_NetworkID joined) || is_nil joinedIP then None
  else if negb (bool_decide (sn_NetworkID snapshot = jr_NetworkID joined)) then None
  else
    let localIP := To4 (sn_LocalVirtualIPv4 snapshot) in
    if is_nil localIP || negb (IP_Equal localIP joinedIP) then None
    else match mapM peer_member (sn_Peers snapshot) with
    | None => None
    | Some members =>
      Some (SliceStable member_less
        ({| rm_DisplayName := joinedName; rm_VirtualIPv4 := IP_String joinedIP; rm_IsLocal := true;
            rm_State := RoomMemberOnline |} :: members))
    end.

Definition with_Status (r : Ipc.Response) (st : Status) : Ipc.Response :=
  {| ipr_OK := ipr_OK r; ipr_Status := st; ipr_Members := ipr_Members r; ipr_Error := ipr_Error r |}.

Definition roomMembers (ctx : Context) : Op := λ '(s, w),
  match sv_joined s with
  | None => fail CodeNotJoined (s, w)
  | Some joined =>
    match so_Control options ≫= cc_Snapshot with
    | None => fail CodeControlFailed (s, w)
    | Some snapshotOf =>
      match snapshotOf ctx (jr_NetworkID joined) w with
      | (Err e, w) => fail (safeControlErrorCode e) (s, w)
      | (Ok snapshot, w) =>
        match projectRoomMembers joined snapshot with
        | None => fail CodeControlFailed (s, w)
        | Some members => (with_Status (SuccessMembersResponse (jr_NetworkID joined) members) (sv_status s), (s, w))
        end
      end
    end
  end.

(** ** Connecting *)
Definition to_path (p : string) (st : Service * W) : Ipc.Response * (Service * W) :=
  let status := with_PathState (sv_status st.1) p in
  (SuccessResponse status, ({| sv_identity := sv_identity st.1; sv_started := sv_started st.1; sv_joined := sv_joined st.1;
                               sv_status := status |}, st.2)).

Definition connect (ctx : Context) (networkID : string) : Op := λ '(s, w),
  match sv_joined s with
  | None => fail CodeNotJoined (s, w)
  | Some joined =>
    if negb (bool_decide (networkID = jr_NetworkID joined)) then fail CodeWrongNetwork (s, w)
    else match so_Reconciler options, so_Adapter options with
    | Some reconciler, _ =>
      match so_Control options ≫= cc_Snapshot with
      | None => fail CodeControlFailed (s, w)
      | Some snapshotOf =>
        match snapshotOf ctx networkID w with
        | (Err _, w) => fail CodeAdapterFailed (s, w)
        | (Ok snapshot, w) =>
          match sa_Apply reconciler ctx snapshot w with
          | (Err _, w) => fail CodeAdapterFailed (s, w)
          | (Ok _, w) => to_path PathStateDirect (s, w)
          end
        end
      end
    | None, None => fail CodeAdapterFailed (s, w)
    | None, Some adapter =>
      match da_Connect adapter ctx networkID w with
      | (Err _, w) => fail CodeAdapterFailed (s, w)
      | (Ok _, w) => to_path PathStateDirect (s, w)
      end
    end
  end.

Definition disconnect (ctx : Context) (networkID : string) : Op := λ '(s, w),
  match sv_joined s with
  | None => fail CodeNotJoined (s, w)
  | Some joined =>
    if negb (bool_decide (networkID = jr_NetworkID joined)) then fail CodeWrongNetwork (s, w)
    else match so_Reconciler options, so_Adapter options with
    | Some reconciler, _ =>
      match sa_Clear reconciler ctx w with
      | (Err _, w) => fail CodeAdapterFailed (s, w)
      | (Ok _, w) => to_path PathStateDisconnected (s, w)
      end
    | None, None => fail CodeAdapterFailed (s, w)
    | None, Some adapter =>
      match da_Disconnect adapter ctx networkID w with
      | (Err _, w) => fail CodeAdapterFailed (s, w)
      | (Ok _, w) => to_path PathStateDisconnected (s, w)
      end
    end
  end.

(** ** Requests *)
Definition Handle (ctx : Context) (request : Request) : Op := λ '(s, w),
  match contextErr ctx with
  | Some _ => fail CodeInternal (s, w)
  | None =>
    if bool_decide (ipq_Type request = CommandStatus) then
      if negb (sv_started s) then fail CodeNotStarted (s, w) else (SuccessResponse (sv_status s), (s, w))
    else if negb (sv_started s) then fail CodeNotStarted (s, w)
    else if bool_decide (ipq_Type request = CommandJoin) then join ctx request (s, w)
    else if bool_decide (ipq_Type request = CommandJoinRoom) then joinRoom ctx request (s, w)
    else if bool_decide (ipq_Type request = CommandRoomMembers) then roomMembers ctx (s, w)
    else if bool_decide (ipq_Type request = CommandLeave) then leave ctx (ipq_NetworkID request) (s, w)
    else if bool_decide (ipq_Type request = CommandConnect) then connect ctx (ipq_NetworkID request) (s, w)
    else if bool_decide (ipq_Type request = CommandDisconnect) then disconnect ctx (ipq_NetworkID request) (s, w)
    else fail CodeInvalidRequest (s, w)
  end.

(** [HandleJSON]: the bytes of a request, and the bytes of the answer. *)
Definition HandleJSON (authorizer : option (Context → M W unit)) (ctx : Context) (data : list ascii) :
    Service * W → result (list ascii) * (Service * W) := λ '(s, w),
  match DecodeRequest data with
  | Err _ => (MarshalResponse (ErrorResponse CodeInvalidRequest), (s, w))
  | Ok request =>
    match authorizer with
    | None => (MarshalResponse (ErrorResponse CodeUnauthorized), (s, w))
    | Some authorize =>
      match authorize ctx w with
      | (Err _, w) => (MarshalResponse (ErrorResponse CodeUnauthorized), (s, w))
      | (Ok _, w) => let '(response, st) := Handle ctx request (s, w) in (MarshalResponse response, st)
      end
    end
  end.

End Service.
