(* ===== verification/DataPlane.v ===== *)
(** * The service's collaborators on Windows

    [internal/service/control_client.go]: the client that remembers its
    enrollment, over the interface of the control API; and the connection methods
    of [WindowsDataPlane] in [internal/service/service_windows.go], over the
    snapshot applier.  Both are put together with the service as
    [cmd/vpn-service] does it.  A field that a method reads under a lock is read
    from the state. *)

From S2P Require Import Prelude GoStd Crypto Model Auth Wgnt Routes Reconcile NetURL Ipc Service.

Open Scope Z_scope.

(** ** The control API as the client sees it *)
Record APIJoinRequest := {
  aj_Invite : string; aj_NodeID : string; aj_DisplayName : string; aj_PublicKey : string; aj_Platform : string;
  aj_ClientVersion : string
}.
Record RoomJoinRequest := { rj_DisplayName : string; rj_PublicKey : string; rj_Platform : string; rj_ClientVersion : string }.
Record EnrollmentResult := {
  er_Node : Node; er_Membership : Membership; er_Network : Network; er_Session : Session; er_SessionToken : string
}.

Class ControlAPI (W : Type) := {
  api_Join : Context → APIJoinRequest → M W EnrollmentResult;
  api_JoinRoom : Context → RoomJoinRequest → M W EnrollmentResult;
  api_Leave : Context → string → string → string → M W unit;
  api_Snapshot : Context → string → string → M W NetworkSnapshot;
  api_Heartbeat : Context → string → string → string → string → list EndpointCandidate → M W unit
}.

(** ** The client of the service *)
Record HTTPControlClient := {
  hc_nodeID : string; hc_platform : string; hc_clientVersion : string; hc_networkID : string; hc_sessionToken : string
}.

Definition NewHTTPControlClient (nodeID platform clientVersion : string) : HTTPControlClient :=
  {| hc_nodeID := nodeID; hc_platform := if blank platform then "windows" else platform;
     hc_clientVersion := if blank clientVersion then "dev" else clientVersion; hc_networkID := ""; hc_sessionToken := "" |}.

Definition stableNodeID (publicKey : string) : string :=
  ("node-" +:+ hex_EncodeToString (take 8 (Sum256 (byte_values publicKey))))%string.

Definition rememberEnrollment (result : EnrollmentResult) (client : HTTPControlClient) : JoinResult * HTTPControlClient :=
  ({| jr_DisplayName := nd_DisplayName (er_Node result); jr_NetworkID := nw_ID (er_Network result);
      jr_VirtualIPv4 := IP_String (mb_VirtualIPv4 (er_Membership result));
      jr_ConfigGeneration := nw_ConfigVersion (er_Network result) |},
   {| hc_nodeID := nd_ID (er_Node result); hc_platform := hc_platform client; hc_clientVersion := hc_clientVersion client;
      hc_networkID := nw_ID (er_Network result); hc_sessionToken := er_SessionToken result |}).

Section Client.
Context {W : Type} `{ControlAPI W}.

Definition remembered (r : result EnrollmentResult) (client : HTTPControlClient) (w : W)
    : result JoinResult * (HTTPControlClient * W) :=
  match r with
  | Err e => (Err e, (client, w))
  | Ok result => let '(joined, client) := rememberEnrollment result client in (Ok joined, (client, w))
  end.

Definition client_Join (ctx : Context) (request : JoinRequest) : M (HTTPControlClient * W) JoinResult := λ '(client, w),
  let nodeID := TrimSpace (hc_nodeID client) in
  let nodeID := if bool_decide (nodeID = "") then stableNodeID (jq_PublicKey request) else nodeID in
  let '(r, w) := api_Join ctx {| aj_Invite := jq_Invite request; aj_NodeID := nodeID; aj_DisplayName := jq_DisplayName request;
                                 aj_PublicKey := jq_PublicKey request; aj_Platform := hc_platform client;
                                 aj_ClientVersion := hc_clientVersion client |} w in
  remembered r client w.

Definition client_JoinRoom (ctx : Context) (request : JoinRequest) : M (HTTPControlClient * W) JoinResult := λ '(client, w),
  let '(r, w) := api_JoinRoom ctx {| rj_DisplayName := jq_DisplayName request; rj_PublicKey := jq_PublicKey request;
                                     rj_Platform := hc_platform client; rj_ClientVersion := hc_clientVersion client |} w in
  remembered r client w.

(** The error of a client that is not joined to the network has no sentinel. *)
Definition notJoinedError : error := EForeign 0.

Definition client_Leave (ctx : Context) (networkID : string) : M (HTTPControlClient * W) unit := λ '(client, w),
  if negb (bool_decide (hc_networkID client = networkID)) || bool_decide (hc_nodeID client = "")
     || bool_decide (hc_sessionToken client = "")
  then (Err notJoinedError, (client, w))
  else match api_Leave ctx networkID (hc_nodeID client) (hc_sessionToken client) w with
  | (Err e, w) => (Err e, (client, w))
  | (Ok _, w) =>
    (Ok tt, ({| hc_nodeID := hc_nodeID client; hc_platform := hc_platform client; hc_clientVersion := hc_clientVersion client;
                hc_networkID := ""; hc_sessionToken := "" |}, w))
  end.

Definition client_Snapshot (ctx : Context) (networkID : string) : M (HTTPControlClient * W) NetworkSnapshot := λ '(client, w),
  let '(r, w) := api_Snapshot ctx networkID (hc_sessionToken client) w in (r, (client, w)).

Definition client_Heartbeat (ctx : Context) (endpoints : list EndpointCandidate) : M (HTTPControlClient * W) unit :=
  λ '(client, w),
  let '(r, w) := api_Heartbeat ctx (hc_networkID client) (hc_nodeID client) (hc_sessionToken client) (hc_clientVersion client)
                   endpoints w in
  (r, (client, w)).

End Client.

(** ** The data plane of the service *)
Definition noSnapshotError : error := EForeign 1.

Section Windows.
Context {W : Type} `{Adapter W} `{RouteManager W}.

Definition dataPlane_Clear (ctx : Context) : M (Applier * W) unit := applier_Clear ctx.
Definition dataPlane_Connect (ctx : Context) (networkID : string) : M (Applier * W) unit := λ '(applier, w),
  if Generation applier =? 0 then (Err noSnapshotError, (applier, w)) else (Ok tt, (applier, w)).
Definition dataPlane_Disconnect (ctx : Context) (networkID : string) : M (Applier * W) unit := dataPlane_Clear ctx.

End Windows.

(** ** Everything together

    The state behind the service: the control client, the applier and the rest
    of the world, which both share. *)
Definition Backing (W : Type) : Type := HTTPControlClient * Applier * W.

Section Composition.
Context {W : Type} `{ControlAPI W} `{Adapter W} `{RouteManager W}.

Definition on_client {A} (m : M (HTTPControlClient * W) A) : M (Backing W) A := λ '(client, applier, w),
  let '(r, (client, w)) := m (client, w) in (r, (client, applier, w)).
Definition on_applier {A} (m : M (Applier * W) A) : M (Backing W) A := λ '(client, applier, w),
  let '(r, (applier, w)) := m (applier, w) in (r, (client, applier, w)).

(** [localServiceOptions] with the identity [publicKey]. *)
Definition localServiceOptions (publicKey controlURL : string) : Service.Options (Backing W) := {|
  so_Identity := Some (ret publicKey);
  so_Control := Some {|
    cc_Join ctx request := on_client (client_Join ctx request);
    cc_Leave ctx networkID := on_client (client_Leave ctx networkID);
    cc_JoinRoom := Some (λ ctx request, on_client (client_JoinRoom ctx request));
    cc_Snapshot := Some (λ ctx networkID, on_client (client_Snapshot ctx networkID))
  |};
  so_ControlURL := controlURL;
  so_Adapter := Some {|
    da_Connect ctx networkID := on_applier (dataPlane_Connect ctx networkID);
    da_Disconnect ctx networkID := on_applier (dataPlane_Disconnect ctx networkID)
  |};
  so_Reconciler := Some {|
    sa_Apply ctx snapshot := on_applier (Apply ctx snapshot);
    sa_Clear ctx := on_applier (applier_Clear ctx)
  |}
|}.

End Composition.
