(* ===== verification/ServiceThm.v ===== *)
(** * The local service: what it promises

    An abstract machine with three phases that the service refines, for any
    collaborators; the list of room members; and the service put together with
    its control client and its data plane, which stay in agreement. *)

From S2P Require Import Prelude GoStd Crypto Model Auth NetIP Wgnt Routes Reconcile ReconcileThm NetURL Ipc Service DataPlane.

Open Scope Z_scope.

(** ** The abstract machine *)
Inductive phase := Stopped | Idle | Member (joined : JoinResult) (connected : bool).

Definition phase_of (s : Service) : phase :=
  if negb (sv_started s) then Stopped
  else match sv_joined s with
       | None => Idle
       | Some j => Member j (bool_decide (ss_PathState (sv_status s) = PathStateDirect))
       end.

Definition phase_status (p : phase) : Status :=
  match p with
  | Member j connected => with_PathState (joined_status j) (if connected then PathStateDirect else PathStateDisconnected)
  | _ => disconnected_status
  end.

(** The requests that are refused for the phase alone, with their codes. *)
Definition refusal (ctx : Context) (p : phase) (request : Request) : option string :=
  let type := ipq_Type request in
  if bool_decide (contextErr ctx ≠ None) then Some CodeInternal
  else match p with
  | Stopped => Some CodeNotStarted
  | _ =>
    if bool_decide (type = CommandStatus) then None
    else if bool_decide (type ∈ [CommandJoin; CommandJoinRoom]) then
      match p with Member _ _ => Some CodeAlreadyJoined | _ => None end
    else if bool_decide (type = CommandRoomMembers) then match p with Member _ _ => None | _ => Some CodeNotJoined end
    else if bool_decide (type ∈ [CommandLeave; CommandConnect; CommandDisconnect]) then
      match p with
      | Member j _ => if bool_decide (ipq_NetworkID request = jr_NetworkID j) then None else Some CodeWrongNetwork
      | _ => Some CodeNotJoined
      end
    else Some CodeInvalidRequest
  end.

(** What a request that is not refused may do: fail and stay in the phase, or do
    what it is for, and answer with the status of the new phase. *)
Inductive command_step (request : Request) : phase → Ipc.Response → phase → Prop :=
| command_fails p c : command_step request p (ErrorResponse c) p
| command_status p :
    ipq_Type request = CommandStatus → command_step request p (SuccessResponse (phase_status p)) p
| command_join j :
    ipq_Type request = CommandJoin ∨ ipq_Type request = CommandJoinRoom →
    jr_DisplayName j = ipq_DisplayName request → blank (jr_NetworkID j) = false → blank (jr_VirtualIPv4 j) = false →
    command_step request Idle (SuccessResponse (phase_status (Member j false))) (Member j false)
| command_members j connected members :
    ipq_Type request = CommandRoomMembers →
    command_step request (Member j connected)
      (with_Status (SuccessMembersResponse (jr_NetworkID j) members) (phase_status (Member j connected))) (Member j connected)
| command_leave j connected :
    ipq_Type request = CommandLeave →
    command_step request (Member j connected) (SuccessResponse (phase_status Idle)) Idle
| command_connect j connected :
    ipq_Type request = CommandConnect →
    command_step request (Member j connected) (SuccessResponse (phase_status (Member j true))) (Member j true)
| command_disconnect j connected :
    ipq_Type request = CommandDisconnect →
    command_step request (Member j connected) (SuccessResponse (phase_status (Member j false))) (Member j false).

(** A service that is told to start, asked, or told to stop. *)
Inductive event := EStart (ctx : Context) | EHandle (ctx : Context) (request : Request) | EShutdown (ctx : Context).
Inductive answer := AError (e : option error) | AResponse (r : Ipc.Response).

Inductive abstract_step {W} : event → phase * W → answer → phase * W → Prop :=
| abstract_start ctx p w w' e :
    abstract_step (EStart ctx) (p, w) (AError e) (match p, e with Stopped, None => Idle | _, _ => p end, w')
| abstract_shutdown ctx p w w' e : abstract_step (EShutdown ctx) (p, w) (AError e) (Stopped, w')
| abstract_refused ctx request p w c :
    refusal ctx p request = Some c → abstract_step (EHandle ctx request) (p, w) (AResponse (ErrorResponse c)) (p, w)
| abstract_command ctx request p w r p' w' :
    refusal ctx p request = None → command_step request p r p' →
    abstract_step (EHandle ctx request) (p, w) (AResponse r) (p', w').

Inductive abstract_run {W} : list (event * answer) → phase * W → phase * W → Prop :=
| run_done x : abstract_run [] x x
| run_step e a l x y z : abstract_step e x a y → abstract_run l y z → abstract_run ((e, a) :: l) x z.

(** ** The service refines it *)
Record service_wf (s : Service) : Prop := {
  wf_status : sv_started s = true → sv_status s = phase_status (phase_of s);
  wf_stopped : sv_started s = false → sv_joined s = None;
  wf_joined j : sv_joined s = Some j → blank (jr_NetworkID j) = false ∧ blank (jr_VirtualIPv4 j) = false
}.

Lemma New_wf : service_wf New.
Proof. by split. Qed.

Section Refinement.
Context {W : Type} (lower : string → string) (options : Service.Options W).

Definition do_event (e : event) (st : Service * W) : answer * (Service * W) :=
  let error_of (x : result unit * (Service * W)) :=
    (AError (match x.1 with Ok _ => None | Err e => Some e end), x.2) in
  match e with
  | EStart ctx => error_of (Start options ctx st)
  | EHandle ctx request => let '(r, st') := Service.Handle lower options ctx request st in (AResponse r, st')
  | EShutdown ctx => error_of (Shutdown options ctx st)
  end.

Fixpoint run (l : list event) (st : Service * W) : list (event * answer) * (Service * W) :=
  match l with
  | [] => ([], st)
  | e :: l => let '(a, st) := do_event e st in let '(rs, st) := run l st in ((e, a) :: rs, st)
  end.

(** What every command of a started service does. *)
Definition command_ok (ctx : Context) (request : Request) (s : Service) (w : W) (x : Ipc.Response * (Service * W)) : Prop :=
  let '(r, (s', w')) := x in
  service_wf s' ∧ sv_started s' = true ∧ sv_identity s' = sv_identity s ∧
  match refusal ctx (phase_of s) request with
  | Some c => r = ErrorResponse c ∧ s' = s ∧ w' = w
  | None => command_step request (phase_of s) r (phase_of s')
  end.

Lemma contextErr_live ctx : contextErr ctx = None → ctx = liveContext.
Proof. by destruct ctx. Qed.

Lemma phase_joined s j : sv_started s = true → sv_joined s = Some j →
  phase_of s = Member j (bool_decide (ss_PathState (sv_status s) = PathStateDirect)).
Proof. unfold phase_of. by intros -> ->. Qed.
Lemma phase_idle s : sv_started s = true → sv_joined s = None → phase_of s = Idle.
Proof. unfold phase_of. by intros -> ->. Qed.

(** A command that fails, whatever it did to the world. *)
Lemma command_fail ctx request s w w' c :
  service_wf s → sv_started s = true → refusal ctx (phase_of s) request = None →
  command_ok ctx request s w (fail c (s, w')).
Proof. intros Hwf Hs Hr. unfold command_ok, fail. split_and!; [done..|]. rewrite Hr. constructor. Qed.

Lemma command_refused ctx request s w c :
  service_wf s → sv_started s = true → refusal ctx (phase_of s) request = Some c →
  command_ok ctx request s w (fail c (s, w)).
Proof. intros Hwf Hs Hr. unfold command_ok, fail. split_and!; [done..|]. by rewrite Hr. Qed.

Lemma finishJoin_ok ctx request result s w0 w :
  service_wf s → sv_started s = true → sv_joined s = None → refusal ctx (phase_of s) request = None →
  ipq_Type request = CommandJoin ∨ ipq_Type request = CommandJoinRoom → jr_DisplayName result = ipq_DisplayName request →
  command_ok ctx request s w0 (finishJoin options ctx result (s, w)).
Proof.
  intros Hwf Hs Hj Hr Ht Hn. unfold finishJoin. rewrite Hj.
  destruct (so_Control options) as [cc|]; [|by apply command_fail].
  destruct (blank (jr_NetworkID result) || _) eqn:Eb; [by apply command_fail|]. apply orb_false_iff in Eb as [Hb1 Hb2].
  assert (∀ w', command_ok ctx request s w0 (SuccessResponse (joined_status result),
    ({| sv_identity := sv_identity s; sv_started := sv_started s; sv_joined := Some result; sv_status := joined_status result |}, w')))
    as Hfin.
  { intros w'. unfold command_ok. split_and!; [split|done..|]; simpl.
    - intros _. unfold phase_of. simpl. by rewrite Hs.
    - congruence.
    - by intros j [= <-].
    - rewrite Hr. rewrite (phase_idle s) by done. unfold phase_of. simpl. rewrite Hs. by apply command_join. }
  destruct (so_Reconciler options) as [rc|]; [|apply Hfin].
  destruct (cc_Snapshot cc) as [f|]; [|by apply command_fail].
  destruct (f ctx (jr_NetworkID result) w) as [[sn|e] w1]; [|by apply command_fail].
  destruct (sa_Apply rc ctx sn w1) as [[u|e] w2]; [apply Hfin|by apply command_fail].
Qed.

Lemma to_path_ok ctx request s w0 w j p :
  service_wf s → sv_started s = true → sv_joined s = Some j → refusal ctx (phase_of s) request = None →
  (p = PathStateDirect ∧ ipq_Type request = CommandConnect) ∨ (p = PathStateDisconnected ∧ ipq_Type request = CommandDisconnect) →
  command_ok ctx request s w0 (to_path p (s, w)).
Proof.
  intros Hwf Hs Hj Hr Hp. unfold to_path, command_ok. simpl.
  pose proof (wf_status s Hwf Hs) as Hst. rewrite (phase_joined s j) in Hst |- * by done.
  assert (with_PathState (sv_status s) p = phase_status (Member j (bool_decide (p = PathStateDirect)))) as ->.
  { rewrite Hst. by destruct Hp as [[-> _]|[-> _]]. }
  rewrite (phase_joined s j) in Hr by done. rewrite Hr. unfold phase_of. simpl. rewrite Hs, Hj. simpl.
  split_and!; [split|done..|]; simpl.
  - intros _. by destruct Hp as [[-> _]|[-> _]].
  - congruence.
  - intros j' [= <-]. by apply (wf_joined s Hwf).
  - destruct Hp as [[-> ?]|[-> ?]]; by constructor.
Qed.

(** The refusals, command by command. *)
Lemma refusal_status ctx p request : contextErr ctx = None → ipq_Type request = CommandStatus → p ≠ Stopped →
  refusal ctx p request = None.
Proof. intros ->%contextErr_live Ht Hp. unfold refusal. rewrite Ht. by destruct p. Qed.
Lemma refusal_join ctx p request : contextErr ctx = None → ipq_Type request = CommandJoin ∨ ipq_Type request = CommandJoinRoom →
  p ≠ Stopped → refusal ctx p request = match p with Member _ _ => Some CodeAlreadyJoined | _ => None end.
Proof. intros ->%contextErr_live [Ht|Ht] Hp; unfold refusal; rewrite Ht; by destruct p. Qed.
Lemma refusal_members ctx p request : contextErr ctx = None → ipq_Type request = CommandRoomMembers → p ≠ Stopped →
  refusal ctx p request = match p with Member _ _ => None | _ => Some CodeNotJoined end.
Proof. intros ->%contextErr_live Ht Hp. unfold refusal. rewrite Ht. by destruct p. Qed.
Lemma refusal_member ctx p request : contextErr ctx = None →
  ipq_Type request = CommandLeave ∨ ipq_Type request = CommandConnect ∨ ipq_Type request = CommandDisconnect → p ≠ Stopped →
  refusal ctx p request =
    match p with
    | Member j _ => if bool_decide (ipq_NetworkID request = jr_NetworkID j) then None else Some CodeWrongNetwork
    | _ => Some CodeNotJoined
    end.
Proof. intros ->%contextErr_live [Ht|[Ht|Ht]] Hp; unfold refusal; rewrite Ht; by destruct p. Qed.

Lemma join_ok ctx request s w :
  service_wf s → sv_started s = true → contextErr ctx = None → ipq_Type request = CommandJoin →
  command_ok ctx request s w (join options ctx request (s, w)).
Proof.
  intros Hwf Hs Hctx Ht. unfold join. pose proof (refusal_join ctx (phase_of s) request Hctx (or_introl Ht)) as Hr.
  destruct (sv_joined s) as [j|] eqn:Hj.
  { rewrite (phase_joined s j) in Hr by done. apply command_refused; [done..|]. rewrite (phase_joined s j) by done. by apply Hr. }
  rewrite (phase_idle s) in Hr by done. specialize (Hr ltac:(done)). rewrite <- (phase_idle s) in Hr by done.
  destruct (blank _ || blank _); [by apply command_fail|]. destruct (so_Control options) as [cc|] eqn:Ec; [|by apply command_fail].
  destruct (cc_Join cc _ _ _) as [[r|e] w1]; [|by apply command_fail]. apply finishJoin_ok; auto.
Qed.

Lemma joinRoom_ok ctx request s w :
  service_wf s → sv_started s = true → contextErr ctx = None → ipq_Type request = CommandJoinRoom →
  command_ok ctx request s w (joinRoom lower options ctx request (s, w)).
Proof.
  intros Hwf Hs Hctx Ht. unfold joinRoom. pose proof (refusal_join ctx (phase_of s) request Hctx (or_intror Ht)) as Hr.
  destruct (sv_joined s) as [j|] eqn:Hj.
  { rewrite (phase_joined s j) in Hr by done. apply command_refused; [done..|]. rewrite (phase_joined s j) by done. by apply Hr. }
  rewrite (phase_idle s) in Hr by done. specialize (Hr ltac:(done)). rewrite <- (phase_idle s) in Hr by done.
  destruct (canonicalControlURL _ _); [|by apply command_fail]. destruct (canonicalControlURL _ _); [|by apply command_fail].
  destruct (so_Control options) as [cc|] eqn:Ec; [|by apply command_fail]. destruct (_ || _); [by apply command_fail|].
  destruct (cc_JoinRoom cc) as [f|]; [|by apply command_fail].
  destruct (f _ _ _) as [[r|e] w1]; [|by apply command_fail]. apply finishJoin_ok; auto.
Qed.

Lemma roomMembers_ok ctx request s w :
  service_wf s → sv_started s = true → contextErr ctx = None → ipq_Type request = CommandRoomMembers →
  command_ok ctx request s w (roomMembers lower options ctx (s, w)).
Proof.
  intros Hwf Hs Hctx Ht. unfold roomMembers. pose proof (refusal_members ctx (phase_of s) request Hctx Ht) as Hr.
  destruct (sv_joined s) as [j|] eqn:Hj.
  2: { rewrite (phase_idle s) in Hr by done. apply command_refused; [done..|]. rewrite (phase_idle s) by done. by apply Hr. }
  rewrite (phase_joined s j) in Hr by done. specialize (Hr ltac:(done)). rewrite <- (phase_joined s j) in Hr by done.
  destruct (so_Control options ≫= cc_Snapshot) as [f|]; [|by apply command_fail].
  destruct (f _ _ _) as [[sn|e] w1]; [|by apply command_fail].
  destruct (projectRoomMembers lower j sn) as [ms|]; [|by apply command_fail].
  unfold command_ok. split_and!; [done..|]. rewrite Hr, (wf_status s) by done. rewrite (phase_joined s j) by done. by constructor.
Qed.

(** The three commands for the joined network. *)
Lemma member_command_ok ctx request s w (x : Ipc.Response * (Service * W)) :
  service_wf s → sv_started s = true → contextErr ctx = None →
  ipq_Type request = CommandLeave ∨ ipq_Type request = CommandConnect ∨ ipq_Type request = CommandDisconnect →
  (∀ j, sv_joined s = Some j → refusal ctx (phase_of s) request = None → command_ok ctx request s w x) →
  command_ok ctx request s w
    (match sv_joined s with
     | None => fail CodeNotJoined (s, w)
     | Some j => if negb (bool_decide (ipq_NetworkID request = jr_NetworkID j)) then fail CodeWrongNetwork (s, w) else x
     end).
Proof.
  intros Hwf Hs Hctx Ht Hop. pose proof (refusal_member ctx (phase_of s) request Hctx Ht) as Hr.
  destruct (sv_joined s) as [j|] eqn:Hj.
  - rewrite (phase_joined s j) in Hr by done. specialize (Hr ltac:(done)). rewrite <- (phase_joined s j) in Hr by done.
    destruct (bool_decide _); simpl; [by eapply Hop|by apply command_refused].
  - apply command_refused; [done..|]. rewrite (phase_idle s) in Hr |- * by done. by apply Hr.
Qed.

Lemma leave_ok ctx request s w :
  service_wf s → sv_started s = true → contextErr ctx = None → ipq_Type request = CommandLeave →
  command_ok ctx request s w (leave options ctx (ipq_NetworkID request) (s, w)).
Proof.
  intros Hwf Hs Hctx Ht. unfold leave. apply member_command_ok; [auto..|]. intros j Hj Hr.
  destruct (leave_data_plane _ _ _ _ _) as [ok w1]. destruct (negb ok); [by apply command_fail|].
  destruct (so_Control options) as [cc|]; [|by apply command_fail].
  destruct (cc_Leave cc _ _ _) as [[u|e] w2]; [|by apply command_fail].
  unfold command_ok. split_and!; [split|done..|]; simpl; try done.
  - intros _. unfold phase_of. simpl. by rewrite Hs.
  - rewrite Hr, (phase_joined s j) by done. unfold phase_of. simpl. rewrite Hs. by apply command_leave.
Qed.

Lemma connect_ok ctx request s w :
  service_wf s → sv_started s = true → contextErr ctx = None → ipq_Type request = CommandConnect →
  command_ok ctx request s w (connect options ctx (ipq_NetworkID request) (s, w)).
Proof.
  intros Hwf Hs Hctx Ht. unfold connect. apply member_command_ok; [auto..|]. intros j Hj Hr.
  destruct (so_Reconciler options) as [rc|].
  - destruct (mbind _ (so_Control options)) as [f|]; [|by apply command_fail].
    destruct (f _ _ _) as [[sn|e] w1]; [|by apply command_fail].
    destruct (sa_Apply rc _ _ _) as [[u|e] w2]; [|by apply command_fail]. apply (to_path_ok _ _ _ _ _ j); auto.
  - destruct (so_Adapter options) as [ad|]; [|by apply command_fail].
    destruct (da_Connect ad _ _ _) as [[u|e] w2]; [|by apply command_fail]. apply (to_path_ok _ _ _ _ _ j); auto.
Qed.

Lemma disconnect_ok ctx request s w :
  service_wf s → sv_started s = true → contextErr ctx = None → ipq_Type request = CommandDisconnect →
  command_ok ctx request s w (disconnect options ctx (ipq_NetworkID request) (s, w)).
Proof.
  intros Hwf Hs Hctx Ht. unfold disconnect. apply member_command_ok; [auto..|]. intros j Hj Hr.
  destruct (so_Reconciler options) as [rc|].
  - destruct (sa_Clear rc _ _) as [[u|e] w2]; [|by apply command_fail]. apply (to_path_ok _ _ _ _ _ j); auto.
  - destruct (so_Adapter options) as [ad|]; [|by apply command_fail].
    destruct (da_Disconnect ad _ _ _) as [[u|e] w2]; [|by apply command_fail]. apply (to_path_ok _ _ _ _ _ j); auto.
Qed.

Lemma Handle_started ctx request s w :
  service_wf s → sv_started s = true → command_ok ctx request s w (Service.Handle lower options ctx request (s, w)).
Proof.
  intros Hwf Hs. unfold Service.Handle. destruct (contextErr ctx) as [e|] eqn:Hctx.
  { apply command_refused; [done..|]. unfold refusal. by rewrite Hctx, bool_decide_eq_true_2. }
  rewrite Hs. simpl. assert (phase_of s ≠ Stopped) as Hp by (unfold phase_of; rewrite Hs; by destruct (sv_joined s)).
  repeat match goal with |- context [bool_decide (ipq_Type request = ?c)] =>
    destruct (decide (ipq_Type request = c)) as [?|?];
    [rewrite (bool_decide_eq_true_2 (ipq_Type request = c)) by done|rewrite (bool_decide_eq_false_2 (ipq_Type request = c)) by done] end.
  - unfold command_ok. split_and!; [done..|]. rewrite refusal_status by done. rewrite (wf_status s) by done. by constructor.
  - by apply join_ok.
  - by apply joinRoom_ok.
  - by apply roomMembers_ok.
  - by apply leave_ok.
  - by apply connect_ok.
  - by apply disconnect_ok.
  - apply command_refused; [done..|]. apply contextErr_live in Hctx as ->. unfold refusal.
    rewrite bool_decide_eq_false_2 by (intros H; by apply H).
    repeat (rewrite bool_decide_eq_false_2; [|rewrite ?elem_of_cons, ?elem_of_nil; tauto]). by destruct (phase_of s).
Qed.

Lemma Handle_stopped ctx request s w : sv_started s = false →
  ∃ c, refusal ctx (phase_of s) request = Some c ∧ Service.Handle lower options ctx request (s, w) = fail c (s, w).
Proof.
  intros Hs. unfold Service.Handle, refusal, phase_of. rewrite Hs. simpl. destruct ctx; simpl; eauto.
  exists CodeNotStarted. split; [done|]. by destruct (bool_decide _).
Qed.

(** One event, and a run of them. *)
Lemma do_event_refines e s w :
  service_wf s →
  let '(a, (s', w')) := do_event e (s, w) in service_wf s' ∧ abstract_step e (phase_of s, w) a (phase_of s', w').
Proof.
  intros Hwf. destruct e as [ctx|ctx request|ctx]; unfold do_event.
  - unfold Start. assert (∀ w' err, service_wf s ∧ abstract_step (EStart ctx) (phase_of s, w) (AError (Some err)) (phase_of s, w'))
      as Herr.
    { intros w' err. split; [done|]. pose proof (abstract_start ctx (phase_of s) w w' (Some err)) as Ha. by destruct (phase_of s). }
    destruct (so_Identity options) as [load|]; [|apply Herr]. destruct (sv_started s) eqn:Hs; simpl.
    { split; [done|]. pose proof (abstract_start ctx (phase_of s) w w None) as Ha. unfold phase_of in *. rewrite Hs in *.
      by destruct (sv_joined s). }
    destruct (load w) as [[k|err] w1]; [|apply Herr]. destruct (blank k); [apply Herr|].
    destruct (contextErr ctx); [apply Herr|]. simpl. pose proof (wf_stopped s Hwf Hs) as Hj. split.
    { split; simpl; [|done|congruence]. intros _. unfold phase_of. simpl. by rewrite Hj. }
    unfold phase_of. simpl. rewrite Hs, Hj. apply (abstract_start ctx Stopped w w1 None).
  - destruct (sv_started s) eqn:Hs.
    + pose proof (Handle_started ctx request s w Hwf Hs) as H. destruct (Service.Handle _ _ _ _ _) as [r [s' w']].
      destruct H as (Hwf' & _ & _ & H). split; [done|]. destruct (refusal ctx (phase_of s) request) eqn:Hr.
      * destruct H as (-> & -> & ->). by constructor.
      * by apply abstract_command.
    + destruct (Handle_stopped ctx request s w Hs) as (c & Hr & ->). split; [done|]. by constructor.
  - unfold Shutdown. set (ctx' := match ctx with nilContext => _ | _ => _ end). destruct (sv_started s) eqn:Hs; simpl.
    + destruct (match so_Reconciler options with Some rc => sa_Clear rc ctx' w | None => _ end) as [r w1]. simpl. split; [by split|].
      apply abstract_shutdown.
    + split; [done|]. unfold phase_of. rewrite Hs. apply abstract_shutdown.
Qed.

Lemma run_refines l s w :
  service_wf s →
  let '(rs, (s', w')) := run l (s, w) in service_wf s' ∧ abstract_run rs (phase_of s, w) (phase_of s', w').
Proof.
  revert s w. induction l as [|e l IH]; intros s w Hwf; simpl; [split; [done|constructor]|].
  pose proof (do_event_refines e s w Hwf) as H. destruct (do_event e (s, w)) as [a [s1 w1]]. destruct H as [Hwf1 H].
  specialize (IH s1 w1 Hwf1). destruct (run l (s1, w1)) as [rs [s2 w2]]. destruct IH as [? ?]. split; [done|].
  by econstructor.
Qed.
End Refinement.

(** C8: the service is the machine it presents. Over every sequence of starts,
    requests and shutdowns, with any collaborators and whichever of their calls
    fail, the answers and the phases of the service are a run of the abstract
    machine: a request out of place is refused with its code and touches nothing,
    a failed command leaves the phase as it was, a successful one makes the one
    step it is for, and every answer carries the status of the phase. *)
Theorem service_refines {W} lower (options : Service.Options W) events (w : W) :
  let '(answers, (s, w')) := run lower options events (New, w) in
  abstract_run answers (Stopped, w) (phase_of s, w') ∧ service_wf s.
Proof.
  pose proof (run_refines lower options events New w New_wf) as H. destruct (run _ _ _ _) as [rs [s w']]. tauto.
Qed.

(** ** The members of a room *)
#[global] Instance local_first_total : StrictTotal (λ a b : bool, a && negb b).
Proof. split; [split; [intros [] []|intros [] [] []]|intros [] []]; done. Qed.

Lemma member_less_weak lower : StrictWeak (member_less lower).
Proof. unfold member_less. apply _. Qed.

Lemma As16_byte a : Forall is_byte (As16 a).
Proof.
  destruct a as [|v|v z]; unfold As16; [apply (put_be_byte 16)| |apply (put_be_byte 16)].
  apply Forall_app. split; [|apply (put_be_byte 4)]. repeat constructor; unfold is_byte; lia.
Qed.

Lemma ParseIP_byte s : Forall is_byte (ParseIP s).
Proof. unfold ParseIP. destruct (ParseAddr s) as [a|]; [|constructor]. case_bool_decide; [apply As16_byte|constructor]. Qed.

Definition own_address (joined : JoinResult) : IP := To4 (ParseIP (TrimSpace (jr_VirtualIPv4 joined))).
Definition own_member (joined : JoinResult) : RoomMember :=
  {| rm_DisplayName := TrimSpace (jr_DisplayName joined); rm_VirtualIPv4 := IP_String (own_address joined); rm_IsLocal := true;
     rm_State := RoomMemberOnline |}.
Definition member_for (p : Model.Peer) : RoomMember :=
  {| rm_DisplayName := TrimSpace (pr_DisplayName p); rm_VirtualIPv4 := IP_String (To4 (pr_VirtualIPv4 p)); rm_IsLocal := false;
     rm_State := RoomMemberOnline |}.

(** A snapshot of the joined membership in which every peer has a name and an
    IPv4 address. *)
Record roster_ok (joined : JoinResult) (s : NetworkSnapshot) : Prop := {
  ro_name : blank (jr_DisplayName joined) = false;
  ro_network : blank (jr_NetworkID joined) = false ∧ sn_NetworkID s = jr_NetworkID joined;
  ro_address : is_nil (own_address joined) = false ∧ To4 (sn_LocalVirtualIPv4 s) = own_address joined;
  ro_peers : Forall (λ p, blank (pr_DisplayName p) = false ∧ is_nil (To4 (pr_VirtualIPv4 p)) = false) (sn_Peers s)
}.

Lemma peer_member_spec p m :
  peer_member p = Some m ↔ (blank (pr_DisplayName p) = false ∧ is_nil (To4 (pr_VirtualIPv4 p)) = false) ∧ m = member_for p.
Proof.
  unfold peer_member, blank, member_for.
  destruct (bool_decide (TrimSpace (pr_DisplayName p) = "")), (is_nil (To4 (pr_VirtualIPv4 p))); simpl;
    split; [done|intros [[? ?] ?]; done|done|intros [[? ?] ?]; done|done|intros [[? ?] ?]; done|by intros [= <-]|by intros [_ ->]].
Qed.

Lemma peer_members_spec l ms :
  mapM peer_member l = Some ms ↔
  Forall (λ p, blank (pr_DisplayName p) = false ∧ is_nil (To4 (pr_VirtualIPv4 p)) = false) l ∧ ms = member_for <$> l.
Proof.
  rewrite mapM_Some. revert ms. induction l as [|p l IH]; intros ms.
  - split; [intros ->%Forall2_nil_inv_l; by split|intros [_ ->]; constructor].
  - rewrite Forall_cons. split.
    + intros (m & ms' & [? ->]%peer_member_spec & [? ->]%IH & ->)%Forall2_cons_inv_l. by split; [split|].
    + intros [[? ?] ->]. constructor; [by apply peer_member_spec|by apply IH].
Qed.

Lemma projectRoomMembers_spec lower joined s ms :
  projectRoomMembers lower joined s = Some ms ↔
  roster_ok joined s ∧ ms = own_member joined :: SliceStable (member_less lower) (member_for <$> sn_Peers s).
Proof.
  assert (∀ l, SliceStable (member_less lower) (own_member joined :: (member_for <$> l)) =
    own_member joined :: SliceStable (member_less lower) (member_for <$> l)) as Hhead.
  { intros l. simpl. apply sort_insert_id, Forall_forall. intros m (p & -> & _)%SliceStable_elem%list_elem_of_fmap. done. }
  unfold projectRoomMembers. fold (own_address joined). fold (own_member joined).
  split.
  - destruct (bool_decide _ || blank _ || is_nil _) eqn:E1; [done|]. rewrite !orb_false_iff in E1. destruct E1 as [[Hn Hb] Ha].
    destruct (bool_decide (sn_NetworkID s = _)) eqn:E2; [|done]. apply bool_decide_eq_true in E2. simpl.
    destruct (is_nil _ || _) eqn:E3; [done|]. rewrite orb_false_iff, negb_false_iff in E3. destruct E3 as [Hl He].
    rewrite IP_Equal_4, bool_decide_eq_true in He by (by apply To4_length).
    destruct (mapM _ _) as [ms'|] eqn:Em; [|done]. apply peer_members_spec in Em as [Hp ->]. intros [= <-].
    split; [by split|apply Hhead].
  - intros [[Hn [Hb Hnet] [Ha Hl] Hp] ->]. unfold blank in Hn. rewrite Hn, Hb, Ha, Hl, Ha. simpl.
    rewrite (bool_decide_eq_true_2 _ Hnet). simpl. rewrite IP_Equal_4 by (by apply To4_length).
    rewrite bool_decide_eq_true_2 by done. simpl. rewrite (proj2 (peer_members_spec _ _) (conj Hp eq_refl)). apply (f_equal Some), Hhead.
Qed.

Lemma member_valid name ip local :
  blank name = false → is_nil (To4 ip) = false → Forall is_byte ip →
  validateRoomMember {| rm_DisplayName := TrimSpace name; rm_VirtualIPv4 := IP_String (To4 ip); rm_IsLocal := local;
                        rm_State := RoomMemberOnline |} = true.
Proof.
  intros Hn Hi Hb. unfold validateRoomMember. simpl. rewrite blank_TrimSpace, Hn.
  rewrite ParseIP_IP_String by (try apply To4_length; try apply To4_byte; done). by rewrite Hi.
Qed.

(** The list of members is the room. It is given exactly for a snapshot of the
    joined membership whose peers have names and IPv4 addresses; it has the node
    itself first and then one member for each peer, in the order of name, address
    and spelling; and every member passes the check of the local protocol, so
    that the answer can always be encoded. *)
Theorem projectRoomMembers_correct lower joined s :
  Forall (λ p, Forall is_byte (pr_VirtualIPv4 p)) (sn_Peers s) →
  match projectRoomMembers lower joined s with
  | None => ¬ roster_ok joined s
  | Some members => roster_ok joined s ∧
      ∃ others, members = own_member joined :: others ∧ others ≡ₚ member_for <$> sn_Peers s ∧
        sorted_by (member_less lower) others ∧ Forall (λ m, validateRoomMember m = true) members
  end.
Proof.
  intros Hb. destruct (projectRoomMembers lower joined s) as [ms|] eqn:E.
  - apply projectRoomMembers_spec in E as [Hr ->]. split; [done|]. eexists. split; [done|]. split_and!.
    + apply SliceStable_perm.
    + apply SliceStable_sorted, member_less_weak.
    + destruct Hr as [Hn _ [Ha _] Hp]. constructor; [apply member_valid; [done..|apply ParseIP_byte]|].
      rewrite SliceStable_perm, Forall_fmap. apply Forall_forall. intros p Hin. rewrite Forall_forall in Hp, Hb.
      destruct (Hp p Hin). by apply member_valid, Hb.
  - intros Hr. pose proof (proj2 (projectRoomMembers_spec lower joined s _) (conj Hr eq_refl)). congruence.
Qed.

Definition demo_joined : JoinResult :=
  {| jr_DisplayName := " Me "; jr_NetworkID := "net"; jr_VirtualIPv4 := "10.0.0.1"; jr_ConfigGeneration := 4 |}.

Lemma projectRoomMembers_correct_witness :
  roster_ok demo_joined (plane_sn 4) ∧
  projectRoomMembers ToLower demo_joined (plane_sn 4) =
    Some [{| rm_DisplayName := "Me"; rm_VirtualIPv4 := "10.0.0.1"; rm_IsLocal := true; rm_State := "online" |};
          {| rm_DisplayName := "b"; rm_VirtualIPv4 := "10.0.0.2"; rm_IsLocal := false; rm_State := "online" |}].
Proof.
  pose proof (projectRoomMembers_correct ToLower demo_joined (plane_sn 4)) as H.
  assert (projectRoomMembers ToLower demo_joined (plane_sn 4) =
    Some [{| rm_DisplayName := "Me"; rm_VirtualIPv4 := "10.0.0.1"; rm_IsLocal := true; rm_State := "online" |};
          {| rm_DisplayName := "b"; rm_VirtualIPv4 := "10.0.0.2"; rm_IsLocal := false; rm_State := "online" |}]) as E
    by (vm_compute; reflexivity).
  rewrite E in H. split; [|exact E]. apply H. vm_compute. repeat constructor; discriminate.
Defined.
