(* ===== verification/IpcThm.v ===== *)
(** * The local protocol: what is sent is what is received *)

From S2P Require Import Prelude GoStd NetIP Json TimeFmt Ipc IpcCodec Service ServiceThm.
From Stdlib Require Import Ascii.

Open Scope Z_scope.

Lemma decodeObject_print l : json_ok (JObject l) → height (JObject l) ≤ maxNestingDepth →
  Z.of_nat (length (print (JObject l))) ≤ MaxMessageSize →
  decodeObject (print (JObject l)) true = object_fields (clean (JObject l)).
Proof.
  intros Hok Hh Hlen. unfold decodeObject. rewrite (proj2 (Z.ltb_ge _ _)) by lia.
  pose proof (print_reads (JObject l) Hok (S (length (print (JObject l)))) (-1) []) as Hp. rewrite app_nil_r in Hp.
  rewrite Hp by (done || lia). by destruct (object_fields _).
Qed.

(** ** Requests *)

(** A request of the protocol: valid, in UTF-8, and with the arguments of its
    command only. *)
Definition arguments_only (r : Request) : bool :=
  let unused (commands : list string) (s : string) := bool_decide (ipq_Type r ∈ commands) || bool_decide (s = "") in
  unused [CommandJoin] (ipq_Invite r) && unused [CommandJoin; CommandJoinRoom] (ipq_DisplayName r)
  && unused [CommandJoinRoom] (ipq_ControlURL r) && unused [CommandLeave; CommandConnect; CommandDisconnect] (ipq_NetworkID r).
Definition canonical_request (r : Request) : bool :=
  validateRequest r && utf8 (ipq_Invite r) && utf8 (ipq_DisplayName r) && utf8 (ipq_ControlURL r) && utf8 (ipq_NetworkID r)
  && arguments_only r.

Lemma Ok_inj {A} (a b : A) : Ok a = Ok b → a = b.
Proof. congruence. Qed.

Lemma command_cases r : validateRequest r = true →
  ipq_Type r ∈ [CommandStatus; CommandRoomMembers; CommandJoin; CommandJoinRoom; CommandLeave; CommandConnect; CommandDisconnect].
Proof. unfold validateRequest. repeat case_bool_decide; set_solver. Qed.

Lemma clean_request_fields r : canonical_request r = true →
  clean (JObject (request_fields r)) = JObject (request_fields r) /\ json_ok (JObject (request_fields r))
  /\ height (JObject (request_fields r)) ≤ maxNestingDepth.
Proof.
  unfold canonical_request. rewrite !andb_true_iff. intros [[[[[Hv H1] H2] H3] H4] _].
  apply utf8_clean in H1, H2, H3, H4. pose proof (command_cases r Hv) as Ht. rewrite !elem_of_cons, elem_of_nil in Ht.
  assert (clean_string (ipq_Type r) = ipq_Type r) as H5
    by (destruct Ht as [->|[->|[->|[->|[->|[->|[->|[]]]]]]]]; by vm_compute).
  unfold request_fields. repeat case_bool_decide; cbn [clean List.map]; rewrite ?H1, ?H2, ?H3, ?H4, ?H5; clean_constants;
    (split; [reflexivity|split; [by repeat constructor|by vm_compute]]).
Qed.

Lemma DecodeRequest_Marshal r data : canonical_request r = true → MarshalRequest r = Ok data →
  Z.of_nat (length data) ≤ MaxMessageSize → DecodeRequest data = Ok r.
Proof.
  intros Hr. destruct (clean_request_fields r Hr) as (Hcl & Hok & Hh). revert Hr. unfold canonical_request, MarshalRequest.
  rewrite !andb_true_iff. intros [[[[[Hv _] _] _] _] Hc]. rewrite Hv. cbn [negb]. intros <-%Ok_inj Hlen. unfold DecodeRequest.
  rewrite decodeObject_print, Hcl by done. clear Hlen Hcl Hok Hh. pose proof (command_cases r Hv) as Ht.
  destruct r as [type invite name url id]. cbn [ipq_Type ipq_Invite ipq_DisplayName ipq_ControlURL ipq_NetworkID] in *.
  rewrite !elem_of_cons, elem_of_nil in Ht.
  unfold arguments_only in Hc. rewrite !andb_true_iff, !orb_true_iff, !bool_decide_eq_true in Hc.
  cbn [ipq_Type ipq_Invite ipq_DisplayName ipq_ControlURL ipq_NetworkID] in Hc. destruct Hc as [[[H1 H2] H3] H4].
  destruct Ht as [->|[->|[->|[->|[->|[->|[->|[]]]]]]]];
    repeat match goal with
    | H : _ ∈ _ ∨ _ = "" |- _ => destruct H as [H|H]; [first [by rewrite ?elem_of_cons, elem_of_nil in H; destruct_or? H|clear H]|subst]
    end; cbv -[validateRequest] in Hv |- *; by rewrite Hv.
Qed.

(** ** What the decoder gives is UTF-8 *)
Lemma parse_string_clean l s rest : parse_string l = Some (s, rest) → clean_string s = s.
Proof.
  unfold parse_string. destruct (unquote l) as [[b r]|]; [|done]. intros [= <- <-]. unfold clean_string.
  by rewrite bytes_of_bytes, sanitize_idemp.
Qed.

Lemma parse_clean fuel :
  (∀ depth l v rest, parse_value fuel depth l = Some (v, rest) → clean v = v) ∧
  (∀ depth l ms rest, parse_members fuel depth l = Some (ms, rest) → Forall (λ kv, clean_member kv = kv) ms) ∧
  (∀ depth l vs rest, parse_elements fuel depth l = Some (vs, rest) → Forall (λ v, clean v = v) vs).
Proof.
  induction fuel as [|fuel (IHv & IHm & IHe)]; [done|]. split_and!.
  - intros depth l v rest. cbn [parse_value]. destruct (skip_space l) as [|c l']; [done|].
    case_bool_decide. { destruct (parse_string l') as [[s r]|] eqn:E; [|done]. intros [= <- <-]. cbn [clean]. by erewrite parse_string_clean. }
    case_bool_decide. { destruct (_ <? _); [done|]. destruct (is_char _ _); [by intros [= <- <-]|].
      destruct (parse_members _ _ _) as [[ms r]|] eqn:E; [|done]. intros [= <- <-]. apply clean_object_iff. eauto. }
    case_bool_decide. { destruct (_ <? _); [done|]. destruct (is_char _ _); [by intros [= <- <-]|].
      destruct (parse_elements _ _ _) as [[vs r]|] eqn:E; [|done]. intros [= <- <-]. apply clean_array. eauto. }
    do 3 (case_bool_decide; [destruct (strip _ _); [|done]; by intros [= <- <-]|]).
    destruct (parse_number _) as [[t r]|]; [|done]. by intros [= <- <-].
  - intros depth l ms rest. cbn [parse_members]. destruct (skip_space l) as [|c l1]; [done|].
    destruct (negb _); [done|]. destruct (parse_string l1) as [[key l2]|] eqn:Ek; [|done]. apply parse_string_clean in Ek.
    destruct (negb _); [done|]. destruct (parse_value _ _ _) as [[v l3]|] eqn:Ev; [|done]. apply IHv in Ev.
    assert (clean_member (key, v) = (key, v)) as Hkv by (unfold clean_member; cbn [fst snd]; by rewrite Ek, Ev).
    destruct (is_char _ _).
    + destruct (parse_members _ _ _) as [[ms' r]|] eqn:Em; [|done]. intros [= <- <-]. constructor; eauto.
    + destruct (is_char _ _); [|done]. intros [= <- <-]. by repeat constructor.
  - intros depth l vs rest. cbn [parse_elements]. destruct (parse_value _ _ _) as [[v l1]|] eqn:Ev; [|done]. apply IHv in Ev.
    destruct (is_char _ _).
    + destruct (parse_elements _ _ _) as [[vs' r]|] eqn:Em; [|done]. intros [= <- <-]. constructor; eauto.
    + destruct (is_char _ _); [|done]. intros [= <- <-]. by repeat constructor.
Qed.

Lemma decodeObject_clean data b l : decodeObject data b = Ok l → Forall (λ kv, clean_member kv = kv) l.
Proof.
  unfold decodeObject. destruct (_ <? _); [done|]. destruct (parse_value _ _ _) as [[v rest]|] eqn:E; [|done].
  apply parse_clean in E. destruct v; cbn [object_fields mbind result_bind]; try done. destruct (keys_ok _); [|done].
  cbn [mbind result_bind]. destruct (_ && _); [done|]. intros [= <-]. by apply clean_object_iff.
Qed.

Lemma decodeStringField_utf8 l name s : Forall (λ kv, clean_member kv = kv) l → decodeStringField l name = Ok s → utf8 s = true.
Proof.
  unfold decodeStringField. induction l as [|[k v] l IH]; [done|]. intros [Hkv Hl]%Forall_cons. cbn [field].
  destruct (String.eqb k name); [|by apply IH]. unfold clean_member in Hkv. simpl in Hkv. destruct v; try done.
  intros [= <-]. apply bool_decide_eq_true_2. injection Hkv. by intros.
Qed.

Lemma DecodeRequest_canonical data r : DecodeRequest data = Ok r → canonical_request r = true.
Proof.
  unfold DecodeRequest. destruct (decodeObject data true) as [l|e] eqn:El; [|done]. apply decodeObject_clean in El.
  cbn [mbind result_bind]. destruct (decodeStringField l "type") as [c|] eqn:Ec; [|done]. cbn [mbind result_bind].
  assert (∀ x allowed, joined ipc_ErrInvalidRequest
     (_ ← expect (only allowed l); _ ← expect (validateRequest x); Ok x) = Ok r → r = x ∧ validateRequest r = true) as Hend.
  { intros x allowed. unfold expect. destruct (only _ _); [|done]. cbn. destruct (validateRequest x) eqn:E; [|done]. by intros [= <-]. }
  assert (∀ name s, decodeStringField l name = Ok s → utf8 s = true) as Hu by eauto using decodeStringField_utf8.
  assert (utf8 "" = true) as H0 by done.
  assert (∀ x allowed, joined ipc_ErrInvalidRequest
     ('(request, allowed) ← Ok (x, allowed); _ ← expect (only allowed l); _ ← expect (validateRequest request); Ok request) = Ok r →
     utf8 (ipq_Invite x) && utf8 (ipq_DisplayName x) && utf8 (ipq_ControlURL x) && utf8 (ipq_NetworkID x) && arguments_only x = true →
     canonical_request r = true) as Hcan.
  { intros x allowed [-> Hv]%Hend Hx. unfold canonical_request. rewrite Hv. exact Hx. }
  unfold arguments_only in Hcan.
  case_bool_decide as H1; [|case_bool_decide as H2; [|case_bool_decide as H3; [|case_bool_decide as H4; [|done]]]].
  - intros H. apply (Hcan _ _ H). cbn. by rewrite H0, !orb_true_r.
  - destruct (decodeStringField l "invite") as [i|] eqn:E1; [|done]. destruct (decodeStringField l "display_name") as [n|] eqn:E2; [|done].
    intros H. apply (Hcan _ _ H). cbn. rewrite H0, (Hu _ _ E1), (Hu _ _ E2). subst c. by cbn.
  - destruct (decodeStringField l "control_url") as [i|] eqn:E1; [|done]. destruct (decodeStringField l "display_name") as [n|] eqn:E2; [|done].
    intros H. apply (Hcan _ _ H). cbn. rewrite H0, (Hu _ _ E1), (Hu _ _ E2). subst c. by cbn.
  - destruct (decodeStringField l "network_id") as [i|] eqn:E1; [|done].
    intros H. apply (Hcan _ _ H). cbn. rewrite H0, (Hu _ _ E1), (bool_decide_eq_true_2 _ H4). by cbn; rewrite !orb_true_r.
Qed.

(** ** Responses *)
Definition utf8_member (m : RoomMember) : bool := utf8 (rm_DisplayName m) && utf8 (rm_VirtualIPv4 m) && utf8 (rm_State m).
Definition utf8_response (r : Response) : bool :=
  let st := ipr_Status r in
  utf8 (ss_NetworkID st) && utf8 (ss_VirtualIPv4 st) && utf8 (ss_PathState st) && utf8 (ss_LastError st)
  && forallb utf8_member (default [] (ipr_Members r))
  && match ipr_Error r with Some e => utf8 (er_Code e) && utf8 (er_Message e) | None => true end.

Lemma field_when name b k v l : field name (when b k v ++ l) = if b && String.eqb k name then Some v else field name l.
Proof. by destruct b. Qed.
Lemma Forall_when (P : string * json → Prop) b k v l : (b = true → P (k, v)) → Forall P l → Forall P (when b k v ++ l).
Proof. intros Hv Hl. destruct b; [constructor; auto|done]. Qed.

Lemma response_names_ok ok st h ms e :
  object_fields (JObject (response_fields ok st h ms e)) = Ok (response_fields ok st h ms e)
  ∧ only response_names (response_fields ok st h ms e) = true.
Proof.
  unfold response_fields. generalize (nonempty (ss_LastError st)), (IsZero (ss_LastHandshake st)), (nonempty (ss_NetworkID st)),
    (nonempty (ss_VirtualIPv4 st)). intros [] [] [] []; destruct e, ms; done.
Qed.

Lemma member_clean m : utf8_member m = true → clean (member_json m) = member_json m.
Proof.
  unfold utf8_member. rewrite !andb_true_iff. intros [[H1%utf8_clean H2%utf8_clean] H3%utf8_clean]. unfold member_json. cbn [clean List.map].
  rewrite H1, H2, H3. clean_constants. done.
Qed.

Lemma decode_member_json m : utf8_member m = true → validateRoomMember m = true → decodeRoomMember (member_json m) = Ok m.
Proof.
  intros Hu Hv. destruct m as [n ip b st]. unfold decodeRoomMember, member_json.
  cbv -[validateRoomMember] in Hv |- *. by rewrite Hv.
Qed.
Lemma decode_members_json ms : forallb utf8_member ms = true → forallb validateRoomMember ms = true →
  decodeRoomMembers (JArray (List.map member_json ms)) = Ok ms.
Proof.
  induction ms as [|m ms IH]; [done|]. cbn [forallb List.map decodeRoomMembers decode_elements] in *.
  rewrite !andb_true_iff. intros [Hu Hus] [Hv Hvs]. rewrite decode_member_json by done. cbn [mbind result_bind].
  by rewrite IH.
Qed.

Lemma error_clean e : utf8 (er_Code e) = true → utf8 (er_Message e) = true → clean (error_json e) = error_json e.
Proof.
  intros H1%utf8_clean H2%utf8_clean. apply clean_object_iff. constructor; [unfold clean_member; cbn [fst snd clean]; by rewrite H1|].
  apply Forall_when; [|done]. intros _. unfold clean_member. cbn [fst snd clean]. by rewrite H2.
Qed.
Lemma decode_error_json e : decode_error (error_json e) = Ok e.
Proof.
  destruct e as [c m]. unfold error_json, nonempty. cbn [er_Code er_Message]. case_bool_decide as E; [subst m|]; reflexivity.
Qed.

(** What the decoder gives for a response: its path state is never empty. *)
Definition normal_response (r : Response) : Response :=
  {| ipr_OK := ipr_OK r; ipr_Status := disconnected_if_empty (ipr_Status r); ipr_Members := ipr_Members r; ipr_Error := ipr_Error r |}.

Lemma normal_utf8 r : utf8_response r = true → utf8_response (normal_response r) = true.
Proof.
  unfold utf8_response, normal_response, disconnected_if_empty. cbn [ipr_Status ipr_Members ipr_Error]. case_bool_decide as E; [|done].
  unfold with_PathState. cbn [ss_NetworkID ss_VirtualIPv4 ss_PathState ss_LastError]. by rewrite E.
Qed.

Definition payload (r : Response) (h : string) : fields := response_fields (ipr_OK r) (ipr_Status r) h (ipr_Members r) (ipr_Error r).

Lemma response_clean r h : utf8_response r = true → clean_string h = h → clean (JObject (payload r h)) = JObject (payload r h).
Proof.
  unfold utf8_response. rewrite !andb_true_iff. intros [[[[[H1%utf8_clean H2%utf8_clean] H3%utf8_clean] H4%utf8_clean] H5] H6] H7.
  apply clean_object_iff. unfold payload, response_fields, clean_member.
  repeat (apply Forall_when; [intros Hb; cbn [fst snd]|]); try done; cbn [clean]; clean_constants; f_equal;
    rewrite ?H1, ?H2, ?H3, ?H4, ?H7; try done.
  - destruct (ipr_Error r); [|done]. apply andb_true_iff in H6 as []. by apply error_clean.
  - f_equal. rewrite forallb_forall in H5. rewrite List.map_map. apply List.map_ext_in. intros m Hm. by apply member_clean, H5.
Qed.

Lemma response_ok r h : json_ok (JObject (payload r h)) ∧ height (JObject (payload r h)) ≤ maxNestingDepth.
Proof.
  split.
  - apply json_ok_object. unfold payload, response_fields.
    repeat (apply Forall_when; [intros _; cbn [snd]|]); try done; [by eexists|by destruct (ipr_Error r) as [[c []]|]; repeat constructor|].
    apply json_ok_array, Forall_fmap, Forall_forall. intros m _. by repeat constructor.
  - apply (height_object _ 0). split; [done|]. unfold payload, response_fields.
    repeat (apply Forall_when; [intros _; cbn [snd]|]); try done; [by destruct (ipr_Error r) as [[c []]|]|].
    apply height_array. split; [done|]. apply Forall_fmap, Forall_forall. intros m _. done.
Qed.

(** The fields of a response are read back one by one. *)
Lemma result_bind_Ok {A B} (a : A) (k : A → result B) : (Ok a ≫= k) = k a.
Proof. done. Qed.
Lemma nonempty_string (s : string) : (if nonempty s then decodeString (JString s) else Ok "") = Ok s.
Proof. unfold nonempty. case_bool_decide as E; [by rewrite E|done]. Qed.
Lemma optional_if {A} (b : bool) (v : json) (zero : A) (decode : json → result A) :
  match (if b then Some v else None) with Some raw => decode raw | None => Ok zero end = if b then decode v else Ok zero.
Proof. by destruct b. Qed.

Lemma decode_payload lenient r h :
  FormatRFC3339 (ss_LastHandshake (ipr_Status r)) = Some h → int64 (ss_ConfigGeneration (ipr_Status r)) → utf8_response r = true →
  (is_Some (ipr_Members r) → ipr_OK r = true ∧ blank (ss_NetworkID (ipr_Status r)) = false) →
  forallb validateRoomMember (default [] (ipr_Members r)) = true →
  decode_response lenient (payload r h) = Ok r.
Proof.
  intros Hh Hg Hu Hm Hv. unfold decode_response, decodeBoolField, optional, payload.
  rewrite (proj2 (response_names_ok _ _ _ _ _)). unfold response_fields. rewrite !field_when.
  cbn [String.eqb Ascii.eqb Bool.eqb andb field]. rewrite ?andb_true_r, ?andb_false_r. cbv beta iota. rewrite !optional_if.
  rewrite !nonempty_string. cbn [decodeString decodeInt]. rewrite ParseInt_FormatInt by done. rewrite !result_bind_Ok. cbv beta.
  assert ((if negb (IsZero (ss_LastHandshake (ipr_Status r))) then decodeTime lenient (JString h) else Ok 0)
          = Ok (ss_LastHandshake (ipr_Status r))) as ->.
  { unfold decodeTime, decodeString. rewrite result_bind_Ok. erewrite ParseRFC3339_Format by done.
    unfold IsZero. by destruct (Z.eqb_spec (ss_LastHandshake (ipr_Status r)) 0) as [->|]. }
  rewrite result_bind_Ok. cbv beta.
  assert ((if bool_decide (is_Some (ipr_Error r)) then decode_error (from_option error_json JNull (ipr_Error r)) ≫= (λ e, Ok (Some e))
     else Ok None) = Ok (ipr_Error r)) as ->.
  { destruct (ipr_Error r); [|done]. rewrite bool_decide_eq_true_2 by done. cbn [from_option]. by rewrite decode_error_json. }
  unfold utf8_response in Hu. rewrite !andb_true_iff in Hu. destruct Hu as [[_ Hu] _].
  destruct (ipr_Members r) as [ms|] eqn:Em; [|by destruct r as [? [] ? ?]; cbn in *; subst].
  destruct (Hm ltac:(done)) as [Hok Hb]. rewrite bool_decide_eq_true_2 by done. rewrite Hok, Hb. cbn [default from_option].
  rewrite decode_members_json by done. destruct r as [? [] ? ?]; cbn in *; by subst.
Qed.

(** Whatever [MarshalResponse] encodes is read back by [DecodeResponse]. *)
Lemma DecodeResponse_Marshal lenient r data : MarshalResponse r = Ok data → utf8_response r = true →
  int64 (ss_ConfigGeneration (ipr_Status r)) → DecodeResponse lenient data = Ok (normal_response r).
Proof.
  unfold MarshalResponse. intros H Hu Hg. revert H. destruct (ipr_OK r && _) eqn:E1; [done|].
  destruct (negb (ipr_OK r) && negb _) eqn:E2; [done|]. destruct (negb (ipr_OK r) && bool_decide (is_Some (ipr_Members r))) eqn:E3; [done|]. cbv zeta.
  match goal with |- context [bool_decide _ && blank ?id] => destruct (bool_decide (is_Some (ipr_Members r)) && blank id) eqn:E4; [done|] end.
  destruct (negb (forallb _ _)) eqn:E5; [done|]. destruct (FormatRFC3339 _) as [h|] eqn:Eh; [|done].
  destruct (_ <? _) eqn:El; [done|]. intros <-%Ok_inj. change (response_fields _ _ _ _ _) with (payload (normal_response r) h) in *.
  destruct (response_ok (normal_response r) h) as [Hok Hh]. apply normal_utf8 in Hu as Hu'.
  unfold DecodeResponse. rewrite decodeObject_print, response_clean by (done || (by eapply FormatRFC3339_clean) || lia).
  unfold payload at 1. rewrite (proj1 (response_names_ok _ _ _ _ _)), result_bind_Ok. fold (payload (normal_response r) h).
  rewrite decode_payload; try done.
  - cbn [joined]. rewrite result_bind_Ok. unfold normal_response. cbn [ipr_OK ipr_Status ipr_Members ipr_Error].
    assert (Bool.eqb (ipr_OK r) (bool_decide (is_Some (ipr_Error r))) = false) as ->
      by (clear -E1 E2; revert E1 E2; by destruct (ipr_OK r), (bool_decide _)).
    do 2 f_equal. unfold disconnected_if_empty. repeat case_bool_decide; done.
  - cbn [normal_response ipr_Status]. unfold disconnected_if_empty. clear -Hg; case_bool_decide; exact Hg.
  - cbn [normal_response ipr_Members ipr_OK ipr_Status]. intros Hm. rewrite bool_decide_eq_true_2 in E3, E4 by done.
    rewrite andb_true_r in E3. cbn [andb] in E4. by apply negb_false_iff in E3.
  - cbn [normal_response ipr_Members]. by apply negb_false_iff in E5.
Qed.

(** ** The answers of the service can be encoded *)
Record encodable (r : Response) : Prop := {
  en_error : ipr_OK r = negb (bool_decide (is_Some (ipr_Error r)));
  en_members : is_Some (ipr_Members r) → ipr_OK r = true ∧ blank (ss_NetworkID (ipr_Status r)) = false;
  en_handshake : ss_LastHandshake (ipr_Status r) = 0
}.

Lemma ErrorResponse_encodable c : encodable (ErrorResponse c).
Proof. split; cbn; [done|by intros []|done]. Qed.
Lemma SuccessResponse_encodable p : encodable (SuccessResponse (phase_status p)).
Proof.
  unfold SuccessResponse. split; cbn [ipr_OK ipr_Error ipr_Members ipr_Status]; [done|by intros []|].
  case_bool_decide; destruct p as [| |j []]; done.
Qed.

Lemma command_step_encodable request p r p' : command_step request p r p' →
  (∀ j c, p = Member j c → blank (jr_NetworkID j) = false) → encodable r.
Proof.
  intros H Hn. destruct H; try (apply ErrorResponse_encodable || apply SuccessResponse_encodable).
  split; [by destruct members| |by destruct connected]. intros _. split; [by destruct members|]. by apply (Hn j connected).
Qed.

Lemma Handle_encodable {W} lower (options : Service.Options W) ctx request s w : service_wf s →
  encodable (Service.Handle lower options ctx request (s, w)).1.
Proof.
  intros Hwf. destruct (sv_started s) eqn:Hs.
  - pose proof (Handle_started lower options ctx request s w Hwf Hs) as H. destruct (Service.Handle _ _ _ _ _) as [r [s' w']].
    destruct H as (_ & _ & _ & H). destruct (refusal ctx (phase_of s) request); [destruct H as (-> & _); apply ErrorResponse_encodable|].
    apply (command_step_encodable _ _ _ _ H). intros j c. unfold phase_of. rewrite Hs. cbn [negb].
    destruct (sv_joined s) as [j'|] eqn:Hj; [|done]. intros [= <- _]. by apply (wf_joined s Hwf).
  - destruct (Handle_stopped lower options ctx request s w Hs) as (c & _ & ->). apply ErrorResponse_encodable.
Qed.

Lemma format_handshake st : ss_LastHandshake st = 0 → is_Some (FormatRFC3339 (ss_LastHandshake (disconnected_if_empty st))).
Proof.
  intros H. assert (ss_LastHandshake (disconnected_if_empty st) = 0) as -> by (unfold disconnected_if_empty; by destruct (bool_decide _)).
  by eexists.
Qed.

Lemma MarshalResponse_total r : encodable r → forallb validateRoomMember (default [] (ipr_Members r)) = true →
  match MarshalResponse r with Ok _ => True | Err e => e = ErrMessageTooLarge end.
Proof.
  intros [He Hm Hh] Hv. unfold MarshalResponse. rewrite Hv. destruct (format_handshake _ Hh) as [h ->]. cbn [negb].
  assert (bool_decide (is_Some (ipr_Members r)) && blank (ss_NetworkID (disconnected_if_empty (ipr_Status r))) = false) as ->.
  { destruct (bool_decide (is_Some (ipr_Members r))) eqn:H; [|done]. apply bool_decide_eq_true_1, Hm in H as [_ H]. unfold disconnected_if_empty. by destruct (bool_decide (ss_PathState _ = _)). }
  assert (negb (ipr_OK r) && bool_decide (is_Some (ipr_Members r)) = false) as ->.
  { destruct (bool_decide (is_Some (ipr_Members r))) eqn:H; [|by rewrite andb_false_r]. by apply bool_decide_eq_true_1, Hm in H as [-> _]. }
  rewrite He. destruct (bool_decide (is_Some (ipr_Error r))); cbn [negb andb]; by destruct (_ <? _).
Qed.

(** ** The claims *)

(** C19: encoding a request and decoding it is the identity exactly on the
    requests of the protocol: valid, in UTF-8, and with no argument that the
    command does not take. *)
Theorem request_codec r data :
  MarshalRequest r = Ok data → Z.of_nat (length data) ≤ MaxMessageSize →
  DecodeRequest data = Ok r ↔ canonical_request r = true.
Proof. intros Hm Hl. split; [apply DecodeRequest_canonical|]. intros Hc. by apply DecodeRequest_Marshal. Qed.

Definition sample_request : Request :=
  {| ipq_Type := CommandJoinRoom; ipq_Invite := ""; ipq_DisplayName := "laptop <1>"; ipq_ControlURL := "http://[2001:db8::1]:8080"; ipq_NetworkID := "" |}.
Definition sample_data : list ascii := match MarshalRequest sample_request with Ok d => d | Err _ => [] end.

Lemma request_codec_witness : DecodeRequest sample_data = Ok sample_request.
Proof. apply request_codec; [reflexivity|vm_compute; discriminate|vm_compute; reflexivity]. Defined.

(** C17: a local call is the call it stands for. The bytes of a request of the
    protocol, handed to [HandleJSON] by a caller that is authorised, run exactly
    [Handle] on that request; the answer is encoded unless it is over the size
    limit, and the caller decodes from the bytes the answer [Handle] gave. *)
Theorem local_call {W} lower (options : Service.Options W) lenient authorize ctx s (w w' : W) r data :
  service_wf s → canonical_request r = true → MarshalRequest r = Ok data → Z.of_nat (length data) ≤ MaxMessageSize →
  authorize ctx w = (Ok tt, w') →
  let '(resp, st) := Service.Handle lower options ctx r (s, w') in
  forallb validateRoomMember (default [] (ipr_Members resp)) = true →
  let '(reply, st') := HandleJSON lower options (Some authorize) ctx data (s, w) in
  st' = st ∧
  match reply with
  | Err e => e = ErrMessageTooLarge
  | Ok out => utf8_response resp = true → int64 (ss_ConfigGeneration (ipr_Status resp)) → DecodeResponse lenient out = Ok (normal_response resp)
  end.
Proof.
  intros Hwf Hc Hm Hl Ha. pose proof (Handle_encodable lower options ctx r s w' Hwf) as He.
  unfold HandleJSON. rewrite (DecodeRequest_Marshal r data) by done. rewrite Ha.
  destruct (Service.Handle lower options ctx r (s, w')) as [resp st]. intros Hv. split; [done|].
  pose proof (MarshalResponse_total resp He Hv) as Ht. destruct (MarshalResponse resp) as [out|e] eqn:Eo; [|done].
  intros Hu Hg. by apply DecodeResponse_Marshal.
Qed.

Definition idle_service : Service := {| sv_identity := "key"; sv_started := true; sv_joined := None; sv_status := disconnected_status |}.
Definition bare_options : Service.Options unit :=
  {| so_Identity := None; so_Control := None; so_ControlURL := ""; so_Adapter := None; so_Reconciler := None |}.
Definition status_request : Request :=
  {| ipq_Type := CommandStatus; ipq_Invite := ""; ipq_DisplayName := ""; ipq_ControlURL := ""; ipq_NetworkID := "" |}.
Definition status_data : list ascii := match MarshalRequest status_request with Ok d => d | Err _ => [] end.
Definition anyone (ctx : Context) : M unit unit := ret tt.

Lemma local_call_witness :
  match (HandleJSON ToLower bare_options (Some anyone) liveContext status_data (idle_service, tt)).1 with
  | Err _ => False
  | Ok out => DecodeResponse (λ _, None) out = Ok (SuccessResponse disconnected_status)
  end.
Proof.
  assert (service_wf idle_service) as Hwf by (split; [done|done|discriminate]).
  assert (canonical_request status_request = true) as Hc by (vm_compute; reflexivity).
  assert (MarshalRequest status_request = Ok status_data) as Hm by (vm_compute; reflexivity).
  assert (Z.of_nat (length status_data) ≤ MaxMessageSize) as Hl by (vm_compute; discriminate).
  pose proof (local_call ToLower bare_options (λ _, None) anyone liveContext idle_service tt tt status_request status_data Hwf Hc Hm Hl
    eq_refl) as H.
  vm_compute in H. destruct (H eq_refl) as [_ H']. specialize (H' eq_refl). vm_compute. apply H'. split; discriminate.
Defined.
