(* ===== verification/SessionThm.v ===== *)
(** * A session of the service on its control client and data plane

    The service, the client that remembers its enrollment, the snapshot applier
    and the system, put together as [cmd/vpn-service] does it, stay in agreement
    over any sequence of requests and heartbeats. *)

From S2P Require Import Prelude GoStd Crypto Model RepositoryThm Auth NetIP Wgnt Routes Reconcile ReconcileThm NetURL Ipc Service DataPlane ServiceThm.

Open Scope Z_scope.

(** ** What the control API promises

    It does not touch the data plane, an enrollment is complete
    ([enrollmentResultFromWire]), and a snapshot is of the network that was asked
    for ([Client.Snapshot]). *)
Definition same_plane {W} `{DataPlaneLaws W} (w w' : W) : Prop :=
  dp_config w' = dp_config w ∧ dp_up w' = dp_up w ∧ dp_routes w' = dp_routes w.
Definition complete (o : result EnrollmentResult) : Prop :=
  match o with
  | Ok x => er_SessionToken x ≠ "" ∧ nd_ID (er_Node x) ≠ "" ∧ nw_ID (er_Network x) ≠ ""
  | Err _ => True
  end.

Class ControlLaws (W : Type) `{ControlAPI W} `{DataPlaneLaws W} := {
  law_api_Join ctx r w : let '(o, w') := api_Join ctx r w in same_plane w w' ∧ complete o;
  law_api_JoinRoom ctx r w : let '(o, w') := api_JoinRoom ctx r w in same_plane w w' ∧ complete o;
  law_api_Leave ctx n d t w : same_plane w (api_Leave ctx n d t w).2;
  law_api_Snapshot ctx n t w :
    let '(o, w') := api_Snapshot ctx n t w in
    same_plane w w' ∧ match o with Ok s => sn_NetworkID s = n | Err _ => True end;
  law_api_Heartbeat ctx n d t v e w : same_plane w (api_Heartbeat ctx n d t v e w).2
}.

(** ** The invariant of the applier *)
Definition applier_wf (a : Applier) : Prop :=
  options_ok (ap_options a) ∧
  (ap_generation a = 0 ∧ as_applied (ap_state a) = false ∨ 0 < ap_generation a ∧ as_applied (ap_state a) = true).

Section ApplierFacts.
Context {W : Type} `{DataPlaneLaws W}.

Lemma in_sync_same st (w w' : W) : same_plane w w' → in_sync st w → in_sync st w'.
Proof. intros (H3 & H4 & H5). unfold in_sync. by rewrite H3, H4, H5. Qed.

Lemma Apply_positive ctx s a (w : W) x : Apply ctx s (a, w) = (Ok tt, x) → 0 < sn_Generation s.
Proof.
  unfold Apply. destruct (checkContext ctx); [done|]. destruct (sn_Generation s <=? 0) eqn:E; [done|]. intros _.
  by apply Z.leb_gt.
Qed.

Lemma Apply_session ctx s a (w : W) :
  applier_wf a →
  let '(o, (a', w')) := Apply ctx s (a, w) in
  match o with
  | Ok _ => applier_wf a' ∧ as_applied (ap_state a') = true ∧ (in_sync (ap_state a) w → in_sync (ap_state a') w') ∧
      (as_networkID (ap_state a') = sn_NetworkID s ∨ a' = a ∧ as_applied (ap_state a) = true)
  | Err _ => a' = a
  end.
Proof.
  intros [Ho Ha]. pose proof (Apply_run ctx s a w Ho) as Hr. pose proof (Apply_positive ctx s a w) as Hp.
  destruct (Apply ctx s (a, w)) as [[[]|e] [a' w']]; [|by destruct Hr]. specialize (Hp _ eq_refl).
  destruct Hr as [(Hg & -> & ->)|(_ & Hg & Ho' & Hf & Hs)].
  - destruct Ha as [[Hz _]|[Hz Ht]]; [lia|]. split; [by split; auto|]. split_and!; [done|done|by right].
  - destruct Hf as (lip & kis & luid & _ & _ & Ht & _ & Hn & _). split; [|by split_and!; auto].
    split; [by rewrite Ho'|right; split; [lia|done]].
Qed.

Lemma Clear_session ctx a (w : W) :
  applier_wf a →
  let '(o, (a', w')) := applier_Clear ctx (a, w) in
  match o with
  | Ok _ => applier_wf a' ∧ as_applied (ap_state a') = false ∧ (in_sync (ap_state a) w → in_sync (ap_state a') w')
  | Err _ => a' = a
  end.
Proof.
  intros [Ho Ha]. unfold applier_Clear. destruct (checkContext ctx); [done|].
  destruct (as_applied (ap_state a)) eqn:Et; simpl; [|split; [split; [done|left; destruct Ha as [[? ?]|[? ?]]; [done|congruence]]|done]].
  pose proof (law_Clear ctx w) as L1. destruct (rm_Clear ctx w) as [[u1|e1] w1].
  2: { destruct (ad_SetDown _ _ _) as [[u2|e2] w2], (ad_Delete _ _ _) as [[u3|e3] w3]; done. }
  pose proof (law_SetDown ctx (as_handle (ap_state a)) w1) as L2. destruct (ad_SetDown _ _ _) as [[u2|e2] w2].
  2: { by destruct (ad_Delete _ _ _) as [[u3|e3] w3]. }
  pose proof (law_Delete ctx (as_handle (ap_state a)) w2) as L3. destruct (ad_Delete _ _ _) as [[u3|e3] w3]; [|done].
  split; [by split; auto|]. split; [done|]. intros _. unfold in_sync. simpl.
  destruct L1 as (_ & _ & L1), L2 as (L2 & _), L3 as (L3 & _). rewrite L3, L2. auto.
Qed.
End ApplierFacts.

(** ** The invariant of a session

    [synced]: no answer has been [adapter_failed] yet; [left_well]: no request
    to leave has failed yet. *)
Record session_inv {W} `{DataPlaneLaws W} (synced left_well : bool) (s : Service) (b : Backing W) : Prop := {
  si_applier : applier_wf b.1.2;
  si_client j : sv_joined s = Some j →
    hc_networkID b.1.1 = jr_NetworkID j ∧ hc_nodeID b.1.1 ≠ "" ∧ hc_sessionToken b.1.1 ≠ "";
  si_idle : sv_joined s = None → as_applied (ap_state b.1.2) = false;
  si_network j : sv_joined s = Some j → as_applied (ap_state b.1.2) = true → as_networkID (ap_state b.1.2) = jr_NetworkID j;
  si_sync : synced = true → in_sync (ap_state b.1.2) b.2;
  si_direct j : left_well = true → sv_joined s = Some j → ss_PathState (sv_status s) = PathStateDirect →
    as_applied (ap_state b.1.2) = true
}.

Definition code_of (r : Ipc.Response) : option string := er_Code <$> ipr_Error r.
Definition keeps_sync (r : Ipc.Response) : bool := bool_decide (code_of r ≠ Some CodeAdapterFailed).
Definition leaves_well (request : Request) (r : Ipc.Response) : bool :=
  negb (bool_decide (ipq_Type request = CommandLeave)) || ipr_OK r.

Section Session.
Context {W : Type} {API : ControlAPI W} {AD : Adapter W} {RM : RouteManager W} {DP : DataPlaneLaws W} {CL : ControlLaws W}.
Variables (lower : string → string) (publicKey controlURL : string).

Definition options : Service.Options (Backing W) := localServiceOptions publicKey controlURL.

(** ** The client *)
Definition enrolled_in (c : HTTPControlClient) (networkID : string) : Prop :=
  hc_networkID c = networkID ∧ hc_nodeID c ≠ "" ∧ hc_sessionToken c ≠ "".

Lemma remembered_spec o c (w : W) :
  complete o →
  let '(r, (c', w')) := remembered o c w in
  w' = w ∧ match r with Ok j => enrolled_in c' (jr_NetworkID j) | Err _ => c' = c end.
Proof. destruct o as [x|e]; [|done]. intros (? & ? & ?). simpl. by split. Qed.

Lemma client_Join_spec ctx request c (w : W) :
  let '(r, (c', w')) := client_Join ctx request (c, w) in
  same_plane w w' ∧ match r with Ok j => enrolled_in c' (jr_NetworkID j) | Err _ => c' = c end.
Proof.
  unfold client_Join. set (rq := Build_APIJoinRequest _ _ _ _ _ _). pose proof (law_api_Join ctx rq w) as L.
  destruct (api_Join ctx rq w) as [o w1]. destruct L as [Hs Hc]. pose proof (remembered_spec o c w1 Hc) as R.
  destruct (remembered o c w1) as [r [c' w']]. by destruct R as [-> R].
Qed.

Lemma client_JoinRoom_spec ctx request c (w : W) :
  let '(r, (c', w')) := client_JoinRoom ctx request (c, w) in
  same_plane w w' ∧ match r with Ok j => enrolled_in c' (jr_NetworkID j) | Err _ => c' = c end.
Proof.
  unfold client_JoinRoom. set (rq := Build_RoomJoinRequest _ _ _ _). pose proof (law_api_JoinRoom ctx rq w) as L.
  destruct (api_JoinRoom ctx rq w) as [o w1]. destruct L as [Hs Hc]. pose proof (remembered_spec o c w1 Hc) as R.
  destruct (remembered o c w1) as [r [c' w']]. by destruct R as [-> R].
Qed.

Lemma client_Leave_spec ctx n c (w : W) :
  let '(r, (c', w')) := client_Leave ctx n (c, w) in same_plane w w' ∧ (is_ok r = false → c' = c).
Proof.
  unfold client_Leave. destruct (_ || _); [done|]. pose proof (law_api_Leave ctx n (hc_nodeID c) (hc_sessionToken c) w) as L.
  by destruct (api_Leave _ _ _ _ _) as [[u|e] w1].
Qed.

Lemma client_Snapshot_spec ctx n c (w : W) :
  let '(r, (c', w')) := client_Snapshot ctx n (c, w) in
  same_plane w w' ∧ c' = c ∧ match r with Ok s => sn_NetworkID s = n | Err _ => True end.
Proof.
  unfold client_Snapshot. pose proof (law_api_Snapshot ctx n (hc_sessionToken c) w) as L.
  destruct (api_Snapshot _ _ _ _) as [r w1]. by destruct L.
Qed.

(** ** Steps that keep the invariant *)
Lemma idle_inv sy lw s (b : Backing W) :
  sv_joined s = None → applier_wf b.1.2 → as_applied (ap_state b.1.2) = false → (sy = true → in_sync (ap_state b.1.2) b.2) →
  session_inv sy lw s b.
Proof. intros Hj Ha Hf Hs. split; [done|congruence|done|congruence|done|congruence]. Qed.

(** A request that fails without touching client and applier. *)
Lemma failed_inv sy lw sy' lw' s c a (w w' : W) :
  session_inv sy lw s (c, a, w) → same_plane w w' → (sy' = true → sy = true) → (lw' = true → lw = true) →
  session_inv sy' lw' s (c, a, w').
Proof.
  intros [Ha Hc Hi Hn Hs Hd] Hp Hsy Hlw. split; simpl in *; eauto.
  intros H. eapply in_sync_same; [done|auto].
Qed.

Lemma and_left (a b : bool) : a && b = true → a = true.
Proof. by intros [? _]%andb_true_iff. Qed.

Lemma finishJoin_session sy lw ctx result s c a (w : W) :
  session_inv sy lw s (c, a, w) → sv_joined s = None → enrolled_in c (jr_NetworkID result) →
  let '(r, (s', b')) := finishJoin options ctx result (s, (c, a, w)) in session_inv (sy && keeps_sync r) lw s' b'.
Proof.
  intros [Ha _ Hi _ Hs _] Hj Hc. specialize (Hi Hj). simpl in Ha, Hi, Hs. unfold finishJoin. cbn [so_Control options localServiceOptions so_Reconciler cc_Leave cc_Snapshot sa_Apply].
  assert (∀ code (w' : W), (sy && keeps_sync (ErrorResponse code) = true → in_sync (ap_state a) w') →
    let '(r, (s', b')) := fail code (s, (on_client (client_Leave liveContext (jr_NetworkID result)) (c, a, w')).2) in
    session_inv (sy && keeps_sync r) lw s' b') as Hback.
  { intros code w' Hw'. unfold on_client, fail. pose proof (client_Leave_spec liveContext (jr_NetworkID result) c w') as L.
    destruct (client_Leave _ _ _) as [r [c' w1]]. destruct L as [L _]. simpl. apply idle_inv; simpl; [done..|].
    intros H. eapply in_sync_same; [done|auto]. }
  destruct (_ || _); [apply Hback; intros ?%and_left; auto|]. unfold on_client at 1.
  pose proof (client_Snapshot_spec ctx (jr_NetworkID result) c w) as L.
  destruct (client_Snapshot _ _ _) as [[sn|e] [c1 w1]]; destruct L as (Hp & -> & Hn).
  2: { apply Hback. intros ?%and_left. eapply in_sync_same; [done|auto]. }
  unfold on_applier. pose proof (Apply_session ctx sn a w1 Ha) as LA. destruct (Apply ctx sn (a, w1)) as [[u|e] [a' w2]].
  2: { subst a'. apply Hback. by intros [_ ?]%andb_true_iff. }
  destruct LA as (Ha' & Ht & Hs' & Hnet). rewrite Hj. split; simpl; try done.
  - by intros j [= <-].
  - intros j [= <-] _. destruct Hnet as [->|[_ Hx]]; [done|congruence].
  - intros ?%and_left. apply Hs'. eapply in_sync_same; [done|auto].
Qed.

Definition step_ok (sy lw : bool) (request : Request) (x : Ipc.Response * (Service * Backing W)) : Prop :=
  let '(r, (s', b')) := x in session_inv (sy && keeps_sync r) (lw && leaves_well request r) s' b'.

Lemma step_fail sy lw request code s c a (w w' : W) :
  session_inv sy lw s (c, a, w) → same_plane w w' → step_ok sy lw request (fail code (s, (c, a, w'))).
Proof. intros Hi Hp. eapply failed_inv; [done|done|apply and_left..]. Qed.

Lemma step_adapter_failed sy lw request s c a (w w' : W) :
  session_inv sy lw s (c, a, w) → step_ok sy lw request (fail CodeAdapterFailed (s, (c, a, w'))).
Proof.
  intros [Ha Hc Hi Hn Hs Hd]. split; simpl in *; eauto; [by intros [_ ?]%andb_true_iff|].
  intros j ?%and_left. eauto.
Qed.

Lemma step_weaken sy lw request r s' b' :
  session_inv (W := W) (sy && keeps_sync r) lw s' b' → step_ok sy lw request (r, (s', b')).
Proof. destruct b' as [[c a] w]. intros Hi. eapply failed_inv; [done|done|done|apply and_left]. Qed.

Lemma joined_session sy lw ctx request s c a (w : W) o c' w' :
  session_inv sy lw s (c, a, w) → sv_joined s = None → same_plane w w' →
  match o with Ok j => enrolled_in c' (jr_NetworkID j) | Err _ => c' = c end →
  ∀ code : error → string,
  step_ok sy lw request
    (match o with
     | Err e => fail (code e) (s, (c', a, w'))
     | Ok result => finishJoin options ctx (with_DisplayName result (ipq_DisplayName request)) (s, (c', a, w'))
     end).
Proof.
  intros Hi Hj Hp Ho code. destruct o as [r|e]; [|subst c'; by eapply step_fail].
  pose proof (finishJoin_session sy lw ctx (with_DisplayName r (ipq_DisplayName request)) s c' a w') as Hf.
  destruct (finishJoin _ _ _ _) as [resp [s' b']]. apply step_weaken, Hf; [|done|done].
  destruct Hi as [Ha _ Hidle _ Hs _]. simpl in *. apply idle_inv; simpl; auto. intros H. eapply in_sync_same; [done|auto].
Qed.

Lemma join_session sy lw ctx request s c a (w : W) :
  session_inv sy lw s (c, a, w) → step_ok sy lw request (join options ctx request (s, (c, a, w))).
Proof.
  intros Hi. unfold join. destruct (sv_joined s) as [j|] eqn:Hj; [by eapply step_fail|].
  destruct (_ || _); [by eapply step_fail|]. cbn [so_Control options localServiceOptions cc_Join]. unfold on_client.
  set (rq := Build_JoinRequest _ _ _). pose proof (client_Join_spec ctx rq c w) as L.
  destruct (client_Join ctx rq (c, w)) as [o [c' w']]. destruct L as [Hp Ho].
  pose proof (joined_session sy lw ctx request s c a w o c' w' Hi Hj Hp Ho safeControlErrorCode) as H. by destruct o.
Qed.

Lemma joinRoom_session sy lw ctx request s c a (w : W) :
  session_inv sy lw s (c, a, w) → step_ok sy lw request (joinRoom lower options ctx request (s, (c, a, w))).
Proof.
  intros Hi. unfold joinRoom. destruct (sv_joined s) as [j|] eqn:Hj; [by eapply step_fail|].
  destruct (canonicalControlURL _ _); [|by eapply step_fail]. destruct (canonicalControlURL _ _); [|by eapply step_fail].
  cbn [so_Control options localServiceOptions cc_JoinRoom]. destruct (_ || _); [by eapply step_fail|]. unfold on_client.
  set (rq := Build_JoinRequest _ _ _). pose proof (client_JoinRoom_spec ctx rq c w) as L.
  destruct (client_JoinRoom ctx rq (c, w)) as [o [c' w']]. destruct L as [Hp Ho].
  pose proof (joined_session sy lw ctx request s c a w o c' w' Hi Hj Hp Ho safeRoomControlErrorCode) as H. by destruct o.
Qed.

Lemma roomMembers_session sy lw ctx request s c a (w : W) :
  session_inv sy lw s (c, a, w) → step_ok sy lw request (roomMembers lower options ctx (s, (c, a, w))).
Proof.
  intros Hi. unfold roomMembers. destruct (sv_joined s) as [j|] eqn:Hj; [|by eapply step_fail].
  change (so_Control options ≫= cc_Snapshot) with
    (Some (λ ctx networkID, on_client (client_Snapshot (W := W) ctx networkID))).
  unfold on_client. pose proof (client_Snapshot_spec ctx (jr_NetworkID j) c w) as L. cbv beta iota.
  destruct (client_Snapshot _ _ _) as [[sn|e] [c1 w1]]; destruct L as (Hp & -> & Hn); [|by eapply step_fail].
  destruct (projectRoomMembers _ _ _); [|by eapply step_fail]. apply step_weaken. eapply failed_inv; [done..|apply and_left|done].
Qed.

(** A cleared applier suits any service that is idle or does not say it is
    connected. *)
Lemma cleared_inv sy sy' lw lw' s s' c a a' (w w' : W) :
  session_inv sy lw s (c, a, w) → sv_joined s' = sv_joined s →
  (lw' = true → ss_PathState (sv_status s') = PathStateDirect → False) →
  applier_wf a' → as_applied (ap_state a') = false → (in_sync (ap_state a) w → in_sync (ap_state a') w') → (sy' = true → sy = true) →
  session_inv sy' lw' s' (c, a', w').
Proof.
  intros [Ha Hc Hi Hn Hs Hd] Hj Hp Ha' Hf Hs' Hsy. split; simpl in *; rewrite ?Hj; auto; congruence.
Qed.

Lemma leave_data_plane_session ctx n s c a (w : W) :
  applier_wf a →
  let '(ok, (c', a', w')) := leave_data_plane options ctx n s (c, a, w) in
  c' = c ∧ applier_wf a' ∧
  if ok then as_applied (ap_state a') = false ∧ (in_sync (ap_state a) w → in_sync (ap_state a') w')
  else a' = a ∨ as_applied (ap_state a') = false.
Proof.
  intros Ha. unfold leave_data_plane. cbn [so_Adapter options localServiceOptions da_Disconnect so_Reconciler sa_Clear].
  unfold on_applier, dataPlane_Disconnect, dataPlane_Clear. destruct (negb (bool_decide _)).
  - pose proof (Clear_session ctx a w Ha) as L1. destruct (applier_Clear ctx (a, w)) as [[u|e] [a1 w1]]; cbn [is_ok negb]; [|by subst; auto].
    destruct L1 as (Ha1 & Hf1 & Hs1). pose proof (Clear_session ctx a1 w1 Ha1) as L2.
    destruct (applier_Clear ctx (a1, w1)) as [[u'|e] [a2 w2]]; cbn [is_ok negb]; [|by subst; auto].
    destruct L2 as (Ha2 & Hf2 & Hs2). split; [done|split; [done|split; auto]].
  - cbn [negb]. pose proof (Clear_session ctx a w Ha) as L1.
    destruct (applier_Clear ctx (a, w)) as [[u|e] [a1 w1]]; cbn [is_ok negb]; [|by subst; auto]. destruct L1 as (? & ? & ?). auto.
Qed.

Lemma leave_session sy lw ctx request s c a (w : W) :
  ipq_Type request = CommandLeave → session_inv sy lw s (c, a, w) →
  step_ok sy lw request (leave options ctx (ipq_NetworkID request) (s, (c, a, w))).
Proof.
  intros Ht Hi. unfold leave. destruct (sv_joined s) as [j|] eqn:Hj; [|by eapply step_fail].
  destruct (negb _); [by eapply step_fail|].
  assert (∀ code, lw && leaves_well request (ErrorResponse code) = true → False) as Hlw.
  { intros code [_ H]%andb_true_iff. unfold leaves_well in H. by rewrite bool_decide_eq_true_2 in H. }
  pose proof (leave_data_plane_session ctx (ipq_NetworkID request) s c a w (si_applier _ _ _ _ Hi)) as L.
  destruct (leave_data_plane _ _ _ _ _) as [ok [[c1 a1] w1]]. destruct L as (-> & Ha1 & L).
  cbn [so_Control options localServiceOptions cc_Leave]. destruct ok; cbn [negb].
  2: { destruct L as [->|Hf]; [by eapply step_adapter_failed|]. destruct Hi as [_ Hc Hid _ _ _].
       split; simpl in *; auto; [congruence|by intros [_ ?]%andb_true_iff|]. intros j' Hx. by destruct (Hlw _ Hx). }
  destruct L as [Hf1 Hs1]. unfold on_client. pose proof (client_Leave_spec ctx (ipq_NetworkID request) c w1) as L.
  destruct (client_Leave _ _ _) as [[u|e] [c2 w2]]; destruct L as [Hp L].
  - apply idle_inv; simpl; try done. intros Hsy%and_left. eapply in_sync_same; [done|]. by apply Hs1, (si_sync _ _ _ _ Hi).
  - rewrite L by done. eapply cleared_inv; [exact Hi|done|intros Hx; by destruct (Hlw _ Hx)|done|done| |apply and_left].
    intros H. eapply in_sync_same; [done|auto].
Qed.

Lemma connect_session sy lw ctx request s c a (w : W) :
  session_inv sy lw s (c, a, w) → step_ok sy lw request (connect options ctx (ipq_NetworkID request) (s, (c, a, w))).
Proof.
  intros Hi. unfold connect. destruct (sv_joined s) as [j|] eqn:Hj; [|by eapply step_fail].
  destruct (bool_decide _) eqn:En; cbn [negb]; [|by eapply step_fail]. apply bool_decide_eq_true in En.
  cbn [so_Reconciler options localServiceOptions sa_Apply].
  change (so_Control options ≫= cc_Snapshot) with
    (Some (λ ctx networkID, on_client (client_Snapshot (W := W) ctx networkID))).
  unfold on_client. cbv beta iota.
  pose proof (client_Snapshot_spec ctx (ipq_NetworkID request) c w) as L.
  destruct (client_Snapshot _ _ _) as [[sn|e] [c1 w1]]; destruct L as (Hp & -> & Hn); [|by eapply step_fail].
  unfold on_applier. pose proof (Apply_session ctx sn a w1 (si_applier _ _ _ _ Hi)) as LA.
  destruct (Apply ctx sn (a, w1)) as [[u|e] [a' w2]]; [|subst a'; by eapply step_adapter_failed].
  destruct LA as (Ha' & Ht & Hs' & Hnet). destruct Hi as [Ha Hc Hid Hnw Hs Hd]. simpl in *.
  split; simpl; try done.
  - congruence.
  - intros j' Hj' _. rewrite Hj in Hj'. injection Hj' as <-. destruct Hnet as [->|[-> Hx]]; [congruence|auto].
  - intros ?%and_left. apply Hs'. eapply in_sync_same; [done|auto].
Qed.

Lemma disconnect_session sy lw ctx request s c a (w : W) :
  session_inv sy lw s (c, a, w) → step_ok sy lw request (disconnect options ctx (ipq_NetworkID request) (s, (c, a, w))).
Proof.
  intros Hi. unfold disconnect. destruct (sv_joined s) as [j|] eqn:Hj; [|by eapply step_fail].
  destruct (negb _); [by eapply step_fail|]. cbn [so_Reconciler options localServiceOptions sa_Clear]. unfold on_applier.
  pose proof (Clear_session ctx a w (si_applier _ _ _ _ Hi)) as L.
  destruct (applier_Clear ctx (a, w)) as [[u|e] [a' w2]]; [|subst a'; by eapply step_adapter_failed].
  destruct L as (Ha' & Hf & Hs'). eapply cleared_inv; [exact Hi|done|done|done|done|done|apply and_left].
Qed.

Lemma Handle_session sy lw ctx request s c a (w : W) :
  session_inv sy lw s (c, a, w) → step_ok sy lw request (Service.Handle lower options ctx request (s, (c, a, w))).
Proof.
  intros Hi. unfold Service.Handle. destruct (contextErr ctx); [by eapply step_fail|].
  destruct (bool_decide (ipq_Type request = CommandStatus)).
  { destruct (negb _); [by eapply step_fail|]. apply step_weaken. eapply failed_inv; [done..|apply and_left|done]. }
  destruct (negb _); [by eapply step_fail|].
  destruct (bool_decide _); [by apply join_session|]. destruct (bool_decide _); [by apply joinRoom_session|].
  destruct (bool_decide _); [by apply roomMembers_session|].
  case_bool_decide; [by apply leave_session|].
  destruct (bool_decide _); [by apply connect_session|]. destruct (bool_decide _); [by apply disconnect_session|].
  by eapply step_fail.
Qed.

(** ** Sessions

    Requests of local callers, and the heartbeats that run beside them. *)
Inductive session_event :=
| SRequest (ctx : Context) (request : Request)
| SHeartbeat (ctx : Context) (endpoints : list EndpointCandidate).

Fixpoint session (l : list session_event) (st : Service * Backing W) : list (Request * Ipc.Response) * (Service * Backing W) :=
  match l with
  | [] => ([], st)
  | SRequest ctx request :: l =>
    let '(r, st) := Service.Handle lower options ctx request st in
    let '(rs, st) := session l st in ((request, r) :: rs, st)
  | SHeartbeat ctx endpoints :: l =>
    session l (st.1, (on_client (client_Heartbeat ctx endpoints) st.2).2)
  end.

Lemma heartbeat_session sy lw s (b : Backing W) ctx endpoints :
  session_inv sy lw s b → session_inv sy lw s (on_client (client_Heartbeat ctx endpoints) b).2.
Proof.
  destruct b as [[c a] w]. intros Hi. unfold on_client, client_Heartbeat.
  pose proof (law_api_Heartbeat ctx (hc_networkID c) (hc_nodeID c) (hc_sessionToken c) (hc_clientVersion c) endpoints w) as L.
  destruct (api_Heartbeat _ _ _ _ _ _ _) as [r w']. by eapply failed_inv.
Qed.

Lemma session_keeps l sy lw s (b : Backing W) :
  session_inv sy lw s b →
  let '(rs, (s', b')) := session l (s, b) in
  session_inv (sy && forallb (λ x, keeps_sync x.2) rs) (lw && forallb (λ x, leaves_well x.1 x.2) rs) s' b'.
Proof.
  revert sy lw s b. induction l as [|[ctx request|ctx endpoints] l IH]; intros sy lw s b Hi; cbn [session].
  - cbn [forallb]. by rewrite !andb_true_r.
  - destruct b as [[c a] w]. pose proof (Handle_session sy lw ctx request s c a w Hi) as H.
    destruct (Service.Handle _ _ _ _ _) as [r [s1 b1]]. specialize (IH _ _ _ _ H).
    destruct (session l (s1, b1)) as [rs [s2 b2]]. cbn [forallb fst snd]. by rewrite !andb_assoc.
  - by apply IH, heartbeat_session.
Qed.
End Session.

(** A leave that fails at the control plane, after the data plane was cleared,
    leaves the service as it was: the status still tells the path it had before. *)
Theorem leave_failed_keeps_status {W} {API : ControlAPI W} {AD : Adapter W} {RM : RouteManager W} {DP : DataPlaneLaws W}
    publicKey controlURL ctx j s c a (w : W) r s' c' a' w' :
  applier_wf a → sv_joined s = Some j →
  leave (options publicKey controlURL) ctx (jr_NetworkID j) (s, (c, a, w)) = (r, (s', (c', a', w'))) →
  ipr_OK r = false → code_of r ≠ Some CodeAdapterFailed → s' = s ∧ as_applied (ap_state a') = false.
Proof.
  intros Ha Hj. unfold leave. rewrite Hj, bool_decide_eq_true_2 by done. cbn [negb].
  pose proof (leave_data_plane_session publicKey controlURL ctx (jr_NetworkID j) s c a w Ha) as L.
  destruct (leave_data_plane _ _ _ _ _) as [ok [[c1 a1] w1]]. destruct L as (-> & _ & L).
  cbn [so_Control options localServiceOptions cc_Leave]. destruct ok; cbn [negb]; [|by intros [= <- <- <- <- <-]].
  unfold on_client. destruct (client_Leave _ _ _) as [[u|e] [c2 w2]]; [by intros [= <- <- <- <- <-]|].
  intros [= <- <- <- <- <-] _ _. by destruct L.
Qed.

(** ** A control plane for the data plane that fails on schedule *)
Definition plane_enrollment : EnrollmentResult := {|
  er_Node := demo_node "a" (Base64 (plane_key 1)); er_Membership := demo_member "a" [10; 0; 0; 1]; er_Network := demo_network;
  er_Session := {| se_Subject := "a"; se_Role := RoleNode; se_NetworkID := "net"; se_ExpiresAt := 100 |}; er_SessionToken := "t"
|}.
#[global] Instance Plane_ControlAPI : ControlAPI Plane := {|
  api_Join _ _ w := (Ok plane_enrollment, w);
  api_JoinRoom _ _ w := (Err (EHTTP 503 "room_not_ready"), w);
  api_Leave _ _ _ _ w := (if bool_decide (pn_failures w = []) then Ok tt else Err (EURL (ENet true)), w);
  api_Snapshot _ n _ w := (if bool_decide (n = "net") then Ok (plane_sn 4) else Err (EHTTP 403 "wrong_network"), w);
  api_Heartbeat _ _ _ _ _ _ w := (Ok tt, w)
|}.

Lemma plane_sn_network : sn_NetworkID (plane_sn 4) = "net".
Proof. vm_compute. reflexivity. Qed.

#[global] Instance Plane_ControlLaws : ControlLaws Plane.
Proof.
  split; [split; done|split; done|done| |done]. intros ctx n t w. simpl. split; [done|].
  case_bool_decide; [subst; apply plane_sn_network|done].
Defined.

(** ** Claims *)


Definition plane_request (type invite name network : string) : Request :=
  {| ipq_Type := type; ipq_Invite := invite; ipq_DisplayName := name; ipq_ControlURL := ""; ipq_NetworkID := network |}.
Definition plane_start : Service * Backing Plane :=
  (Start (options (Base64 (plane_key 1)) "http://h") liveContext
    (New, (NewHTTPControlClient "" "windows" "1", plane_applier, plane_empty []))).2.
Definition plane_session : list (Request * Ipc.Response) * (Service * Backing Plane) :=
  session ToLower (Base64 (plane_key 1)) "http://h"
    [SRequest liveContext (plane_request CommandJoin "inv.secret" "me" ""); SHeartbeat liveContext [];
     SRequest liveContext (plane_request CommandConnect "" "" "net")] plane_start.

Lemma plane_session_ok :
  forallb (λ x, keeps_sync x.2) plane_session.1 = true ∧ forallb (λ x, leaves_well x.1 x.2) plane_session.1 = true ∧
  sv_joined plane_session.2.1 ≠ None ∧ ss_PathState (sv_status plane_session.2.1) = PathStateDirect.
Proof. vm_compute. split_and!; [reflexivity|reflexivity|discriminate|reflexivity]. Qed.

