(* ===== verification/NetURLThm.v ===== *)
(** * Locators: what is printed is what is parsed

    The escapes are undone, and the locator that a client prints for a path is
    parsed back with exactly that path. *)

From S2P Require Import Prelude GoStd Model Auth Interface Handler NetURL Ipc Service.
From Stdlib Require Import Ascii.

Open Scope Z_scope.

(** A property of every byte, by the 256 cases. *)
Definition all_bytes : list ascii := ascii_of_nat <$> seq 0 256.
Lemma every_byte (P : ascii → bool) : forallb P all_bytes = true → ∀ c, P c = true.
Proof.
  intros H c. rewrite forallb_forall in H. apply H, list_elem_of_In. unfold all_bytes. apply list_elem_of_fmap.
  exists (nat_of_ascii c). split; [by rewrite ascii_nat_embedding|]. apply elem_of_seq. pose proof (nat_ascii_bounded c). lia.
Qed.

(** ** Escapes *)
Definition escape_read (mode : encoding) (c : ascii) : bool :=
  if shouldEscape c mode then
    match unhex2 (upper_digit (code c / 16)) (upper_digit (code c mod 16)) with Some v => bool_decide (chr v = c) | None => false end
  else negb (bool_decide (c = "%"%char)).
Lemma escape_reads mode c : mode = encodePath ∨ mode = encodePathSegment → escape_read mode c = true.
Proof. intros [-> | ->]; revert c; apply every_byte; vm_compute; reflexivity. Qed.

Lemma unescape_escape l : unescape encodePath (escape encodePath l) = Some l.
Proof.
  induction l as [|c l IH]; [done|]. unfold escape in *. cbn [mbind list_bind]. unfold escape_byte at 1.
  pose proof (escape_reads encodePath c (or_introl eq_refl)) as H. unfold escape_read in H. destruct (shouldEscape c encodePath).
  - cbn [app unescape]. rewrite bool_decide_eq_true_2 by done. destruct (unhex2 _ _) as [v|]; [|done]. cbn [escape_allowed].
    apply bool_decide_eq_true in H. rewrite H, IH. done.
  - apply negb_true_iff, bool_decide_eq_false in H. cbn [app unescape]. rewrite bool_decide_eq_false_2 by done. cbn [host_mode andb].
    by rewrite IH.
Qed.

Lemma PathUnescape_PathEscape s : PathUnescape (PathEscape s) = Some s.
Proof.
  unfold PathUnescape, PathEscape. rewrite bytes_of_bytes.
  assert (∀ l, unescape_bytes (escape encodePathSegment l) = Some l) as Hu; [|rewrite Hu; simpl; by rewrite of_bytes_bytes].
  induction l as [|c l IH]; [done|]. unfold escape in *. cbn [mbind list_bind]. unfold escape_byte at 1.
  pose proof (escape_reads encodePathSegment c (or_intror eq_refl)) as H. unfold escape_read, unhex2 in H.
  destruct (shouldEscape c encodePathSegment).
  - cbn [app unescape_bytes]. rewrite bool_decide_eq_true_2 by done. destruct (unhex _) as [x|]; [|done].
    destruct (unhex _) as [y|]; [|done]. apply bool_decide_eq_true in H. by rewrite IH, H.
  - apply negb_true_iff, bool_decide_eq_false in H. cbn [app unescape_bytes]. by rewrite bool_decide_eq_false_2, IH.
Qed.

(** An escaped byte is no delimiter of a locator. *)
Definition path_char (c : ascii) : bool :=
  negb (is_control c) && negb (bool_decide (c = "?"%char)) && negb (bool_decide (c = "#"%char)).
Lemma escape_chars l : Forall (λ c, path_char c = true) (escape encodePath l).
Proof.
  unfold escape. apply Forall_bind. apply Forall_forall. intros c _.
  assert (forallb path_char (escape_byte encodePath c) = true) as H.
  { revert c. apply every_byte. vm_compute. reflexivity. }
  apply Forall_forall. intros d Hd. rewrite forallb_forall in H. by apply H, list_elem_of_In.
Qed.
Lemma segment_noslash s : "/"%char ∉ bytes (PathEscape s).
Proof.
  unfold PathEscape, escape. rewrite bytes_of_bytes. rewrite list_elem_of_bind. intros (c & Hc & _). revert Hc.
  assert (∀ c, negb (bool_decide ("/"%char ∈ escape_byte encodePathSegment c)) = true) as H.
  { apply every_byte. vm_compute. reflexivity. }
  specialize (H c). by apply negb_true_iff, bool_decide_eq_false in H.
Qed.
Lemma segment_nonempty s : s ≠ "" → PathEscape s ≠ "".
Proof.
  intros Hs E. apply Hs. pose proof (PathUnescape_PathEscape s) as H. rewrite E in H. by injection H as <-.
Qed.

(** ** A locator with a host *)
Definition host_char (c : ascii) : bool := path_char c && negb (bool_decide (c = "/"%char)) && negb (bool_decide (c = "@"%char)).
Definition base_ok (u : URL) : bool :=
  (bool_decide (u_Scheme u = "http") || bool_decide (u_Scheme u = "https")) && bool_decide (u_Opaque u = "")
  && bool_decide (u_User u = None) && negb (bool_decide (u_Host u = "")) && bool_decide (u_Path u = "") && negb (u_OmitHost u)
  && negb (u_ForceQuery u)
  && forallb host_char (bytes (u_Host u)) && bool_decide (escape encodeHost (bytes (u_Host u)) = bytes (u_Host u))
  && bool_decide (parseHost (bytes (u_Host u)) = Some (bytes (u_Host u))).

Lemma cut_absent c l : c ∉ l → cut c l = (l, [], false).
Proof.
  induction l as [|d l IH]; [done|]. rewrite not_elem_of_cons. intros [Hd Hl]. cbn [cut]. rewrite bool_decide_eq_false_2 by congruence.
  by rewrite IH.
Qed.
Lemma cut_first c l k : c ∉ l → cut c (l ++ c :: k) = (l, k, true).
Proof.
  induction l as [|d l IH]; cbn [app cut]; [by rewrite bool_decide_eq_true_2|]. rewrite not_elem_of_cons. intros [Hd Hl].
  rewrite bool_decide_eq_false_2 by congruence. by rewrite IH.
Qed.
Lemma last_index_absent c l : c ∉ l → last_index c l = None.
Proof.
  induction l as [|d l IH]; [done|]. rewrite not_elem_of_cons. intros [Hd Hl]. cbn [last_index]. rewrite IH by done.
  by rewrite bool_decide_eq_false_2 by congruence.
Qed.
Lemma not_char (P : ascii → bool) c l : Forall (λ c, P c = true) l → P c = false → c ∉ l.
Proof. intros H Hc Hin. rewrite Forall_forall in H. specialize (H c Hin). congruence. Qed.

Lemma parse_text scheme host path :
  scheme = "http" ∨ scheme = "https" → Forall (λ c, host_char c = true) host → parseHost host = Some host →
  path = [] ∨ head path = Some "/"%char →
  let text := bytes scheme ++ bytes "://" ++ host ++ escape encodePath path in
  url_Parse (of_bytes text) = Some {| u_Scheme := scheme; u_Opaque := ""; u_User := None; u_Host := of_bytes host;
    u_Path := of_bytes path; u_OmitHost := false; u_ForceQuery := false; u_RawQuery := ""; u_Fragment := "" |}.
Proof.
  intros Hs Hh Hp Hpath text. unfold url_Parse. rewrite bytes_of_bytes.
  assert (Forall (λ c, path_char c = true) host) as Hh'.
  { eapply Forall_impl; [exact Hh|]. unfold host_char. intros c. rewrite !andb_true_iff. tauto. }
  assert (Hrest : Forall (λ c, path_char c = true) (host ++ escape encodePath path)).
  { apply Forall_app. split; [done|apply escape_chars]. }
  assert (Htext : Forall (λ c, path_char c = true) text).
  { apply Forall_app. split; [by destruct Hs as [-> | ->]; repeat constructor|]. apply Forall_app. split; [by repeat constructor|done]. }
  rewrite (cut_absent "#"%char) by (by eapply not_char). cbv beta iota.
  assert (parse text = Some {| u_Scheme := scheme; u_Opaque := ""; u_User := None; u_Host := of_bytes host;
    u_Path := of_bytes path; u_OmitHost := false; u_ForceQuery := false; u_RawQuery := ""; u_Fragment := "" |}) as ->;
    [|done].
  unfold parse. assert (existsb is_control text = false) as ->.
  { apply not_true_iff_false. rewrite existsb_exists. intros (c & Hc & Hctl). rewrite Forall_forall in Htext.
    specialize (Htext c (proj2 (list_elem_of_In _ _) Hc)). unfold path_char in Htext. by rewrite Hctl in Htext. }
  rewrite bool_decide_eq_false_2 by (unfold text; destruct Hs as [-> | ->]; discriminate).
  assert (getScheme text = Some (bytes scheme, bytes "//" ++ host ++ escape encodePath path)) as ->
    by (unfold text; destruct Hs as [-> | ->]; reflexivity).
  assert (of_bytes (lower1 <$> bytes scheme) = scheme ∧ lower1 <$> bytes scheme ≠ []) as [Hlow Hne]
    by (destruct Hs as [-> | ->]; split; [reflexivity|discriminate|reflexivity|discriminate]).
  cbv zeta. rewrite cut_absent; [|rewrite elem_of_app; intros [?|?]; [by apply (bool_decide_eq_false_1 _) in H|]; revert H; by eapply not_char].
  change (prefixed "/" (bytes "//" ++ ?r)) with true. change (prefixed "//" (bytes "//" ++ ?r)) with true.
  cbn [negb andb]. rewrite (bool_decide_eq_false_2 (_ = [])) by done. cbn [negb orb andb].
  change (drop 2 (bytes "//" ++ ?r)) with r.
  assert ("/"%char ∉ host ∧ "@"%char ∉ host) as [H1 H2] by (split; by eapply (not_char host_char)).
  assert (cut "/"%char (host ++ escape encodePath path) =
    (host, drop 1 (escape encodePath path), negb (bool_decide (path = [])))) as ->.
  { destruct path as [|c path]; [by rewrite app_nil_r, cut_absent|]. destruct Hpath as [?|[= ->]]; [done|]. by apply cut_first. }
  cbv beta iota. unfold parseAuthority. rewrite last_index_absent, Hp by done. cbv beta iota.
  assert ((if negb (bool_decide (path = [])) then "/"%char :: drop 1 (escape encodePath path) else []) = escape encodePath path) as ->.
  { destruct path as [|c path]; [done|]. by destruct Hpath as [?|[= ->]]. }
  rewrite unescape_escape, Hlow. reflexivity.
Qed.

(** The locator of a path under a base is read back with that path. *)
Lemma resolved_text base path : base_ok base = true →
  URL_String {| u_Scheme := u_Scheme base; u_Opaque := u_Opaque base; u_User := u_User base; u_Host := u_Host base;
    u_Path := ("/" +:+ path)%string; u_OmitHost := u_OmitHost base; u_ForceQuery := u_ForceQuery base; u_RawQuery := ""; u_Fragment := "" |}
  = of_bytes (bytes (u_Scheme base) ++ bytes "://" ++ bytes (u_Host base) ++ escape encodePath ("/"%char :: bytes path)).
Proof.
  unfold base_ok. rewrite !andb_true_iff, !negb_true_iff, !bool_decide_eq_true, bool_decide_eq_false.
  intros [[[[[[[[[Hs Ho] Hu] Hh] Hp] Hoh] Hf] Hc] He] _]. apply bytes_inj. rewrite bytes_of_bytes.
  unfold URL_String. cbn [u_Scheme u_Opaque u_User u_Host u_Path u_OmitHost u_ForceQuery u_RawQuery u_Fragment].
  assert (u_Scheme base ≠ "") as Hs0.
  { intros E. rewrite E in Hs. by vm_compute in Hs. }
  rewrite Ho, Hu, Hoh, Hf. rewrite (bool_decide_eq_false_2 (u_Scheme base = "")), (bool_decide_eq_false_2 (u_Host base = "")) by done.
  cbn [negb andb orb]. rewrite !(bool_decide_eq_true_2 ("" = "")) by done. cbn [negb orb andb].
  unfold EscapedPath. cbn [u_Path]. rewrite (bool_decide_eq_false_2 (("/" +:+ path)%string = "*")) by done.
  assert (HasPrefix (escape_string encodePath ("/" +:+ path)%string) "/" = true) as ->.
  { change (escape_string encodePath ("/" +:+ path)%string) with (String "/"%char (escape_string encodePath path)).
    unfold HasPrefix. cbn [String.prefix]. by destruct (ascii_dec _ _), (escape_string encodePath path). }
  rewrite andb_false_r. cbn [andb].
  assert (escape_string encodeHost (u_Host base) = u_Host base) as -> by (unfold escape_string; by rewrite He, of_bytes_bytes).
  rewrite (bool_decide_eq_false_2 (_ = "")) by (destruct (u_Scheme base); done).
  cbn [andb user_String]. unfold escape_string. rewrite !bytes_app, bytes_of_bytes. cbn [app].
  change (bytes "") with (@nil ascii). rewrite app_nil_r. change (bytes "/") with ["/"%char]. cbn [app].
  by rewrite <- !app_assoc.
Qed.

Lemma resolved_parse base path : base_ok base = true →
  url_Parse (URL_String {| u_Scheme := u_Scheme base; u_Opaque := u_Opaque base; u_User := u_User base; u_Host := u_Host base;
    u_Path := ("/" +:+ path)%string; u_OmitHost := u_OmitHost base; u_ForceQuery := u_ForceQuery base; u_RawQuery := ""; u_Fragment := "" |})
  = Some {| u_Scheme := u_Scheme base; u_Opaque := ""; u_User := None; u_Host := u_Host base; u_Path := ("/" +:+ path)%string;
            u_OmitHost := false; u_ForceQuery := false; u_RawQuery := ""; u_Fragment := "" |}.
Proof.
  intros Hb. rewrite resolved_text by done. unfold base_ok in Hb.
  rewrite !andb_true_iff, orb_true_iff, !bool_decide_eq_true in Hb.
  destruct Hb as [[[[[[[[[Hs _] _] _] _] _] _] Hc] _] Hp]. rewrite parse_text; [|done| |done|by right].
  - rewrite of_bytes_bytes. do 2 f_equal. apply bytes_inj. by rewrite bytes_of_bytes.
  - rewrite forallb_forall in Hc. apply Forall_forall. intros c Hin. by apply Hc, list_elem_of_In.
Qed.
