(* ===== verification/Client.v ===== *)
(** * The clients of the control API

    [internal/control/client.go], [room_client.go], [admin_client.go] and
    [events.go].  [HTTPClient.Do] and the WebSocket dialer are arguments: functions
    on a world [W] that give an answer or an error.  The body of an answer is the
    bytes it has and the error its reading ends with, if any. *)

From Stdlib Require Import Ascii.
From S2P Require Import Prelude GoStd Crypto Model Auth Handler NetURL NetIP Json TimeFmt Wire Ipc Service DataPlane.

Open Scope Z_scope.

Definition defaultControlResponseLimit : Z := Z.shiftl 1 20.

Record Client := { cl_BaseURL : option URL; cl_Token : string; cl_UserAgent : string; cl_MaxResponseBytes : Z }.

Definition with_Path (u : URL) (path : string) : URL :=
  {| u_Scheme := u_Scheme u; u_Opaque := u_Opaque u; u_User := u_User u; u_Host := u_Host u; u_Path := path;
     u_OmitHost := u_OmitHost u; u_ForceQuery := u_ForceQuery u; u_RawQuery := u_RawQuery u; u_Fragment := u_Fragment u |}.

Definition NewClient (baseURL : string) : result Client :=
  match url_Parse (TrimSpace baseURL) with
  | None => Err (EWrap ErrInvalidClient)
  | Some u =>
    if bool_decide (u_Host u = "") || negb (bool_decide (u_Scheme u = "http") || bool_decide (u_Scheme u = "https"))
    then Err (EWrap ErrInvalidClient)
    else Ok {| cl_BaseURL := Some (with_Path u (TrimRightSlash (u_Path u))); cl_Token := ""; cl_UserAgent := "ipv6mesh-client/0.1";
               cl_MaxResponseBytes := defaultControlResponseLimit |}
  end.

Definition resolveURL (base : URL) (path : string) : URL :=
  {| u_Scheme := u_Scheme base; u_Opaque := u_Opaque base; u_User := u_User base; u_Host := u_Host base;
     u_Path := (TrimRightSlash (u_Path base) +:+ "/" +:+ of_bytes (drop_slashes (bytes path)))%string;
     u_OmitHost := u_OmitHost base; u_ForceQuery := u_ForceQuery base; u_RawQuery := ""; u_Fragment := "" |}.

Definition responseLimit (client : Client) : Z :=
  if cl_MaxResponseBytes client <=? 0 then defaultControlResponseLimit else cl_MaxResponseBytes client.

Definition contextError (ctx : Context) : option error :=
  match ctx with
  | nilContext => Some (ESentinel Canceled)
  | doneContext e => Some (ESentinel e)
  | liveContext => None
  end.

(** ** Answers *)
Record ClientRequest := {
  cq_Method : string; cq_URL : string; cq_Authorization : option string; cq_UserAgent : option string; cq_Body : option (list ascii)
}.
Record ClientResponse := { cs_Status : Z; cs_Body : list ascii; cs_ReadError : option error }.

(** [io.ReadAll] of a reader limited to one byte more than [limit]. *)
Definition read_limited (limit : Z) (r : ClientResponse) : result (list ascii) :=
  if limit <? Z.of_nat (length (cs_Body r)) then Ok (take (Z.to_nat (limit + 1)) (cs_Body r))
  else match cs_ReadError r with Some e => Err e | None => Ok (cs_Body r) end.

Definition invalid_response {A} : result A := Err (EWrap ErrControlInvalidResponse).

Definition decodeStrictJSONBytes {A} (c : codec A) (data : list ascii) : result A :=
  match decode_one data with
  | None => invalid_response
  | Some (v, rest) =>
    match into c v (zero c) with
    | None => invalid_response
    | Some a => if bool_decide (skip_space rest = []) then Ok a else invalid_response
    end
  end.

Definition decodeLimitedJSON {A} (r : ClientResponse) (limit : Z) (c : codec A) : result A :=
  let limit := if limit <=? 0 then defaultControlResponseLimit else limit in
  match read_limited limit r with
  | Err _ => invalid_response
  | Ok data => if limit <? Z.of_nat (length data) then invalid_response else decodeStrictJSONBytes c data
  end.

(** The code of an error body; [json.Unmarshal] passes over unknown fields. *)
Definition error_code (body : list ascii) : string :=
  match decode_text body with
  | Some (JObject ms) => default "" (fld c_string ["error"] "error" ms "")
  | _ => ""
  end.
Definition httpError (client : Client) (r : ClientResponse) : error :=
  let limit := responseLimit client in
  match read_limited limit r with
  | Err e => e
  | Ok body => EHTTP (cs_Status r) (if Z.of_nat (length body) <=? limit then error_code body else "")
  end.

(** ** From the wire *)
Definition nodeFromWire (v : nodeWireResponse) : Node :=
  {| nd_ID := ao_ID v; nd_DisplayName := ao_DisplayName v; nd_PublicKey := ao_PublicKey v; nd_Platform := ao_Platform v;
     nd_ClientVersion := ao_ClientVersion v; nd_LastSeen := ao_LastSeen v |}.
Definition membershipFromWire (v : membershipWireResponse) : Membership :=
  {| mb_NetworkID := am_NetworkID v; mb_NodeID := am_NodeID v; mb_VirtualIPv4 := am_VirtualIPv4 v; mb_Role := am_Role v;
     mb_Status := am_Status v |}.
Definition networkFromWire (v : networkWireResponse) : Network :=
  {| nw_ID := an_ID v; nw_Name := an_Name v; nw_IPv4Pool := if bool_decide (an_IPv4Pool v = "") then an_Pool v else an_IPv4Pool v;
     nw_OwnerID := an_OwnerID v; nw_ConfigVersion := an_ConfigVersion v; nw_CreatedAt := an_CreatedAt v |}.
Definition endpointFromWire (v : endpointWireResponse) : EndpointCandidate :=
  {| ep_NodeID := ae_NodeID v; ep_Address := ae_Address v; ep_Port := ae_Port v; ep_Family := ae_Family v;
     ep_Interface := ae_Interface v; ep_Priority := ae_Priority v; ep_ObservedAt := ae_ObservedAt v |}.
Definition relayFromWire (v : relayWireResponse) : RelayAssignment :=
  {| ra_ID := ar_ID v; ra_NetworkID := ar_NetworkID v; ra_NodeID := ar_NodeID v; ra_RelayNodeID := ar_RelayNodeID v;
     ra_Address := ar_Address v; ra_Port := ar_Port v; ra_Family := ar_Family v; ra_Status := ar_Status v;
     ra_AssignedAt := ar_AssignedAt v; ra_ExpiresAt := ar_ExpiresAt v |}.
Definition peerFromWire (v : peerWireResponse) : Model.Peer :=
  {| pr_NodeID := ap_NodeID v; pr_DisplayName := ap_DisplayName v; pr_PublicKey := ap_PublicKey v; pr_VirtualIPv4 := ap_VirtualIPv4 v;
     pr_Node := nodeFromWire (ap_Node v); pr_Membership := membershipFromWire (ap_Membership v);
     pr_Endpoints := endpointFromWire <$> ap_Endpoints v |}.

Definition snapshotFromWire (v : snapshotWireResponse) : result NetworkSnapshot :=
  if blank (as_NetworkID v) || (as_Generation v <=? 0) || blank (as_LocalNodeID v) || is_nil (To4 (as_LocalVirtualIPv4 v))
  then invalid_response
  else Ok {| sn_NetworkID := as_NetworkID v; sn_Generation := as_Generation v; sn_ConfigVersion := as_ConfigVersion v;
             sn_LocalNodeID := as_LocalNodeID v; sn_LocalVirtualIPv4 := as_LocalVirtualIPv4 v;
             sn_Peers := peerFromWire <$> as_Peers v; sn_RelayAssignment := relayFromWire <$> as_RelayAssignment v; sn_Relay := None;
             sn_GeneratedAt := as_GeneratedAt v |}.

Definition enrollmentResultFromWire (v : enrollmentWireResponse) : result EnrollmentResult :=
  if bool_decide (Handler.er_SessionToken v = "") || bool_decide (ao_ID (Handler.er_Node v) = "")
     || bool_decide (am_NetworkID (Handler.er_Membership v) = "") || bool_decide (an_ID (Handler.er_Network v) = "")
  then invalid_response
  else Ok {| er_Node := nodeFromWire (Handler.er_Node v); er_Membership := membershipFromWire (Handler.er_Membership v);
             er_Network := networkFromWire (Handler.er_Network v);
             er_Session := {| se_Subject := ax_Subject (Handler.er_Session v); se_Role := RoleNode;
                              se_NetworkID := ax_NetworkID (Handler.er_Session v); se_ExpiresAt := ax_ExpiresAt (Handler.er_Session v) |};
             er_SessionToken := Handler.er_SessionToken v |}.

(** ** Calls *)
Definition string_map (fields : list (string * string)) : json := JObject ((λ '(k, v), (k, JString v)) <$> fields).

Definition heartbeat_endpoint (address observed : string) (e : EndpointCandidate) : json :=
  JObject [("address", JString address); ("port", JNumber (FormatInt (ep_Port e))); ("family", JString (ep_Family e));
           ("interface", JString (ep_Interface e)); ("priority", JNumber (FormatInt (ep_Priority e))); ("observed_at", JString observed)].

Section Calls.
Context {W : Type}.
Variable Do : ClientRequest → M W ClientResponse.
(** [time.Parse] on texts that are not RFC 3339, and [Time.Format] on years that
    do not have four digits. *)
Variable lenient : string → option Time.
Variable beyond : Time → string.
Variable client : Client.

(** [destination] is what decodes the body, [None] for a nil destination. *)
Definition doJSONWithAuth {A} (ctx : Context) (method path token : string) (payload : option json) (destination : option (codec A))
    (useDefaultToken : bool) : M W (option A) :=
  match cl_BaseURL client with
  | None => throw ErrInvalidClient
  | Some base =>
    check (contextError ctx);;
    let token := if useDefaultToken && bool_decide (token = "") then cl_Token client else token in
    let url := URL_String (resolveURL base path) in
    match url_Parse url with
    | None => throw (EURL (EForeign 0))
    | Some _ =>
      let! response := Do {|
        cq_Method := method; cq_URL := url;
        cq_Authorization := if bool_decide (token = "") then None else Some ("Bearer " +:+ token)%string;
        cq_UserAgent := if bool_decide (cl_UserAgent client = "") then None else Some (cl_UserAgent client);
        cq_Body := print <$> payload |} in
      if (cs_Status response <? 200) || (300 <=? cs_Status response) then throw (httpError client response)
      else match destination with
      | None => ret None
      | Some c => match decodeLimitedJSON response (responseLimit client) c with Ok a => ret (Some a) | Err e => throw e end
      end
    end
  end.
Definition doJSON {A} ctx method path token payload (c : codec A) : M W A :=
  let! r := doJSONWithAuth ctx method path token payload (Some c) true in ret (default (zero c) r).
Definition doJSONNoAuth {A} ctx method path payload (c : codec A) : M W A :=
  let! r := doJSONWithAuth ctx method path "" payload (Some c) false in ret (default (zero c) r).
(** [doJSON] with a nil destination. *)
Definition doJSONNoBody ctx method path token payload : M W unit :=
  doJSONWithAuth ctx method path token payload (None : option (codec unit)) true;; ret tt.

Definition Join (ctx : Context) (r : APIJoinRequest) : M W EnrollmentResult :=
  let! response := doJSON ctx "POST" "/v1/enrollments" "" (Some (string_map
    [("client_version", aj_ClientVersion r); ("display_name", aj_DisplayName r); ("invite", aj_Invite r); ("node_id", aj_NodeID r);
     ("platform", aj_Platform r); ("public_key", aj_PublicKey r)])) (c_enrollment lenient) in
  lift (enrollmentResultFromWire response).

Definition JoinRoom (ctx : Context) (r : RoomJoinRequest) : M W EnrollmentResult :=
  if blank (rj_DisplayName r) || blank (rj_PublicKey r) || blank (rj_Platform r) || blank (rj_ClientVersion r)
  then throw ErrValidation
  else
    let! response := doJSONNoAuth ctx "POST" "/v1/room/join" (Some (string_map
      [("client_version", rj_ClientVersion r); ("display_name", rj_DisplayName r); ("platform", rj_Platform r);
       ("public_key", rj_PublicKey r)])) (c_enrollment lenient) in
    lift (enrollmentResultFromWire response).

Definition Format (t : Time) : string := match FormatRFC3339 t with Some s => s | None => beyond t end.

(** The candidates as they are sent; [now] is the clock. *)
Definition completed (nodeID : string) (now : Time) (e : EndpointCandidate) : EndpointCandidate :=
  {| ep_NodeID := if bool_decide (ep_NodeID e = "") then nodeID else ep_NodeID e; ep_Address := ep_Address e; ep_Port := ep_Port e;
     ep_Family := ep_Family e; ep_Interface := ep_Interface e; ep_Priority := ep_Priority e;
     ep_ObservedAt := if IsZero (ep_ObservedAt e) then now else ep_ObservedAt e |}.
Fixpoint wire_endpoints (nodeID : string) (now : Time) (l : list EndpointCandidate) : result (list json) :=
  match l with
  | [] => Ok []
  | e :: l =>
    let e := completed nodeID now e in
    match ValidateEndpointCandidate e with
    | Some err => Err err
    | None =>
      match wire_endpoints nodeID now l with
      | Ok js => Ok (heartbeat_endpoint (IP_String (ep_Address e)) (Format (ep_ObservedAt e)) e :: js)
      | Err err => Err err
      end
    end
  end.

Definition Heartbeat (now : Time) (ctx : Context) (networkID nodeID sessionToken clientVersion : string)
    (endpoints : list EndpointCandidate) : M W unit :=
  if blank networkID || blank nodeID || blank sessionToken then throw ErrValidation
  else match wire_endpoints nodeID now endpoints with
  | Err e => throw e
  | Ok js =>
    let version := if bool_decide (clientVersion = "") then [] else [("client_version", JString clientVersion)] in
    doJSONNoBody ctx "POST" ("/v1/nodes/" +:+ PathEscape nodeID +:+ "/heartbeat")%string sessionToken
      (Some (JObject (("endpoints", JArray js) :: version)))
  end.

Definition Leave (ctx : Context) (networkID nodeID sessionToken : string) : M W unit :=
  if blank networkID || blank nodeID || blank sessionToken then throw ErrValidation
  else doJSONNoBody ctx "POST" ("/v1/nodes/" +:+ PathEscape nodeID +:+ "/leave")%string sessionToken None.

Definition Snapshot (ctx : Context) (networkID sessionToken : string) : M W NetworkSnapshot :=
  if blank networkID || blank sessionToken then throw ErrValidation
  else
    let! response := doJSON ctx "GET" ("/v1/networks/" +:+ PathEscape networkID +:+ "/snapshot")%string sessionToken None
                       (c_snapshot lenient) in
    if negb (bool_decide (as_NetworkID response = networkID)) then throw (EWrap ErrControlInvalidResponse)
    else lift (snapshotFromWire response).

Definition CreateRoom (ctx : Context) (name pool token : string) : M W Network :=
  if blank name || blank pool then throw ErrValidation
  else
    let! response := doJSON ctx "POST" "/v1/room" token (Some (string_map [("ipv4_pool", pool); ("name", name)])) (c_network lenient) in
    if bool_decide (an_ID response = "") || (blank (an_IPv4Pool response) && blank (an_Pool response))
    then throw (EWrap ErrControlInvalidResponse) else ret (networkFromWire response).

Definition CreateNetworkWithID (ctx : Context) (name pool networkID token : string) : M W Network :=
  if blank name || blank pool then throw ErrValidation
  else
    let body := if blank networkID then [("name", name); ("pool", pool)] else [("id", TrimSpace networkID); ("name", name); ("pool", pool)] in
    let! response := doJSON ctx "POST" "/v1/networks" token (Some (string_map body)) (c_network lenient) in
    if bool_decide (an_ID response = "") then throw (EWrap ErrControlInvalidResponse) else ret (networkFromWire response).
Definition CreateNetwork (ctx : Context) (name pool token : string) : M W Network := CreateNetworkWithID ctx name pool "" token.

Definition CreateInvite (ctx : Context) (networkID expiresIn token : string) : M W inviteResponse :=
  if blank networkID || blank expiresIn then throw ErrValidation
  else
    let! response := doJSON ctx "POST" ("/v1/networks/" +:+ PathEscape networkID +:+ "/invites")%string token
                       (Some (string_map [("expires_in", expiresIn)])) (c_invite lenient) in
    if bool_decide (ai_InviteID response = "") || negb (bool_decide (ai_NetworkID response = networkID)) || bool_decide (ai_Token response = "")
    then throw (EWrap ErrControlInvalidResponse) else ret response.

End Calls.

(** ** Events *)
Record Event := { ev_Type : string; ev_Snapshot : option NetworkSnapshot }.

Section Events.
Variable lenient : string → option Time.

Definition envelope_names : list string := ["type"; "snapshot"].
Definition c_envelope : codec (string * option snapshotWireResponse) := {|
  zero := ("", None);
  to_json a := encode_object
    [("type", to_json c_string a.1); ("snapshot", to_json (c_ptr (c_snapshot lenient)) a.2)];
  into j p := object envelope_names (λ ms,
    type ← fld c_string envelope_names "type" ms p.1;
    snapshot ← fld (c_ptr (c_snapshot lenient)) envelope_names "snapshot" ms p.2;
    Some (type, snapshot)) j p
|}.

Definition decodeLimitedJSONBytes {A} (data : list ascii) (c : codec A) : result A :=
  if bool_decide (data = []) then invalid_response else decodeStrictJSONBytes c data.

Definition DecodeEvent (data : list ascii) : result Event :=
  match decodeLimitedJSONBytes data c_envelope with
  | Err e => Err e
  | Ok (type, snapshot) =>
    match snapshot with
    | None => invalid_response
    | Some s =>
      if negb (bool_decide (type = "snapshot")) then invalid_response
      else match snapshotFromWire s with
      | Err e => Err e
      | Ok s => Ok {| ev_Type := type; ev_Snapshot := Some s |}
      end
    end
  end.
End Events.

Definition Millisecond : Duration := 1000000.
Record WatchOptions := { wo_InitialBackoff : Duration; wo_MaxBackoff : Duration; wo_MaxMessageBytes : Z }.

Definition watch_defaults (o : WatchOptions) : WatchOptions :=
  let initial := if wo_InitialBackoff o <=? 0 then 250 * Millisecond else wo_InitialBackoff o in
  {| wo_InitialBackoff := initial;
     wo_MaxBackoff := if wo_MaxBackoff o <? initial then 10 * Second else wo_MaxBackoff o;
     wo_MaxMessageBytes := if wo_MaxMessageBytes o <=? 0 then defaultControlResponseLimit else wo_MaxMessageBytes o |}.

(** Durations are 64-bit: the subtraction and the doubling may wrap. *)
Definition nextBackoff (current maximum : Duration) : Duration :=
  if (Z.quot maximum 2 <=? current) || (wrap64 (maximum - current) <? current) then maximum else wrap64 (current * 2).

Fixpoint as_HTTPError (e : error) : option Z :=
  match e with
  | EHTTP status _ => Some status
  | EURL e | EWrap e => as_HTTPError e
  | EJoin a b => match as_HTTPError a with Some s => Some s | None => as_HTTPError b end
  | _ => None
  end.
Definition watchRetryable (err : error) : bool :=
  match as_HTTPError err with Some s => negb ((s =? 401) || (s =? 403) || (s =? 404) || (s =? 409)) | None => true end.

(** [Events]: what the dialer gives is a connection, an HTTP answer that refuses
    the upgrade, or an error. *)
Inductive dialed (C : Type) := Upgraded (c : C) | Refused (status : Z) | DialFailed (e : error).
Arguments Upgraded {C} c. Arguments Refused {C} status. Arguments DialFailed {C} e.

Definition Events {W C} (Dial : string → string → W → dialed C * W) (client : Client) (ctx : Context) (networkID sessionToken : string) : M W C :=
  if blank networkID || blank sessionToken then throw ErrValidation
  else match cl_BaseURL client with
  | None => throw ErrInvalidClient
  | Some base =>
    check (contextError ctx);;
    let url := resolveURL base "/v1/events" in
    let scheme :=
      if bool_decide (u_Scheme url = "http") then Some "ws" else if bool_decide (u_Scheme url = "https") then Some "wss"
      else if bool_decide (u_Scheme url = "ws") || bool_decide (u_Scheme url = "wss") then Some (u_Scheme url) else None in
    match scheme with
    | None => throw (EWrap ErrInvalidClient)
    | Some scheme => λ w,
      let text := URL_String {| u_Scheme := scheme; u_Opaque := u_Opaque url; u_User := u_User url; u_Host := u_Host url;
        u_Path := u_Path url; u_OmitHost := u_OmitHost url; u_ForceQuery := u_ForceQuery url; u_RawQuery := u_RawQuery url;
        u_Fragment := u_Fragment url |} in
      match Dial text ("Bearer " +:+ sessionToken)%string w with
      | (Upgraded c, w) => (Ok c, w)
      | (Refused status, w) => (Err (EHTTP status ""), w)
      | (DialFailed e, w) => (Err e, w)
      end
    end
  end.

(** What happens to a watch: the outcome of [Events]; for a connection, what the
    context says before each read and the message read, and what it says before the
    read that fails; what the context says after the connection and how the wait
    ends. *)
Record Connection := { cn_messages : list (option error * list ascii); cn_last : option error }.
Record Attempt := { at_ctx : option error; at_dial : result Connection; at_after : option error; at_wait : option error }.

Section Watch.
Context {W : Type}.
Variable lenient : string → option Time.
Variable networkID : string.
Variable onSnapshot : NetworkSnapshot → M W unit.
Variable options : WatchOptions.

(** The reads on one connection: the error the watch returns with, or whether a
    snapshot was received and the backoff. *)
Fixpoint read_messages (l : list (option error * list ascii)) (last : option error) (received : bool) (backoff : Duration) (w : W)
    : (error + bool * Duration) * W :=
  match l with
  | [] => match last with Some e => (inl e, w) | None => (inr (received, backoff), w) end
  | (Some e, _) :: _ => (inl e, w)
  | (None, message) :: l =>
    match DecodeEvent lenient message with
    | Err e => (inl e, w)
    | Ok event =>
      match ev_Snapshot event with
      | None => (inl (EWrap ErrControlInvalidResponse), w)
      | Some s =>
        if negb (bool_decide (sn_NetworkID s = networkID)) then (inl (EWrap ErrControlInvalidResponse), w)
        else match onSnapshot s w with
        | (Err e, w) => (inl e, w)
        | (Ok _, w) => read_messages l last true (wo_InitialBackoff options) w
        end
      end
    end
  end.

(** The loop over the attempts, with the waits it makes; [None] while it runs. *)
Fixpoint watch_loop (script : list Attempt) (backoff : Duration) (w : W) : option error * list Duration * W :=
  match script with
  | [] => (None, [], w)
  | a :: script =>
    match at_ctx a with
    | Some e => (Some e, [], w)
    | None =>
      match at_dial a with
      | Err e =>
        if negb (watchRetryable e) then (Some e, [], w)
        else match at_wait a with
        | Some e => (Some e, [backoff], w)
        | None => let '(r, waits, w) := watch_loop script (nextBackoff backoff (wo_MaxBackoff options)) w in (r, backoff :: waits, w)
        end
      | Ok c =>
        match read_messages (cn_messages c) (cn_last c) false backoff w with
        | (inl e, w) => (Some e, [], w)
        | (inr (received, backoff), w) =>
          match at_after a with
          | Some e => (Some e, [], w)
          | None =>
            let backoff := if received then backoff else nextBackoff backoff (wo_MaxBackoff options) in
            match at_wait a with
            | Some e => (Some e, [backoff], w)
            | None => let '(r, waits, w) := watch_loop script backoff w in (r, backoff :: waits, w)
            end
          end
        end
      end
    end
  end.
End Watch.

Definition WatchWithOptions {W} lenient (networkID : string) (onSnapshot : option (NetworkSnapshot → M W unit)) (options : WatchOptions)
    (script : list Attempt) (w : W) : option error * list Duration * W :=
  match onSnapshot with
  | None => (Some (ESentinel ErrInvalidClient), [], w)
  | Some f => let o := watch_defaults options in watch_loop lenient networkID f o script (wo_InitialBackoff o) w
  end.
Definition Watch {W} lenient networkID (onSnapshot : option (NetworkSnapshot → M W unit)) script w :=
  WatchWithOptions lenient networkID onSnapshot {| wo_InitialBackoff := 0; wo_MaxBackoff := 0; wo_MaxMessageBytes := 0 |} script w.
