(* ===== verification/Link.v ===== *)
(** * The client and the server put together

    What a request of the client is for the handler, and what an answer of the
    handler is for the client: the bodies as the structs of
    [internal/control/http.go] and [room.go] encode and decode them, the path as
    [net/http] gives it to the handler.  An answer that cannot be encoded has an
    empty body, since [writeJSON] drops the error after the header. *)

From Stdlib Require Import Ascii.
From S2P Require Import Prelude GoStd Crypto Model Auth Interface Handler NetURL NetIP Json TimeFmt Wire Client.

Open Scope Z_scope.

(** ** Bodies of requests *)

(** The decoder of [decodeJSON] on a body that is within the limit. *)
Definition decode_body {A} (names : list string) (zero : A) (build : list (string * json) → A → option A) (body : list ascii) : decoded A :=
  match decode_one body with
  | None => DecodeInvalid
  | Some (v, rest) =>
    match object names (λ ms, build ms zero) v zero with
    | None => DecodeInvalid
    | Some a => Decoded a (negb (bool_decide (skip_space rest = [])))
    end
  end.

Definition network_body : list ascii → decoded networkBody :=
  let names := ["id"; "name"; "pool"] in
  decode_body names {| bn_ID := ""; bn_Name := ""; bn_Pool := "" |} (λ ms p,
    id ← fld c_string names "id" ms (bn_ID p);
    name ← fld c_string names "name" ms (bn_Name p);
    pool ← fld c_string names "pool" ms (bn_Pool p);
    Some {| bn_ID := id; bn_Name := name; bn_Pool := pool |}).

Definition invite_body : list ascii → decoded string :=
  decode_body ["expires_in"] "" (λ ms p, fld c_string ["expires_in"] "expires_in" ms p).

Definition enroll_names : list string := ["invite"; "node_id"; "display_name"; "public_key"; "platform"; "client_version"].
Definition enroll_body : list ascii → decoded enrollBody :=
  decode_body enroll_names
    {| be_Invite := ""; be_NodeID := ""; be_DisplayName := ""; be_PublicKey := ""; be_Platform := ""; be_ClientVersion := "" |} (λ ms p,
    invite ← fld c_string enroll_names "invite" ms (be_Invite p);
    node ← fld c_string enroll_names "node_id" ms (be_NodeID p);
    name ← fld c_string enroll_names "display_name" ms (be_DisplayName p);
    key ← fld c_string enroll_names "public_key" ms (be_PublicKey p);
    platform ← fld c_string enroll_names "platform" ms (be_Platform p);
    version ← fld c_string enroll_names "client_version" ms (be_ClientVersion p);
    Some {| be_Invite := invite; be_NodeID := node; be_DisplayName := name; be_PublicKey := key; be_Platform := platform;
            be_ClientVersion := version |}).

Definition heartbeat_names : list string := ["address"; "port"; "family"; "interface"; "priority"; "observed_at"].
Definition c_heartbeatEndpoint : codec heartbeatEndpoint := {|
  zero := {| he_Address := ""; he_Port := 0; he_Family := ""; he_Interface := ""; he_Priority := 0; he_ObservedAt := "" |};
  to_json a := encode_object
    [("address", to_json c_string (he_Address a)); ("port", to_json c_uint16 (he_Port a)); ("family", to_json c_string (he_Family a));
     ("interface", to_json c_string (he_Interface a)); ("priority", to_json c_int64 (he_Priority a));
     ("observed_at", to_json c_string (he_ObservedAt a))];
  into j p := object heartbeat_names (λ ms,
    address ← fld c_string heartbeat_names "address" ms (he_Address p);
    port ← fld c_uint16 heartbeat_names "port" ms (he_Port p);
    family ← fld c_string heartbeat_names "family" ms (he_Family p);
    interface ← fld c_string heartbeat_names "interface" ms (he_Interface p);
    priority ← fld c_int64 heartbeat_names "priority" ms (he_Priority p);
    observed ← fld c_string heartbeat_names "observed_at" ms (he_ObservedAt p);
    Some {| he_Address := address; he_Port := port; he_Family := family; he_Interface := interface; he_Priority := priority;
            he_ObservedAt := observed |}) j p
|}.
Definition heartbeat_body : list ascii → decoded heartbeatRequest :=
  let names := ["endpoints"; "client_version"] in
  decode_body names {| hb_Endpoints := []; hb_ClientVersion := None |} (λ ms p,
    endpoints ← fld (c_list c_heartbeatEndpoint) names "endpoints" ms (hb_Endpoints p);
    version ← fld (c_ptr c_string) names "client_version" ms (hb_ClientVersion p);
    Some {| hb_Endpoints := endpoints; hb_ClientVersion := version |}).

Definition room_body : list ascii → decoded roomBody :=
  let names := ["name"; "ipv4_pool"] in
  decode_body names {| br_Name := ""; br_Pool := "" |} (λ ms p,
    name ← fld c_string names "name" ms (br_Name p);
    pool ← fld c_string names "ipv4_pool" ms (br_Pool p);
    Some {| br_Name := name; br_Pool := pool |}).

Definition join_names : list string := ["public_key"; "display_name"; "platform"; "client_version"].
Definition join_body : list ascii → decoded joinBody :=
  decode_body join_names {| bj_PublicKey := ""; bj_DisplayName := ""; bj_Platform := ""; bj_ClientVersion := "" |} (λ ms p,
    key ← fld c_string join_names "public_key" ms (bj_PublicKey p);
    name ← fld c_string join_names "display_name" ms (bj_DisplayName p);
    platform ← fld c_string join_names "platform" ms (bj_Platform p);
    version ← fld c_string join_names "client_version" ms (bj_ClientVersion p);
    Some {| bj_PublicKey := key; bj_DisplayName := name; bj_Platform := platform; bj_ClientVersion := version |}).

(** A request as the handler gets it from a peer at [remote]. *)
Definition arrives (remote : string) (q : ClientRequest) : option HttpRequest :=
  match url_Parse (cq_URL q) with
  | None => None
  | Some u =>
    let body := default [] (cq_Body q) in
    Some {| hr_Method := cq_Method q; hr_Path := u_Path u; hr_Authorization := default "" (cq_Authorization q); hr_RemoteAddr := remote;
            hr_ContentLength := Z.of_nat (length body);
            hr_network := network_body body; hr_invite := invite_body body; hr_enroll := enroll_body body;
            hr_heartbeat := heartbeat_body body; hr_room := room_body body; hr_join := join_body body |}
  end.

(** ** Bodies of answers *)
Definition no_lenient : string → option Time := λ _, None.
Definition recovery_json (e : enrollmentResponse) : option json :=
  encode_object
    [("error", Some (JString "enrollment_recovery_pending")); ("retryable", Some (JBool true));
     ("node", to_json (c_node no_lenient) (er_Node e)); ("membership", to_json c_membership (er_Membership e));
     ("network", to_json (c_network no_lenient) (er_Network e)); ("session", to_json (c_session no_lenient) (er_Session e));
     ("session_token", to_json c_string (er_SessionToken e))].
(** [None] for an answer without a JSON body. *)
Definition payload_json (p : payload) : option (option json) :=
  match p with
  | PNone | PUpgrade _ => None
  | PError code => Some (Some (JObject [("error", JString code)]))
  | PNetwork n => Some (to_json (c_network no_lenient) n)
  | PInvite i => Some (to_json (c_invite no_lenient) i)
  | PEnrollment e => Some (to_json (c_enrollment no_lenient) e)
  | PRecovery e => Some (recovery_json e)
  | PSnapshot s => Some (to_json (c_snapshot no_lenient) s)
  end.
(** [Encode] ends a value with a newline. *)
Definition newline : ascii := "010"%char.
Definition json_body (j : option json) : list ascii := match j with Some j => print j ++ [newline] | None => [] end.
Definition answer (r : Response) : ClientResponse :=
  {| cs_Status := rp_Status r; cs_Body := match payload_json (rp_Payload r) with Some j => json_body j | None => [] end;
     cs_ReadError := None |}.

(** [HTTPClient.Do] with the handler at the other end. *)
Definition served {R} `{TransactionalRepository R} (h : Handler) (env : Env) (remote : string) (q : ClientRequest)
    : M (HState R) ClientResponse := λ s,
  match arrives remote q with
  | None => (Err (EURL (EForeign 0)), s)
  | Some request => let '(r, s) := ServeHTTP h env request s in (Ok (answer r), s)
  end.
