(* ===== verification/ClientThm.v ===== *)
(** * The clients of the control API: what they promise

    What the server answers is what the client decodes, and plans to the same
    configuration; calls over HTTP reach the handler with the identifiers they were
    made with; and the client keeps the promises the service relies on. *)

From Stdlib Require Import Ascii.
From S2P Require Import Prelude GoStd Crypto Model Repository RepositoryThm Snapshot Interface Auth Enrollment Room Handler HandlerThm HandlerEnroll NetURL NetIP NetIP6 Json TimeFmt Wire WireThm Wgnt Routes Reconcile ReconcileThm Ipc Service DataPlane ServiceThm SessionThm NetURLThm Client Link.

Open Scope Z_scope.

(** ** Decoding an answer *)
Lemma decode_sent {A} (c : codec A) h a b : sends c h a b → h ≤ maxNestingDepth →
  ∃ j, to_json c a = Some j ∧ decodeStrictJSONBytes c (print j ++ [newline]) = Ok b.
Proof.
  intros (j & Hj & Hok & Hh & Hd & _) Hn. exists j. split; [done|]. unfold decodeStrictJSONBytes.
  destruct (decode_print j [newline] Hok ltac:(lia) eq_refl) as [-> _]. by rewrite Hd.
Qed.

Definition fits (client : Client) (body : list ascii) : Prop := Z.of_nat (length body) ≤ responseLimit client.

Lemma responseLimit_pos client : 0 < responseLimit client.
Proof. unfold responseLimit, defaultControlResponseLimit. destruct (_ <=? 0) eqn:E; [vm_compute; reflexivity|lia]. Qed.

Lemma decodeLimitedJSON_answer {A} (c : codec A) client body status : fits client body →
  decodeLimitedJSON {| cs_Status := status; cs_Body := body; cs_ReadError := None |} (responseLimit client) c = decodeStrictJSONBytes c body.
Proof.
  unfold fits. intros Hf. pose proof (responseLimit_pos client). unfold decodeLimitedJSON, read_limited. cbn [cs_Body cs_ReadError].
  rewrite (proj2 (Z.leb_gt _ _)) by lia. rewrite (proj2 (Z.ltb_ge _ _)) by lia. by rewrite (proj2 (Z.ltb_ge _ _)) by lia.
Qed.

Lemma error_code_answer code : utf8 code = true → error_code (print (JObject [("error", JString code)]) ++ [newline]) = code.
Proof.
  intros Hu%utf8_clean. unfold error_code.
  destruct (decode_print (JObject [("error", JString code)]) [newline]) as [_ ->]; [done|by vm_compute|done|].
  cbn [clean List.map]. clean_constants. by rewrite Hu.
Qed.
Lemma httpError_answer client status code :
  utf8 code = true → fits client (print (JObject [("error", JString code)]) ++ [newline]) →
  httpError client (answer {| rp_Status := status; rp_Payload := PError code |}) = EHTTP status code.
Proof.
  unfold fits. intros Hu Hf. unfold httpError, read_limited, answer. cbn [cs_Body cs_ReadError cs_Status rp_Status rp_Payload payload_json json_body].
  rewrite (proj2 (Z.ltb_ge _ _)) by lia. rewrite (proj2 (Z.leb_le _ _)) by lia. by rewrite error_code_answer.
Qed.

(** ** The 16-byte form of addresses *)
Lemma To4_To16 ip : ip_ok ip → To4 (To16 ip) = To4 ip.
Proof.
  intros [->|[[Hl|Hl] Hb]]; [done| |by unfold To16; rewrite Hl].
  unfold To16. rewrite bool_decide_eq_true_2 by done. rewrite (To4_4 ip Hl). unfold To4, v4InV6Prefix.
  rewrite length_app, Hl. cbn [length]. rewrite bool_decide_eq_false_2, bool_decide_eq_true_2 by lia. done.
Qed.
Lemma is_nil_To16 ip : ip_ok ip → is_nil (To16 ip) = is_nil ip.
Proof.
  intros [->|[[Hl|Hl] _]]; [done|..]; unfold To16.
  - rewrite bool_decide_eq_true_2 by done. by destruct ip.
  - by rewrite bool_decide_eq_false_2, bool_decide_eq_true_2 by lia.
Qed.
Lemma IP_String_To16 ip : ip_ok ip → IP_String (To16 ip) = IP_String ip.
Proof.
  intros Hok. pose proof (To4_To16 ip Hok) as H4. destruct Hok as [->|[[Hl|Hl] Hb]]; [done| |by unfold To16; rewrite Hl].
  assert (length (To16 ip) = 16%nat) as H16 by (unfold To16; rewrite (bool_decide_eq_true_2 (length ip = 4%nat)) by done; by rewrite length_app, Hl).
  unfold IP_String. rewrite H4, (To4_4 ip Hl), H16, Hl.
  rewrite !(bool_decide_eq_false_2 (_ = [])); [done|by intros ->|by intros E; rewrite E in H16].
Qed.

(** ** A snapshot as the client gets it *)
Definition received_membership (m : Membership) : Membership :=
  {| mb_NetworkID := mb_NetworkID m; mb_NodeID := mb_NodeID m; mb_VirtualIPv4 := To16 (mb_VirtualIPv4 m); mb_Role := mb_Role m;
     mb_Status := mb_Status m |}.
Definition received_endpoint (e : EndpointCandidate) : EndpointCandidate :=
  {| ep_NodeID := ep_NodeID e; ep_Address := To16 (ep_Address e); ep_Port := ep_Port e; ep_Family := ep_Family e;
     ep_Interface := ep_Interface e; ep_Priority := ep_Priority e; ep_ObservedAt := ep_ObservedAt e |}.
Definition received_relay (a : RelayAssignment) : RelayAssignment :=
  {| ra_ID := ra_ID a; ra_NetworkID := ra_NetworkID a; ra_NodeID := ra_NodeID a; ra_RelayNodeID := ra_RelayNodeID a;
     ra_Address := To16 (ra_Address a); ra_Port := ra_Port a; ra_Family := ra_Family a; ra_Status := ra_Status a;
     ra_AssignedAt := ra_AssignedAt a; ra_ExpiresAt := ra_ExpiresAt a |}.
Definition received_peer (p : Model.Peer) : Model.Peer :=
  {| pr_NodeID := pr_NodeID p; pr_DisplayName := pr_DisplayName p; pr_PublicKey := pr_PublicKey p; pr_VirtualIPv4 := To16 (pr_VirtualIPv4 p);
     pr_Node := pr_Node p; pr_Membership := received_membership (pr_Membership p); pr_Endpoints := received_endpoint <$> pr_Endpoints p |}.
Definition received (s : NetworkSnapshot) : NetworkSnapshot :=
  {| sn_NetworkID := sn_NetworkID s; sn_Generation := sn_Generation s; sn_ConfigVersion := sn_ConfigVersion s;
     sn_LocalNodeID := sn_LocalNodeID s; sn_LocalVirtualIPv4 := To16 (sn_LocalVirtualIPv4 s); sn_Peers := received_peer <$> sn_Peers s;
     sn_RelayAssignment := received_relay <$> snapshot_relay_of s; sn_Relay := None; sn_GeneratedAt := sn_GeneratedAt s |}.

(** A snapshot with an identity, as [snapshotFromWire] demands it. *)
Definition identified (s : NetworkSnapshot) : bool :=
  negb (blank (sn_NetworkID s)) && (0 <? sn_Generation s) && negb (blank (sn_LocalNodeID s)) && negb (is_nil (To4 (sn_LocalVirtualIPv4 s))).

Lemma snapshotFromWire_received s : snapshot_ok (snapshotResponse s) →
  snapshotFromWire (snapshot16 (snapshotResponse s)) = if identified s then Ok (received s) else invalid_response.
Proof.
  intros (_ & _ & _ & _ & Hip & _). unfold snapshotFromWire, identified. cbn [snapshot16 snapshotResponse as_NetworkID as_Generation as_LocalNodeID
    as_LocalVirtualIPv4 as_ConfigVersion as_Peers as_RelayAssignment as_GeneratedAt] in *.
  rewrite To4_To16 by done. rewrite Z.leb_antisym.
  destruct (blank (sn_NetworkID s)), (0 <? sn_Generation s), (blank (sn_LocalNodeID s)), (is_nil (To4 (sn_LocalVirtualIPv4 s))); try done.
  cbn [negb orb andb]. do 2 f_equal. unfold received. f_equal.
  - rewrite <- !list_fmap_compose. apply list_fmap_ext. intros _ p _. unfold compose, peerFromWire, peer16, received_peer. cbn.
    f_equal; [by destruct (pr_Node p)|]. rewrite <- !list_fmap_compose. apply list_fmap_ext. by intros _ e _.
  - unfold snapshot_relay_of. destruct (sn_RelayAssignment s) as [r|]; [done|]. by destruct (sn_Relay s).
Qed.

(** ** It plans to the same configuration *)
Lemma endpoint_choice_received e : ip_ok (ep_Address e) → endpoint_choice (received_endpoint e) = endpoint_choice e.
Proof.
  intros Hok. unfold endpoint_choice. cbn [received_endpoint ep_Address ep_Port ep_ObservedAt ep_Priority ep_Family].
  by rewrite is_nil_To16, IP_String_To16 by done.
Qed.

Lemma candidates_received p relay : match relay with Some r => ip_ok (ra_Address r) | None => True end →
  endpoint_candidates (received_peer p) (received_relay <$> relay) = received_endpoint <$> endpoint_candidates p relay.
Proof.
  intros Hr. unfold endpoint_candidates. rewrite fmap_app. cbn [received_peer pr_Endpoints pr_NodeID]. f_equal.
  destruct relay as [r|]; [|done]. cbn [fmap option_fmap option_map received_relay ra_Status ra_RelayNodeID ra_Address ra_Port ra_Family ra_AssignedAt].
  rewrite is_nil_To16 by done. by destruct (_ && _).
Qed.

Lemma selectEndpoint_received p relay :
  Forall (λ e, ip_ok (ep_Address e)) (pr_Endpoints p) → match relay with Some r => ip_ok (ra_Address r) | None => True end →
  selectEndpoint (received_peer p) (received_relay <$> relay) = selectEndpoint p relay.
Proof.
  intros He Hr. unfold selectEndpoint. rewrite candidates_received by done.
  assert (omap endpoint_choice (received_endpoint <$> endpoint_candidates p relay) = omap endpoint_choice (endpoint_candidates p relay)) as ->; [|done].
  assert (Forall (λ e, ip_ok (ep_Address e)) (endpoint_candidates p relay)) as Hall.
  { unfold endpoint_candidates. apply Forall_app. split; [done|]. destruct relay as [r|]; [|constructor]. destruct (_ && _); [|constructor].
    apply Forall_singleton. done. }
  induction Hall as [|e l He' Hl IH]; [done|]. rewrite fmap_cons. cbn [omap list_omap]. rewrite endpoint_choice_received by done.
  destruct (endpoint_choice e); [f_equal|]; exact IH.
Qed.

Definition peer_addresses_ok (p : Model.Peer) : Prop := ip_ok (pr_VirtualIPv4 p) ∧ Forall (λ e, ip_ok (ep_Address e)) (pr_Endpoints p).

Lemma plan_peers_received o local lip relay peers ks as_ :
  Forall peer_addresses_ok peers → match relay with Some r => ip_ok (ra_Address r) | None => True end →
  plan_peers o local lip (received_relay <$> relay) ks as_ (received_peer <$> peers) = plan_peers o local lip relay ks as_ peers.
Proof.
  intros Hp Hr. revert ks as_. induction Hp as [|p l [Hip He] Hl IH]; intros ks as_; [done|]. rewrite fmap_cons. cbn [plan_peers].
  cbn [received_peer pr_NodeID pr_PublicKey pr_VirtualIPv4]. unfold ipv4Addr. rewrite To4_To16 by done.
  rewrite selectEndpoint_received by done. repeat (case_match; try done). all: rewrite IH in *; simplify_eq; try done; congruence.
Qed.

Lemma plan_received o s : snapshot_ok (snapshotResponse s) → plan o (received s) = plan o s.
Proof.
  intros (_ & _ & _ & _ & Hip & Hp & Hr & _). unfold plan. cbn [received sn_NetworkID sn_LocalNodeID sn_LocalVirtualIPv4 sn_Peers].
  cbn [snapshotResponse as_LocalVirtualIPv4 as_Peers as_RelayAssignment] in *.
  unfold ipv4Addr at 1. rewrite To4_To16 by done. fold (ipv4Addr (sn_LocalVirtualIPv4 s)).
  change (snapshot_relay_of (received s)) with (match received_relay <$> snapshot_relay_of s with Some r => Some r | None => None end).
  destruct (blank _ || blank _); [done|]. destruct (ipv4Addr (sn_LocalVirtualIPv4 s)); [|done].
  assert (match received_relay <$> snapshot_relay_of s with Some r => Some r | None => None end = received_relay <$> snapshot_relay_of s) as ->
    by (by destruct (snapshot_relay_of s)).
  rewrite plan_peers_received; [done| |].
  - rewrite Forall_fmap in Hp. eapply Forall_impl; [exact Hp|]. intros p (_ & _ & _ & H1 & _ & _ & H2). split; [done|].
    cbn in H2. rewrite Forall_fmap in H2. eapply Forall_impl; [exact H2|]. by intros e (_ & ? & _).
  - unfold snapshot_relay_of. destruct (sn_RelayAssignment s) as [r|]; [by destruct Hr as (_ & _ & _ & _ & ? & _)|].
    destruct (sn_Relay s); [by destruct Hr as (_ & _ & _ & _ & ? & _)|done].
Qed.

(** ** A call reaches the handler *)
Definition call_request (remote method path token : string) (body : list ascii) : HttpRequest :=
  {| hr_Method := method; hr_Path := path; hr_Authorization := if bool_decide (token = "") then "" else ("Bearer " +:+ token)%string;
     hr_RemoteAddr := remote; hr_ContentLength := Z.of_nat (length body); hr_network := network_body body; hr_invite := invite_body body;
     hr_enroll := enroll_body body; hr_heartbeat := heartbeat_body body; hr_room := room_body body; hr_join := join_body body |}.

Definition call_outcome {A} (client : Client) (r : Handler.Response) (c : option (codec A)) : result (option A) :=
  if (rp_Status r <? 200) || (300 <=? rp_Status r) then Err (httpError client (answer r))
  else match c with
  | None => Ok None
  | Some c => match decodeLimitedJSON (answer r) (responseLimit client) c with Ok a => Ok (Some a) | Err e => Err e end
  end.

Section Calls.
Context {R : Type} `{TransactionalRepository R}.
Variables (h : Handler) (env : Env) (remote : string) (client : Client) (base : URL).
Hypotheses (Hbase : cl_BaseURL client = Some base) (Hok : base_ok base = true).

Lemma resolveURL_v1 path : resolveURL base ("/v1/" +:+ path) =
  {| u_Scheme := u_Scheme base; u_Opaque := u_Opaque base; u_User := u_User base; u_Host := u_Host base;
     u_Path := ("/" +:+ ("v1/" +:+ path))%string; u_OmitHost := u_OmitHost base; u_ForceQuery := u_ForceQuery base; u_RawQuery := "";
     u_Fragment := "" |}.
Proof.
  unfold resolveURL. assert (u_Path base = "") as ->.
  { unfold base_ok in Hok. rewrite !andb_true_iff, !bool_decide_eq_true in Hok. tauto. }
  change (TrimRightSlash "") with "". f_equal. change (of_bytes (drop_slashes (bytes ("/v1/" +:+ path)%string))) with (of_bytes (bytes ("v1/" +:+ path)%string)).
  by rewrite of_bytes_bytes.
Qed.

Lemma served_call {A} method path token payload (c : option (codec A)) useDefault (s : HState R) :
  doJSONWithAuth (served h env remote) client liveContext method ("/v1/" +:+ path)%string token payload c useDefault s =
  let token := if useDefault && bool_decide (token = "") then cl_Token client else token in
  let '(r, s') := ServeHTTP h env (call_request remote method ("/v1/" +:+ path)%string token (from_option print [] payload)) s in
  (call_outcome client r c, s').
Proof.
  unfold doJSONWithAuth. rewrite Hbase. cbn [contextError]. rewrite bind_check. cbv zeta. rewrite resolveURL_v1.
  pose proof (resolved_parse base ("v1/" +:+ path)%string Hok) as Hp. rewrite Hp. cbv beta iota.
  set (tok := if useDefault && _ then _ else _). unfold bind at 1, served, arrives. cbn [cq_URL cq_Method cq_Authorization cq_Body]. rewrite Hp.
  cbn [u_Path]. change ("/" +:+ ("v1/" +:+ path))%string with ("/v1/" +:+ path)%string.
  assert (default [] (print <$> payload) = from_option print [] payload) as -> by (by destruct payload).
  assert (default "" (if bool_decide (tok = "") then None else Some ("Bearer " +:+ tok)%string) =
    if bool_decide (tok = "") then "" else ("Bearer " +:+ tok)%string) as -> by (clearbody tok; destruct (bool_decide (tok = "")); reflexivity).
  fold (call_request remote method ("/v1/" +:+ path)%string tok (from_option print [] payload)).
  destruct (ServeHTTP _ _ _ _) as [r s']. unfold call_outcome. cbn [answer cs_Status].
  destruct (_ || _); [done|]. destruct c; [|done]. by destruct (decodeLimitedJSON _ _ _).
Qed.

End Calls.

(** ** Bodies arrive as they were sent *)
Lemma decode_body_sent {A} names (z : A) build fields :
  Forall (λ kv, utf8 kv.1 = true ∧ utf8 kv.2 = true) fields →
  decode_body names z build (print (string_map fields)) =
    match object names (λ ms, build ms z) (string_map fields) z with Some a => Decoded a false | None => DecodeInvalid end.
Proof.
  intros Hf. unfold decode_body.
  assert (json_ok (string_map fields) ∧ height (string_map fields) ≤ maxNestingDepth) as [Hok Hh].
  { split; [apply json_ok_object, Forall_fmap, Forall_forall; by intros [k v] _|].
    etrans; [apply (height_object_le _ 1); [|lia]|by vm_compute]. apply Forall_fmap, Forall_forall. intros [k v] _. simpl. lia. }
  assert (clean (string_map fields) = string_map fields) as Hc.
  { unfold string_map. apply clean_object_iff, Forall_fmap. eapply Forall_impl; [exact Hf|]. intros [k v] [H1%utf8_clean H2%utf8_clean].
    unfold compose, clean_member. simpl in *. by rewrite H1, H2. }
  pose proof (decode_print (string_map fields) [] Hok Hh eq_refl) as [Hd _]. rewrite app_nil_r, Hc in Hd. rewrite Hd. done.
Qed.

Definition join_request_ok (r : APIJoinRequest) : bool :=
  utf8 (aj_Invite r) && utf8 (aj_NodeID r) && utf8 (aj_DisplayName r) && utf8 (aj_PublicKey r) && utf8 (aj_Platform r) && utf8 (aj_ClientVersion r).
Definition join_fields (r : APIJoinRequest) : list (string * string) :=
  [("client_version", aj_ClientVersion r); ("display_name", aj_DisplayName r); ("invite", aj_Invite r); ("node_id", aj_NodeID r);
   ("platform", aj_Platform r); ("public_key", aj_PublicKey r)].
Lemma enroll_body_sent r : join_request_ok r = true →
  enroll_body (print (string_map (join_fields r))) =
    Decoded {| be_Invite := aj_Invite r; be_NodeID := aj_NodeID r; be_DisplayName := aj_DisplayName r; be_PublicKey := aj_PublicKey r;
               be_Platform := aj_Platform r; be_ClientVersion := aj_ClientVersion r |} false.
Proof.
  unfold join_request_ok. rewrite !andb_true_iff. intros [[[[[H1 H2] H3] H4] H5] H6]. unfold enroll_body. rewrite decode_body_sent.
  - reflexivity.
  - unfold join_fields. repeat (apply Forall_cons; split; [split; [reflexivity|done]|]). by apply Forall_nil.
Qed.

(** ** Claims over HTTP *)
Lemma resourceID_escaped collection id suffix :
  "/"%char ∉ bytes collection → id ≠ "" → "/"%char ∉ bytes suffix →
  resourceID (path4 collection (PathEscape id) suffix) collection suffix = Some id.
Proof.
  intros Hc Hid Hs. unfold resourceID. rewrite path4_split by (done || apply segment_noslash).
  rewrite (bool_decide_eq_true_2 ("v1" = "v1")), (bool_decide_eq_true_2 (collection = collection)), (bool_decide_eq_true_2 (suffix = suffix)),
    (bool_decide_eq_false_2 (PathEscape id = "")) by (done || by apply segment_nonempty). cbn [negb orb].
  rewrite PathUnescape_PathEscape. by rewrite bool_decide_eq_false_2.
Qed.
Lemma blank_nonempty s : blank s = false → s ≠ "".
Proof. by intros H ->. Qed.

Lemma outcome_sent {A} client r (c : codec A) h a b j :
  sends c h a b → h ≤ maxNestingDepth → rp_Status r = StatusOK ∨ rp_Status r = StatusCreated → to_json c a = Some j →
  payload_json (rp_Payload r) = Some (Some j) → fits client (cs_Body (answer r)) → call_outcome client r (Some c) = Ok (Some b).
Proof.
  intros Hs Hh Hst Hj Hp Hf. destruct (decode_sent c h a b Hs Hh) as (j' & Hj' & Hd). rewrite Hj in Hj'. injection Hj' as <-.
  unfold call_outcome. assert ((rp_Status r <? 200) || (300 <=? rp_Status r) = false) as -> by (by destruct Hst as [-> | ->]).
  unfold answer in *. rewrite Hp in *. cbn [cs_Body json_body] in *. by rewrite decodeLimitedJSON_answer, Hd.
Qed.
Lemma outcome_error {A} client status code (c : option (codec A)) :
  400 ≤ status → utf8 code = true → fits client (cs_Body (answer (writeErrorCode status code))) →
  call_outcome client (writeErrorCode status code) c = Err (EHTTP status code).
Proof.
  intros Hs Hu Hf. unfold call_outcome. cbn [writeErrorCode writeJSON rp_Status]. rewrite (proj2 (Z.leb_le 300 status)), orb_true_r by lia.
  f_equal. by apply httpError_answer.
Qed.


Definition demo_client : Client := match NewClient "http://[2001:db8::1]:8080/" with Ok c => c | Err _ => Build_Client None "" "" 0 end.
Definition demo_base : URL := default (Build_URL "" "" None "" "" false false "" "") (cl_BaseURL demo_client).
Definition demo_token : string := RawURLEncode (replicate 32 7).
Definition demo_snapshot : NetworkSnapshot :=
  match (Snapshot.BuildSnapshot (env_wall (demo_env 103 "")) liveContext "lab" "n1" (hs_repo demo_enrolled)).1 with
  | Ok sn => sn
  | Err _ => Build_NetworkSnapshot "" 0 0 "" [] [] None None 0
  end.

Definition demo_served : ClientRequest → M (HState MemoryRepository) ClientResponse := served demo_handler (demo_env 103 "") "[2001:db8::2]:5000".

Lemma demo_snapshot_ok : snapshot_ok (snapshotResponse demo_snapshot).
Proof.
  assert (as_Peers (snapshotResponse demo_snapshot) = [] ∧ as_RelayAssignment (snapshotResponse demo_snapshot) = None) as [Hp Hr]
    by (split; vm_compute; reflexivity).
  assert (as_LocalVirtualIPv4 (snapshotResponse demo_snapshot) = [10; 0; 0; 1]) as Hip by (vm_compute; reflexivity).
  unfold snapshot_ok. rewrite Hp, Hr, Hip.
  split; [vm_compute; reflexivity|]. split; [vm_compute; split; discriminate|]. split; [vm_compute; split; discriminate|].
  split; [vm_compute; reflexivity|]. split; [right; split; [by left|repeat constructor; discriminate]|]. split; [constructor|].
  split; [done|vm_compute; reflexivity].
Qed.


(** ** Enrolling over HTTP *)
Definition enrollment_result (e : enrollmentResponse) : EnrollmentResult :=
  {| er_Node := nodeFromWire (Handler.er_Node e); er_Membership := membershipFromWire (membership16 (Handler.er_Membership e));
     er_Network := networkFromWire (Handler.er_Network e);
     er_Session := {| se_Subject := ax_Subject (Handler.er_Session e); se_Role := RoleNode; se_NetworkID := ax_NetworkID (Handler.er_Session e);
                      se_ExpiresAt := ax_ExpiresAt (Handler.er_Session e) |};
     er_SessionToken := Handler.er_SessionToken e |}.
Definition enrollment_complete (e : enrollmentResponse) : Prop :=
  Handler.er_SessionToken e ≠ "" ∧ ao_ID (Handler.er_Node e) ≠ "" ∧ am_NetworkID (Handler.er_Membership e) ≠ "" ∧ an_ID (Handler.er_Network e) ≠ "".

Lemma enrollmentResultFromWire_complete e : enrollment_complete e → enrollmentResultFromWire (enrollment16 e) = Ok (enrollment_result e).
Proof.
  intros (H1 & H2 & H3 & H4). unfold enrollmentResultFromWire.
  cbn [enrollment16 Handler.er_SessionToken Handler.er_Node Handler.er_Membership Handler.er_Network membership16 am_NetworkID].
  by rewrite !bool_decide_eq_false_2.
Qed.

Lemma recovery_sent e : enrollment_ok e →
  ∃ j, recovery_json e = Some j ∧ error_code (print j ++ [newline]) = "enrollment_recovery_pending".
Proof.
  intros (H1 & H2 & H3 & H4 & H5). apply (sends_node no_lenient) in H1. apply sends_membership in H2. apply (sends_network no_lenient) in H3.
  apply (sends_session no_lenient) in H4. apply sends_string in H5. open_sends. eexists. unfold recovery_json. encode_struct.
  split; [reflexivity|]. unfold error_code.
  match goal with |- context [decode_text (print (JObject ?l) ++ _)] => destruct (decode_print (JObject l) [newline]) as [_ ->] end.
  - apply json_ok_object. each_member ltac:(done).
  - etrans; [apply (height_object_le _ 2); [each_member ltac:(cbn; lia)|lia]|by vm_compute].
  - done.
  - rewrite clean_object. cbn [List.map clean_member fst snd]. unfold clean_member. cbn [fst snd]. clean_constants.
    cbn [clean]. clean_constants. rewrite (fld_hit c_string ["error"] "error" "error" _ _ _ "enrollment_recovery_pending") by reflexivity.
    repeat rewrite fld_skip by reflexivity. done.
Qed.

(** C20: an enrollment arrives as it was asked for and comes back as it was
    granted. The handler decodes exactly the client's request; an enrollment it
    grants is the result of the call, with the address in 16-byte form; and when
    the server cannot tell whether its commit went through, the client reports
    the pending recovery and the credential that came with it is dropped. *)
Theorem Join_over_http {R} `{TransactionalRepository R} h env remote lenient client base rq (s : HState R) r s' :
  cl_BaseURL client = Some base → base_ok base = true → join_request_ok rq = true →
  let request := call_request remote "POST" "/v1/enrollments" (cl_Token client) (print (string_map (join_fields rq))) in
  ServeHTTP h env request s = (r, s') → fits client (cs_Body (answer r)) →
  let result := Join (served h env remote) lenient client liveContext rq s in
  hr_enroll request =
    Decoded {| be_Invite := aj_Invite rq; be_NodeID := aj_NodeID rq; be_DisplayName := aj_DisplayName rq; be_PublicKey := aj_PublicKey rq;
               be_Platform := aj_Platform rq; be_ClientVersion := aj_ClientVersion rq |} false ∧
  (∀ e, r = writeJSON StatusCreated (PEnrollment e) → enrollment_ok e → enrollment_complete e → result = (Ok (enrollment_result e), s')) ∧
  (∀ e, r = writeJSON StatusServiceUnavailable (PRecovery e) → enrollment_ok e →
    result = (Err (EHTTP StatusServiceUnavailable "enrollment_recovery_pending"), s')) ∧
  (∀ status code, r = writeErrorCode status code → 400 ≤ status → utf8 code = true → result = (Err (EHTTP status code), s')).
Proof.
  intros Hb Hok Hq request Hs Hf result.
  assert (∀ o, call_outcome client r (Some (c_enrollment lenient)) = o →
    result = (match o with Ok x => enrollmentResultFromWire (default (zero (c_enrollment lenient)) x) | Err e => Err e end, s')) as Hrun.
  { intros o <-. unfold result, Join, doJSON, bind. rewrite (served_call h env remote client base Hb Hok _ "enrollments").
    change (bool_decide ("" = "")) with true. cbn [andb from_option]. fold (join_fields rq). change ("/v1/" +:+ "enrollments")%string with "/v1/enrollments".
    fold request. rewrite Hs. destruct (call_outcome _ _ _) as [x|e]; [|done]. unfold ret, lift. by destruct (enrollmentResultFromWire _). }
  split; [by apply enroll_body_sent|]. split; [|split].
  - intros e Hr He Hc. destruct (sends_enrollment lenient _ He) as (j & Hj & Hrest).
    assert (call_outcome client r (Some (c_enrollment lenient)) = Ok (Some (enrollment16 e))) as Ho.
    { eapply (outcome_sent client r (c_enrollment lenient) 2 _ _ j); [by exists j|by vm_compute|by rewrite Hr; right|exact Hj| |done].
      rewrite Hr. cbn [writeJSON rp_Payload payload_json]. by rewrite (json_enrollment no_lenient lenient), Hj. }
    rewrite (Hrun _ Ho). cbn [default from_option id]. by rewrite enrollmentResultFromWire_complete.
  - intros e -> He. rewrite (Hrun (Err (EHTTP StatusServiceUnavailable "enrollment_recovery_pending"))); [done|].
    unfold call_outcome. cbn [writeJSON rp_Status]. change ((StatusServiceUnavailable <? 200) || (300 <=? StatusServiceUnavailable)) with true.
    f_equal. unfold answer, fits in *. cbn [writeJSON rp_Payload payload_json rp_Status cs_Body] in *. unfold httpError, read_limited. cbn [cs_Body cs_ReadError cs_Status].
    destruct (recovery_sent e He) as (j & Hj & Hc). rewrite Hj in *. cbn [json_body] in *.
    rewrite (proj2 (Z.ltb_ge _ _)) by lia. rewrite (proj2 (Z.leb_le _ _)) by lia. by rewrite Hc.
  - intros status code -> Hst Hu. by rewrite (Hrun _ (outcome_error client status code _ Hst Hu Hf)).
Qed.

Definition demo_join : APIJoinRequest :=
  {| aj_Invite := ("inv." +:+ RawURLEncode (replicate 32 9))%string; aj_NodeID := "n1"; aj_DisplayName := "one"; aj_PublicKey := "key";
     aj_Platform := "windows"; aj_ClientVersion := "1" |}.
Definition demo_join_answer : Handler.Response * HState MemoryRepository :=
  ServeHTTP demo_handler (demo_env 102 "") (call_request "[2001:db8::2]:5000" "POST" "/v1/enrollments" (cl_Token demo_client)
    (print (string_map (join_fields demo_join)))) demo_ready.
Definition demo_enrollment : enrollmentResponse :=
  match rp_Payload demo_join_answer.1 with
  | PEnrollment e => e
  | _ => zero (c_enrollment no_lenient)
  end.

Lemma demo_enrollment_ok : enrollment_ok demo_enrollment ∧ enrollment_complete demo_enrollment.
Proof.
  let v := eval vm_compute in demo_enrollment in assert (demo_enrollment = v) as -> by (vm_compute; reflexivity).
  split; [|split_and!; discriminate]. unfold enrollment_ok, node_ok, membership_ok, network_ok, session_ok.
  split_and!; try (vm_compute; reflexivity); [right; split; [by left|repeat constructor; discriminate]|split; discriminate].
Qed.

Lemma Join_over_http_witness :
  (Join (served demo_handler (demo_env 102 "") "[2001:db8::2]:5000") no_lenient demo_client liveContext demo_join demo_ready).1
  = Ok (enrollment_result demo_enrollment) ∧ nd_ID (er_Node (enrollment_result demo_enrollment)) = "n1".
Proof.
  split; [|vm_compute; reflexivity].
  assert (demo_join_answer.1 = writeJSON StatusCreated (PEnrollment demo_enrollment)) as Hx by (vm_compute; reflexivity).
  assert (cl_BaseURL demo_client = Some demo_base) as H1 by (vm_compute; reflexivity).
  assert (base_ok demo_base = true) as H2 by (vm_compute; reflexivity).
  assert (join_request_ok demo_join = true) as H3 by (vm_compute; reflexivity).
  assert (fits demo_client (cs_Body (answer demo_join_answer.1))) as H5 by (rewrite Hx; vm_compute; discriminate).
  pose proof (Join_over_http demo_handler (demo_env 102 "") "[2001:db8::2]:5000" no_lenient demo_client demo_base demo_join
    demo_ready demo_join_answer.1 demo_join_answer.2 H1 H2 H3 (surjective_pairing demo_join_answer) H5) as (_ & Hw & _).
  rewrite (Hw demo_enrollment Hx); [reflexivity|apply demo_enrollment_ok|apply demo_enrollment_ok].
Defined.

(** ** What the service relies on *)
Definition client_api {W} (Do : ClientRequest → M W ClientResponse) lenient beyond (client : Client) (now : Time) : ControlAPI W := {|
  api_Join := Join Do lenient client;
  api_JoinRoom := JoinRoom Do lenient client;
  api_Leave := Leave Do client;
  api_Snapshot := Snapshot Do lenient client;
  api_Heartbeat := Heartbeat Do beyond client now
|}.

Section Laws.
Context {W : Type} {AD : Adapter W} {RM : RouteManager W} {DP : DataPlaneLaws W}.
Variables (Do : ClientRequest → M W ClientResponse) (lenient : string → option Time) (beyond : Time → string) (client : Client) (now : Time).
Hypothesis Hplane : ∀ q w, same_plane w (Do q w).2.

Lemma same_plane_refl (w : W) : same_plane w w.
Proof. by split. Qed.
Lemma call_plane {A} ctx method path token payload (c : option (codec A)) b (w : W) :
  same_plane w (doJSONWithAuth Do client ctx method path token payload c b w).2.
Proof.
  unfold doJSONWithAuth. destruct (cl_BaseURL client); [|apply same_plane_refl]. rewrite bind_check.
  destruct (contextError ctx); [apply same_plane_refl|]. cbv zeta. destruct (url_Parse _); [|apply same_plane_refl]. unfold bind.
  match goal with |- context [Do ?q w] => pose proof (Hplane q w) as Hq; destruct (Do q w) as [[r|e] w'] end; [|done].
  destruct (_ || _); [done|]. destruct c; [|done]. by destruct (decodeLimitedJSON _ _ _).
Qed.
Lemma doJSON_plane {A} ctx method path token payload (c : codec A) (w : W) : same_plane w (doJSON Do client ctx method path token payload c w).2.
Proof.
  unfold doJSON, bind. pose proof (call_plane ctx method path token payload (Some c) true w) as H.
  by destruct (doJSONWithAuth _ _ _ _ _ _ _ _ _ _) as [[r|e] w'].
Qed.
Lemma doJSONNoAuth_plane {A} ctx method path payload (c : codec A) (w : W) : same_plane w (doJSONNoAuth Do client ctx method path payload c w).2.
Proof.
  unfold doJSONNoAuth, bind. pose proof (call_plane ctx method path "" payload (Some c) false w) as H.
  by destruct (doJSONWithAuth _ _ _ _ _ _ _ _ _ _) as [[r|e] w'].
Qed.
Lemma doJSONNoBody_plane ctx method path token payload (w : W) : same_plane w (doJSONNoBody Do client ctx method path token payload w).2.
Proof.
  unfold doJSONNoBody, bind. pose proof (call_plane ctx method path token payload (None : option (codec unit)) true w) as H.
  by destruct (doJSONWithAuth _ _ _ _ _ _ _ _ _ _) as [[r|e] w'].
Qed.

Lemma enrollmentResultFromWire_result v : complete (enrollmentResultFromWire v).
Proof.
  unfold enrollmentResultFromWire. destruct (_ || _) eqn:E; [done|]. rewrite !orb_false_iff, !bool_decide_eq_false in E. simpl. tauto.
Qed.
Lemma enrolled_plane (m : M W enrollmentWireResponse) (w : W) : same_plane w (m w).2 →
  let '(o, w') := bind m (λ v, lift (enrollmentResultFromWire v)) w in same_plane w w' ∧ complete o.
Proof.
  unfold bind. destruct (m w) as [[v|e] w']; [|done]. intros H. pose proof (enrollmentResultFromWire_result v) as Hc. unfold lift.
  by destruct (enrollmentResultFromWire v).
Qed.

End Laws.


Definition unreachable : ClientRequest → M Plane ClientResponse := λ _, throw (EURL (ENet true)).

