(* ===== verification/WatchThm.v ===== *)
(** * Watching a network: what a watch delivers and how long it waits *)

From Stdlib Require Import Ascii.
From S2P Require Import Prelude GoStd Model NetURL Json TimeFmt Handler Wire Client.

Open Scope Z_scope.

Definition duration_ok (d : Duration) : Prop := 0 < d ≤ MaxInt64.

Lemma wrap64_id z : int64 z → wrap64 z = z.
Proof. unfold wrap64, int64, MaxInt64. intros. rewrite Z.mod_small; lia. Qed.

(** Within the 64 bits, the backoff doubles until it reaches the maximum. *)
Lemma nextBackoff_eq current maximum : duration_ok current → duration_ok maximum →
  nextBackoff current maximum = if maximum <=? 2 * current + 1 then maximum else 2 * current.
Proof.
  unfold duration_ok, MaxInt64. intros Hc Hm. unfold nextBackoff.
  rewrite (wrap64_id (maximum - current)) by (unfold int64, MaxInt64; lia).
  destruct (Z.leb_spec maximum (2 * current + 1)).
  - rewrite (proj2 (Z.leb_le _ _)); [done|]. rewrite Z.quot_div_nonneg by lia. divlia.
  - rewrite (proj2 (Z.leb_gt _ _)), (proj2 (Z.ltb_ge _ _)) by (first [rewrite Z.quot_div_nonneg by lia; divlia|lia]). cbn [orb].
    rewrite wrap64_id by (unfold int64, MaxInt64; lia). lia.
Qed.
Lemma nextBackoff_ok current maximum : duration_ok current → duration_ok maximum →
  duration_ok (nextBackoff current maximum) ∧ nextBackoff current maximum ≤ maximum ∧ Z.min maximum (2 * current) ≤ nextBackoff current maximum.
Proof.
  intros Hc Hm. rewrite nextBackoff_eq by done. unfold duration_ok in *.
  destruct (Z.leb_spec maximum (2 * current + 1)); lia.
Qed.

Lemma watch_defaults_ok o : wo_InitialBackoff o ≤ MaxInt64 → wo_MaxBackoff o ≤ MaxInt64 →
  duration_ok (wo_InitialBackoff (watch_defaults o)) ∧ duration_ok (wo_MaxBackoff (watch_defaults o)).
Proof.
  intros Hi Hm. unfold watch_defaults, duration_ok. cbn [wo_InitialBackoff wo_MaxBackoff].
  assert (0 < 250 * Millisecond ≤ MaxInt64) by (vm_compute; split; [reflexivity|discriminate]).
  assert (0 < 10 * Second ≤ MaxInt64) by (vm_compute; split; [reflexivity|discriminate]).
  destruct (Z.leb_spec (wo_InitialBackoff o) 0); case_match eqn:E; try lia; rewrite ?Z.ltb_lt, ?Z.ltb_ge in E; lia.
Qed.

(** A snapshot that a watch hands to its callback. *)
Definition delivered (networkID : string) (s : NetworkSnapshot) : Prop :=
  sn_NetworkID s = networkID ∧ 0 < sn_Generation s ∧ blank (sn_LocalNodeID s) = false ∧ is_nil (To4 (sn_LocalVirtualIPv4 s)) = false.

Lemma DecodeEvent_delivered lenient data e s : DecodeEvent lenient data = Ok e → ev_Snapshot e = Some s → delivered (sn_NetworkID s) s.
Proof.
  unfold DecodeEvent. destruct (decodeLimitedJSONBytes _ _) as [[type [v|]]|]; try done. destruct (negb _); [done|].
  unfold snapshotFromWire. destruct (_ || _) eqn:E; [done|]. intros [= <-] [= <-]. rewrite !orb_false_iff, Z.leb_gt in E.
  unfold delivered. simpl. tauto.
Qed.

Section Watch.
Context {W : Type}.
Variables (lenient : string → option Time) (networkID : string) (onSnapshot : NetworkSnapshot → M W unit) (options : WatchOptions).
Hypotheses (Hinitial : duration_ok (wo_InitialBackoff options)) (Hmax : duration_ok (wo_MaxBackoff options)).
Variable P : W → Prop.
Hypothesis HP : ∀ s w, delivered networkID s → P w → P (onSnapshot s w).2.

Definition within_backoff (d : Duration) : Prop := duration_ok d ∧ d ≤ Z.max (wo_InitialBackoff options) (wo_MaxBackoff options).

Lemma read_messages_ok l last received backoff w : within_backoff backoff → P w →
  let '(r, w') := read_messages lenient networkID onSnapshot options l last received backoff w in
  P w' ∧ match r with inl _ => True | inr (_, d) => within_backoff d end.
Proof.
  revert received backoff w. induction l as [|[[e|] m] l IH]; intros received backoff w Hb Hw; cbn [read_messages]; [by destruct last|done|].
  destruct (DecodeEvent lenient m) as [event|] eqn:Ed; [|done]. destruct (ev_Snapshot event) as [s|] eqn:Es; [|done].
  destruct (bool_decide (sn_NetworkID s = networkID)) eqn:En; [apply bool_decide_eq_true in En|done]. cbn [negb].
  pose proof (DecodeEvent_delivered _ _ _ _ Ed Es) as Hd. rewrite En in Hd. pose proof (HP s w Hd Hw) as Hw'.
  destruct (onSnapshot s w) as [[[]|e] w']; [|done]. apply IH; [|done]. unfold within_backoff. split; [done|lia].
Qed.

Lemma within_next d : within_backoff d → within_backoff (nextBackoff d (wo_MaxBackoff options)).
Proof. intros [Hd _]. destruct (nextBackoff_ok d _ Hd Hmax) as (? & ? & _). split; [done|lia]. Qed.

Lemma watch_loop_ok script backoff w : within_backoff backoff → P w →
  let '(r, waits, w') := watch_loop lenient networkID onSnapshot options script backoff w in Forall within_backoff waits ∧ P w'.
Proof.
  revert backoff w. induction script as [|a script IH]; intros backoff w Hb Hw; cbn [watch_loop]; [done|].
  destruct (at_ctx a); [done|]. destruct (at_dial a) as [c|e].
  - pose proof (read_messages_ok (cn_messages c) (cn_last c) false backoff w Hb Hw) as H.
    destruct (read_messages _ _ _ _ _ _ _ _ _) as [[e|[received d]] w1]; [by destruct H|]. destruct H as [Hw1 Hd].
    destruct (at_after a); [done|].
    assert (within_backoff (if received then d else nextBackoff d (wo_MaxBackoff options))) as Hd' by (destruct received; [done|by apply within_next]).
    destruct (at_wait a); [split; [by apply Forall_singleton|done]|]. specialize (IH _ w1 Hd' Hw1). destruct (watch_loop _ _ _ _ _ _ _) as [[r waits] w'].
    destruct IH. split; [by constructor|done].
  - destruct (negb _); [done|]. destruct (at_wait a); [split; [by apply Forall_singleton|done]|].
    specialize (IH _ w (within_next _ Hb) Hw). destruct (watch_loop _ _ _ _ _ _ _) as [[r waits] w']. destruct IH. split; [by constructor|done].
Qed.

(** Attempts that all fail and may be retried. *)
Definition fails_retryably (a : Attempt) : Prop :=
  at_ctx a = None ∧ at_wait a = None ∧ ∃ e, at_dial a = Err e ∧ watchRetryable e = true.

Lemma watch_loop_retries script backoff w : Forall fails_retryably script → duration_ok backoff →
  let '(r, waits, w') := watch_loop lenient networkID onSnapshot options script backoff w in
  r = None ∧ w' = w ∧ length waits = length script ∧
  ∀ k d, waits !! k = Some d → Z.min (wo_MaxBackoff options) (backoff * 2 ^ Z.of_nat k) ≤ d.
Proof.
  intros Hs. revert backoff. induction Hs as [|a script (Hc & Hwt & e & He & Hr) Hs IH]; intros backoff Hb; cbn [watch_loop]; [done|].
  rewrite Hc, He, Hr. cbn [negb]. rewrite Hwt. destruct (nextBackoff_ok backoff _ Hb Hmax) as (Hn & _ & Hlow).
  specialize (IH _ Hn). destruct (watch_loop _ _ _ _ _ _ _) as [[r waits] w']. destruct IH as (-> & -> & Hl & Hk).
  split_and!; [done|done|by simpl; rewrite Hl|]. intros [|k] d Hd; simpl in Hd; [injection Hd as <-; rewrite Z.pow_0_r; lia|].
  specialize (Hk k d Hd). rewrite Nat2Z.inj_succ, Z.pow_succ_r by lia.
  pose proof (Z.pow_pos_nonneg 2 (Z.of_nat k)) as Hpow. unfold duration_ok in *. nia.
Qed.
End Watch.


Definition failing_attempt : Attempt := {| at_ctx := None; at_dial := Err (ENet false); at_after := None; at_wait := None |}.

