(* ===== verification/Relay.v ===== *)
(** * The relay: configuration and runtime

    [internal/relay/config.go], [routes.go] and [runtime.go]: the configuration
    file of a relay, its translation to a WireGuard configuration, and the runtime
    that applies it over two interfaces, WireGuard and routes. *)

From Stdlib Require Import Ascii.
From S2P Require Import Prelude GoStd NetIP Wgnt Json Wire.

Open Scope Z_scope.

(** ** [net/netip]: masked prefixes and addresses with ports *)
Definition mask_addr (a : Addr) (b : Z) : Addr :=
  match a with
  | AddrZero => AddrZero
  | Addr4 v => Addr4 (v - v mod 2 ^ (32 - b))
  | Addr6 v zone => Addr6 (v - v mod 2 ^ (128 - b)) zone
  end.
Definition Prefix_zero : Prefix := {| pf_Addr := AddrZero; pf_bitsPlusOne := 0 |}.
Definition Masked (p : Prefix) : Prefix :=
  let b := Prefix_Bits p in
  if (b <? 0) || negb (Addr_IsValid (pf_Addr p)) || (BitLen (pf_Addr p) <? b) then Prefix_zero
  else PrefixFrom (mask_addr (pf_Addr p) b) b.

Definition ParseAddrPort (s : string) : option AddrPort :=
  let l := bytes s in
  match last_index ":"%char l with
  | None => None
  | Some i =>
    let ip := take i l in
    let port := drop (S i) l in
    if bool_decide (ip = []) || bool_decide (port = []) then None
    else
      let bracket := is_char "["%char ip in
      if bracket && negb (bool_decide (2 ≤ length ip)%nat && bool_decide (last ip = Some "]"%char)) then None
      else
        let text := if bracket then take (length ip - 2) (drop 1 ip) else ip in
        match ParseUint16 (of_bytes port), ParseAddr (of_bytes text) with
        | Some p, Some a =>
          if bracket && Is4 a || negb bracket && Is6 a then None else Some {| ap_ip := a; ap_port := p |}
        | _, _ => None
        end
  end.

(** ** The configuration *)
Definition maxConfigBytes : Z := Z.shiftl 1 20.
Definition maxPeers : Z := 4096.

Record relay_Peer := { rp_NodeID : string; rp_PublicKey : string; rp_VirtualIPv4 : Addr; rp_Endpoint : AddrPort }.
Record relay_Config := {
  rc_NetworkID : string; rc_InterfaceName : string; rc_ListenPort : Z; rc_VirtualIPv4 : Addr; rc_PrivateKey : Key;
  rc_Peers : list relay_Peer
}.

(** A name of at most 15 bytes; the runes that are refused are all one byte. *)
Definition validInterfaceName (value : string) : bool :=
  negb (bool_decide (value = "") || (15 <? Z.of_nat (String.length value))) &&
  forallb (λ c, negb ((code c <=? 32) || bool_decide (c = "/"%char) || bool_decide (c = "092"%char))) (bytes value).

Definition unusable4 (a : Addr) : bool := negb (Addr_IsValid a) || negb (Is4 a) || IsUnspecified a || IsMulticast a.

#[global] Instance Addr_countable : Countable Addr.
Proof.
  refine (inj_countable' (λ a, match a with AddrZero => inl () | Addr4 v => inr (inl v) | Addr6 v z => inr (inr (v, z)) end)
    (λ s, match s with inl _ => AddrZero | inr (inl v) => Addr4 v | inr (inr (v, z)) => Addr6 v z end) _). by intros [].
Defined.

(** The loop over the peers, with the keys and addresses seen so far. *)
Fixpoint check_peers (local : Addr) (seenKeys : gset Key) (seenAddresses : gset Addr) (peers : list relay_Peer) : option error :=
  match peers with
  | [] => None
  | peer :: peers =>
    if blank (rp_NodeID peer) then Some (EWrap relay_ErrInvalidConfig)
    else match ParseKey (rp_PublicKey peer) with
    | Err _ => Some (EWrap relay_ErrInvalidConfig)
    | Ok publicKey =>
      if Key_IsZero publicKey then Some (EWrap relay_ErrInvalidConfig)
      else if bool_decide (publicKey ∈ seenKeys) then Some (ESentinel ErrDuplicatePeer)
      else if unusable4 (rp_VirtualIPv4 peer) then Some (EWrap relay_ErrInvalidConfig)
      else if bool_decide (rp_VirtualIPv4 peer = local) then Some (ESentinel ErrDuplicateAddress)
      else if bool_decide (rp_VirtualIPv4 peer ∈ seenAddresses) then Some (ESentinel ErrDuplicateAddress)
      else if AddrPort_IsValid (rp_Endpoint peer) &&
              ((ap_port (rp_Endpoint peer) =? 0) || negb (IsGlobalUnicast (ap_ip (rp_Endpoint peer)))
               || IsLinkLocalUnicast (ap_ip (rp_Endpoint peer)))
      then Some (EWrap relay_ErrInvalidConfig)
      else check_peers local ({[publicKey]} ∪ seenKeys) ({[rp_VirtualIPv4 peer]} ∪ seenAddresses) peers
    end
  end.

Definition relay_Validate (config : relay_Config) : option error :=
  if blank (rc_NetworkID config) || blank (rc_InterfaceName config) || (rc_ListenPort config =? 0) || Key_IsZero (rc_PrivateKey config)
  then Some (EWrap relay_ErrInvalidConfig)
  else if negb (validInterfaceName (rc_InterfaceName config)) then Some (EWrap relay_ErrInvalidConfig)
  else if unusable4 (rc_VirtualIPv4 config) then Some (EWrap relay_ErrInvalidConfig)
  else if maxPeers <? Z.of_nat (length (rc_Peers config)) then Some (EWrap relay_ErrInvalidConfig)
  else check_peers (rc_VirtualIPv4 config) ∅ ∅ (rc_Peers config).

(** [ParseKey] gives the zero key with an error. *)
Definition parsed_key (s : string) : Key := match ParseKey s with Ok k => k | Err _ => zeroKey end.
Definition wireguard_peer (peer : relay_Peer) : Wgnt.Peer :=
  {| wp_PublicKey := parsed_key (rp_PublicKey peer); wp_Endpoint := rp_Endpoint peer; wp_PersistentKeepalive := 0;
     wp_AllowedIPs := [PrefixFrom (rp_VirtualIPv4 peer) 32] |}.
Definition WireGuardConfiguration (config : relay_Config) : result Configuration :=
  match relay_Validate config with
  | Some err => Err err
  | None =>
    let result := {| cf_PrivateKey := rc_PrivateKey config; cf_ListenPort := rc_ListenPort config;
                     cf_Peers := wireguard_peer <$> rc_Peers config; cf_ReplacePeers := true |} in
    match Validate result with Some err => Err err | None => Ok result end
  end.

(** ** The configuration file *)
Record peerWire := { pw_NodeID : string; pw_PublicKey : string; pw_VirtualIPv4 : string; pw_Endpoint : string }.
Record configWire := {
  cw_NetworkID : string; cw_InterfaceName : string; cw_ListenPort : Z; cw_VirtualIPv4 : string; cw_PrivateKey : string;
  cw_Peers : list peerWire
}.

Definition peer_wire_names : list string := ["node_id"; "public_key"; "virtual_ipv4"; "endpoint"].
Definition c_peerWire : codec peerWire := {|
  zero := {| pw_NodeID := ""; pw_PublicKey := ""; pw_VirtualIPv4 := ""; pw_Endpoint := "" |};
  to_json a := encode_object (
    [("node_id", to_json c_string (pw_NodeID a)); ("public_key", to_json c_string (pw_PublicKey a));
     ("virtual_ipv4", to_json c_string (pw_VirtualIPv4 a))]
    ++ if bool_decide (pw_Endpoint a = "") then [] else [("endpoint", to_json c_string (pw_Endpoint a))]);
  into j p := object peer_wire_names (λ ms,
    node ← fld c_string peer_wire_names "node_id" ms (pw_NodeID p);
    key ← fld c_string peer_wire_names "public_key" ms (pw_PublicKey p);
    ip ← fld c_string peer_wire_names "virtual_ipv4" ms (pw_VirtualIPv4 p);
    endpoint ← fld c_string peer_wire_names "endpoint" ms (pw_Endpoint p);
    Some {| pw_NodeID := node; pw_PublicKey := key; pw_VirtualIPv4 := ip; pw_Endpoint := endpoint |}) j p
|}.
Definition config_names : list string := ["network_id"; "interface"; "listen_port"; "virtual_ipv4"; "private_key"; "peers"].
Definition c_configWire : codec configWire := {|
  zero := {| cw_NetworkID := ""; cw_InterfaceName := ""; cw_ListenPort := 0; cw_VirtualIPv4 := ""; cw_PrivateKey := ""; cw_Peers := [] |};
  to_json a := encode_object
    [("network_id", to_json c_string (cw_NetworkID a)); ("interface", to_json c_string (cw_InterfaceName a));
     ("listen_port", to_json c_uint16 (cw_ListenPort a)); ("virtual_ipv4", to_json c_string (cw_VirtualIPv4 a));
     ("private_key", to_json c_string (cw_PrivateKey a)); ("peers", to_json (c_list c_peerWire) (cw_Peers a))];
  into j p := object config_names (λ ms,
    network ← fld c_string config_names "network_id" ms (cw_NetworkID p);
    interface ← fld c_string config_names "interface" ms (cw_InterfaceName p);
    port ← fld c_uint16 config_names "listen_port" ms (cw_ListenPort p);
    ip ← fld c_string config_names "virtual_ipv4" ms (cw_VirtualIPv4 p);
    key ← fld c_string config_names "private_key" ms (cw_PrivateKey p);
    peers ← fld (c_list c_peerWire) config_names "peers" ms (cw_Peers p);
    Some {| cw_NetworkID := network; cw_InterfaceName := interface; cw_ListenPort := port; cw_VirtualIPv4 := ip; cw_PrivateKey := key;
            cw_Peers := peers |}) j p
|}.

Definition invalid_config {A} : result A := Err (EWrap relay_ErrInvalidConfig).

Definition parse_peer (peer : peerWire) : result relay_Peer :=
  let endpoint := if blank (pw_Endpoint peer) then Some AddrPort_zero else ParseAddrPort (pw_Endpoint peer) in
  match endpoint with
  | None => invalid_config
  | Some endpoint =>
    match ParseAddr (pw_VirtualIPv4 peer) with
    | None => invalid_config
    | Some address =>
      Ok {| rp_NodeID := pw_NodeID peer; rp_PublicKey := pw_PublicKey peer; rp_VirtualIPv4 := address; rp_Endpoint := endpoint |}
    end
  end.
Fixpoint parse_peers (peers : list peerWire) : result (list relay_Peer) :=
  match peers with
  | [] => Ok []
  | peer :: peers =>
    match parse_peer peer with
    | Err e => Err e
    | Ok p => match parse_peers peers with Err e => Err e | Ok ps => Ok (p :: ps) end
    end
  end.

Definition ParseConfig (data : list ascii) : result relay_Config :=
  if bool_decide (data = []) || (maxConfigBytes <? Z.of_nat (length data)) then invalid_config
  else match decode_one data with
  | None => invalid_config
  | Some (v, rest) =>
    match into c_configWire v (zero c_configWire) with
    | None => invalid_config
    | Some wire =>
      if negb (bool_decide (skip_space rest = [])) then invalid_config
      else match ParseKey (cw_PrivateKey wire) with
      | Err _ => invalid_config
      | Ok privateKey =>
        match ParseAddr (cw_VirtualIPv4 wire) with
        | None => invalid_config
        | Some address =>
          match parse_peers (cw_Peers wire) with
          | Err e => Err e
          | Ok peers =>
            let config := {| rc_NetworkID := cw_NetworkID wire; rc_InterfaceName := cw_InterfaceName wire;
                             rc_ListenPort := cw_ListenPort wire; rc_VirtualIPv4 := address; rc_PrivateKey := privateKey;
                             rc_Peers := peers |} in
            match relay_Validate config with Some err => Err err | None => Ok config end
          end
        end
      end
    end
  end.

(** ** Routes *)
Definition relay_routeKey (prefix : Prefix) : string := Prefix_String (Masked prefix).

Fixpoint check_routes (local : Addr) (seen : gset string) (peers : list Prefix) : option error :=
  match peers with
  | [] => None
  | peer :: peers =>
    if negb (Prefix_IsValid peer) || negb (Is4 (pf_Addr peer)) || negb (Prefix_Bits peer =? 32) || IsUnspecified (pf_Addr peer)
       || bool_decide (pf_Addr peer = local)
    then Some (ESentinel relay_ErrInvalidConfig)
    else
      let key := relay_routeKey peer in
      if bool_decide (key ∈ seen) then Some (ESentinel ErrDuplicateAddress) else check_routes local ({[key]} ∪ seen) peers
  end.
Definition validateRelayRoutes (interfaceName : string) (local : Addr) (peers : list Prefix) : option error :=
  if negb (validInterfaceName interfaceName) || negb (Addr_IsValid local) || negb (Is4 local) || IsUnspecified local
  then Some (ESentinel relay_ErrInvalidConfig)
  else check_routes local ∅ peers.

(** ** The runtime *)
Class WireGuard (W : Type) := {
  wg_Apply : Context → string → Configuration → M W unit;
  wg_Down : Context → string → M W unit
}.
Class relay_Routes (W : Type) := {
  rs_Apply : Context → string → Addr → list Prefix → M W unit;
  rs_Clear : Context → string → M W unit
}.

Record Runtime := { ru_active : bool; ru_interfaceName : string }.
(** Both collaborators are there. *)
Definition NewRuntime : Runtime := {| ru_active := false; ru_interfaceName := "" |}.

Section Runtime.
Context {W : Type} `{WireGuard W, relay_Routes W}.
Variable ctx : Context.

Definition runtime_Apply (config : relay_Config) : M (Runtime * W) unit := λ '(runtime, w),
  match WireGuardConfiguration config with
  | Err err => (Err err, (runtime, w))
  | Ok wireGuardConfig =>
    match wg_Apply ctx (rc_InterfaceName config) wireGuardConfig w with
    | (Err err, w) => (Err (EWrap err), (runtime, w))
    | (Ok _, w) =>
      let allowed := (λ peer, PrefixFrom (rp_VirtualIPv4 peer) 32) <$> rc_Peers config in
      match rs_Apply ctx (rc_InterfaceName config) (rc_VirtualIPv4 config) allowed w with
      | (Err err, w) =>
        let '(rollback, w) := wg_Down ctx (rc_InterfaceName config) w in
        (Err (default (EWrap err) (errors_Join (Some (EWrap err)) (error_of rollback))), (runtime, w))
      | (Ok _, w) => (Ok tt, ({| ru_active := true; ru_interfaceName := rc_InterfaceName config |}, w))
      end
    end
  end.

Definition runtime_Clear : M (Runtime * W) unit := λ '(runtime, w),
  if negb (ru_active runtime) then (Ok tt, (runtime, w))
  else
    let '(r, w) := rs_Clear ctx (ru_interfaceName runtime) w in
    let '(d, w) := wg_Down ctx (ru_interfaceName runtime) w in
    match errors_Join (match r with Ok _ => None | Err e => errors_Join None (Some e) end) (error_of d) with
    | None => (Ok tt, (NewRuntime, w))
    | Some e => (Err e, (runtime, w))
    end.
End Runtime.
