(* ===== verification/RelayHost.v ===== *)
(** * The relay on a Linux host

    [internal/relay/routes_linux.go] and [wireguard_linux.go]: addresses, routes
    and the WireGuard interface of the host, managed by running [ip] and [wg].
    The runner of commands and the calls on the temporary key file are classes on
    an arbitrary system; Go ranges over the map of owned routes in an order of its
    own, the argument [range]. *)

From Stdlib Require Import Ascii.
From S2P Require Import Prelude GoStd NetIP Wgnt Relay.

Open Scope Z_scope.

Class CommandRunner (W : Type) := { Run : Context → string → list string → M W string }.

(** The calls of [os] on the key file; [Remove] drops its error. *)
Class KeyFiles (W : Type) := {
  kf_MkdirAll : string → M W unit;
  kf_CreateTemp : string → M W string;
  kf_Chmod : string → M W unit;
  kf_WriteString : string → string → M W unit;
  kf_Close : string → M W unit;
  kf_Remove : string → W → W
}.

(** ** Routes and the virtual address *)
Record relay_RouteManager := { rm_owned : gmap string Prefix; rm_address : Addr; rm_iface : string }.
Definition NewRouteManagerWithRunner : relay_RouteManager := {| rm_owned := ∅; rm_address := AddrZero; rm_iface := "" |}.

Definition addr_add (prefix dev : string) : list string := ["-4"; "addr"; "add"; prefix; "dev"; dev].
Definition addr_del (prefix dev : string) : list string := ["-4"; "addr"; "del"; prefix; "dev"; dev].
Definition route_add (prefix dev : string) : list string := ["-4"; "route"; "add"; prefix; "dev"; dev].
Definition route_del (prefix dev : string) : list string := ["-4"; "route"; "del"; prefix; "dev"; dev].
Definition host_text (a : Addr) : string := (Addr_String a +:+ "/32")%string.

Definition desired_prefixes (peers : list Prefix) : gmap string Prefix :=
  fold_left (λ m peer, <[relay_routeKey peer := Masked peer]> m) peers ∅.

(** The keys in the order of [sort.Strings]. *)
Definition sorted_keys (m : gmap string Prefix) : list string := SliceStable sltb (map_to_list m).*1.

Section Host.
Context {W : Type} `{CommandRunner W, KeyFiles W}.
Variable range : gmap string Prefix → list (string * Prefix).
Variable ctx : Context.

(** [contextError] of the package. *)
Definition relay_contextError : option error := checkContext ctx.

(** Undoing what [Apply] has added, in the order of the additions. *)
Definition undo_one (interfaceName : string) (local : Addr) (prefix : Prefix) : M W string :=
  if bool_decide (pf_Addr prefix = local) then Run ctx "ip" (addr_del (Prefix_String prefix) interfaceName)
  else Run ctx "ip" (route_del (Prefix_String prefix) interfaceName).
Fixpoint rollbackAdded (interfaceName : string) (local : Addr) (added : list Prefix) (joined : option error) (w : W) : option error * W :=
  match added with
  | [] => (joined, w)
  | prefix :: added =>
    let '(r, w) := undo_one interfaceName local prefix w in
    rollbackAdded interfaceName local added (errors_Join joined (error_of r)) w
  end.

(** The routes to add, skipping those kept: the prefixes added, and the error that
    stopped the loop. *)
Fixpoint add_routes (keep : string → bool) (desired : gmap string Prefix) (interfaceName : string) (keys : list string)
    (added : list Prefix) (w : W) : (list Prefix * option error) * W :=
  match keys with
  | [] => ((added, None), w)
  | key :: keys =>
    if keep key then add_routes keep desired interfaceName keys added w
    else
      let prefix := default Prefix_zero (desired !! key) in
      match Run ctx "ip" (route_add (Prefix_String prefix) interfaceName) w with
      | (Err err, w) => ((added, Some err), w)
      | (Ok _, w) => add_routes keep desired interfaceName keys (added ++ [prefix]) w
      end
  end.
(** The routes to remove. *)
Fixpoint remove_stale (keep : string → bool) (iface : string) (l : list (string * Prefix)) (w : W) : option error * W :=
  match l with
  | [] => (None, w)
  | (key, prefix) :: l =>
    if keep key then remove_stale keep iface l w
    else match Run ctx "ip" (route_del (Prefix_String prefix) iface) w with
    | (Err err, w) => (Some err, w)
    | (Ok _, w) => remove_stale keep iface l w
    end
  end.

Definition in_map {A} (m : gmap string A) (key : string) : bool := match m !! key with Some _ => true | None => false end.

Definition routes_Apply (interfaceName : string) (local : Addr) (peers : list Prefix) : M (relay_RouteManager * W) unit := λ '(manager, w),
  match validateRelayRoutes interfaceName local peers with
  | Some err => (Err err, (manager, w))
  | None =>
    match relay_contextError with
    | Some err => (Err err, (manager, w))
    | None =>
      let desired := desired_prefixes peers in
      let same := bool_decide (rm_address manager = local) && bool_decide (rm_iface manager = interfaceName) in
      let '(first, w) :=
        if same then (Ok [], w)
        else match Run ctx "ip" (addr_add (host_text local) interfaceName) w with
             | (Err err, w) => (Err (EWrap err), w)
             | (Ok _, w) => (Ok [PrefixFrom local 32], w)
             end in
      match first with
      | Err err => (Err err, (manager, w))
      | Ok added =>
        match add_routes (λ key, in_map (rm_owned manager) key && same) desired interfaceName (sorted_keys desired) added w with
        | ((added, Some err), w) =>
          let '(_, w) := rollbackAdded interfaceName local added None w in (Err (EWrap err), (manager, w))
        | ((added, None), w) =>
          let failed err w :=
            let '(r, w) := rollbackAdded interfaceName local added None w in
            (Err (default err (errors_Join (Some err) r)), (manager, w)) in
          match remove_stale (λ key, in_map desired key && same) (rm_iface manager) (range (rm_owned manager)) w with
          | (Some err, w) => failed (EWrap err) w
          | (None, w) =>
            let '(last, w) :=
              if Addr_IsValid (rm_address manager) && negb same
              then Run ctx "ip" (addr_del (host_text (rm_address manager)) (rm_iface manager)) w else (Ok "", w) in
            match last with
            | Err err => failed (EWrap err) w
            | Ok _ => (Ok tt, ({| rm_owned := desired; rm_address := local; rm_iface := interfaceName |}, w))
            end
          end
        end
      end
    end
  end.

Fixpoint clear_routes (interfaceName : string) (l : list (string * Prefix)) (joined : option error) (w : W) : option error * W :=
  match l with
  | [] => (joined, w)
  | (_, prefix) :: l =>
    match Run ctx "ip" (route_del (Prefix_String prefix) interfaceName) w with
    | (Err err, w) => clear_routes interfaceName l (errors_Join joined (Some err)) w
    | (Ok _, w) => clear_routes interfaceName l joined w
    end
  end.
Definition routes_Clear (interfaceName : string) : M (relay_RouteManager * W) unit := λ '(manager, w),
  match relay_contextError with
  | Some err => (Err err, (manager, w))
  | None =>
    let interfaceName := if bool_decide (interfaceName = "") then rm_iface manager else interfaceName in
    if negb (bool_decide (rm_iface manager = "")) && negb (bool_decide (interfaceName = rm_iface manager))
    then (Err relay_ErrInvalidConfig, (manager, w))
    else
      let '(joined, w) := clear_routes interfaceName (range (rm_owned manager)) None w in
      let '(joined, w) :=
        if Addr_IsValid (rm_address manager) then
          match Run ctx "ip" (addr_del (host_text (rm_address manager)) interfaceName) w with
          | (Err err, w) => (errors_Join joined (Some err), w)
          | (Ok _, w) => (joined, w)
          end
        else (joined, w) in
      match joined with
      | None => (Ok tt, (NewRouteManagerWithRunner, w))
      | Some err => (Err err, (manager, w))
      end
  end.

(** ** The WireGuard interface *)
Variable tempDir : string.

(** The path of the key file; every failure after its creation removes it. *)
Definition writePrivateKey (key : Key) : M W string :=
  (if bool_decide (tempDir = "") then ret tt else kf_MkdirAll tempDir);;
  let! path := (λ w, match kf_CreateTemp tempDir w with (Err err, w) => (Err (EWrap err), w) | ok => ok end) in
  let step (m : M W unit) : M W unit := λ w, match m w with (Err err, w) => (Err err, kf_Remove path w) | ok => ok end in
  step (kf_Chmod path);;
  step (λ w, match kf_WriteString path (Base64 key +:+ String "010"%char "")%string w with
             | (Err err, w) => (Err err, (kf_Close path w).2) | ok => ok end);;
  step (kf_Close path);;
  ret path.

Fixpoint remove_peers (interfaceName : string) (keep : gset string) (shown : list string) : M W unit :=
  match shown with
  | [] => ret tt
  | publicKey :: shown =>
    if bool_decide (publicKey ∈ keep) then remove_peers interfaceName keep shown
    else λ w, match Run ctx "wg" ["set"; interfaceName; "peer"; publicKey; "remove"] w with
              | (Err err, w) => (Err (EWrap err), w)
              | (Ok _, w) => remove_peers interfaceName keep shown w
              end
  end.

Definition peer_args (peer : Wgnt.Peer) : option (list string) :=
  match wp_AllowedIPs peer with
  | [allowed] =>
    if negb (Prefix_IsValid allowed) || negb (Is4 (pf_Addr allowed)) || negb (Prefix_Bits allowed =? 32) then None
    else Some (["peer"; Base64 (wp_PublicKey peer); "allowed-ips"; Prefix_String allowed]
               ++ if AddrPort_IsValid (wp_Endpoint peer) then ["endpoint"; AddrPort_String (wp_Endpoint peer)] else [])
  | _ => None
  end.
Fixpoint all_args (peers : list Wgnt.Peer) : option (list string) :=
  match peers with
  | [] => Some []
  | peer :: peers => a ← peer_args peer; l ← all_args peers; Some (a ++ l)
  end.

(** [strings.Fields] on the output of a command. *)
Fixpoint fields_go (l word : list ascii) : list string :=
  let flush := if bool_decide (word = []) then [] else [of_bytes word] in
  match l with
  | [] => flush
  | a :: l1 =>
    if space1 a then flush ++ fields_go l1 []
    else match l1 with
    | b :: l2 =>
      if space2 a b then flush ++ fields_go l2 []
      else match l2 with
      | c :: l3 => if space3 a b c then flush ++ fields_go l3 [] else fields_go l1 (word ++ [a])
      | [] => fields_go l1 (word ++ [a])
      end
    | [] => fields_go l1 (word ++ [a])
    end
  end.
Definition Fields (s : string) : list string := fields_go (bytes s) [].

(** What runs while the key file exists. *)
Definition configure_interface (interfaceName : string) (configuration : Configuration) (keyPath : string) : M W unit := λ w,
  let desiredKeys : gset string := list_to_set ((λ peer, Base64 (wp_PublicKey peer)) <$> cf_Peers configuration) in
  let '(removed, w) :=
    match Run ctx "wg" ["show"; interfaceName; "peers"] w with
    | (Err _, w) => (Ok tt, w)
    | (Ok existing, w) => remove_peers interfaceName desiredKeys (Fields existing) w
    end in
  match removed with
  | Err err => (Err err, w)
  | Ok _ =>
    match all_args (cf_Peers configuration) with
    | None => (Err (EWrap relay_ErrInvalidConfig), w)
    | Some peers =>
      let args := ["set"; interfaceName; "private-key"; keyPath; "listen-port"; Itoa (cf_ListenPort configuration)] ++ peers in
      match Run ctx "wg" args w with
      | (Err err, w) => (Err (EWrap err), w)
      | (Ok _, w) =>
        match Run ctx "ip" ["link"; "set"; "up"; "dev"; interfaceName] w with
        | (Err err, w) => (Err (EWrap err), w)
        | (Ok _, w) => (Ok tt, w)
        end
      end
    end
  end.

Definition wireguard_Apply (interfaceName : string) (configuration : Configuration) : M W unit := λ w,
  match Validate configuration with
  | Some err => (Err err, w)
  | None =>
    if negb (validInterfaceName interfaceName) then (Err (EWrap relay_ErrInvalidConfig), w)
    else match relay_contextError with
    | Some err => (Err err, w)
    | None =>
      let '(created, w) :=
        match Run ctx "ip" ["link"; "show"; "dev"; interfaceName] w with
        | (Ok _, w) => (Ok "", w)
        | (Err _, w) => Run ctx "ip" ["link"; "add"; "dev"; interfaceName; "type"; "wireguard"] w
        end in
      match created with
      | Err err => (Err (EWrap err), w)
      | Ok _ =>
        match writePrivateKey (cf_PrivateKey configuration) w with
        | (Err err, w) => (Err err, w)
        | (Ok keyPath, w) =>
          let '(r, w) := configure_interface interfaceName configuration keyPath w in (r, kf_Remove keyPath w)
        end
      end
    end
  end.

Definition wireguard_Down (interfaceName : string) : M W unit := λ w,
  match relay_contextError with
  | Some err => (Err err, w)
  | None =>
    if negb (validInterfaceName interfaceName) then (Err (EWrap relay_ErrInvalidConfig), w)
    else match Run ctx "ip" ["link"; "set"; "down"; "dev"; interfaceName] w with
    | (Err err, w) => (Err (EWrap err), w)
    | (Ok _, w) => (Ok tt, w)
    end
  end.
End Host.

(** ** The agent

    The managers as the two interfaces of the runtime, over the route manager and
    the host, and [cmd/relay-agent/main_linux.go]. *)
Section Agent.
Context {W : Type} `{CommandRunner W, KeyFiles W}.
Variable range : gmap string Prefix → list (string * Prefix).
Variable tempDir : string.

Definition on_host {A} (m : M W A) : M (relay_RouteManager * W) A := λ '(manager, w), let '(r, w) := m w in (r, (manager, w)).
#[export] Instance host_WireGuard : WireGuard (relay_RouteManager * W) := {
  wg_Apply ctx interfaceName configuration := on_host (wireguard_Apply ctx tempDir interfaceName configuration);
  wg_Down ctx interfaceName := on_host (wireguard_Down ctx interfaceName)
}.
#[export] Instance host_Routes : relay_Routes (relay_RouteManager * W) := {
  rs_Apply ctx interfaceName local peers := routes_Apply range ctx interfaceName local peers;
  rs_Clear ctx interfaceName := routes_Clear range ctx interfaceName
}.

(** [file] is what reading the configuration file gives; between the two calls the
    agent waits for a signal. *)
Definition runRelayAgentWithPath (parent : Context) (file : result (list ascii)) : M W unit := λ w,
  match parent, file with
  | nilContext, _ => (Err (EForeign 0), w)
  | _, Err err => (Err (EWrap err), w)
  | _, Ok data =>
    match ParseConfig data with
    | Err err => (Err err, w)
    | Ok config =>
      match runtime_Apply parent config (NewRuntime, (NewRouteManagerWithRunner, w)) with
      | (Err err, (_, (_, w))) => (Err err, w)
      | (Ok _, s) =>
        match runtime_Clear liveContext s with
        | (Err err, (_, (_, w))) => (Err (EWrap err), w)
        | (Ok _, (_, (_, w))) => (Ok tt, w)
        end
      end
    end
  end.
End Agent.
