(* ===== verification/RelayThm.v ===== *)
(** * The relay configuration: one validation for all layers

    What [relay_Validate] accepts, and that nothing it accepts is refused later:
    not by the WireGuard configuration, not by the route manager, not by the
    arguments of the [wg] command. *)

From Stdlib Require Import Ascii.
From S2P Require Import Prelude GoStd Crypto NetIP NetIP6 Wgnt Json Wire Relay RelayHost.

Open Scope Z_scope.

(** ** Parsed keys are bytes *)
Lemma std_val_range a v : std_val a = Some v → 0 ≤ v < 64.
Proof. unfold std_val. repeat case_match; try done; intros [= <-]; lia. Qed.

Lemma decode_quanta_byte n l k : (length l < n)%nat → decode_quanta l = Some k → Forall is_byte k.
Proof.
  revert l k. induction n as [|n IH]; intros l k Hl; [lia|].
  destruct l as [|a [|b [|c [|d l]]]]; cbn [decode_quanta]; try done; [intros [= <-]; constructor|].
  destruct (std_val a) as [x|] eqn:Ea; [|done]. destruct (std_val b) as [y|] eqn:Eb; [|done]. cbn [mbind option_bind].
  apply std_val_range in Ea, Eb. case_bool_decide.
  { destruct (_ && _); [|done]. intros [= <-]. repeat constructor; unfold is_byte; divlia. }
  destruct (std_val c) as [z|] eqn:Ec; [|done]. cbn [mbind option_bind]. apply std_val_range in Ec. case_bool_decide.
  { case_bool_decide; [|done]. intros [= <-]. repeat constructor; unfold is_byte; divlia. }
  destruct (std_val d) as [w|] eqn:Ed; [|done]. apply std_val_range in Ed. cbn [mbind option_bind].
  destruct (decode_quanta l) as [rest|] eqn:Er; [|done]. intros [= <-]. apply IH in Er; [|simpl in Hl; lia].
  repeat constructor; unfold is_byte; [divlia..|done].
Qed.

Lemma ParseKey_ok s k : ParseKey s = Ok k → key_ok k.
Proof.
  intros Hk. split; [by eapply ParseKey_length|]. unfold ParseKey in Hk. destruct (StdDecode s) as [l|] eqn:E; [|done].
  case_bool_decide; [|done]. injection Hk as <-. by eapply decode_quanta_byte in E; [|constructor].
Qed.

Lemma Base64_inj a b : key_ok a → key_ok b → Base64 a = Base64 b → a = b.
Proof. intros Ha Hb H. apply ParseKey_Base64 in Ha, Hb. rewrite H in Ha. congruence. Qed.

(** ** Host prefixes *)
Lemma unusable4_false a : unusable4 a = false → ∃ v, a = Addr4 v ∧ IsUnspecified a = false ∧ IsMulticast a = false.
Proof. unfold unusable4. destruct a as [|v|]; simpl; try done. rewrite orb_false_iff. intros []. by exists v. Qed.

Lemma Masked_host v : Masked (PrefixFrom (Addr4 v) 32) = PrefixFrom (Addr4 v) 32.
Proof. unfold Masked, PrefixFrom, mask_addr; simpl. by rewrite Z.mod_1_r, Z.sub_0_r. Qed.

Lemma routeKey_host v : relay_routeKey (PrefixFrom (Addr4 v) 32) = host_text (Addr4 v).
Proof. unfold relay_routeKey. by rewrite Masked_host. Qed.

Lemma host_text_inj a b : addr4_ok a → addr4_ok b → host_text a = host_text b → a = b.
Proof.
  intros Ha Hb H. apply Addr_String_inj; [done..|]. apply bytes_inj. apply (f_equal bytes) in H. unfold host_text in H.
  rewrite !bytes_app in H. by apply app_inv_tail in H.
Qed.

(** ** What a valid configuration is *)
Record peer_usable (local : Addr) (p : relay_Peer) : Prop := {
  pu_node : blank (rp_NodeID p) = false;
  pu_key : ParseKey (rp_PublicKey p) = Ok (parsed_key (rp_PublicKey p)) ∧ parsed_key (rp_PublicKey p) ≠ zeroKey;
  pu_address : unusable4 (rp_VirtualIPv4 p) = false ∧ rp_VirtualIPv4 p ≠ local;
  pu_endpoint : AddrPort_IsValid (rp_Endpoint p) = true →
    ap_port (rp_Endpoint p) ≠ 0 ∧ IsGlobalUnicast (ap_ip (rp_Endpoint p)) = true ∧ IsLinkLocalUnicast (ap_ip (rp_Endpoint p)) = false
}.

Lemma endpoint_test (a b c d : bool) : a && (b || negb c || d) = false ↔ (a = true → b = false ∧ c = true ∧ d = false).
Proof. destruct a, b, c, d; naive_solver. Qed.

Lemma check_peers_spec local keys addresses peers :
  check_peers local keys addresses peers = None ↔
  Forall (peer_usable local) peers ∧
  NoDup ((λ p, parsed_key (rp_PublicKey p)) <$> peers) ∧ Forall (λ p, parsed_key (rp_PublicKey p) ∉ keys) peers ∧
  NoDup (rp_VirtualIPv4 <$> peers) ∧ Forall (λ p, rp_VirtualIPv4 p ∉ addresses) peers.
Proof.
  revert keys addresses. induction peers as [|p peers IH]; intros keys addresses; cbn [check_peers].
  { split; [|done]. intros _. split_and!; constructor. }
  rewrite !fmap_cons, !Forall_cons, !NoDup_cons. destruct (blank (rp_NodeID p)) eqn:Eb.
  { split; [done|]. intros [[[Hb _ _ _] _] _]. congruence. }
  destruct (ParseKey (rp_PublicKey p)) as [k|] eqn:Ek.
  2: { split; [done|]. intros [[[_ [Hk _] _ _] _] _]. congruence. }
  assert (parsed_key (rp_PublicKey p) = k) as Hpk by (unfold parsed_key; by rewrite Ek).
  unfold Key_IsZero. destruct (bool_decide (k = zeroKey)) eqn:Ez.
  { apply bool_decide_eq_true in Ez. split; [done|]. intros [[[_ [_ Hz] _ _] _] _]. congruence. }
  apply bool_decide_eq_false in Ez. destruct (bool_decide (k ∈ keys)) eqn:Es.
  { apply bool_decide_eq_true in Es. split; [done|]. rewrite Hpk. tauto. }
  apply bool_decide_eq_false in Es. destruct (unusable4 (rp_VirtualIPv4 p)) eqn:Eu.
  { split; [done|]. intros [[[_ _ [Hu _] _] _] _]. congruence. }
  destruct (bool_decide (rp_VirtualIPv4 p = local)) eqn:El.
  { apply bool_decide_eq_true in El. split; [done|]. by intros [[[_ _ [_ Hu] _] _] _]. }
  apply bool_decide_eq_false in El. destruct (bool_decide (rp_VirtualIPv4 p ∈ addresses)) eqn:Ea.
  { apply bool_decide_eq_true in Ea. split; [done|]. tauto. }
  apply bool_decide_eq_false in Ea.
  destruct (AddrPort_IsValid (rp_Endpoint p) && _) eqn:Ee.
  { split; [done|]. intros [[[_ _ _ He] _] _]. apply not_false_iff_true in Ee. destruct Ee. apply endpoint_test.
    intros Hv. destruct (He Hv) as (? & ? & ?). rewrite Z.eqb_neq. done. }
  rewrite endpoint_test, Z.eqb_neq in Ee. rewrite IH, Hpk. split.
  - intros (Hf & Hnk & Hk & Hna & Ha). rewrite Forall_forall in Hk, Ha. split_and!; try done.
    + split; [done|by rewrite Hpk|done|done].
    + intros (q & Hq & Hin)%list_elem_of_fmap. apply (Hk q Hin). set_solver.
    + apply Forall_forall. intros q Hin. specialize (Hk q Hin). set_solver.
    + intros (q & Hq & Hin)%list_elem_of_fmap. apply (Ha q Hin). set_solver.
    + apply Forall_forall. intros q Hin. specialize (Ha q Hin). set_solver.
  - intros ([_ Hf] & [Hik Hnk] & [_ Hk] & [Hia Hna] & [_ Ha]). rewrite Forall_forall in Hk, Ha. split_and!; try done.
    + apply Forall_forall. intros q Hin Hq%elem_of_union. destruct Hq as [Hq%elem_of_singleton|Hq]; [|by apply (Hk q)].
      apply Hik. rewrite <- Hq. apply (list_elem_of_fmap_2 (λ p, parsed_key (rp_PublicKey p))), Hin.
    + apply Forall_forall. intros q Hin Hq%elem_of_union. destruct Hq as [Hq%elem_of_singleton|Hq]; [|by apply (Ha q)].
      apply Hia. rewrite <- Hq. by apply list_elem_of_fmap_2.
Qed.

Record config_ok (c : relay_Config) : Prop := {
  ck_names : blank (rc_NetworkID c) = false ∧ blank (rc_InterfaceName c) = false ∧ validInterfaceName (rc_InterfaceName c) = true;
  ck_key : rc_ListenPort c ≠ 0 ∧ rc_PrivateKey c ≠ zeroKey;
  ck_address : unusable4 (rc_VirtualIPv4 c) = false;
  ck_count : Z.of_nat (length (rc_Peers c)) ≤ maxPeers;
  ck_peers : Forall (peer_usable (rc_VirtualIPv4 c)) (rc_Peers c);
  ck_keys : NoDup ((λ p, parsed_key (rp_PublicKey p)) <$> rc_Peers c);
  ck_addresses : NoDup (rp_VirtualIPv4 <$> rc_Peers c)
}.

Lemma relay_Validate_spec c : relay_Validate c = None ↔ config_ok c.
Proof.
  unfold relay_Validate. destruct (blank (rc_NetworkID c) || _ || _ || _) eqn:E1.
  { split; [done|]. intros [(Hn & Hi & _) [Hp Hk] _ _ _ _ _]. rewrite Hn, Hi in E1. apply Z.eqb_neq in Hp. rewrite Hp in E1.
    unfold Key_IsZero in E1. by rewrite bool_decide_eq_false_2 in E1. }
  rewrite !orb_false_iff in E1. destruct E1 as [[[En Ei] Ep%Z.eqb_neq] Ek%bool_decide_eq_false].
  destruct (validInterfaceName _) eqn:E2; simpl.
  2: { split; [done|]. intros [(_ & _ & Hv) _ _ _ _ _ _]. congruence. }
  destruct (unusable4 _) eqn:E3. { split; [done|]. intros [_ _ Hu _ _ _ _]. congruence. }
  destruct (maxPeers <? _) eqn:E4. { split; [done|]. intros [_ _ _ Hc _ _ _]. lia. }
  rewrite check_peers_spec. split.
  - intros (Hf & Hk & _ & Ha & _). split; [done..|lia|done|done|done].
  - intros [_ _ _ _ Hf Hk Ha]. split_and!; try done; apply Forall_forall; set_solver.
Qed.

(** ** The later layers *)
Definition relay_routes (c : relay_Config) : list Prefix := (λ peer, PrefixFrom (rp_VirtualIPv4 peer) 32) <$> rc_Peers c.

Definition typed_config (c : relay_Config) : Prop :=
  Forall (λ a, ∀ v, a = Addr4 v → 0 ≤ v < 2^32) (rc_VirtualIPv4 c :: (rp_VirtualIPv4 <$> rc_Peers c)).

Lemma usable_addr4 a : unusable4 a = false → (∀ v, a = Addr4 v → 0 ≤ v < 2^32) → addr4_ok a.
Proof. intros (v & -> & _ & _)%unusable4_false H. by apply H. Qed.

Lemma wireguard_peer_ok local p : peer_usable local p → peer_ok (wireguard_peer p).
Proof.
  intros [_ [_ Hk] [(v & Hv & _)%unusable4_false _] He]. split; cbn; [done|..].
  - intros Hval. by apply He.
  - exists 0. lia.
  - rewrite Hv. apply Forall_singleton. done.
Qed.

Lemma WireGuardConfiguration_ok c : config_ok c →
  WireGuardConfiguration c = Ok {| cf_PrivateKey := rc_PrivateKey c; cf_ListenPort := rc_ListenPort c;
                                   cf_Peers := wireguard_peer <$> rc_Peers c; cf_ReplacePeers := true |}.
Proof.
  intros Hc. unfold WireGuardConfiguration. rewrite (proj2 (relay_Validate_spec c) Hc).
  destruct Hc as [_ [_ Hk] _ _ Hp Hkeys _].
  match goal with |- context [Validate ?x] => destruct (Validate x) eqn:E; [|done] end. exfalso.
  apply (f_equal (λ o, bool_decide (o = None))) in E. rewrite bool_decide_eq_true_2 in E; [discriminate|].
  unfold Validate, Key_IsZero; cbn. rewrite bool_decide_eq_false_2 by done. apply validate_peers_spec. split_and!.
  - apply Forall_fmap. eapply Forall_impl; [exact Hp|]. intros p. apply wireguard_peer_ok.
  - by rewrite <- list_fmap_compose.
  - apply Forall_forall. set_solver.
Qed.

Lemma peer_args_ok local p : peer_usable local p → is_Some (peer_args (wireguard_peer p)).
Proof.
  intros [_ _ [(v & Hv & _)%unusable4_false _] _]. unfold peer_args, wireguard_peer; cbn. rewrite Hv. cbn. by eexists.
Qed.
Lemma all_args_ok local peers : Forall (peer_usable local) peers → is_Some (all_args (wireguard_peer <$> peers)).
Proof.
  induction 1 as [|p peers Hp _ IH]; [by eexists|]. rewrite fmap_cons. cbn [all_args]. destruct (peer_args_ok _ _ Hp) as [a ->], IH as [l Hl].
  rewrite Hl. by eexists.
Qed.

Lemma check_routes_ok local seen peers :
  addr4_ok local →
  Forall (λ p, unusable4 (rp_VirtualIPv4 p) = false ∧ rp_VirtualIPv4 p ≠ local ∧ addr4_ok (rp_VirtualIPv4 p) ∧
               host_text (rp_VirtualIPv4 p) ∉ seen) peers →
  NoDup (rp_VirtualIPv4 <$> peers) →
  check_routes local seen ((λ peer, PrefixFrom (rp_VirtualIPv4 peer) 32) <$> peers) = None.
Proof.
  intros Hl. revert seen. induction peers as [|p peers IH]; intros seen Hp Hn; [done|]. rewrite !fmap_cons in *.
  apply Forall_cons in Hp as [(Hu & Hne & Hok & Hs) Hp]. apply NoDup_cons in Hn as [Hni Hn].
  destruct (unusable4_false _ Hu) as (v & Ev & Hun & _). cbn [check_routes]. rewrite Ev in *. cbn [PrefixFrom pf_Addr without_zone].
  rewrite Hun, bool_decide_eq_false_2 by done. cbn. rewrite routeKey_host, bool_decide_eq_false_2 by done.
  apply IH; [|done]. rewrite Forall_forall in Hp |- *. intros q Hq. destruct (Hp q Hq) as (? & ? & Hq4 & ?). split_and!; try done.
  rewrite elem_of_union, elem_of_singleton. intros [Ht|?]; [|done]. apply host_text_inj in Ht; [|done..].
  apply Hni. rewrite <- Ht. by apply list_elem_of_fmap_2.
Qed.

Lemma validateRelayRoutes_ok c : config_ok c → typed_config c →
  validateRelayRoutes (rc_InterfaceName c) (rc_VirtualIPv4 c) (relay_routes c) = None.
Proof.
  intros [(_ & _ & Hi) _ Ha _ Hp _ Hn] [Ht Hts]%Forall_cons. unfold validateRelayRoutes. rewrite Hi.
  pose proof (usable_addr4 _ Ha Ht) as H4. destruct (unusable4_false _ Ha) as (v & Ev & -> & _). rewrite Ev. cbn. rewrite <- Ev.
  apply check_routes_ok; [done| |done]. rewrite Forall_fmap, Forall_forall in Hts. rewrite Forall_forall in Hp |- *. intros p Hin.
  destruct (Hp p Hin) as [_ _ [Hu Hne] _]. split_and!; try done. apply usable_addr4; [done|]. by apply Hts.
Qed.

Lemma parse_peer_width p q : parse_peer p = Ok q → ∀ v, rp_VirtualIPv4 q = Addr4 v → 0 ≤ v < 2^32.
Proof.
  unfold parse_peer. destruct (if blank _ then _ else _); [|done]. destruct (ParseAddr _) eqn:E; [|done]. intros [= <-] v; cbn.
  intros ->. by apply ParseAddr_width in E.
Qed.
Lemma parse_peers_width ps qs : parse_peers ps = Ok qs → Forall (λ q, ∀ v, rp_VirtualIPv4 q = Addr4 v → 0 ≤ v < 2^32) qs.
Proof.
  revert qs. induction ps as [|p ps IH]; intros qs; cbn [parse_peers]; [intros [= <-]; constructor|].
  destruct (parse_peer p) eqn:E; [|done]. destruct (parse_peers ps); [|done]. intros [= <-]. constructor; [|by apply IH].
  by eapply parse_peer_width.
Qed.

Lemma ParseConfig_ok data c : ParseConfig data = Ok c → config_ok c ∧ typed_config c.
Proof.
  unfold ParseConfig. destruct (_ || _); [done|]. destruct (decode_one data) as [[v rest]|]; [|done].
  destruct (into _ _ _) as [wire|]; [|done]. destruct (negb _); [done|]. destruct (ParseKey _); [|done].
  destruct (ParseAddr _) eqn:Ea; [|done]. destruct (parse_peers _) eqn:Ep; [|done].
  destruct (relay_Validate _) eqn:Ev; [done|]. intros [= <-]. split; [by apply relay_Validate_spec|].
  apply Forall_cons; cbn. split; [intros w ->; by apply ParseAddr_width in Ea|]. apply Forall_fmap. by apply parse_peers_width in Ep.
Qed.

(** ** Claims *)

(** C26: the layers of the relay agree on what a valid configuration is. Whatever
    [ParseConfig] accepts is translated to a WireGuard configuration that the
    adapter contract accepts, with the configured key and port and one peer per
    configured peer, its key, endpoint and host route; its interface name and
    routes pass the checks of the route manager; and every peer has arguments for
    the [wg] command. So no configuration is refused half-way, after the host was
    changed. *)
Theorem config_accepted data c :
  ParseConfig data = Ok c →
  ∃ wc, WireGuardConfiguration c = Ok wc ∧ Validate wc = None ∧
    cf_PrivateKey wc = rc_PrivateKey c ∧ cf_ListenPort wc = rc_ListenPort c ∧
    Forall2 (λ w p, ParseKey (rp_PublicKey p) = Ok (wp_PublicKey w) ∧ wp_Endpoint w = rp_Endpoint p ∧
                    wp_AllowedIPs w = [PrefixFrom (rp_VirtualIPv4 p) 32]) (cf_Peers wc) (rc_Peers c) ∧
    validInterfaceName (rc_InterfaceName c) = true ∧
    validateRelayRoutes (rc_InterfaceName c) (rc_VirtualIPv4 c) (relay_routes c) = None ∧
    is_Some (all_args (cf_Peers wc)).
Proof.
  intros [Hc Ht]%ParseConfig_ok. pose proof (WireGuardConfiguration_ok c Hc) as Hw. eexists. split; [exact Hw|].
  pose proof (validateRelayRoutes_ok c Hc Ht) as Hr. destruct Hc as [(_ & _ & Hi) _ _ _ Hp _ _]. split_and!; try done; cbn [cf_Peers].
  - unfold WireGuardConfiguration in Hw. destruct (relay_Validate c); [done|]. cbv zeta in Hw.
    by destruct (Validate _) in Hw |- *.
  - rewrite Forall2_fmap_l. apply Forall_Forall2_diag. eapply Forall_impl; [exact Hp|]. by intros p [_ [? _] _ _].
  - by eapply all_args_ok.
Qed.

Definition sample_config : string :=
  "{'network_id':'n','interface':'wg0','listen_port':51820,'virtual_ipv4':'10.7.0.1','private_key':'BwcHBwcHBwcHBwcHBwcHBwcHBwcHBwcHBwcHBwcHBwc=','peers':[{'node_id':'a','public_key':'CQkJCQkJCQkJCQkJCQkJCQkJCQkJCQkJCQkJCQkJCQk=','virtual_ipv4':'10.7.0.2','endpoint':'[2001:db8::2]:51820'}]}".
(** The text with double quotes for single ones. *)
Definition sample_config_data : list ascii := (λ c, if bool_decide (c = "'"%char) then quote_char else c) <$> bytes sample_config.
Definition sample_relay : relay_Config :=
  {| rc_NetworkID := "n"; rc_InterfaceName := "wg0"; rc_ListenPort := 51820; rc_VirtualIPv4 := Addr4 (10 * 2^24 + 7 * 2^16 + 1);
     rc_PrivateKey := replicate 32 7;
     rc_Peers := [{| rp_NodeID := "a"; rp_PublicKey := "CQkJCQkJCQkJCQkJCQkJCQkJCQkJCQkJCQkJCQkJCQk="; rp_VirtualIPv4 := Addr4 (10 * 2^24 + 7 * 2^16 + 2);
                     rp_Endpoint := {| ap_ip := Addr6 (0x20010db8 * 2^96 + 2) ""; ap_port := 51820 |} |}] |}.
Lemma config_accepted_witness : ParseConfig sample_config_data = Ok sample_relay ∧
  ∃ wc, WireGuardConfiguration sample_relay = Ok wc ∧ Validate wc = None ∧
    cf_PrivateKey wc = rc_PrivateKey sample_relay ∧ cf_ListenPort wc = rc_ListenPort sample_relay ∧
    Forall2 (λ w p, ParseKey (rp_PublicKey p) = Ok (wp_PublicKey w) ∧ wp_Endpoint w = rp_Endpoint p ∧
                    wp_AllowedIPs w = [PrefixFrom (rp_VirtualIPv4 p) 32]) (cf_Peers wc) (rc_Peers sample_relay) ∧
    validInterfaceName (rc_InterfaceName sample_relay) = true ∧
    validateRelayRoutes (rc_InterfaceName sample_relay) (rc_VirtualIPv4 sample_relay) (relay_routes sample_relay) = None ∧
    is_Some (all_args (cf_Peers wc)).
Proof.
  assert (ParseConfig sample_config_data = Ok sample_relay) as H by (vm_compute; reflexivity).
  exact (conj H (config_accepted sample_config_data sample_relay H)).
Defined.
