(* ===== verification/RelayHostThm.v ===== *)
(** * The relay on a Linux host: properties

    What the commands [ip] and [wg] and the calls on files do, as laws on views of
    the host, and what the two managers and the runtime make of it. *)

From Stdlib Require Import Ascii.
From S2P Require Import Prelude GoStd Crypto NetIP Wgnt Json Wire Relay RelayHost RelayThm.

Open Scope Z_scope.

(** ** The host

    Addresses are pairs of a text and a device; a destination has one route, which
    [ip route add] refuses to replace; deleting the last address of a device, or
    taking it down, drops its routes; a peer has its allowed addresses and,
    possibly, an endpoint, which [wg set] leaves alone when it is not given. *)
Definition set_peer (m : gmap string (string * option string)) (p : Wgnt.Peer) : gmap string (string * option string) :=
  let key := Base64 (wp_PublicKey p) in
  let endpoint := if AddrPort_IsValid (wp_Endpoint p) then Some (AddrPort_String (wp_Endpoint p)) else m !! key ≫= snd in
  <[key := (default "" (Prefix_String <$> head (wp_AllowedIPs p)), endpoint)]> m.

Definition off_device (routes : gmap string string) (d : string) : gmap string string := filter (λ x, x.2 ≠ d) routes.

Class LinuxHost (W : Type) `{CommandRunner W} `{KeyFiles W} := {
  host_addresses : W → gset (string * string);
  host_routes : W → gmap string string;
  host_peers : W → string → gmap string (string * option string);
  host_files : W → gset string;
  same_host (w w' : W) : Prop :=
    host_addresses w' = host_addresses w ∧ host_routes w' = host_routes w ∧ (∀ d, host_peers w' d = host_peers w d) ∧
    host_files w' = host_files w;
  law_failed ctx name args w e w' : Run ctx name args w = (Err e, w') → same_host w w';
  law_addr_add ctx p d w o w' : Run ctx "ip" (addr_add p d) w = (Ok o, w') →
    (p, d) ∉ host_addresses w ∧ host_addresses w' = {[(p, d)]} ∪ host_addresses w ∧ host_routes w' = host_routes w ∧
    (∀ x, host_peers w' x = host_peers w x) ∧ host_files w' = host_files w;
  law_addr_del ctx p d w o w' : Run ctx "ip" (addr_del p d) w = (Ok o, w') →
    (p, d) ∈ host_addresses w ∧ host_addresses w' = host_addresses w ∖ {[(p, d)]} ∧
    ((∃ q, (q, d) ∈ host_addresses w') ∧ host_routes w' = host_routes w ∨
     (¬ ∃ q, (q, d) ∈ host_addresses w') ∧ host_routes w' = off_device (host_routes w) d) ∧
    (∀ x, host_peers w' x = host_peers w x) ∧ host_files w' = host_files w;
  law_route_add ctx p d w o w' : Run ctx "ip" (route_add p d) w = (Ok o, w') →
    host_routes w !! p = None ∧ host_routes w' = <[p := d]> (host_routes w) ∧ host_addresses w' = host_addresses w ∧
    (∀ x, host_peers w' x = host_peers w x) ∧ host_files w' = host_files w;
  law_route_del ctx p d w o w' : Run ctx "ip" (route_del p d) w = (Ok o, w') →
    host_routes w !! p = Some d ∧ host_routes w' = delete p (host_routes w) ∧ host_addresses w' = host_addresses w ∧
    (∀ x, host_peers w' x = host_peers w x) ∧ host_files w' = host_files w;
  law_link_show ctx d w o w' : Run ctx "ip" ["link"; "show"; "dev"; d] w = (Ok o, w') → same_host w w';
  law_link_add ctx d w o w' : Run ctx "ip" ["link"; "add"; "dev"; d; "type"; "wireguard"] w = (Ok o, w') → same_host w w';
  law_link_up ctx d w o w' : Run ctx "ip" ["link"; "set"; "up"; "dev"; d] w = (Ok o, w') → same_host w w';
  law_link_down ctx d w o w' : Run ctx "ip" ["link"; "set"; "down"; "dev"; d] w = (Ok o, w') →
    host_routes w' = off_device (host_routes w) d ∧ host_addresses w' = host_addresses w ∧
    (∀ x, host_peers w' x = host_peers w x) ∧ host_files w' = host_files w;
  law_wg_show ctx d w o w' : Run ctx "wg" ["show"; d; "peers"] w = (Ok o, w') →
    same_host w w' ∧ ∀ k, k ∈ Fields o ↔ is_Some (host_peers w d !! k);
  law_wg_remove ctx d k w o w' : Run ctx "wg" ["set"; d; "peer"; k; "remove"] w = (Ok o, w') →
    host_peers w' d = delete k (host_peers w d) ∧ host_routes w' = host_routes w ∧ host_addresses w' = host_addresses w ∧
    (∀ x, x ≠ d → host_peers w' x = host_peers w x) ∧ host_files w' = host_files w;
  law_wg_set ctx d path port peers args w o w' : all_args peers = Some args →
    Run ctx "wg" (["set"; d; "private-key"; path; "listen-port"; port] ++ args) w = (Ok o, w') →
    host_peers w' d = fold_left set_peer peers (host_peers w d) ∧ host_routes w' = host_routes w ∧
    host_addresses w' = host_addresses w ∧ (∀ x, x ≠ d → host_peers w' x = host_peers w x) ∧ host_files w' = host_files w;
  same_network (w w' : W) : Prop :=
    host_addresses w' = host_addresses w ∧ host_routes w' = host_routes w ∧ (∀ d, host_peers w' d = host_peers w d);
  law_MkdirAll dir w r w' : kf_MkdirAll dir w = (r, w') → same_host w w';
  law_CreateTemp dir w r w' : kf_CreateTemp dir w = (r, w') → same_network w w' ∧
    match r with Ok path => path ∉ host_files w ∧ host_files w' = {[path]} ∪ host_files w | Err _ => host_files w' = host_files w end;
  law_Chmod path w r w' : kf_Chmod path w = (r, w') → same_host w w';
  law_WriteString path text w r w' : kf_WriteString path text w = (r, w') → same_host w w';
  law_Close path w r w' : kf_Close path w = (r, w') → same_host w w';
  law_Remove path w : same_network w (kf_Remove path w) ∧ host_files (kf_Remove path w) = host_files w ∖ {[path]}
}.

(** ** Routes *)
Section Routes.
Context {W : Type} `{LinuxHost W}.
Variable range : gmap string Prefix → list (string * Prefix).
Hypothesis range_ok : ∀ m, range m ≡ₚ map_to_list m.
Variable ctx : Context.

(** Nothing but routes and addresses of two devices differs. *)
Definition off_devices (d1 d2 : string) (w w' : W) : Prop :=
  (∀ p d, d ≠ d1 → d ≠ d2 → host_routes w' !! p = Some d ↔ host_routes w !! p = Some d) ∧
  (∀ p d, d ≠ d1 → d ≠ d2 → (p, d) ∈ host_addresses w' ↔ (p, d) ∈ host_addresses w) ∧
  (∀ d, host_peers w' d = host_peers w d) ∧ host_files w' = host_files w.

#[local] Instance off_devices_preorder d1 d2 : PreOrder (off_devices d1 d2).
Proof.
  split; [done|]. intros a b c (R1 & A1 & P1 & F1) (R2 & A2 & P2 & F2). split_and!.
  - intros p d ? ?. by rewrite R2, R1.
  - intros p d ? ?. by rewrite A2, A1.
  - intros d. by rewrite P2, P1.
  - congruence.
Qed.

Lemma same_off d1 d2 w w' : same_host w w' → off_devices d1 d2 w w'.
Proof. intros (A & R & P & F). split_and!; try done; intros; by rewrite ?A, ?R. Qed.

Lemma lookup_off_device (m : gmap string string) d p x : off_device m d !! p = Some x ↔ m !! p = Some x ∧ x ≠ d.
Proof. unfold off_device. by rewrite map_lookup_filter_Some. Qed.

(** One command on routes or addresses, whatever its outcome. *)
Lemma ip_off args d1 d2 d w r w' :
  (∃ p, args = addr_add p d ∨ args = addr_del p d ∨ args = route_add p d ∨ args = route_del p d) → d = d1 ∨ d = d2 →
  Run ctx "ip" args w = (r, w') → off_devices d1 d2 w w'.
Proof.
  intros (p & Hargs) Hd Hr. destruct r as [o|e]; [|by eapply same_off, law_failed].
  destruct Hargs as [->|[->|[->| ->]]].
  - apply law_addr_add in Hr as (_ & Ha & Hr & ? & ?). split_and!; try done; intros q x ? ?; rewrite ?Hr, ?Ha; [done|].
    rewrite elem_of_union, elem_of_singleton. split; [intros [?|?]; [simplify_eq|done]|by right]. destruct Hd; congruence.
  - apply law_addr_del in Hr as (_ & Ha & Hr & ? & ?). split_and!; try done; intros q x ? ?.
    + destruct Hr as [[_ ->]|[_ ->]]; [done|]. rewrite lookup_off_device. split; [tauto|]. intros. split; [done|]. destruct Hd; congruence.
    + rewrite Ha, elem_of_difference, elem_of_singleton. split; [tauto|]. intros. split; [done|]. destruct Hd; congruence.
  - apply law_route_add in Hr as (Hn & Hr & Ha & ? & ?). split_and!; try done; intros q x ? ?; rewrite ?Ha, ?Hr; [|done].
    rewrite lookup_insert_Some. split; [intros [[? ?]|[? ?]]; [destruct Hd; congruence|done]|]. intros Hq. right. split; [|done].
    intros <-. congruence.
  - apply law_route_del in Hr as (Hn & Hr & Ha & ? & ?). split_and!; try done; intros q x ? ?; rewrite ?Ha, ?Hr; [|done].
    rewrite lookup_delete_Some. split; [tauto|]. intros Hq. split; [|done]. intros <-. destruct Hd; congruence.
Qed.

Lemma rollbackAdded_off d local added joined w r w' :
  rollbackAdded ctx d local added joined w = (r, w') → off_devices d d w w'.
Proof.
  revert joined w. induction added as [|p added IH]; intros joined w; cbn [rollbackAdded]; [by intros [= _ <-]|].
  destruct (undo_one ctx d local p w) as [o w1] eqn:E. intros Hr%IH. etrans; [|exact Hr].
  unfold undo_one in E. case_bool_decide; (eapply ip_off; [|by left|exact E]); eauto.
Qed.

(** A key is the text of its prefix. *)
Definition keyed (m : gmap string Prefix) : Prop := ∀ k p, m !! k = Some p → Prefix_String p = k.

Lemma add_routes_spec keep desired d keys added w added' err w' :
  keyed desired → (∀ k, k ∈ keys → is_Some (desired !! k)) →
  add_routes ctx keep desired d keys added w = ((added', err), w') →
  off_devices d d w w' ∧ host_addresses w' = host_addresses w ∧
  (err = None → (∀ k, k ∈ keys → keep k = false → host_routes w !! k = None) ∧
    ∀ p x, host_routes w' !! p = Some x ↔ host_routes w !! p = Some x ∨ p ∈ keys ∧ keep p = false ∧ x = d).
Proof.
  intros Hk. revert added w. induction keys as [|k keys IH]; intros added w Hin; cbn [add_routes].
  { intros [= <- <- <-]. split_and!; try done. intros _. split; [by intros k ?%not_elem_of_nil|]. intros p x. split; [by left|].
    by intros [?|[?%not_elem_of_nil _]]. }
  assert (∀ k', k' ∈ keys → is_Some (desired !! k')) as Hin' by (intros; apply Hin; by right).
  destruct (keep k) eqn:Ek.
  { intros (? & ? & Hok)%IH; [|done]. split_and!; try done. intros He. destruct (Hok He) as [Hno Hr]. split.
    - intros k' [->|?]%elem_of_cons; [congruence|by apply Hno].
    - intros p x. rewrite Hr, elem_of_cons. split; [naive_solver|]. intros [?|([->|?] & ? & ?)]; [by left|congruence|by right]. }
  destruct (Hin k ltac:(by left)) as [q Hq]. rewrite Hq. change (default Prefix_zero (Some q)) with q. rewrite (Hk _ _ Hq).
  destruct (Run ctx "ip" (route_add k d) w) as [[o|e] w1] eqn:E.
  2: { intros [= <- <- <-]. apply law_failed in E as Hs. split_and!; [by apply same_off|by destruct Hs|done]. }
  pose proof (ip_off (route_add k d) d d d _ _ _ ltac:(eauto) ltac:(by left) E) as Hoff.
  apply law_route_add in E as (Hn & Hr1 & Ha1 & _). intros (Hoff' & Ha & Hok)%IH; [|done].
  split_and!; [by etrans|congruence|]. intros He. destruct (Hok He) as [Hno Hr]. split.
  - intros k' [->|Hk']%elem_of_cons Hkeep; [done|]. specialize (Hno k' Hk' Hkeep). rewrite Hr1 in Hno.
    by apply lookup_insert_None in Hno as [? _].
  - intros p x. rewrite Hr, Hr1, lookup_insert_Some, elem_of_cons. split; [naive_solver|].
    intros [Hp|([->|?] & ? & ?)]; [|naive_solver..]. left. right. split; [congruence|done].
Qed.

Lemma remove_stale_spec keep d l w err w' :
  (∀ k p, (k, p) ∈ l → Prefix_String p = k) → remove_stale ctx keep d l w = (err, w') →
  off_devices d d w w' ∧ host_addresses w' = host_addresses w ∧
  (err = None → ∀ p x, host_routes w' !! p = Some x ↔ host_routes w !! p = Some x ∧ ¬ (p ∈ l.*1 ∧ keep p = false)).
Proof.
  revert w. induction l as [|[k q] l IH]; intros w Hl; cbn [remove_stale].
  { intros [= <- <-]. split_and!; try done. intros _ p x. split; [|by intros []]. intros ?. split; [done|].
    by intros [?%not_elem_of_nil _]. }
  assert (∀ k p, (k, p) ∈ l → Prefix_String p = k) as Hl' by (intros; apply Hl; by right).
  destruct (keep k) eqn:Ek.
  { intros (? & ? & Hok)%IH; [|done]. split_and!; try done. intros He p x. rewrite (Hok He), fmap_cons, elem_of_cons; cbn [fst].
    split; intros [? Hn]; (split; [done|]); intros [Hp ?]; apply Hn; split; try done; [|by right]. destruct Hp; [congruence|done]. }
  rewrite (Hl k q) by (by left). destruct (Run ctx "ip" (route_del k d) w) as [[o|e] w1] eqn:E.
  2: { intros [= <- <-]. apply law_failed in E as Hs. split_and!; [by apply same_off|by destruct Hs|done]. }
  pose proof (ip_off (route_del k d) d d d _ _ _ ltac:(eauto) ltac:(by left) E) as Hoff.
  apply law_route_del in E as (Hn & Hr1 & Ha1 & _). intros (Hoff' & Ha & Hok)%IH; [|done].
  split_and!; [by etrans|congruence|]. intros He p x. rewrite (Hok He), Hr1, lookup_delete_Some, fmap_cons, elem_of_cons; cbn [fst].
  split.
  - intros [[? ?] Hno]. split; [done|]. intros [[->|?] ?]; [done|by apply Hno].
  - intros [? Hno]. split_and!; [|done|]; [intros <-; apply Hno; auto|]. intros [? ?]. apply Hno; auto.
Qed.

(** ** Applying *)

(** The record of the manager is what the host has. *)
Record recorded (m : relay_RouteManager) (w : W) : Prop := {
  rd_keyed : keyed (rm_owned m);
  rd_routes k : is_Some (rm_owned m !! k) → host_routes w !! k = Some (rm_iface m);
  rd_address : Addr_IsValid (rm_address m) = true → (host_text (rm_address m), rm_iface m) ∈ host_addresses w;
  rd_idle : Addr_IsValid (rm_address m) = false → rm_owned m = ∅
}.

Lemma recorded_new w : recorded NewRouteManagerWithRunner w.
Proof. split; cbn; try done. intros k [p Hp]. by rewrite lookup_empty in Hp. Qed.

Definition host_peer (p : Prefix) : Prop := ∃ v, p = PrefixFrom (Addr4 v) 32.

Lemma desired_prefixes_spec peers :
  Forall host_peer peers →
  keyed (desired_prefixes peers) ∧ ∀ k, is_Some (desired_prefixes peers !! k) ↔ k ∈ Prefix_String <$> peers.
Proof.
  unfold desired_prefixes. intros Hp.
  assert (∀ m, keyed m → keyed (fold_left (λ m peer, <[relay_routeKey peer := Masked peer]> m) peers m) ∧
    ∀ k, is_Some (fold_left (λ m peer, <[relay_routeKey peer := Masked peer]> m) peers m !! k) ↔
      is_Some (m !! k) ∨ k ∈ Prefix_String <$> peers) as Hgen.
  { induction Hp as [|p peers [v ->] _ IH]; intros m Hm; cbn [fold_left].
    { split; [done|]. intros k. split; [by left|]. by intros [?|?%not_elem_of_nil]. }
    destruct (IH (<[relay_routeKey (PrefixFrom (Addr4 v) 32) := Masked (PrefixFrom (Addr4 v) 32)]> m)) as [Hk Hs].
    { intros k q. rewrite lookup_insert_Some. intros [[<- <-]|[_ ?]]; [done|by apply Hm]. }
    split; [done|]. intros k. rewrite Hs, fmap_cons, elem_of_cons, routeKey_host, Masked_host, lookup_insert_is_Some'.
    change (Prefix_String (PrefixFrom (Addr4 v) 32)) with (host_text (Addr4 v)).
    split; [intros [[->|?]|?]|intros [?|[->|?]]]; auto. }
  destruct (Hgen ∅) as [Hk Hs]; [intros k p; by rewrite lookup_empty|]. split; [done|]. intros k. rewrite Hs, lookup_empty.
  split; [|by right]. by intros [[]|].
Qed.

Lemma check_routes_hosts local seen peers : check_routes local seen peers = None → Forall host_peer peers.
Proof.
  revert seen. induction peers as [|p peers IH]; intros seen; cbn [check_routes]; [intros _; constructor|].
  destruct (_ || _) eqn:E; [done|]. destruct (bool_decide (_ ∈ seen)); [done|]. intros Hp. constructor; [|by eapply IH].
  rewrite !orb_false_iff, !negb_false_iff in E. destruct E as [[[[_ E4] Eb%Z.eqb_eq] _] _].
  destruct p as [a b]; cbn in *. unfold Prefix_Bits in Eb; cbn in Eb. destruct a as [|v|]; try done. exists v.
  unfold PrefixFrom; cbn. f_equal. lia.
Qed.
Lemma validated_routes d local peers :
  validateRelayRoutes d local peers = None → Addr_IsValid local = true ∧ Forall host_peer peers.
Proof.
  unfold validateRelayRoutes. destruct (_ || _) eqn:E; [done|]. intros Hc%check_routes_hosts. split; [|done].
  rewrite !orb_false_iff, !negb_false_iff in E. tauto.
Qed.

Lemma sorted_keys_spec m k : k ∈ sorted_keys m ↔ is_Some (m !! k).
Proof.
  unfold sorted_keys. rewrite SliceStable_elem, list_elem_of_fmap. split.
  - intros ([k' p] & -> & Hin%elem_of_map_to_list). by eexists.
  - intros [p Hp]. exists (k, p). split; [done|by apply elem_of_map_to_list].
Qed.
Lemma range_empty : range ∅ = [].
Proof. apply Permutation_nil_r. by rewrite range_ok, map_to_list_empty. Qed.
Lemma range_keyed m k p : keyed m → (k, p) ∈ range m → Prefix_String p = k.
Proof. intros Hm. rewrite (range_ok m), elem_of_map_to_list. apply Hm. Qed.
Lemma range_keys m k : k ∈ (range m).*1 ↔ is_Some (m !! k).
Proof.
  rewrite (range_ok m), list_elem_of_fmap. split.
  - intros ([k' p] & -> & Hin%elem_of_map_to_list). by eexists.
  - intros [p Hp]. exists (k, p). split; [done|by apply elem_of_map_to_list].
Qed.
Lemma in_map_spec {A} (m : gmap string A) k : in_map m k = true ↔ is_Some (m !! k).
Proof. unfold in_map. destruct (m !! k); split; eauto; [done|]. by intros []. Qed.
Lemma in_map_false {A} (m : gmap string A) k : in_map m k = false ↔ m !! k = None.
Proof. unfold in_map. by destruct (m !! k). Qed.

Definition same_place (m : relay_RouteManager) (local : Addr) (d : string) : bool :=
  bool_decide (rm_address m = local) && bool_decide (rm_iface m = d).

(** The address a call adds, and the one it removes. *)
Definition placed (m : relay_RouteManager) (local : Addr) (d : string) (addresses : gset (string * string)) : gset (string * string) :=
  if same_place m local d then addresses
  else ({[(host_text local, d)]} ∪ addresses)
       ∖ (if Addr_IsValid (rm_address m) then {[(host_text (rm_address m), rm_iface m)]} else ∅).

(** The device that is left, when there is one. *)
Definition old_device (m : relay_RouteManager) (d : string) : string := if Addr_IsValid (rm_address m) then rm_iface m else d.

(** What a successful call leaves. *)
Record applied (m : relay_RouteManager) (local : Addr) (d : string) (peers : list Prefix) (w w' : W) : Prop := {
  ap_routes k : k ∈ Prefix_String <$> peers → host_routes w' !! k = Some d;
  ap_only k x : host_routes w' !! k = Some x →
    k ∈ Prefix_String <$> peers ∧ x = d ∨ host_routes w !! k = Some x ∧ rm_owned m !! k = None;
  ap_kept k x : host_routes w !! k = Some x → rm_owned m !! k = None → x ≠ old_device m d ∨ old_device m d = d →
    host_routes w' !! k = Some x;
  ap_addresses : host_addresses w' = placed m local d (host_addresses w);
  ap_moved : same_place m local d = false → (∀ k, k ∈ Prefix_String <$> peers → rm_owned m !! k = None) ∧
    (host_text local, d) ∉ host_addresses w
}.

Lemma off_left d1 d2 w w' : off_devices d1 d1 w w' → off_devices d1 d2 w w'.
Proof. intros (R & A & P & F). split_and!; try done; intros; [by apply R|by apply A]. Qed.
Lemma off_right d1 d2 w w' : off_devices d2 d2 w w' → off_devices d1 d2 w w'.
Proof. intros (R & A & P & F). split_and!; try done; intros; [by apply R|by apply A]. Qed.

(** The loops of a call between the two address commands. *)
Lemma routes_moved m same local d peers w1 added w2 w3 :
  recorded m w1 → Forall host_peer peers →
  let desired := desired_prefixes peers in
  (∃ added0, add_routes ctx (λ key, in_map (rm_owned m) key && same) desired d (sorted_keys desired) added0 w1 = ((added, None), w2)) →
  remove_stale ctx (λ key, in_map desired key && same) (rm_iface m) (range (rm_owned m)) w2 = (None, w3) →
  same = same_place m local d →
  (∀ k, k ∈ Prefix_String <$> peers → host_routes w3 !! k = Some d) ∧
  (∀ k x, host_routes w3 !! k = Some x →
    k ∈ Prefix_String <$> peers ∧ x = d ∨ host_routes w1 !! k = Some x ∧ rm_owned m !! k = None) ∧
  (∀ k x, host_routes w1 !! k = Some x → rm_owned m !! k = None → host_routes w3 !! k = Some x) ∧
  (same = false → ∀ k, k ∈ Prefix_String <$> peers → rm_owned m !! k = None) ∧
  host_addresses w3 = host_addresses w1.
Proof.
  intros [Hk Hr _ _] Hp desired [added0 Ha] Hs Hsame. destruct (desired_prefixes_spec peers Hp) as [Hdk Hd]. fold desired in Hdk, Hd.
  apply add_routes_spec in Ha as (_ & Ha2 & Hok); [|done|by intros k ?%sorted_keys_spec].
  destruct (Hok eq_refl) as [Hno H2]. clear Hok.
  apply remove_stale_spec in Hs as (_ & Ha3 & Hok); [|intros k q; by apply range_keyed]. specialize (Hok eq_refl).
  setoid_rewrite sorted_keys_spec in H2. setoid_rewrite sorted_keys_spec in Hno. setoid_rewrite range_keys in Hok.
  setoid_rewrite Hd in H2. setoid_rewrite Hd in Hno.
  assert (same = false → ∀ k, k ∈ Prefix_String <$> peers → rm_owned m !! k = None) as Hmoved.
  { intros -> k Hin. specialize (Hno k Hin ltac:(by rewrite andb_false_r)).
    destruct (rm_owned m !! k) eqn:E; [|done]. rewrite (Hr k) in Hno by eauto. done. }
  split_and!; [| | |done|congruence].
  - intros k Hin. apply Hok. split.
    + apply H2. destruct (in_map (rm_owned m) k && same) eqn:E; [|by right]. left.
      apply andb_true_iff in E as [Ei%in_map_spec ->]. rewrite (Hr k Ei). symmetry in Hsame.
      apply andb_true_iff in Hsame as [_ ->%bool_decide_eq_true]. done.
    + intros [Hown Hkeep]. assert (in_map desired k = true) as Hin' by (by apply in_map_spec, Hd). rewrite Hin' in Hkeep. cbn in Hkeep.
      rewrite (Hmoved Hkeep k Hin) in Hown. by destruct Hown.
  - intros k x (Hx & Hn)%Hok. apply H2 in Hx as [Hx|(Hin & _ & ->)]; [|by left].
    destruct (rm_owned m !! k) as [p|] eqn:E; [|by right]. left.
    destruct (in_map desired k && same) eqn:Ek; [|destruct Hn; eauto].
    apply andb_true_iff in Ek as [Ek%in_map_spec%Hd ->]. split; [done|]. rewrite (Hr k) in Hx by eauto. injection Hx as <-.
    symmetry in Hsame. by apply andb_true_iff in Hsame as [_ ->%bool_decide_eq_true].
  - intros k x Hx Hn. apply Hok. split; [apply H2; by left|]. intros [Hown _]. rewrite Hn in Hown. by destruct Hown.
Qed.

Lemma remove_address m local d w w1 w3 w4 o :
  recorded m w → (host_text local, d) ∉ host_addresses w → host_addresses w1 = {[(host_text local, d)]} ∪ host_addresses w →
  host_addresses w3 = host_addresses w1 → same_place m local d = false →
  (if Addr_IsValid (rm_address m) && negb (same_place m local d)
   then Run ctx "ip" (addr_del (host_text (rm_address m)) (rm_iface m)) w3 else (Ok "", w3)) = (Ok o, w4) →
  off_devices d (old_device m d) w3 w4 ∧ host_addresses w4 = placed m local d (host_addresses w) ∧
  (host_text local, d) ∈ host_addresses w4 ∧
  (∀ k x, host_routes w4 !! k = Some x → host_routes w3 !! k = Some x) ∧
  (∀ k x, host_routes w3 !! k = Some x → x ≠ old_device m d ∨ old_device m d = d → host_routes w4 !! k = Some x).
Proof.
  intros Hrec Hnew Hw1 Hw3 Hs. unfold placed, old_device. rewrite Hs, andb_true_r. destruct (Addr_IsValid (rm_address m)) eqn:Ev.
  2: { intros [= _ <-]. split_and!; try done; [rewrite Hw3, Hw1; set_solver|]. rewrite Hw3, Hw1. set_solver. }
  intros E. pose proof (ip_off (addr_del (host_text (rm_address m)) (rm_iface m)) d (rm_iface m) _ _ _ _ ltac:(eauto) ltac:(by right) E) as Hoff.
  apply law_addr_del in E as (Hin & Ha & Hr & _).
  assert (host_addresses w4 = ({[(host_text local, d)]} ∪ host_addresses w) ∖ {[(host_text (rm_address m), rm_iface m)]}) as Ha4.
  { by rewrite Ha, Hw3, Hw1. }
  assert ((host_text local, d) ∈ host_addresses w4) as Hl.
  { rewrite Ha4. apply elem_of_difference. split; [set_solver|]. intros Heq%elem_of_singleton. apply Hnew. rewrite Heq.
    by apply (rd_address m w Hrec). }
  split_and!; try done.
  - intros k x. destruct Hr as [[_ ->]|[_ ->]]; [done|]. rewrite lookup_off_device. tauto.
  - intros k x Hx Hd. destruct Hr as [[_ ->]|[Hno ->]]; [done|]. rewrite lookup_off_device. split; [done|].
    intros ->. destruct Hd as [?|Hd]; [done|]. apply Hno. exists (host_text local). by rewrite Hd.
Qed.

Lemma rollback_from d iface local added w0 w r w' :
  off_devices d iface w0 w → rollbackAdded ctx d local added None w = (r, w') → off_devices d iface w0 w'.
Proof. intros Hw Hr%rollbackAdded_off. etrans; [exact Hw|by apply off_left]. Qed.

(** The first step: the address, unless it is in place. *)
Lemma add_address m local d w first w1 :
  recorded m w → Addr_IsValid local = true →
  (if same_place m local d then (Ok [], w)
   else match Run ctx "ip" (addr_add (host_text local) d) w with
        | (Err err, w) => (Err (EWrap err), w)
        | (Ok _, w) => (Ok [PrefixFrom local 32], w)
        end) = (first, w1) →
  off_devices d d w w1 ∧
  (is_ok first = true → recorded m w1 ∧ host_routes w1 = host_routes w ∧
    if same_place m local d then w1 = w
    else (host_text local, d) ∉ host_addresses w ∧ host_addresses w1 = {[(host_text local, d)]} ∪ host_addresses w).
Proof.
  intros Hrec Hv. destruct (same_place m local d) eqn:Es; [by intros [= <- <-]|].
  destruct (Run ctx "ip" (addr_add (host_text local) d) w) as [[o|e] w2] eqn:E; intros [= <- <-].
  2: { split; [|done]. by eapply same_off, law_failed. }
  split; [by apply (ip_off (addr_add (host_text local) d) d d d _ _ _ ltac:(eauto) ltac:(by left) E)|]. intros _.
  apply law_addr_add in E as (Hn & Ha & Hr & _). split_and!; try done. destruct Hrec as [? Hro Had ?].
  split; [done| |intros Hva; rewrite Ha; apply elem_of_union_r, Had, Hva|done]. intros k. rewrite Hr. apply Hro.
Qed.

Lemma routes_Apply_spec m w d local peers r m' w' :
  recorded m w → routes_Apply range ctx d local peers (m, w) = (r, (m', w')) →
  off_devices d (old_device m d) w w' ∧
  match r with
  | Err _ => m' = m
  | Ok _ => m' = {| rm_owned := desired_prefixes peers; rm_address := local; rm_iface := d |} ∧ recorded m' w' ∧
            applied m local d peers w w'
  end.
Proof.
  intros Hrec. cbn [routes_Apply]. destruct (validateRelayRoutes d local peers) eqn:Ev; [by intros [= <- <- <-]|].
  destruct (relay_contextError ctx); [by intros [= <- <- <-]|]. apply validated_routes in Ev as [Hv Hp].
  fold (same_place m local d). cbv zeta. set (desired := desired_prefixes peers).
  destruct (if same_place m local d then _ else _) as [first w1] eqn:E1. apply add_address in E1 as [Hoff1 Hok1]; [|done..].
  destruct first as [added0|e]; [|intros [= <- <- <-]; split; [by apply off_left|done]].
  destruct (Hok1 eq_refl) as (Hrec1 & Hr1 & Ha1). clear Hok1. destruct (desired_prefixes_spec peers Hp) as [Hdk Hd]. fold desired in Hdk, Hd.
  destruct (add_routes _ _ _ _ _ _ _) as [[added err] w2] eqn:E2. pose proof E2 as Eadd.
  apply add_routes_spec in E2 as (Hoff2 & _ & _); [|done|by intros k ?%sorted_keys_spec].
  assert (off_devices d (old_device m d) w w2) as Hw2 by (etrans; [apply off_left, Hoff1|apply off_left, Hoff2]).
  destruct err as [e|].
  { destruct (rollbackAdded _ _ _ _ _ _) as [x w3] eqn:Er. intros [= <- <- <-]. split; [by eapply rollback_from|done]. }
  destruct (remove_stale _ _ _ _ _) as [err w3] eqn:E3. pose proof E3 as Erem.
  apply remove_stale_spec in E3 as (Hoff3 & _ & _); [|intros k q; apply range_keyed, (rd_keyed m w Hrec)].
  assert (off_devices d (old_device m d) w w3) as Hw3.
  { etrans; [exact Hw2|]. unfold old_device. destruct (Addr_IsValid (rm_address m)) eqn:Ea; [by apply off_right|].
    rewrite (rd_idle m w Hrec Ea), range_empty in Erem. by injection Erem as _ <-. }
  destruct err as [e|].
  { destruct (rollbackAdded _ _ _ _ _ _) as [x w4] eqn:Er. intros [= <- <- <-]. split; [by eapply rollback_from|done]. }
  destruct (routes_moved m (same_place m local d) local d peers w1 added w2 w3 Hrec1 Hp ltac:(by eexists) Erem eq_refl)
    as (Hall & Honly & Hkept & Hmoved & Ha3).
  destruct (if Addr_IsValid _ && _ then _ else _) as [last w4] eqn:E4.
  destruct last as [o|e].
  2: { destruct (rollbackAdded _ _ _ _ _ _) as [x w5] eqn:Er. intros [= <- <- <-]. split; [|done]. eapply rollback_from; [|exact Er].
       destruct (Addr_IsValid _ && _); [|done]. apply law_failed in E4. etrans; [exact Hw3|by apply same_off]. }
  intros [= <- <- <-]. rewrite Hr1 in Honly, Hkept.
  assert (off_devices d (old_device m d) w3 w4 ∧ host_addresses w4 = placed m local d (host_addresses w) ∧
    (host_text local, d) ∈ host_addresses w4 ∧ (∀ k x, host_routes w4 !! k = Some x → host_routes w3 !! k = Some x) ∧
    (∀ k x, host_routes w3 !! k = Some x → x ≠ old_device m d ∨ old_device m d = d → host_routes w4 !! k = Some x)) as (Hoff4 & Ha4 & Hl & Hsub & Hsup).
  { pose proof (remove_address m local d w w1 w3 w4 o Hrec) as Hrm.
    destruct (same_place m local d) eqn:Es; [|destruct Ha1; by apply Hrm].
    rewrite andb_false_r in E4. injection E4 as _ <-. unfold placed. rewrite Es. subst w1.
    apply andb_true_iff in Es as [<-%bool_decide_eq_true <-%bool_decide_eq_true]. split_and!; try done.
    rewrite Ha3. by apply (rd_address m w Hrec). }
  assert (∀ k, k ∈ Prefix_String <$> peers → host_routes w4 !! k = Some d) as Hall4.
  { intros k Hk. apply Hsup; [by apply Hall|]. destruct (decide (old_device m d = d)); [by right|left; congruence]. }
  split; [by etrans|]. split_and!; [done| |].
  - split; cbn; [done| |done|congruence]. intros k Hk%Hd. by apply Hall4.
  - split; [done| | |done|].
    + intros k x Hx%Hsub. by apply Honly.
    + intros k x Hx Hn Hdev. apply Hsup; [by apply Hkept|done].
    + intros Hs. split; [by apply Hmoved|]. rewrite Hs in Ha1. by destruct Ha1.
Qed.

(** ** Clearing *)
Lemma clear_routes_spec d l joined w r w' :
  (∀ k p, (k, p) ∈ l → Prefix_String p = k) → clear_routes ctx d l joined w = (r, w') →
  off_devices d d w w' ∧ host_addresses w' = host_addresses w ∧
  (r = None → joined = None ∧ ∀ p x, host_routes w' !! p = Some x ↔ host_routes w !! p = Some x ∧ p ∉ l.*1).
Proof.
  revert joined w. induction l as [|[k q] l IH]; intros joined w Hl; cbn [clear_routes].
  { intros [= <- <-]. split_and!; try done. intros ->. split; [done|]. intros p x. split; [|by intros []]. intros ?. split; [done|].
    apply not_elem_of_nil. }
  rewrite (Hl k q) by (by left). assert (∀ k p, (k, p) ∈ l → Prefix_String p = k) as Hl' by (intros; apply Hl; by right).
  destruct (Run ctx "ip" (route_del k d) w) as [[o|e] w1] eqn:E; intros (Hoff' & Ha & Hok)%IH; try done;
    pose proof (ip_off (route_del k d) d d d _ _ _ ltac:(eauto) ltac:(by left) E) as Hoff.
  - apply law_route_del in E as (Hn & Hr1 & Ha1 & _). split_and!; [by etrans|congruence|]. intros [Hj Hr]%Hok. split; [done|].
    intros p x. rewrite Hr, Hr1, lookup_delete_Some, fmap_cons, not_elem_of_cons; cbn [fst]. split; [naive_solver|].
    intros (? & ? & ?). split_and!; [congruence|done..].
  - apply law_failed in E as (Ha1 & _). split_and!; [by etrans|congruence|]. intros [Hj _]%Hok. by apply errors_Join_None in Hj as [_ ?].
Qed.

Lemma routes_Clear_spec m w r m' w' :
  recorded m w → routes_Clear range ctx (rm_iface m) (m, w) = (r, (m', w')) →
  off_devices (rm_iface m) (rm_iface m) w w' ∧
  match r with
  | Err _ => m' = m
  | Ok _ => m' = NewRouteManagerWithRunner ∧
      (∀ k x, host_routes w' !! k = Some x → host_routes w !! k = Some x ∧ rm_owned m !! k = None) ∧
      (∀ k x, host_routes w !! k = Some x → rm_owned m !! k = None → x ≠ rm_iface m → host_routes w' !! k = Some x) ∧
      host_addresses w' =
        host_addresses w ∖ (if Addr_IsValid (rm_address m) then {[(host_text (rm_address m), rm_iface m)]} else ∅)
  end.
Proof.
  intros Hrec. cbn [routes_Clear]. destruct (relay_contextError ctx); [by intros [= <- <- <-]|].
  replace (if bool_decide (rm_iface m = "") then rm_iface m else rm_iface m) with (rm_iface m) by (by case_bool_decide).
  rewrite (bool_decide_eq_true_2 (rm_iface m = rm_iface m)) by done. rewrite andb_false_r. cbv zeta.
  destruct (clear_routes _ _ _ _ _) as [joined w1] eqn:E1.
  apply clear_routes_spec in E1 as (Hoff & Ha & Hok); [|intros k q; apply range_keyed, (rd_keyed m w Hrec)].
  assert (joined = None → ∀ p x, host_routes w1 !! p = Some x ↔ host_routes w !! p = Some x ∧ rm_owned m !! p = None) as Hr1.
  { intros [_ Hr]%Hok p x. rewrite Hr, range_keys, eq_None_not_Some. done. }
  destruct (Addr_IsValid (rm_address m)) eqn:Ev.
  2: { destruct joined; intros [= <- <- <-]; (split; [done|]); [done|]. split_and!; [done| | |set_solver].
       - intros k x. by apply Hr1.
       - intros k x ? ? _. by apply Hr1. }
  destruct (Run _ _ _ _) as [[o|e] w2] eqn:E2;
    pose proof (ip_off (addr_del (host_text (rm_address m)) (rm_iface m)) (rm_iface m) (rm_iface m) _ _ _ _ ltac:(eauto) ltac:(by left) E2) as Hoff2;
    assert (off_devices (rm_iface m) (rm_iface m) w w2) as Hw2 by (etrans; [exact Hoff|exact Hoff2]).
  - apply law_addr_del in E2 as (_ & Ha2 & Hr2 & _). destruct joined; intros [= <- <- <-]; (split; [done|]); [done|].
    specialize (Hr1 eq_refl). split_and!; [done| | |congruence].
    + intros k x Hx. apply Hr1. destruct Hr2 as [[_ Hr2]|[_ Hr2]]; rewrite Hr2 in Hx; [done|]. by apply lookup_off_device in Hx as [? _].
    + intros k x Hx Hn Hne. destruct Hr2 as [[_ ->]|[_ ->]]; [by apply Hr1|]. apply lookup_off_device. split; [by apply Hr1|done].
  - destruct (errors_Join joined (Some e)) eqn:Ej; [|by apply errors_Join_None in Ej as [_ ?]]. by intros [= <- <- <-].
Qed.
End Routes.

(** ** The WireGuard interface *)
Section Interface.
Context {W : Type} `{LinuxHost W}.
Variable ctx : Context.
Variable tempDir : string.

Lemma same_host_trans (w1 w2 w3 : W) : same_host w1 w2 → same_host w2 w3 → same_host w1 w3.
Proof. intros (A & R & P & F) (A' & R' & P' & F'). split_and!; try congruence; intros d; by rewrite P', P. Qed.
Lemma same_network_trans (w1 w2 w3 : W) : same_network w1 w2 → same_network w2 w3 → same_network w1 w3.
Proof. intros (A & R & P) (A' & R' & P'). split_and!; try congruence; intros d; by rewrite P', P. Qed.
Lemma same_host_network (w w' : W) : same_host w w' → same_network w w' ∧ host_files w' = host_files w.
Proof. by intros (A & R & P & F). Qed.

(** The key file is there exactly when its path is returned. *)
Lemma writePrivateKey_spec key w r w' :
  writePrivateKey tempDir key w = (r, w') →
  same_network w w' ∧
  match r with Ok path => path ∉ host_files w ∧ host_files w' = {[path]} ∪ host_files w | Err _ => host_files w' = host_files w end.
Proof.
  unfold writePrivateKey, bind. destruct ((if bool_decide (tempDir = "") then ret tt else kf_MkdirAll tempDir) w) as [[[]|e] w1] eqn:E1.
  all: assert (same_host w w1) as [N1 F1]%same_host_network
    by (case_bool_decide; [unfold ret in E1; by simplify_eq|by eapply law_MkdirAll]).
  2: by intros [= <- <-].
  destruct (kf_CreateTemp tempDir w1) as [[path|e] w2] eqn:E2; apply law_CreateTemp in E2 as [N2 F2];
    pose proof (same_network_trans _ _ _ N1 N2) as N.
  2: { intros [= <- <-]. split; [done|congruence]. }
  rewrite F1 in F2. destruct F2 as [Hnew F2].
  assert (∀ w3, same_host w2 w3 → same_network w (kf_Remove path w3) ∧ host_files (kf_Remove path w3) = host_files w) as Hundo.
  { intros w3 [N3 F3]%same_host_network. destruct (law_Remove path w3) as [NR FR].
    split; [by eapply same_network_trans, NR; eapply same_network_trans|]. rewrite FR, F3, F2. set_solver. }
  destruct (kf_Chmod path w2) as [[[]|e] w3] eqn:E3; apply law_Chmod in E3; [|intros [= <- <-]; by apply Hundo].
  destruct (kf_WriteString _ _ w3) as [[[]|e] w4] eqn:E4; apply law_WriteString in E4.
  2: { intros [= <- <-]. destruct (kf_Close path w4) as [r5 w5] eqn:E5. apply law_Close in E5. apply Hundo.
       by eapply same_host_trans, E5; eapply same_host_trans. }
  destruct (kf_Close path w4) as [[[]|e] w5] eqn:E5; apply law_Close in E5; intros [= <- <-].
  all: assert (same_host w2 w5) as Hs by (by eapply same_host_trans, E5; eapply same_host_trans).
  - apply same_host_network in Hs as [N3 F3]. split; [by eapply same_network_trans|]. rewrite F3. done.
  - by apply Hundo.
Qed.

(** Only the peers of one device differ. *)
Definition only_peers (d : string) (w w' : W) : Prop :=
  host_addresses w' = host_addresses w ∧ host_routes w' = host_routes w ∧ (∀ x, x ≠ d → host_peers w' x = host_peers w x) ∧
  host_files w' = host_files w.
#[local] Instance only_peers_preorder d : PreOrder (only_peers d).
Proof.
  split; [done|]. intros a b c (A & R & P & F) (A' & R' & P' & F'). split_and!; try congruence; intros x Hx; by rewrite P', P.
Qed.
Lemma same_only d w w' : same_host w w' → only_peers d w w'.
Proof. by intros (A & R & P & F). Qed.

Lemma remove_peers_spec d keep shown w r w' :
  remove_peers ctx d keep shown w = (r, w') →
  only_peers d w w' ∧ (is_ok r = true → ∀ k, host_peers w' d !! k =
    if bool_decide (k ∈ shown ∧ k ∉ keep) then None else host_peers w d !! k).
Proof.
  revert w. induction shown as [|x shown IH]; intros w; cbn [remove_peers].
  { intros [= <- <-]. split; [done|]. intros _ k. rewrite bool_decide_eq_false_2; [done|]. by intros [?%not_elem_of_nil _]. }
  case_bool_decide as Hx.
  { intros [? Hok]%IH. split; [done|]. intros Ho k. rewrite (Hok Ho k).
    destruct (decide (k ∈ shown ∧ k ∉ keep)) as [Hk|Hk].
    - rewrite !bool_decide_eq_true_2; set_solver.
    - rewrite !bool_decide_eq_false_2; set_solver. }
  destruct (Run ctx "wg" ["set"; d; "peer"; x; "remove"] w) as [[o|e] w1] eqn:E.
  2: { intros [= <- <-]. apply law_failed in E. split; [by apply same_only|done]. }
  apply law_wg_remove in E as (Hp & Hr & Ha & Ho & Hf). intros [Hoff Hok]%IH. split; [etrans; [|exact Hoff]; done|].
  intros Hr' k. rewrite (Hok Hr' k), Hp. destruct (decide (k = x)) as [->|Hne].
  - rewrite lookup_delete_eq, (bool_decide_eq_true_2 (x ∈ x :: shown ∧ x ∉ keep)) by set_solver. by case_bool_decide.
  - rewrite lookup_delete_ne by done. destruct (decide (k ∈ shown ∧ k ∉ keep)) as [Hk|Hk].
    + rewrite !bool_decide_eq_true_2; set_solver.
    + rewrite !bool_decide_eq_false_2; set_solver.
Qed.

Definition peer_key (p : Wgnt.Peer) : string := Base64 (wp_PublicKey p).
Definition allowed_text (p : Wgnt.Peer) : string := default "" (Prefix_String <$> head (wp_AllowedIPs p)).

(** A peer is on the interface as it is configured. *)
Definition configured (peers : gmap string (string * option string)) (p : Wgnt.Peer) : Prop :=
  ∃ e, peers !! peer_key p = Some (allowed_text p, e) ∧
       (AddrPort_IsValid (wp_Endpoint p) = true → e = Some (AddrPort_String (wp_Endpoint p))).

Lemma fold_set_peer peers m :
  NoDup (peer_key <$> peers) →
  (∀ p, p ∈ peers → configured (fold_left set_peer peers m) p) ∧
  ∀ k, k ∉ peer_key <$> peers → fold_left set_peer peers m !! k = m !! k.
Proof.
  revert m. induction peers as [|p peers IH]; intros m; cbn [fold_left].
  { intros _. split; [by intros p ?%not_elem_of_nil|done]. }
  rewrite fmap_cons, NoDup_cons. intros [Hp Hn]. destruct (IH (set_peer m p) Hn) as [Hin Hout]. split.
  - intros q [->|?]%elem_of_cons; [|by apply Hin]. unfold configured. rewrite (Hout _ Hp). unfold set_peer.
    rewrite lookup_insert_eq. eexists. split; [done|]. by intros ->.
  - intros k [Hk Hks]%not_elem_of_cons. rewrite Hout by done. unfold set_peer. rewrite lookup_insert_ne; [done|]. intros Heq. by apply Hk.
Qed.

Lemma configure_interface_spec d wc path w r w' :
  NoDup (peer_key <$> cf_Peers wc) → configure_interface ctx d wc path w = (r, w') →
  only_peers d w w' ∧
  (is_ok r = true → Forall (configured (host_peers w' d)) (cf_Peers wc) ∧
    (is_ok (Run ctx "wg" ["show"; d; "peers"] w).1 = true → ∀ k, is_Some (host_peers w' d !! k) → k ∈ peer_key <$> cf_Peers wc)).
Proof.
  intros Hn. unfold configure_interface. set (keys := list_to_set _).
  assert (∀ k, k ∈ keys ↔ k ∈ peer_key <$> cf_Peers wc) as Hkeys by (intros k; apply elem_of_list_to_set).
  destruct (match Run ctx "wg" _ w with (Ok _, _) => _ | _ => _ end) as [removed w1] eqn:E1.
  assert (only_peers d w w1 ∧ (is_ok removed = true → is_ok (Run ctx "wg" ["show"; d; "peers"] w).1 = true →
    ∀ k, is_Some (host_peers w1 d !! k) → k ∈ keys)) as [Hw1 Hshow].
  { destruct (Run ctx "wg" ["show"; d; "peers"] w) as [[out|e] w0] eqn:E0; cbn.
    - apply law_wg_show in E0 as [Hs Hout]. apply remove_peers_spec in E1 as [Hoff Hok].
      split; [etrans; [apply same_only, Hs|done]|]. intros Ho _ k. rewrite (Hok Ho). case_bool_decide as Hk; [by intros []|].
      destruct Hs as (_ & _ & -> & _). intros Hsome. destruct (decide (k ∈ keys)); [done|]. destruct Hk. split; [by apply Hout|done].
    - injection E1 as <- <-. apply law_failed in E0. split; [by apply same_only|done]. }
  destruct removed as [[]|e]; [|intros [= <- <-]; done]. specialize (Hshow eq_refl).
  destruct (all_args (cf_Peers wc)) as [args|] eqn:Ea; [|intros [= <- <-]; done].
  destruct (Run ctx "wg" _ w1) as [[o|e] w2] eqn:E2.
  2: { intros [= <- <-]. apply law_failed in E2. split; [|done]. etrans; [exact Hw1|by apply same_only]. }
  apply (law_wg_set _ _ _ _ _ _ _ _ _ Ea) in E2 as (Hp2 & Hr2 & Ha2 & Ho2 & Hf2).
  assert (only_peers d w w2) as Hw2 by (etrans; [exact Hw1|done]).
  destruct (Run ctx "ip" _ w2) as [[o'|e] w3] eqn:E3; intros [= <- <-].
  2: { apply law_failed in E3. split; [|done]. etrans; [exact Hw2|by apply same_only]. }
  apply law_link_up in E3. split; [etrans; [exact Hw2|by apply same_only]|]. intros _.
  destruct E3 as (_ & _ & -> & _). rewrite Hp2. destruct (fold_set_peer (cf_Peers wc) (host_peers w1 d) Hn) as [Hin Hout]. split.
  - apply Forall_forall, Hin.
  - intros Hs k Hk. destruct (decide (k ∈ peer_key <$> cf_Peers wc)) as [|Hno]; [done|]. rewrite (Hout k Hno) in Hk.
    apply Hkeys. by apply Hshow.
Qed.

(** The interface after a call: what it was told to be; the [wg show] that it
    relies on to find other peers may fail. *)
Lemma wireguard_Apply_spec d wc w r w' :
  NoDup (peer_key <$> cf_Peers wc) → wireguard_Apply ctx tempDir d wc w = (r, w') →
  only_peers d w w' ∧
  (is_ok r = true → Forall (configured (host_peers w' d)) (cf_Peers wc) ∧
    ((∀ w, is_ok (Run ctx "wg" ["show"; d; "peers"] w).1 = true) →
     ∀ k, is_Some (host_peers w' d !! k) → k ∈ peer_key <$> cf_Peers wc)).
Proof.
  intros Hn. unfold wireguard_Apply. destruct (Validate wc); [by intros [= <- <-]|]. destruct (negb _); [by intros [= <- <-]|].
  destruct (relay_contextError ctx); [by intros [= <- <-]|].
  destruct (match Run ctx "ip" ["link"; "show"; "dev"; d] w with (Ok _, _) => _ | _ => _ end) as [created w1] eqn:E1.
  assert (same_host w w1) as [N1 F1]%same_host_network.
  { destruct (Run ctx "ip" ["link"; "show"; "dev"; d] w) as [[o|e] w0] eqn:E0.
    - injection E1 as <- <-. by eapply law_link_show.
    - apply law_failed in E0. eapply same_host_trans; [exact E0|].
      destruct created; [by eapply law_link_add|by eapply law_failed]. }
  destruct created as [o|e].
  2: { intros [= <- <-]. split; [|done]. destruct N1 as (? & ? & ?). split_and!; auto. }
  destruct (writePrivateKey tempDir (cf_PrivateKey wc) w1) as [[path|e] w2] eqn:E2; apply writePrivateKey_spec in E2 as [N2 F2];
    pose proof (same_network_trans _ _ _ N1 N2) as (A & R & P).
  2: { intros [= <- <-]. split; [|done]. split_and!; auto. congruence. }
  destruct F2 as [Hnew F2]. destruct (configure_interface ctx d wc path w2) as [r3 w3] eqn:E3. intros [= <- <-].
  apply configure_interface_spec in E3 as [(A3 & R3 & P3 & F3) Hok]; [|done].
  destruct (law_Remove path w3) as [(AR & RR & PR) FR]. split.
  - split_and!; [congruence|congruence| |].
    + intros x Hx. by rewrite PR, P3, P.
    + rewrite FR, F3, F2, F1. rewrite F1 in Hnew. set_solver.
  - intros Ho. rewrite PR. destruct (Hok Ho) as [Hc Hall]. split; [done|]. intros Hs. apply Hall, Hs.
Qed.

Lemma wireguard_Down_spec d w r w' :
  wireguard_Down ctx d w = (r, w') →
  host_addresses w' = host_addresses w ∧ (∀ x, host_peers w' x = host_peers w x) ∧ host_files w' = host_files w ∧
  (host_routes w' = host_routes w ∨ host_routes w' = off_device (host_routes w) d) ∧
  (is_ok r = true → host_routes w' = off_device (host_routes w) d).
Proof.
  unfold wireguard_Down. destruct (relay_contextError ctx); [intros [= <- <-]; split_and!; auto; done|]. destruct (negb _); [intros [= <- <-]; split_and!; auto; done|].
  destruct (Run ctx "ip" _ w) as [[o|e] w1] eqn:E; intros [= <- <-].
  - apply law_link_down in E as (? & ? & ? & ?). split_and!; auto.
  - apply law_failed in E as (? & ? & ? & ?). split_and!; auto. done.
Qed.
End Interface.

(** ** The agent *)
Section Agent.
Context {W : Type} `{LinuxHost W}.
Variable range : gmap string Prefix → list (string * Prefix).
Hypothesis range_ok : ∀ m, range m ≡ₚ map_to_list m.
Variable tempDir : string.
#[local] Existing Instance host_WireGuard.
#[local] Existing Instance host_Routes.

(** Nothing but one device differs: its routes, addresses and peers. *)
Definition elsewhere (d : string) (w w' : W) : Prop :=
  (∀ p x, x ≠ d → host_routes w' !! p = Some x ↔ host_routes w !! p = Some x) ∧
  (∀ p x, x ≠ d → (p, x) ∈ host_addresses w' ↔ (p, x) ∈ host_addresses w) ∧
  (∀ x, x ≠ d → host_peers w' x = host_peers w x) ∧ host_files w' = host_files w.

#[export] Instance elsewhere_preorder d : PreOrder (elsewhere d).
Proof.
  split; [done|]. intros a b c (R1 & A1 & P1 & F1) (R2 & A2 & P2 & F2). split_and!.
  - intros p x ?. by rewrite R2, R1.
  - intros p x ?. by rewrite A2, A1.
  - intros x ?. by rewrite P2, P1.
  - congruence.
Qed.
Lemma off_elsewhere d w w' : off_devices d d w w' → elsewhere d w w'.
Proof. intros (R & A & P & F). split_and!; auto. Qed.
Lemma peers_elsewhere d w w' : only_peers d w w' → elsewhere d w w'.
Proof. intros (A & R & P & F). split_and!; try done; intros; by rewrite ?R, ?A. Qed.
Lemma down_elsewhere ctx d w r w' : wireguard_Down ctx d w = (r, w') → elsewhere d w w'.
Proof.
  intros (A & P & F & R & _)%wireguard_Down_spec. split_and!; auto; intros p x Hx; [|by rewrite A].
  destruct R as [->| ->]; [done|]. rewrite lookup_off_device. tauto.
Qed.

(** The first call of the runtime; the fresh route manager has an empty interface
    name, which owns nothing. *)
Lemma fresh_applied ctx d local peers w r m' w' :
  Addr_IsValid local = true →
  routes_Apply range ctx d local peers (NewRouteManagerWithRunner, w) = (r, (m', w')) →
  elsewhere d w w' ∧ (∀ x, host_peers w' x = host_peers w x) ∧
  match r with
  | Err _ => m' = NewRouteManagerWithRunner
  | Ok _ => m' = {| rm_owned := desired_prefixes peers; rm_address := local; rm_iface := d |} ∧ recorded m' w' ∧
            (∀ k x, host_routes w' !! k = Some x ↔ k ∈ Prefix_String <$> peers ∧ x = d ∨ host_routes w !! k = Some x) ∧
            host_addresses w' = {[(host_text local, d)]} ∪ host_addresses w ∧ (host_text local, d) ∉ host_addresses w
  end.
Proof.
  intros Hv [Hoff Hr]%routes_Apply_spec; [|done|apply recorded_new].
  split_and!; [by apply off_elsewhere|by destruct Hoff as (_ & _ & ? & _)|]. destruct r; [|done].
  destruct Hr as (-> & Hrec & [Hall Honly Hkept Ha Hm]).
  assert (same_place NewRouteManagerWithRunner local d = false) as Hs.
  { unfold same_place. cbn. by rewrite bool_decide_eq_false_2 by (by intros <-). }
  split_and!; try done; [..|by apply Hm].
  - intros k x. split; [|intros [[? ->]|?]; [by apply Hall|by apply Hkept; [|done|right]]].
    intros [?|[? _]]%Honly; [by left|by right].
  - rewrite Ha. unfold placed. rewrite Hs. cbn. set_solver.
Qed.

Lemma peer_keys_distinct c : config_ok c → NoDup (peer_key <$> (wireguard_peer <$> rc_Peers c)).
Proof.
  intros [_ _ _ _ Hp Hk _]. rewrite <- list_fmap_compose.
  rewrite (list_fmap_ext _ (λ p, Base64 (parsed_key (rp_PublicKey p)))) by done.
  change (λ p, Base64 (parsed_key (rp_PublicKey p))) with (Base64 ∘ (λ p, parsed_key (rp_PublicKey p))).
  rewrite list_fmap_compose. apply NoDup_fmap_2_strong; [|done].
  assert (∀ k, k ∈ (λ p, parsed_key (rp_PublicKey p)) <$> rc_Peers c → key_ok k) as Hok.
  { intros k (p & -> & Hin)%list_elem_of_fmap. rewrite Forall_forall in Hp. destruct (Hp p Hin) as [_ [? _] _ _]. by eapply ParseKey_ok. }
  intros a b Ha Hb. apply Base64_inj; by apply Hok.
Qed.

(** What the host has while the agent runs. *)
Record running (c : relay_Config) (w w' : W) : Prop := {
  rn_routes k x : host_routes w' !! k = Some x ↔
    k ∈ Prefix_String <$> relay_routes c ∧ x = rc_InterfaceName c ∨ host_routes w !! k = Some x;
  rn_new : (host_text (rc_VirtualIPv4 c), rc_InterfaceName c) ∉ host_addresses w;
  rn_addresses : host_addresses w' = {[(host_text (rc_VirtualIPv4 c), rc_InterfaceName c)]} ∪ host_addresses w;
  rn_peers : Forall (configured (host_peers w' (rc_InterfaceName c))) (wireguard_peer <$> rc_Peers c)
}.

Lemma runtime_Apply_spec ctx c w r ru m w' :
  config_ok c →
  runtime_Apply (H := host_WireGuard tempDir) (H0 := host_Routes range) ctx c (NewRuntime, (NewRouteManagerWithRunner, w)) = (r, (ru, (m, w'))) →
  elsewhere (rc_InterfaceName c) w w' ∧
  (is_ok r = true → running c w w' ∧ recorded m w' ∧
    ((∀ w, is_ok (Run ctx "wg" ["show"; rc_InterfaceName c; "peers"] w).1 = true) →
     ∀ k, is_Some (host_peers w' (rc_InterfaceName c) !! k) → k ∈ peer_key <$> (wireguard_peer <$> rc_Peers c)) ∧
    m = {| rm_owned := desired_prefixes (relay_routes c); rm_address := rc_VirtualIPv4 c; rm_iface := rc_InterfaceName c |} ∧
    ru = {| ru_active := true; ru_interfaceName := rc_InterfaceName c |}).
Proof.
  intros Hc. unfold runtime_Apply. rewrite WireGuardConfiguration_ok by done. cbn [wg_Apply wg_Down rs_Apply host_WireGuard host_Routes on_host].
  destruct (wireguard_Apply _ _ _ _ _) as [r1 w1] eqn:E1. apply wireguard_Apply_spec in E1 as [Hw1 Hok1]; [|by apply peer_keys_distinct].
  cbn [cf_Peers] in Hok1. pose proof (peers_elsewhere _ _ _ Hw1) as He1.
  destruct r1 as [[]|e]; [|by intros [= <- <- <- <-]]. destruct (Hok1 eq_refl) as [Hconf Hall]. clear Hok1.
  fold (relay_routes c). destruct (routes_Apply _ _ _ _ _ _) as [r2 [m2 w2]] eqn:E2.
  assert (Addr_IsValid (rc_VirtualIPv4 c) = true) as Hv.
  { destruct (unusable4_false _ (ck_address c Hc)) as (v & -> & _). done. }
  apply fresh_applied in E2 as (He2 & Hp2 & Hr2); [|done]. pose proof (transitivity He1 He2) as He.
  destruct r2 as [[]|e].
  2: { destruct (wireguard_Down ctx (rc_InterfaceName c) w2) as [r3 w3] eqn:E3.
       unfold on_host. rewrite E3. intros [= <- <- <- <-]. split; [|done].
       etrans; [exact He|]. by eapply down_elsewhere. }
  intros [= <- <- <- <-]. split; [done|]. intros _. destruct Hr2 as (-> & Hrec & Hro & Had & Hnew).
  destruct Hw1 as (A1 & R1 & _ & _). rewrite R1 in Hro. rewrite A1 in Had, Hnew. rewrite <- Hp2 in Hconf, Hall. split_and!; try done.
Qed.

Lemma runtime_Clear_spec c w w1 m r ru m' w2 :
  config_ok c → (∀ k, host_routes w !! k ≠ Some (rc_InterfaceName c)) → running c w w1 → recorded m w1 →
  m = {| rm_owned := desired_prefixes (relay_routes c); rm_address := rc_VirtualIPv4 c; rm_iface := rc_InterfaceName c |} →
  runtime_Clear (H := host_WireGuard tempDir) (H0 := host_Routes range) liveContext
    ({| ru_active := true; ru_interfaceName := rc_InterfaceName c |}, (m, w1)) = (r, (ru, (m', w2))) →
  elsewhere (rc_InterfaceName c) w1 w2 ∧
  (is_ok r = true → host_routes w2 = host_routes w ∧ host_addresses w2 = host_addresses w ∧ m' = NewRouteManagerWithRunner ∧ ru = NewRuntime).
Proof.
  intros Hc Hno [Hr Hnew Ha _] Hrec Hm. unfold runtime_Clear. cbn [ru_active ru_interfaceName negb rs_Clear wg_Down host_Routes host_WireGuard].
  destruct (routes_Clear range liveContext (rc_InterfaceName c) (m, w1)) as [r1 [m1 w3]] eqn:E1.
  replace (rc_InterfaceName c) with (rm_iface m) in E1 by (by rewrite Hm). apply routes_Clear_spec in E1 as [Hoff Hok]; [|done..].
  replace (rm_iface m) with (rc_InterfaceName c) in Hoff, Hok by (by rewrite Hm). pose proof (off_elsewhere _ _ _ Hoff) as He1.
  cbn [on_host]. destruct (wireguard_Down liveContext (rc_InterfaceName c) w3) as [r2 w4] eqn:E2.
  pose proof (transitivity He1 (down_elsewhere _ _ _ _ _ E2)) as He. apply wireguard_Down_spec in E2 as (A2 & _ & _ & _ & R2).
  destruct r1 as [[]|e1]; cbn [error_of].
  2: { destruct r2; cbn; intros [= <- <- <- <-]; done. }
  destruct r2 as [[]|e2]; cbn; intros [= <- <- <- <-]; [|done]. split; [done|]. intros _. specialize (R2 eq_refl).
  destruct Hok as (-> & Honly & Hkept & Had). split_and!; try done.
  - apply map_eq. intros k. apply option_eq. intros x. rewrite R2, lookup_off_device.
    destruct (desired_prefixes_spec (relay_routes c)) as [_ Hd].
    { apply Forall_fmap. eapply Forall_impl; [apply (ck_peers c Hc)|]. intros p [_ _ [(v & Ev & _)%unusable4_false _] _]. exists v. cbn. by rewrite Ev. }
    rewrite Hm in Honly, Hkept; cbn in Honly, Hkept. split.
    + intros [[Hx Hn]%Honly Hne]. apply Hr in Hx as [[Hin _]|?]; [|done]. apply Hd in Hin. rewrite Hn in Hin. by destruct Hin.
    + intros Hx. assert (x ≠ rc_InterfaceName c) as Hne by (intros ->; by apply (Hno k)). split; [|done].
      apply Hkept; [apply Hr; by right| |done]. destruct (desired_prefixes (relay_routes c) !! k) as [p|] eqn:E; [|done].
      assert (host_routes w1 !! k = Some (rc_InterfaceName c)) as Hk by (apply Hr; left; split; [apply Hd; by rewrite E|done]).
      assert (host_routes w1 !! k = Some x) as Hk' by (apply Hr; by right). congruence.
  - rewrite A2, Had, Hm. cbn. destruct (unusable4_false _ (ck_address c Hc)) as (v & Ev & _). rewrite Ha, Ev in *. cbn. set_solver.
Qed.
End Agent.
