(* ===== verification/RelayDemo.v ===== *)
(** * A Linux host that keeps the laws

    A concrete host, with the commands and file calls of [RelayHost.v] executed on
    its tables; it shows that the laws of [LinuxHost] can hold. *)

From Stdlib Require Import Ascii.
From stdpp Require Import sets.
From S2P Require Import Prelude GoStd Crypto NetIP Wgnt Relay RelayHost RelayThm RelayHostThm.

Open Scope Z_scope.

Record Linux := {
  lx_addresses : gset (string * string);
  lx_routes : gmap string string;
  lx_peers : gmap string (gmap string (string * option string));
  lx_files : gset string
}.
Definition peers_on (w : Linux) (d : string) : gmap string (string * option string) := default ∅ (lx_peers w !! d).

Definition with_addresses (w : Linux) a : Linux :=
  {| lx_addresses := a; lx_routes := lx_routes w; lx_peers := lx_peers w; lx_files := lx_files w |}.
Definition with_routes (w : Linux) r : Linux :=
  {| lx_addresses := lx_addresses w; lx_routes := r; lx_peers := lx_peers w; lx_files := lx_files w |}.
Definition with_peers (w : Linux) d p : Linux :=
  {| lx_addresses := lx_addresses w; lx_routes := lx_routes w; lx_peers := <[d := p]> (lx_peers w); lx_files := lx_files w |}.
Definition with_files (w : Linux) f : Linux :=
  {| lx_addresses := lx_addresses w; lx_routes := lx_routes w; lx_peers := lx_peers w; lx_files := f |}.

Definition refused (w : Linux) : result string * Linux := (Err (EForeign 1), w).
Definition finished (w : Linux) : result string * Linux := (Ok "", w).

Definition ip_table (kind op p d : string) (w : Linux) : result string * Linux :=
  if String.eqb kind "addr" then
    if String.eqb op "add" then
      if bool_decide ((p, d) ∈ lx_addresses w) then refused w else finished (with_addresses w ({[(p, d)]} ∪ lx_addresses w))
    else if bool_decide ((p, d) ∈ lx_addresses w) then
      let w := with_addresses w (lx_addresses w ∖ {[(p, d)]}) in
      finished (if bool_decide (set_Exists (λ x, x.2 = d) (lx_addresses w)) then w else with_routes w (off_device (lx_routes w) d))
    else refused w
  else
    if String.eqb op "add" then
      if bool_decide (lx_routes w !! p = None) then finished (with_routes w (<[p := d]> (lx_routes w))) else refused w
    else if bool_decide (lx_routes w !! p = Some d) then finished (with_routes w (delete p (lx_routes w))) else refused w.

(** The peers of a [wg set]. *)
Fixpoint parse_set (l : list string) (m : gmap string (string * option string)) : gmap string (string * option string) :=
  match l with
  | _ :: k :: _ :: a :: rest =>
    match rest with
    | word :: e :: rest' =>
      if String.eqb word "endpoint" then parse_set rest' (<[k := (a, Some e)]> m) else parse_set rest (<[k := (a, m !! k ≫= snd)]> m)
    | _ => <[k := (a, m !! k ≫= snd)]> m
    end
  | _ => m
  end.

Definition lines (l : list string) : string := of_bytes (l ≫= (λ s, bytes s ++ ["010"%char])).

Definition lx_run (name : string) (args : list string) (w : Linux) : result string * Linux :=
  if String.eqb name "ip" then
    match args with
    | [a; b; c; p; _; d] => if String.eqb a "-4" then ip_table b c p d w else finished w
    | [_; _; c; _; d] => if String.eqb c "down" then finished (with_routes w (off_device (lx_routes w) d)) else finished w
    | _ => finished w
    end
  else match args with
  | [_; d; _] =>
    let out := lines (map_to_list (peers_on w d)).*1 in
    if bool_decide (list_to_set (Fields out) = (dom (peers_on w d) : gset string)) then (Ok out, w) else refused w
  | [_; d; _; k; _] => finished (with_peers w d (delete k (peers_on w d)))
  | _ :: d :: _ :: _ :: _ :: _ :: rest => finished (with_peers w d (parse_set rest (peers_on w d)))
  | _ => finished w
  end.

#[export] Instance Linux_runner : CommandRunner Linux := { Run _ name args := lx_run name args }.
#[export] Instance Linux_files : KeyFiles Linux := {
  kf_MkdirAll _ := ret tt;
  kf_CreateTemp _ w :=
    if bool_decide ("key" ∈ lx_files w) then (Err (EForeign 1), w) else (Ok "key", with_files w ({["key"]} ∪ lx_files w));
  kf_Chmod _ := ret tt;
  kf_WriteString _ _ := ret tt;
  kf_Close _ := ret tt;
  kf_Remove path w := with_files w (lx_files w ∖ {[path]})
}.

Lemma parse_set_spec peers args m : all_args peers = Some args → parse_set args m = fold_left set_peer peers m.
Proof.
  revert args m. induction peers as [|p peers IH]; intros args m; cbn [all_args]; [by intros [= <-]|].
  destruct (peer_args p) as [a|] eqn:Ep; [|done]. destruct (all_args peers) as [l|] eqn:El; [|done]. cbn. intros [= <-].
  assert (l = [] ∨ ∃ k l', l = "peer" :: k :: l') as Hl.
  { destruct peers as [|q peers]; cbn in El; [injection El as <-; by left|]. destruct (peer_args q) as [b|] eqn:Eq; [|done].
    destruct (all_args peers); [|done]. injection El as <-. right. unfold peer_args in Eq.
    destruct (wp_AllowedIPs q) as [|x [|]]; try done. destruct (_ || _); [done|]. injection Eq as <-. cbn. by eexists _, _. }
  unfold peer_args in Ep. destruct (wp_AllowedIPs p) as [|x [|]] eqn:Ea; try done. destruct (_ || _); [done|]. injection Ep as <-.
  rewrite <- (IH l) by done. unfold set_peer. rewrite Ea. cbn [head]. destruct (AddrPort_IsValid (wp_Endpoint p)); [done|].
  destruct Hl as [->|(k & l' & ->)]; reflexivity.
Qed.

Lemma peers_with w d p x : peers_on (with_peers w d p) x = if decide (x = d) then p else peers_on w x.
Proof.
  unfold peers_on, with_peers; cbn. destruct (decide (x = d)) as [->|]; [by rewrite lookup_insert_eq|by rewrite lookup_insert_ne].
Qed.

Lemma lx_failed name args w e w' : lx_run name args w = (Err e, w') → w' = w.
Proof. unfold lx_run, ip_table, refused, finished. repeat case_match; intros; by simplify_eq. Qed.

(** One law of one command: run it, and look at the tables. *)
Ltac run_linux := cbn; unfold lx_run, ip_table, refused, finished; cbn; repeat case_bool_decide; intros; simplify_eq/=.

#[export] Instance Linux_host : LinuxHost Linux.
Proof.
  refine {| host_addresses := lx_addresses; host_routes := lx_routes; host_peers := peers_on; host_files := lx_files |}.
  - intros ctx name args w e w' ->%lx_failed. done.
  - intros ctx p d w o w'. run_linux. done.
  - intros ctx p d w o w'. run_linux; split_and!; try done; [left|right]; (split; [|done]).
    + destruct H0 as ([q x] & Hin & Hx). cbn in Hx. subst. by exists q.
    + intros [q Hq]. apply H0. by exists (q, d).
  - intros ctx p d w o w'. run_linux. done.
  - intros ctx p d w o w'. run_linux. done.
  - intros ctx d w o w'. run_linux. done.
  - intros ctx d w o w'. run_linux. done.
  - intros ctx d w o w'. run_linux. done.
  - intros ctx d w o w'. run_linux. done.
  - intros ctx d w o w'. run_linux. split; [done|]. intros k. rewrite <- elem_of_dom, <- H, elem_of_list_to_set. done.
  - intros ctx d k w o w'. run_linux. rewrite peers_with. split_and!; try done; [by rewrite decide_True|].
    intros x Hx. by rewrite peers_with, decide_False.
  - intros ctx d path port peers args w o w' Ha. cbn. unfold lx_run. cbn. intros [= <- <-].
    rewrite peers_with, decide_True, (parse_set_spec peers args) by done. split_and!; try done.
    intros x Hx. by rewrite peers_with, decide_False.
  - intros dir w r w' [= <- <-]. done.
  - intros dir w r w'. cbn. case_bool_decide; intros [= <- <-]; done.
  - intros path w r w' [= <- <-]. done.
  - intros path text w r w' [= <- <-]. done.
  - intros path w r w' [= <- <-]. done.
  - done.
Defined.
