(* ===== verification/RelayAgentThm.v ===== *)
(** * The relay agent: claims

    What the agent does to a host, and what a second configuration does. *)

From Stdlib Require Import Ascii.
From S2P Require Import Prelude GoStd Crypto NetIP Wgnt Relay RelayHost RelayThm RelayHostThm RelayDemo.

Open Scope Z_scope.


Definition empty_host : Linux := {| lx_addresses := ∅; lx_routes := {["192.0.2.0/24" := "eth0"]}; lx_peers := ∅; lx_files := ∅ |}.
Definition in_order (m : gmap string Prefix) : list (string * Prefix) := map_to_list m.
Definition started : result unit * (Runtime * (relay_RouteManager * Linux)) :=
  runtime_Apply (H := host_WireGuard "") (H0 := host_Routes in_order) liveContext sample_relay
    (NewRuntime, (NewRouteManagerWithRunner, empty_host)).




(** A route manager cannot move its peers. When the record agrees with the
    host, a call that changes the virtual address or the interface while it keeps
    one of its peers fails, on every host, since the route of that peer is added
    before the old one is removed; the record is kept as it was. *)
Theorem move_refused {W} `{LinuxHost W} range ctx m w d local peers p :
  (∀ o, range o ≡ₚ map_to_list o) → recorded m w → (rm_address m ≠ local ∨ rm_iface m ≠ d) →
  p ∈ peers → is_Some (rm_owned m !! Prefix_String p) →
  let '(r, (m', w')) := routes_Apply range ctx d local peers (m, w) in is_ok r = false ∧ m' = m.
Proof.
  intros Hrange Hrec Hmove Hp Hown. destruct (routes_Apply range ctx d local peers (m, w)) as [r [m' w']] eqn:E.
  apply routes_Apply_spec in E as [_ Hr]; [|done..]. destruct r; [|done]. exfalso. destruct Hr as (_ & _ & [_ _ _ _ Hmv]).
  destruct Hmv as [Hmv _].
  { unfold same_place. apply andb_false_iff. rewrite !bool_decide_eq_false. done. }
  rewrite (Hmv (Prefix_String p)) in Hown; [by destruct Hown|]. by apply list_elem_of_fmap_2.
Qed.

Definition peer_prefix : Prefix := PrefixFrom (Addr4 (10 * 2^24 + 7 * 2^16 + 2)) 32.
Definition owner : relay_RouteManager :=
  {| rm_owned := desired_prefixes [peer_prefix]; rm_address := Addr4 (10 * 2^24 + 7 * 2^16 + 1); rm_iface := "wg0" |}.
Definition owned_host : Linux :=
  {| lx_addresses := {[("10.7.0.1/32", "wg0")]}; lx_routes := {["10.7.0.2/32" := "wg0"]}; lx_peers := ∅; lx_files := ∅ |}.
Lemma move_refused_witness :
  is_ok (routes_Apply in_order liveContext "wg0" (Addr4 (10 * 2^24 + 7 * 2^16 + 9)) [peer_prefix] (owner, owned_host)).1 = false.
Proof.
  assert (recorded owner owned_host) as Hrec.
  { split; cbn.
    - intros k p Hk. destruct (desired_prefixes_spec [peer_prefix]) as [Hkeyed _]; [apply Forall_singleton; by eexists|]. by apply Hkeyed.
    - intros k Hk. destruct (desired_prefixes_spec [peer_prefix]) as [_ Hd]; [apply Forall_singleton; by eexists|].
      apply Hd in Hk. apply list_elem_of_singleton in Hk as ->. vm_compute. reflexivity.
    - intros _. vm_compute. reflexivity.
    - done. }
  pose proof (move_refused in_order liveContext owner owned_host "wg0" (Addr4 (10 * 2^24 + 7 * 2^16 + 9)) [peer_prefix] peer_prefix
    ltac:(done) Hrec ltac:(by left) ltac:(by left) ltac:(vm_compute; by eexists)) as Hmv.
  by destruct (routes_Apply _ _ _ _ _ _) as [r [m' w']], Hmv.
Defined.
