(* ===== verification/RoomURL.v ===== *)
(** * The address of a room

    [internal/room/address.go]: the URL of the control server from what a user
    types as the host's IPv6 address, and that the rest of the program takes it. *)

From Stdlib Require Import Ascii.
From S2P Require Import Prelude GoStd NetIP NetIP6 NetURL Handler Ipc Service NetURLThm Client.

Open Scope Z_scope.

Definition ControlURL (input : string) : result string :=
  let value := TrimSpace input in
  let value := if HasPrefix value "[" && HasSuffix value "]" then TrimSuffix (TrimPrefix value "[") "]" else value in
  if bool_decide (value = "") || ContainsAny value ["/"%char; "%"%char] || Contains value "://"
  then Err ErrInvalidHostIPv6
  else match ParseAddr value with
  | None => Err ErrInvalidHostIPv6
  | Some address =>
    if negb (Is6 address) || Is4In6 address || negb (IsGlobalUnicast address) || IsPrivate address || IsLoopback address
       || IsLinkLocalUnicast address || IsMulticast address || IsUnspecified address
    then Err ErrInvalidHostIPv6
    else Ok ("http://[" +:+ Addr_String address +:+ "]:8080")%string
  end.

(** ** The text of an address *)
Definition low (c : ascii) : Prop := c ∈ bytes "0123456789abcdef:".

Lemma digit_low d : 0 ≤ d < 16 → low (digit d).
Proof.
  intros Hd. assert (forallb (λ d, bool_decide (low (digit d))) (seqZ 0 16) = true) as H by (vm_compute; reflexivity).
  rewrite forallb_forall in H. apply (bool_decide_eq_true_1 (low (digit d))), H, list_elem_of_In, elem_of_seqZ. lia.
Qed.
Lemma hex16_low g : is_group g → Forall low (hex16 g).
Proof.
  unfold is_group, hex16. intros Hg. change 15 with (Z.ones 4). rewrite !Z.land_ones, !Z.shiftr_div_pow2 by lia.
  change (2 ^ 12) with 4096. change (2 ^ 8) with 256. change (2 ^ 4) with 16. apply Forall_fmap.
  assert (Forall (λ d, low (digit d)) [g / 4096; g / 256 mod 16; g / 16 mod 16; g mod 16]) as H
    by (repeat (apply Forall_cons; split; [apply digit_low; divlia|]); constructor).
  repeat case_match; try (by apply (Forall_drop _ _ _ H)). done.
Qed.
Lemma colons_low gs : Forall is_group gs → Forall low (colons (hex16 <$> gs)).
Proof.
  induction gs as [|g gs IH]; [constructor|]. intros [Hg Hgs]%Forall_cons.
  destruct (decide (gs = [])) as [->|Hne]; [by apply hex16_low|]. rewrite fmap_cons, colons_cons by (by destruct gs).
  apply Forall_app. split; [by apply hex16_low|]. constructor; [|auto]. by apply (bool_decide_eq_true_1 (low colon)).
Qed.
Lemma append6_low v : Forall low (append6 v).
Proof.
  destruct (groups_ok v) as [Hg _]. unfold append6. destruct (longest_run _) as [[s e]|]; [|by apply colons_low].
  apply Forall_app. split; [by apply colons_low, Forall_take|].
  do 2 (constructor; [by apply (bool_decide_eq_true_1 (low colon))|]). by apply colons_low, Forall_drop.
Qed.

(** What holds of the seventeen bytes holds of the text. *)
Lemma low_all (P : ascii → bool) l : forallb P (bytes "0123456789abcdef:") = true → Forall low l → Forall (λ c, P c = true) l.
Proof. intros H Hl. rewrite forallb_forall in H. eapply Forall_impl; [exact Hl|]. intros c Hc. by apply H, list_elem_of_In. Qed.

(** ** The host of the URL *)
Definition room_host (v : Z) : list ascii := "["%char :: append6 v ++ bytes "]:8080".

Lemma room_host_all (P : ascii → bool) v :
  forallb P (bytes "0123456789abcdef:[]") = true → Forall (λ c, P c = true) (room_host v).
Proof.
  intros H. assert (∀ c, c ∈ bytes "0123456789abcdef:[]" → P c = true) as HP.
  { intros c Hc. rewrite forallb_forall in H. by apply H, list_elem_of_In. }
  unfold room_host. constructor; [apply HP; set_solver|]. apply Forall_app. split.
  - apply (low_all P); [|apply append6_low]. apply forallb_forall. intros c Hc. apply HP.
    change (bytes "0123456789abcdef:[]") with (bytes "0123456789abcdef:" ++ bytes "[]"). apply elem_of_app. left. by apply list_elem_of_In.
  - apply Forall_forall. intros c Hc. apply HP. set_solver.
Qed.

Lemma unescape_plain mode l :
  Forall (λ c, negb (bool_decide (c = "%"%char)) && negb (shouldEscape c mode) = true) l → unescape mode l = Some l.
Proof.
  induction 1 as [|c l Hc _ IH]; [done|]. apply andb_true_iff in Hc as [H1%negb_true_iff H2%negb_true_iff]. cbn [unescape].
  rewrite H1, H2, andb_false_r, IH. done.
Qed.
Lemma escape_plain mode l : Forall (λ c, negb (shouldEscape c mode) = true) l → escape mode l = l.
Proof.
  unfold escape. induction 1 as [|c l Hc _ IH]; [done|]. cbn [mbind list_bind]. rewrite IH. unfold escape_byte.
  apply negb_true_iff in Hc. by rewrite Hc.
Qed.
Lemma last_index_app c l k : c ∉ k → last_index c (l ++ c :: k) = Some (length l).
Proof.
  intros Hk. induction l as [|d l IH]; cbn [app last_index length]; [|by rewrite IH].
  rewrite last_index_absent by done. by rewrite bool_decide_eq_true_2.
Qed.
Lemma zone_index_none l : Forall (λ c, negb (bool_decide (c = "%"%char)) = true) l → zone_index l = None.
Proof.
  induction 1 as [|c l Hc _ IH]; [done|]. cbn [zone_index]. rewrite IH. unfold prefixed. rewrite bool_decide_eq_false_2; [done|].
  intros H. apply negb_true_iff, bool_decide_eq_false in Hc. injection H as -> _. done.
Qed.

Lemma room_parseHost v : parseHost (room_host v) = Some (room_host v).
Proof.
  unfold parseHost. change (prefixed "[" (room_host v)) with true. cbv iota.
  assert (room_host v = ("["%char :: append6 v) ++ "]"%char :: bytes ":8080") as E by done.
  rewrite E at 1. rewrite last_index_app by (by apply (bool_decide_eq_true_1 (_ ∉ _))).
  rewrite E at 1. rewrite drop_app_ge by (simpl; lia).
  replace (S (length ("["%char :: append6 v)) - length ("["%char :: append6 v))%nat with 1%nat by lia.
  change (validOptionalPort (drop 1 ("]"%char :: bytes ":8080"))) with true. cbv iota. cbn [negb].
  rewrite zone_index_none by (apply Forall_take, (room_host_all (λ c, negb (bool_decide (c = "%"%char)))); reflexivity).
  apply unescape_plain. apply (room_host_all (λ c, negb (bool_decide (c = "%"%char)) && negb (shouldEscape c encodeHost))). reflexivity.
Qed.

Definition room_URL (v : Z) : URL :=
  {| u_Scheme := "http"; u_Opaque := ""; u_User := None; u_Host := of_bytes (room_host v); u_Path := ""; u_OmitHost := false;
     u_ForceQuery := false; u_RawQuery := ""; u_Fragment := "" |}.
Definition room_text (v : Z) : string := ("http://[" +:+ of_bytes (append6 v) +:+ "]:8080")%string.

Lemma room_text_bytes v : bytes (room_text v) = bytes "http" ++ bytes "://" ++ room_host v.
Proof. unfold room_text, room_host. by rewrite !bytes_app, bytes_of_bytes. Qed.

Lemma room_Parse v : url_Parse (room_text v) = Some (room_URL v).
Proof.
  rewrite <- (of_bytes_bytes (room_text v)), room_text_bytes. rewrite <- (app_nil_r (room_host v)) at 1.
  apply (parse_text "http" (room_host v) []); [by left| |apply room_parseHost|by left].
  apply room_host_all. reflexivity.
Qed.

Lemma room_base_ok v : base_ok (room_URL v) = true.
Proof.
  unfold base_ok, room_URL. cbn [u_Scheme u_Opaque u_User u_Host u_Path u_OmitHost u_ForceQuery]. rewrite bytes_of_bytes.
  rewrite escape_plain by (apply room_host_all; reflexivity). rewrite room_parseHost.
  rewrite !(bool_decide_eq_true_2 (_ = room_host v)), (bool_decide_eq_true_2 (Some _ = Some _)) by done.
  assert (forallb host_char (room_host v) = true) as ->.
  { apply forallb_forall. intros c Hc. pose proof (room_host_all host_char v eq_refl) as H. rewrite Forall_forall in H.
    by apply H, list_elem_of_In. }
  rewrite (bool_decide_eq_false_2 (of_bytes (room_host v) = "")); [reflexivity|]. intros E%of_bytes_nil. discriminate E.
Qed.

Lemma room_String v : URL_String (room_URL v) = room_text v.
Proof.
  apply bytes_inj. rewrite room_text_bytes. unfold URL_String, room_URL.
  cbn [u_Scheme u_Opaque u_User u_Host u_Path u_OmitHost u_ForceQuery u_RawQuery].
  assert (of_bytes (room_host v) ≠ "") as Hne by (intros E%of_bytes_nil; discriminate E).
  rewrite (bool_decide_eq_false_2 (of_bytes (room_host v) = "")) by done.
  assert (escape_string encodeHost (of_bytes (room_host v)) = of_bytes (room_host v)) as ->.
  { unfold escape_string. rewrite bytes_of_bytes, escape_plain; [done|]. apply room_host_all. reflexivity. }
  change (bytes (("http" +:+ ":") +:+ ("//" +:+ "" +:+ of_bytes (room_host v)) +:+ "" +:+ "" +:+ "" +:+ "") = bytes "http" ++ bytes "://" ++ room_host v).
  rewrite !bytes_app, bytes_of_bytes. change (bytes "") with (@nil ascii). by rewrite app_nil_r.
Qed.

Lemma room_trimmed v : TrimSpace (room_text v) = room_text v.
Proof.
  unfold TrimSpace, trim_left. rewrite room_text_bytes.
  rewrite trim_front_id by reflexivity. unfold trim_right.
  assert (bytes "http" ++ bytes "://" ++ room_host v = (bytes "http://[" ++ append6 v) ++ bytes "]:8080") as E.
  { unfold room_host. by rewrite <- app_assoc. }
  rewrite E, reverse_app. rewrite trim_front_id by reflexivity. rewrite <- reverse_app, reverse_involutive, <- E, <- room_text_bytes.
  apply of_bytes_bytes.
Qed.

(** Lower-casing leaves ASCII text without capitals alone. *)
Definition lower_case (c : ascii) : bool := (code c <? 128) && negb ((65 <=? code c) && (code c <=? 90)).
Definition lower_ok (lower : string → string) : Prop := ∀ s, forallb lower_case (bytes s) = true → lower s = s.

Lemma room_canonical lower v : lower_ok lower → canonicalControlURL lower (room_text v) = Some (room_text v).
Proof.
  intros Hl. unfold canonicalControlURL. rewrite room_trimmed, room_Parse.
  assert (of_bytes (room_host v) ≠ "") as Hne by (intros E%of_bytes_nil; discriminate E).
  cbn [u_Scheme u_Opaque u_User u_Host u_Path u_OmitHost u_ForceQuery u_RawQuery u_Fragment room_URL].
  rewrite (bool_decide_eq_false_2 (of_bytes (room_host v) = "")) by done.
  rewrite (Hl "http") by reflexivity. rewrite (Hl (of_bytes (room_host v))).
  2: { rewrite bytes_of_bytes. apply forallb_forall. intros c Hc. pose proof (room_host_all lower_case v eq_refl) as H.
       rewrite Forall_forall in H. by apply H, list_elem_of_In. }
  change (TrimRightSlash "") with "". change (Some (URL_String (room_URL v)) = Some (room_text v)). by rewrite room_String.
Qed.

Lemma room_client v : ∃ client, NewClient (room_text v) = Ok client ∧ cl_BaseURL client = Some (room_URL v).
Proof.
  unfold NewClient. rewrite room_trimmed, room_Parse.
  cbn [u_Scheme u_Host room_URL]. rewrite (bool_decide_eq_false_2 (of_bytes (room_host v) = "")) by (intros E%of_bytes_nil; discriminate E).
  eexists. split; [reflexivity|]. reflexivity.
Qed.

(** The addresses a room can have. *)
Definition room_address (a : Addr) : bool :=
  Is6 a && negb (Is4In6 a) && IsGlobalUnicast a && negb (IsPrivate a) && negb (IsLoopback a) && negb (IsLinkLocalUnicast a)
  && negb (IsMulticast a) && negb (IsUnspecified a).

Lemma parse_no_zone s v z : ContainsAny s ["/"%char; "%"%char] = false → ParseAddr s = Some (Addr6 v z) → z = "".
Proof.
  rewrite ContainsAny_false. intros Hc. assert ("%"%char ∉ bytes s) as Hp by (apply Hc; set_solver).
  unfold ParseAddr. generalize (bytes s) at 1. intros l. induction l as [|c l IH]; cbn [parse_family]; [done|].
  case_bool_decide; [by destruct (parseIPv4 (bytes s))|]. case_bool_decide; [|by case_bool_decide].
  unfold parseIPv6. rewrite (proj2 (index_byte_None "%"%char (bytes s)) Hp). destruct (parseIPv6_body (bytes s)); [|done].
  simpl. by intros [= _ <-].
Qed.

Lemma contains_slash l : "/"%char ∉ l → contains (bytes "://") l = false.
Proof.
  induction l as [|c l IH]; [done|]. intros [Hc Hl]%not_elem_of_cons. cbn [contains]. rewrite IH by done. rewrite orb_false_r.
  apply bool_decide_eq_false_2. intros E. change (bytes "://") with [":"%char; "/"%char; "/"%char] in E. cbn in E.
  destruct l as [|d l]; [done|]. injection E as _ -> _. apply Hl. by left.
Qed.

(** The text between the brackets, if there are any. *)
Definition host_value (input : string) : string :=
  let value := TrimSpace input in
  if HasPrefix value "[" && HasSuffix value "]" then TrimSuffix (TrimPrefix value "[") "]" else value.

Lemma ControlURL_spec input url :
  ControlURL input = Ok url ↔
  ∃ v, ContainsAny (host_value input) ["/"%char; "%"%char] = false ∧ ParseAddr (host_value input) = Some (Addr6 v "") ∧
       room_address (Addr6 v "") = true ∧ url = room_text v ∧ 0 ≤ v < 2^128.
Proof.
  unfold ControlURL. fold (host_value input). split.
  - destruct (_ || _) eqn:E1; [done|]. rewrite !orb_false_iff in E1. destruct E1 as [[_ Hc] _].
    destruct (ParseAddr (host_value input)) as [a|] eqn:Ep; [|done]. destruct (_ || _) eqn:E2; [done|]. intros [= <-].
    rewrite !orb_false_iff, !negb_false_iff in E2. destruct E2 as [[[[[[[H6 H46] Hg] Hpr] Hlo] Hll] Hm] Hu].
    destruct a as [| |v z]; try done. pose proof (parse_no_zone _ _ _ Hc Ep) as ->. pose proof (ParseAddr_ok _ _ Ep) as Hv. cbn in Hv.
    exists v. split_and!; try done; try lia.
    + unfold room_address. by rewrite H6, H46, Hg, Hpr, Hlo, Hll, Hm, Hu.
    + unfold room_text, Addr_String. rewrite H46. change (zone_suffix "") with (@nil ascii). by rewrite app_nil_r.
  - intros (v & Hc & Hp & Hr & -> & _). rewrite Hc, Hp. unfold room_address in Hr.
    rewrite !andb_true_iff, !negb_true_iff in Hr. destruct Hr as [[[[[[[H6 H46] Hg] Hpr] Hlo] Hll] Hm] Hu].
    rewrite H6, H46, Hg, Hpr, Hlo, Hll, Hm, Hu. rewrite bool_decide_eq_false_2; [|intros E; rewrite E in Hp; discriminate Hp].
    unfold Contains. rewrite contains_slash by (apply (proj1 (ContainsAny_false _ _) Hc); by left). cbn [orb negb].
    unfold room_text, Addr_String. rewrite H46. change (zone_suffix "") with (@nil ascii). by rewrite app_nil_r.
Qed.

Lemma room_text_inj v w : 0 ≤ v < 2^128 → 0 ≤ w < 2^128 → room_text v = room_text w → v = w.
Proof.
  intros Hv Hw H. apply (f_equal bytes) in H. rewrite !room_text_bytes in H. unfold room_host in H.
  apply app_inv_head, app_inv_head in H. injection H as H. apply app_inv_tail in H.
  pose proof (ParseAddr_append6 v Hv) as E1. rewrite H, (ParseAddr_append6 w Hw) in E1. by injection E1.
Qed.

(** ** Claims *)

(** C34: the address of a room is taken by every part of the program. A host
    address is accepted exactly if it is the text, in brackets or not, of a global
    unicast IPv6 address that is not private and has no zone; two inputs give the
    same URL exactly if they are the same address; the service keeps the URL as it
    is when it compares it with the configured one, and the HTTP client takes it
    as a base under which every resource resolves. *)
Theorem ControlURL_correct lower input :
  lower_ok lower →
  (is_ok (ControlURL input) = true ↔
    ∃ v, ContainsAny (host_value input) ["/"%char; "%"%char] = false ∧ ParseAddr (host_value input) = Some (Addr6 v "") ∧
         room_address (Addr6 v "") = true) ∧
  ∀ url, ControlURL input = Ok url →
    canonicalControlURL lower url = Some url ∧
    (∃ client base, NewClient url = Ok client ∧ cl_BaseURL client = Some base ∧ base_ok base = true) ∧
    (∀ input', ControlURL input' = Ok url ↔ is_ok (ControlURL input') = true ∧ ParseAddr (host_value input') = ParseAddr (host_value input)).
Proof.
  intros Hl. split.
  - split.
    + destruct (ControlURL input) as [url|] eqn:E; [|done]. intros _. apply ControlURL_spec in E as (v & ? & ? & ? & _). by exists v.
    + intros (v & Hc & Hp & Hr). pose proof (ParseAddr_ok _ _ Hp) as Hv. cbn in Hv.
      assert (ControlURL input = Ok (room_text v)) as ->; [|done]. apply ControlURL_spec. by exists v.
  - intros url (v & Hc & Hp & Hr & -> & Hv)%ControlURL_spec. split; [by apply room_canonical|]. split.
    + destruct (room_client v) as (client & ? & ?). exists client, (room_URL v). split_and!; [done..|apply room_base_ok].
    + intros input'. rewrite Hp. split.
      * intros H. rewrite H. split; [done|]. apply ControlURL_spec in H as (v' & _ & Hp' & _ & Ht & Hv'). rewrite Hp'.
        apply room_text_inj in Ht; [by rewrite Ht|done..].
      * intros [Hok Hp']. destruct (ControlURL input') as [url'|] eqn:E; [|done].
        apply ControlURL_spec in E as (v' & _ & Hp'' & _ & -> & _). rewrite Hp' in Hp''. by injection Hp'' as ->.
Qed.

Lemma ControlURL_correct_witness :
  ControlURL " [2001:DB8::1] " = Ok "http://[2001:db8::1]:8080" ∧
  canonicalControlURL ToLower "http://[2001:db8::1]:8080" = Some "http://[2001:db8::1]:8080".
Proof.
  assert (ControlURL " [2001:DB8::1] " = Ok "http://[2001:db8::1]:8080") as H by (vm_compute; reflexivity).
  split; [exact H|]. assert (lower_ok ToLower) as Hl.
  { intros s Hs. apply bytes_inj. unfold ToLower. rewrite bytes_of_bytes. revert Hs. generalize (bytes s). intros l.
    induction l as [|a l IH]; [done|]. cbn [forallb]. rewrite andb_true_iff. intros [Ha Hl]. specialize (IH Hl). cbn [lower_bytes].
    unfold lower_case in Ha. assert (lower1 a = a) as -> by (unfold lower1; case_match; [lia|done]).
    destruct l as [|b [|c l]]; [done|..]; rewrite IH.
    - replace (code a =? 196) with false by lia. done.
    - replace (code a =? 196) with false by lia. replace (code a =? 226) with false by lia. done. }
  exact (proj1 (proj2 (ControlURL_correct ToLower " [2001:DB8::1] " Hl) _ H)).
Defined.
