(* ===== verification/Endpoint.v ===== *)
(** * Endpoint discovery

    [internal/endpoint/candidates.go], [candidates_windows.go] and
    [rendezvous.go]: the IPv6 addresses of a host that others may dial, ranked, and
    their report to the control server.  The two tables of the operating system
    are arguments; so is Unicode lower-casing. *)

From Stdlib Require Import Ascii.
From S2P Require Import Prelude GoStd NetIP NetIP6 Model Json TimeFmt Wire Ipc Service DataPlane Client.

Open Scope Z_scope.

Record Candidate := {
  ec_Address : Addr; ec_Port : Z; ec_Interface : string; ec_InterfaceLUID : Z; ec_Priority : Z; ec_SkipAsSource : bool;
  ec_Loopback : bool; ec_LinkLocal : bool; ec_Virtual : bool; ec_ValidUntil : Time; ec_PreferredUntil : Time
}.

(** The tests of the loop that a candidate has to pass. *)
Definition usable (now : Time) (c : Candidate) : bool :=
  negb (negb (Addr_IsValid (ec_Address c)) || negb (Is6 (ec_Address c)) || (ec_Port c =? 0) || ec_SkipAsSource c || ec_Loopback c
        || ec_LinkLocal c || ec_Virtual c)
  && negb (negb (IsGlobalUnicast (ec_Address c)) || IsUnspecified (ec_Address c) || IsMulticast (ec_Address c))
  && negb (negb (IsZero (ec_ValidUntil c)) && negb (Before now (ec_ValidUntil c)))
  && negb (negb (IsZero (ec_PreferredUntil c)) && negb (Before now (ec_PreferredUntil c)))
  && negb (blank (ec_Interface c)) && negb (ec_Priority c <? 0).

Definition candidate_key (c : Candidate) : string :=
  (Addr_String (ec_Address c) +:+ "|" +:+ Itoa (ec_Port c) +:+ "|" +:+ ec_Interface c)%string.

Fixpoint filter_loop (now : Time) (seen : gset string) (candidates : list Candidate) : list Candidate :=
  match candidates with
  | [] => []
  | c :: candidates =>
    if negb (usable now c) then filter_loop now seen candidates
    else if bool_decide (candidate_key c ∈ seen) then filter_loop now seen candidates
    else c :: filter_loop now ({[candidate_key c]} ∪ seen) candidates
  end.

Definition candidate_less (l r : Candidate) : bool :=
  if negb (ec_Priority l =? ec_Priority r) then ec_Priority l <? ec_Priority r
  else if negb (bool_decide (ec_Address l = ec_Address r)) then sltb (Addr_String (ec_Address l)) (Addr_String (ec_Address r))
  else if negb (bool_decide (ec_Interface l = ec_Interface r)) then sltb (ec_Interface l) (ec_Interface r)
  else ec_Port l <? ec_Port r.

(** [current] is the clock, read when no time is given. *)
Definition FilterIPv6Candidates (current : Time) (candidates : list Candidate) (now : Time) : list Candidate :=
  let now := if IsZero now then current else now in
  SliceStable candidate_less (filter_loop now ∅ candidates).

Definition netipToNetIP (a : Addr) : IP := if Is4 a then As4 a else As16 a.

Record Discoverer (W : Type) := { di_Enumerate : Context → Z → M W (list Candidate); di_max : Z }.
Arguments di_Enumerate {W}. Arguments di_max {W}.
Definition NewDiscoverer {W} (enumerator : option (Context → Z → M W (list Candidate))) : result (Discoverer W) :=
  match enumerator with
  | None => Err ErrInvalidEnumerator
  | Some e => Ok {| di_Enumerate := e; di_max := 16 |}
  end.

Definition discovered (now : Time) (c : Candidate) : EndpointCandidate :=
  {| ep_NodeID := ""; ep_Address := netipToNetIP (ec_Address c); ep_Port := ec_Port c; ep_Family := FamilyIPv6;
     ep_Interface := ec_Interface c; ep_Priority := ec_Priority c; ep_ObservedAt := now |}.

(** [now] is the clock of the discoverer, [current] the one of the filter. *)
Definition Discover {W} (d : Discoverer W) (now current : Time) (ctx : Context) (port : Z) : M W (list EndpointCandidate) :=
  match ctx with
  | nilContext => throw Canceled
  | doneContext e => throw e
  | liveContext =>
    let! candidates := di_Enumerate d ctx port in
    let filtered := FilterIPv6Candidates current candidates now in
    let filtered := if (0 <? di_max d) && (di_max d <? Z.of_nat (length filtered)) then take (Z.to_nat (di_max d)) filtered else filtered in
    ret (discovered now <$> filtered)
  end.

(** ** The enumeration on Windows *)
Definition AF_INET6 : Z := 23.
Record rawSockaddrInet := { rs_Family : Z; rs_Data : list Z }.
Record unicastAddressRow := {
  ur_Address : rawSockaddrInet; ur_InterfaceLUID : Z; ur_ValidLifetime : Z; ur_PreferredLifetime : Z; ur_SkipAsSource : Z
}.
Record adapterInfo := { ai_name : string; ai_ifType : Z; ai_virtual : bool }.

(** After the family come the port, the flow information, the address and the
    scope, which is little endian. *)
Definition parse_row (raw : rawSockaddrInet) : Addr :=
  if negb (rs_Family raw =? AF_INET6) then AddrZero
  else
    let scope := be_value (reverse (take 4 (drop 22 (rs_Data raw)))) in
    Addr6 (be_value (take 16 (drop 6 (rs_Data raw)))) (if scope =? 0 then "" else Itoa scope).

Definition lifetime (now : Time) (seconds : Z) : Time := if seconds =? 2 ^ 32 - 1 then 0 else now + seconds * Second.
Definition interfacePriority (info : adapterInfo) : Z := if ai_virtual info then 1000 else 10.

Definition virtualInterface (lower : string → string) (name : string) (ifType : Z) : bool :=
  (ifType =? 24) || (ifType =? 131)
  || existsb (Contains (lower name)) ["wireguard"; "wintun"; "tap"; "vpn"; "loopback"].

(** The adapters by their identifier; a later one replaces an earlier one. *)
Definition enumerateAdapters (lower : string → string) (adapters : list (Z * string * Z)) : gmap Z adapterInfo :=
  fold_left (λ m '(luid, name, ifType),
    <[luid := {| ai_name := name; ai_ifType := ifType; ai_virtual := virtualInterface lower name ifType |}]> m) adapters ∅.

Definition row_candidate (now : Time) (port : Z) (adapters : gmap Z adapterInfo) (row : unicastAddressRow) : option Candidate :=
  let address := parse_row (ur_Address row) in
  if negb (Addr_IsValid address) then None
  else
    let info := default {| ai_name := ""; ai_ifType := 0; ai_virtual := false |} (adapters !! ur_InterfaceLUID row) in
    let name := if bool_decide (ai_name info = "") then ("luid-" +:+ Itoa (ur_InterfaceLUID row))%string else ai_name info in
    Some {| ec_Address := address; ec_Port := port; ec_Interface := name; ec_InterfaceLUID := ur_InterfaceLUID row;
            ec_Priority := interfacePriority info; ec_SkipAsSource := negb (ur_SkipAsSource row =? 0);
            ec_Loopback := ai_ifType info =? 24; ec_LinkLocal := IsLinkLocalUnicast address; ec_Virtual := ai_virtual info;
            ec_ValidUntil := lifetime now (ur_ValidLifetime row); ec_PreferredUntil := lifetime now (ur_PreferredLifetime row) |}.

(** The two system calls give a table or an error. *)
Definition Enumerate {W} (lower : string → string) (now : Time) (GetAdapters : M W (list (Z * string * Z)))
    (GetTable : M W (list unicastAddressRow)) (ctx : Context) (port : Z) : M W (list Candidate) :=
  match ctx with
  | nilContext => throw Canceled
  | doneContext e => throw e
  | liveContext =>
    if port =? 0 then throw (EForeign 0)
    else
      let! adapters := GetAdapters in
      let! rows := GetTable in
      ret (omap (row_candidate now port (enumerateAdapters lower adapters)) rows)
  end.

(** ** The report *)
Definition normalized (nodeID : string) (now : Time) (c : EndpointCandidate) : EndpointCandidate :=
  {| ep_NodeID := nodeID;
     ep_Address := if is_nil (ep_Address c) then ep_Address c
                   else match ParseAddr (IP_String (ep_Address c)) with Some a => netipToNetIP a | None => ep_Address c end;
     ep_Port := ep_Port c; ep_Family := ep_Family c; ep_Interface := ep_Interface c; ep_Priority := ep_Priority c;
     ep_ObservedAt := if IsZero (ep_ObservedAt c) then now else ep_ObservedAt c |}.

Definition Report {W} (reporter : option (Context → string → string → string → string → list EndpointCandidate → M W unit)) (now : Time)
    (ctx : Context) (networkID nodeID sessionToken clientVersion : string) (candidates : list EndpointCandidate) : M W unit :=
  match reporter with
  | None => throw ErrInvalidReporter
  | Some heartbeat =>
    if bool_decide (networkID = "") || bool_decide (nodeID = "") || bool_decide (sessionToken = "") then throw ErrValidation
    else heartbeat ctx networkID nodeID sessionToken clientVersion (normalized nodeID now <$> candidates)
  end.
