(* ===== verification/EndpointThm.v ===== *)
(** * Endpoint discovery: properties

    The filter keeps exactly the usable candidates, once each and ranked; what a
    Windows host discovers is taken by the heartbeat of the control client, unless
    an address is an IPv4 address in IPv6 form. *)

From Stdlib Require Import Ascii.
From S2P Require Import Prelude GoStd NetIP NetIP6 Model Json TimeFmt Wire Ipc Service DataPlane Client Endpoint.

Open Scope Z_scope.

(** ** The text of an IPv6 address determines it *)
Definition addr6_ok (a : Addr) : Prop := match a with Addr6 v _ => 0 ≤ v < 2^128 | _ => False end.

Definition address_text (v : Z) : list ascii :=
  if Z.shiftr v 32 =? 65535 then bytes "::ffff:" ++ dotted (put_be 4 (Z.land v (2^32 - 1))) else append6 v.

Lemma Addr6_String v z : bytes (Addr_String (Addr6 v z)) = address_text v ++ zone_suffix z.
Proof.
  unfold Addr_String, address_text, Is4In6. destruct (_ =? _); rewrite bytes_of_bytes; [by rewrite <- app_assoc|done].
Qed.

Lemma dotted_chars ip : length ip = 4%nat → Forall is_byte ip → "%"%char ∉ dotted ip ∧ "."%char ∈ dotted ip.
Proof.
  destruct ip as [|a [|b [|c [|d [|]]]]]; try done. intros _ H. cbn [dotted]. split.
  - assert (∀ x, is_byte x → "%"%char ∉ dec_byte x) as Hx.
    { refine (byte_cases _ _). apply Forall_forall. intros x Hx%list_elem_of_In.
      assert (forallb (λ x, bool_decide ("%"%char ∉ dec_byte x)) (seqZ 0 256) = true) as Hall by (vm_compute; reflexivity).
      rewrite forallb_forall in Hall. by apply (bool_decide_eq_true_1 _), Hall. }
    decompose_Forall_hyps. rewrite !elem_of_app, !elem_of_cons, !elem_of_app, !elem_of_cons, !elem_of_app, !elem_of_cons.
    intros [Hin|[Hin|[Hin|[Hin|[Hin|[Hin|Hin]]]]]]; first [discriminate Hin|revert Hin; by apply Hx].
  - apply elem_of_app. right. by left.
Qed.

Lemma append6_plain v : "%"%char ∉ append6 v ∧ "."%char ∉ append6 v.
Proof.
  destruct (append6_chars v) as [H _]. rewrite Forall_forall in H. split; intros Hin; by destruct (H _ Hin) as [[? ?]|].
Qed.

Lemma address_text_plain v : "%"%char ∉ address_text v.
Proof.
  unfold address_text. destruct (_ =? _); [|by apply append6_plain]. rewrite elem_of_app. intros [Hin|Hin].
  - by apply (bool_decide_eq_true_1 ("%"%char ∉ bytes "::ffff:")) in Hin.
  - revert Hin. apply dotted_chars; [apply (put_be_length 4)|apply (put_be_byte 4)].
Qed.

Lemma address_text_inj v w : 0 ≤ v < 2^128 → 0 ≤ w < 2^128 → address_text v = address_text w → v = w.
Proof.
  intros Hv Hw. unfold address_text.
  assert (∀ x, "."%char ∈ bytes "::ffff:" ++ dotted (put_be 4 x)) as Hdot.
  { intros x. apply elem_of_app. right. apply dotted_chars; [apply (put_be_length 4)|apply (put_be_byte 4)]. }
  destruct (Z.shiftr v 32 =? 65535) eqn:Ev, (Z.shiftr w 32 =? 65535) eqn:Ew.
  - intros H%app_inv_head. apply dotted_inj in H; try apply (put_be_length 4); try apply (put_be_byte 4).
    apply (f_equal be_value) in H. rewrite !be_value_put_be in H. change (2 ^ (8 * Z.of_nat 4)) with (2^32) in H.
    change (2^32 - 1) with (Z.ones 32) in H. rewrite !Z.land_ones, !Z.mod_mod in H by lia.
    apply Z.eqb_eq in Ev, Ew. rewrite Z.shiftr_div_pow2 in Ev, Ew by lia. rewrite (Z.div_mod v (2^32)), (Z.div_mod w (2^32)) by lia. congruence.
  - intros H. exfalso. specialize (Hdot (Z.land v (2^32 - 1))). rewrite H in Hdot. by apply append6_plain in Hdot.
  - intros H. exfalso. specialize (Hdot (Z.land w (2^32 - 1))). rewrite <- H in Hdot. by apply append6_plain in Hdot.
  - intros H. pose proof (ParseAddr_append6 v Hv) as E. rewrite H, (ParseAddr_append6 w Hw) in E. by injection E.
Qed.

(** A text up to its first separator. *)
Lemma cut_unique (sep : ascii) a b x y :
  sep ∉ a → sep ∉ b → x = [] ∨ head x = Some sep → y = [] ∨ head y = Some sep → a ++ x = b ++ y → a = b ∧ x = y.
Proof.
  revert b. induction a as [|c a IH]; intros [|d b] Ha Hb Hx Hy; cbn [app]; try rewrite not_elem_of_cons in Ha; try rewrite not_elem_of_cons in Hb.
  - done.
  - intros ->. destruct Hx as [?|[= ->]]; [done|]. by destruct Hb.
  - intros <-. destruct Hy as [?|[= ->]]; [done|]. by destruct Ha.
  - intros [= -> H]. apply IH in H as [-> ->]; tauto.
Qed.

Lemma zone_suffix_head z : zone_suffix z = [] ∨ head (zone_suffix z) = Some "%"%char.
Proof. unfold zone_suffix. case_bool_decide; [by left|by right]. Qed.

Lemma Addr6_String_inj a b : addr6_ok a → addr6_ok b → Addr_String a = Addr_String b → a = b.
Proof.
  destruct a as [| |v z], b as [| |w y]; try done. cbn [addr6_ok]. intros Hv Hw H%(f_equal bytes). rewrite !Addr6_String in H.
  apply (cut_unique "%"%char) in H as [Hvw Hzy]; try apply address_text_plain; try apply zone_suffix_head.
  apply address_text_inj in Hvw as ->; [|done..]. f_equal. unfold zone_suffix in Hzy.
  repeat case_bool_decide; try done; [congruence|]. injection Hzy as Hzy. by apply bytes_inj.
Qed.

(** ** The filter *)
Lemma filter_loop_spec now seen l :
  let f := filter_loop now seen l in
  NoDup (candidate_key <$> f) ∧
  (∀ c, c ∈ f → c ∈ l ∧ usable now c = true ∧ candidate_key c ∉ seen) ∧
  (∀ c, c ∈ l → usable now c = true → candidate_key c ∈ seen ∨ candidate_key c ∈ candidate_key <$> f).
Proof.
  revert seen. induction l as [|c l IH]; intros seen; cbn [filter_loop].
  { split_and!; [constructor|by intros c ?%not_elem_of_nil..]. }
  destruct (usable now c) eqn:Eu; cbn [negb].
  2: { destruct (IH seen) as (Hn & Hin & Hall). split_and!; [done| |].
       - intros d Hd. destruct (Hin d Hd) as (? & ? & ?). split_and!; [by right|done..].
       - intros d [->|Hd]%elem_of_cons Hu; [congruence|auto]. }
  destruct (bool_decide (candidate_key c ∈ seen)) eqn:Es.
  { apply bool_decide_eq_true in Es. destruct (IH seen) as (Hn & Hin & Hall). split_and!; [done| |].
    - intros d Hd. destruct (Hin d Hd) as (? & ? & ?). split_and!; [by right|done..].
    - intros d [->|Hd]%elem_of_cons Hu; [by left|auto]. }
  apply bool_decide_eq_false in Es. destruct (IH ({[candidate_key c]} ∪ seen)) as (Hn & Hin & Hall). rewrite fmap_cons. split_and!.
  - apply NoDup_cons. split; [|done]. intros (d & Hk & Hd)%list_elem_of_fmap. destruct (Hin d Hd) as (_ & _ & Hno). apply Hno. set_solver.
  - intros d [->|Hd]%elem_of_cons; [split_and!; [by left|done..]|]. destruct (Hin d Hd) as (? & ? & Hno).
    split_and!; [by right|done|]. set_solver.
  - intros d [->|Hd]%elem_of_cons Hu; [right; by left|]. destruct (Hall d Hd Hu) as [[->%elem_of_singleton|?]%elem_of_union|?].
    + right. rewrite elem_of_cons. by left.
    + by left.
    + right. by right.
Qed.

(** The same order, by the text of the address. *)
Definition rank_less : Candidate → Candidate → bool :=
  lex_less ec_Priority Z.ltb (lex_less (λ c, Addr_String (ec_Address c)) sltb (lex_less ec_Interface sltb (λ l r, ec_Port l <? ec_Port r))).

Lemma SliceStable_ext {A} (f g : A → A → bool) l :
  (∀ x y, x ∈ l → y ∈ l → f x y = g x y) → SliceStable f l = SliceStable g l.
Proof.
  induction l as [|x l IH]; intros H; cbn [SliceStable]; [done|]. rewrite IH by (intros; apply H; by right).
  assert (∀ y, y ∈ SliceStable g l → f y x = g y x) as Hx.
  { intros y Hy%SliceStable_elem. apply H; [by right|by left]. }
  revert Hx. generalize (SliceStable g l). intros k. induction k as [|y k IHk]; intros Hx; cbn [sort_insert]; [done|].
  rewrite (Hx y) by (by left). destruct (g y x); [|done]. f_equal. apply IHk. intros z Hz. apply Hx. by right.
Qed.

Lemma candidate_less_rank x y : addr6_ok (ec_Address x) → addr6_ok (ec_Address y) → candidate_less x y = rank_less x y.
Proof.
  intros Hx Hy. unfold candidate_less, rank_less, lex_less. destruct (Z.eqb_spec (ec_Priority x) (ec_Priority y)); cbn [negb]; case_decide; try done.
  destruct (bool_decide (ec_Address x = ec_Address y)) eqn:Ea; cbn [negb].
  - apply bool_decide_eq_true in Ea. rewrite decide_True by congruence.
    destruct (bool_decide (ec_Interface x = ec_Interface y)) eqn:Ei; cbn [negb]; case_decide; done.
  - apply bool_decide_eq_false in Ea. case_decide as Ht; [|done]. by apply Addr6_String_inj in Ht.
Qed.

(** The candidates of a host are ranked: no two with the same address, port and
    interface, all of them usable, and none of the usable ones missing. *)
Record ranked (now : Time) (candidates l : list Candidate) : Prop := {
  rk_sorted : sorted_by rank_less l;
  rk_distinct : NoDup (candidate_key <$> l);
  rk_usable c : c ∈ l → c ∈ candidates ∧ usable now c = true;
  rk_complete c : c ∈ candidates → usable now c = true → candidate_key c ∈ candidate_key <$> l
}.

Lemma usable_is6 now c : usable now c = true → Is6 (ec_Address c) = true.
Proof. unfold usable. rewrite !andb_true_iff, !negb_true_iff, !orb_false_iff, !negb_false_iff. tauto. Qed.

Lemma Filter_ranked current now candidates :
  Forall (λ c, ∀ v z, ec_Address c = Addr6 v z → 0 ≤ v < 2^128) candidates → IsZero now = false →
  ranked now candidates (FilterIPv6Candidates current candidates now).
Proof.
  intros Ht Hn. unfold FilterIPv6Candidates. rewrite Hn. destruct (filter_loop_spec now ∅ candidates) as (Hnd & Hin & Hall).
  assert (SliceStable candidate_less (filter_loop now ∅ candidates) = SliceStable rank_less (filter_loop now ∅ candidates)) as ->.
  { apply SliceStable_ext. intros x y Hx Hy. rewrite Forall_forall in Ht.
    assert (∀ c, c ∈ filter_loop now ∅ candidates → addr6_ok (ec_Address c)) as Hok.
    { intros c Hc. destruct (Hin c Hc) as (Hl & Hu%usable_is6 & _). specialize (Ht c Hl). destruct (ec_Address c) as [| |v z]; try done.
      by apply (Ht v z). }
    apply candidate_less_rank; auto. }
  split.
  - apply SliceStable_sorted. unfold rank_less. apply _.
  - by rewrite (SliceStable_perm rank_less (filter_loop now ∅ candidates)).
  - intros c Hc%SliceStable_elem. by destruct (Hin c Hc) as (? & ? & _).
  - intros c Hc Hu. rewrite (SliceStable_perm rank_less (filter_loop now ∅ candidates)).
    by destruct (Hall c Hc Hu) as [?%elem_of_empty|?].
Qed.

(** ** What the control plane takes *)
Lemma mapped_unique v : 0 ≤ v < 2^128 → take 12 (put_be 16 v) = v4InV6Prefix → Z.shiftr v 32 = 65535.
Proof.
  intros Hv Ht. set (u := 65535 * 2^32 + v mod 2^32). pose proof (Z.mod_pos_bound v (2^32) ltac:(lia)) as Hm.
  assert (Z.shiftr u 32 = 65535) as Hu.
  { unfold u. rewrite Z.shiftr_div_pow2, Z.div_add_l by lia. rewrite (Z.div_small (v mod 2^32)) by lia. lia. }
  assert (put_be 16 v = put_be 16 u) as E.
  { rewrite <- (take_drop 12 (put_be 16 v)), <- (take_drop 12 (put_be 16 u)), Ht, (mapped_prefix u Hu). f_equal.
    change (drop 12 (put_be 16 ?x)) with (put_be 4 x). rewrite <- (put_be_mod 4 4 v), <- (put_be_mod 4 4 u) by lia.
    change (2 ^ (8 * Z.of_nat 4)) with (2^32). f_equal. unfold u. by rewrite Z.add_comm, Z.mod_add, Z.mod_mod by lia. }
  apply (f_equal be_value) in E. rewrite !be_value_put_be in E. change (2 ^ (8 * Z.of_nat 16)) with (2^128) in E.
  rewrite !Z.mod_small in E; [by rewrite E|unfold u; lia|done].
Qed.

Lemma To4_As16 v : 0 ≤ v < 2^128 → Is4In6 (Addr6 v "") = false → is_nil (To4 (put_be 16 v)) = true.
Proof.
  intros Hv Hm. unfold To4. rewrite (bool_decide_eq_false_2 (length (put_be 16 v) = 4%nat)) by (by rewrite put_be_length).
  rewrite (bool_decide_eq_false_2 (take 12 (put_be 16 v) = v4InV6Prefix)), andb_false_r; [done|].
  intros Ht%mapped_unique; [|done]. cbn in Hm. lia.
Qed.

Lemma IP_String_As16 v : 0 ≤ v < 2^128 → Is4In6 (Addr6 v "") = false → IP_String (put_be 16 v) = of_bytes (append6 v).
Proof.
  intros Hv Hm. unfold IP_String. pose proof (put_be_length 16 v) as Hl. pose proof (To4_As16 v Hv Hm) as H4.
  rewrite (bool_decide_eq_false_2 (put_be 16 v = [])) by (by intros E; rewrite E in Hl).
  rewrite (bool_decide_eq_true_2 (_ ∨ _)) by (by right). cbn [negb].
  rewrite (bool_decide_eq_false_2 (length (To4 (put_be 16 v)) = 4%nat)).
  2: { intros E. apply is_nil_4 in E. congruence. }
  unfold AddrFrom16. rewrite be_value_put_be. change (2 ^ (8 * Z.of_nat 16)) with (2^128). rewrite Z.mod_small by done.
  unfold Addr_String. rewrite Hm. change (zone_suffix "") with (@nil ascii). by rewrite app_nil_r.
Qed.

(** A candidate that the filter lets through, in IPv6 form and of a rank that the
    database can hold. *)
Definition reportable (now : Time) (c : Candidate) : Prop :=
  usable now c = true ∧ addr6_ok (ec_Address c) ∧ Is4In6 (ec_Address c) = false ∧ ec_Priority c ≤ maxPostgresInteger.

Definition owned_by (nodeID : string) (e : EndpointCandidate) : EndpointCandidate :=
  {| ep_NodeID := nodeID; ep_Address := ep_Address e; ep_Port := ep_Port e; ep_Family := ep_Family e; ep_Interface := ep_Interface e;
     ep_Priority := ep_Priority e; ep_ObservedAt := ep_ObservedAt e |}.

Lemma normalized_discovered nodeID t now c :
  IsZero now = false → reportable now c → normalized nodeID t (discovered now c) = owned_by nodeID (discovered now c).
Proof.
  intros Hn (_ & Hok & Hm & _). unfold normalized, owned_by, discovered; cbn. rewrite Hn. f_equal.
  destruct (ec_Address c) as [| |v z]; try done. unfold netipToNetIP; cbn [Is4 As16]. cbn in Hok.
  destruct (is_nil (put_be 16 v)); [done|]. rewrite IP_String_As16 by done. by rewrite ParseAddr_append6 by done.
Qed.

Lemma reportable_valid nodeID now c :
  IsZero now = false → blank nodeID = false → reportable now c →
  ValidateEndpointCandidate (owned_by nodeID (discovered now c)) = None.
Proof.
  intros Hn Hid (Hu & Hok & Hm & Hp). unfold ValidateEndpointCandidate, owned_by, discovered; cbn.
  unfold required. rewrite Hid. unfold usable in Hu.
  rewrite !andb_true_iff, !negb_true_iff, !orb_false_iff, !negb_false_iff in Hu.
  destruct Hu as [[[[[Hport _] _] _] Hi] Hprio]. destruct Hport as [[[[[[_ _] Hport] _] _] _] _].
  destruct (ec_Address c) as [| |v z]; try done. unfold netipToNetIP, validateEndpointAddress; cbn [Is4 As16]. cbn in Hok.
  pose proof (put_be_length 16 v) as Hl. assert (is_nil (put_be 16 v) = false) as Hnil.
  { unfold is_nil. apply bool_decide_eq_false_2. intros E. by rewrite E in Hl. }
  rewrite Hnil, (bool_decide_eq_false_2 (FamilyIPv6 = FamilyIPv4)), (bool_decide_eq_true_2 (FamilyIPv6 = FamilyIPv6)) by done.
  assert (is_nil (To16 (put_be 16 v)) = false) as ->.
  { unfold To16. by rewrite Hl, (bool_decide_eq_false_2 (16%nat = 4%nat)), (bool_decide_eq_true_2 (16%nat = 16%nat)) by done. }
  rewrite (To4_As16 v Hok Hm). cbn [negb orb]. rewrite Hport, Hi, Hprio. cbn [orb]. rewrite Hn.
  by replace (maxPostgresInteger <? ec_Priority c) with false by lia.
Qed.

Lemma wire_endpoints_ok beyond nodeID t l :
  Forall (λ e, ValidateEndpointCandidate (completed nodeID t e) = None) l →
  ∃ js, wire_endpoints beyond nodeID t l = Ok js ∧ length js = length l.
Proof.
  induction 1 as [|e l He _ (js & Hjs & Hlen)]; cbn [wire_endpoints]; [by exists []|]. rewrite He, Hjs. eexists. split; [done|]. cbn. by f_equal.
Qed.

(** ** Claims *)

(** A row of the address table, as the operating system lays it out. *)
Definition row_ok (r : unicastAddressRow) : Prop := Forall is_byte (rs_Data (ur_Address r)) ∧ length (rs_Data (ur_Address r)) = 26%nat.

Lemma row_candidate_ok now port adapters rows :
  Forall row_ok rows →
  Forall (λ c, (∀ v z, ec_Address c = Addr6 v z → 0 ≤ v < 2^128) ∧ ec_Priority c ≤ maxPostgresInteger)
    (omap (row_candidate now port adapters) rows).
Proof.
  intros Hrows. apply Forall_forall. intros c (r & Hr & Hc)%list_elem_of_omap. rewrite Forall_forall in Hrows.
  destruct (Hrows r Hr) as [Hb Hl]. unfold row_candidate, parse_row in Hc. destruct (negb (rs_Family _ =? _)); [done|].
  cbn [Addr_IsValid negb] in Hc. injection Hc as <-. cbn. split.
  - intros v z [= <- _].
    assert (length (take 16 (drop 6 (rs_Data (ur_Address r)))) = 16%nat) as Hlt by (rewrite length_take, length_drop; lia).
    pose proof (be_value_bound (take 16 (drop 6 (rs_Data (ur_Address r)))) (Forall_take _ _ _ (Forall_drop _ _ _ Hb))) as Hv.
    by rewrite Hlt in Hv.
  - unfold interfacePriority, maxPostgresInteger. case_match; lia.
Qed.


Definition sample_row : unicastAddressRow :=
  {| ur_Address := {| rs_Family := 23; rs_Data := replicate 6 0 ++ put_be 16 (0x20010db8 * 2^96 + 7) ++ replicate 4 0 |};
     ur_InterfaceLUID := 5; ur_ValidLifetime := 2^32 - 1; ur_PreferredLifetime := 600; ur_SkipAsSource := 0 |}.
Definition sample_adapters : M unit (list (Z * string * Z)) := ret [(5, "Ethernet", 6)].
Definition sample_table : M unit (list unicastAddressRow) := ret [sample_row; sample_row].
Definition sample_discoverer : Discoverer unit := {| di_Enumerate := Enumerate ToLower 1000 sample_adapters sample_table; di_max := 16 |}.

