(* ===== verification/Identity.v ===== *)
(** * The identity of a device

    [internal/identity/store.go]: the WireGuard key pair of a device, created on
    first use and kept in a file under the protection of the platform.  The file
    calls and the protector are classes on an arbitrary system; the curve
    [x25519], the directory of a path, what [newDefaultProtector] returns and the
    random bytes are arguments. *)

From Stdlib Require Import Ascii.
From S2P Require Import Prelude GoStd Crypto NetIP Wgnt Json Wire.

Open Scope Z_scope.

Record Identity := { id_PublicKey : string; id_privateKey : list Z }.

Class Protector (W : Type) := {
  Protect : list Z → M W (list Z);
  Unprotect : list Z → M W (list Z)
}.

Inductive read_result := Contents (data : list ascii) | NotExist | ReadFailed (e : error).
Class IdentityFiles (W : Type) := {
  os_ReadFile : string → W → read_result * W;
  os_MkdirAll : string → M W unit;
  os_secure : string → M W unit;
  os_CreateTemp : string → M W string;
  os_Chmod : string → M W unit;
  os_Write : string → list ascii → M W unit;
  os_Sync : string → M W unit;
  os_Close : string → M W unit;
  os_Rename : string → string → M W unit;
  os_Remove : string → W → W
}.

(** ** The record *)
Record record := { rd_Version : Z; rd_PublicKey : string; rd_ProtectedPrivateKey : string }.
Definition record_names : list string := ["version"; "public_key"; "protected_private_key"].

(** [json.Unmarshal]: unknown members are passed over, [null] changes nothing. *)
Definition decode_record (data : list ascii) : option record :=
  match decode_text data with
  | Some JNull => Some {| rd_Version := 0; rd_PublicKey := ""; rd_ProtectedPrivateKey := "" |}
  | Some (JObject ms) =>
    version ← fld c_int64 record_names "version" ms 0;
    public ← fld c_string record_names "public_key" ms "";
    protected ← fld c_string record_names "protected_private_key" ms "";
    Some {| rd_Version := version; rd_PublicKey := public; rd_ProtectedPrivateKey := protected |}
  | _ => None
  end.

(** [json.MarshalIndent] with two spaces, on an object of scalars. *)
Definition indent : list ascii := "010"%char :: bytes "  ".
Definition indent_member (kv : string * json) : list ascii := indent ++ quote (bytes kv.1) ++ bytes ": " ++ print kv.2.
Definition MarshalIndent (ms : list (string * json)) : list ascii :=
  "{"%char :: separated (List.map indent_member ms) ++ ["010"; "}"]%char.
Definition record_members (r : record) : list (string * json) :=
  [("version", JNumber (FormatInt (rd_Version r))); ("public_key", JString (rd_PublicKey r));
   ("protected_private_key", JString (rd_ProtectedPrivateKey r))].
Definition encode_record (r : record) : list ascii := MarshalIndent (record_members r).

Definition encodeKey (key : list Z) : string := StdEncode key.

Section Store.
Context {W : Type} `{Protector W, IdentityFiles W}.
Variable x25519 : list Z → list Z.
Variable Dir : string → string.
Variable path : string.
(** A store made with its own protector does not ask for the platform's. *)
Variable injected : bool.
Variable newDefaultProtector : result unit.

Definition publicKeyForPrivate (privateKey : list Z) : result (list Z) :=
  if negb (bool_decide (length privateKey = 32%nat)) then Err ErrCorruptIdentity else Ok (x25519 privateKey).

(** [WithPrivateKey]: the consumer gets the key; the copy is wiped afterwards. *)
Definition WithPrivateKey {A} (identity : Identity) (consumer : option (list Z → M W A)) : M W A :=
  match consumer with
  | None => throw ErrInvalidIdentity
  | Some f => if negb (bool_decide (length (id_privateKey identity) = 32%nat)) then throw ErrInvalidIdentity else f (id_privateKey identity)
  end.

Definition load (data : list ascii) : M W Identity := λ w,
  match decode_record data with
  | None => (Err (EWrap ErrCorruptIdentity), w)
  | Some saved =>
    if negb (rd_Version saved =? 1) || bool_decide (rd_PublicKey saved = "") || bool_decide (rd_ProtectedPrivateKey saved = "")
    then (Err ErrCorruptIdentity, w)
    else match StdDecode (rd_ProtectedPrivateKey saved) with
    | None => (Err (EWrap ErrCorruptIdentity), w)
    | Some protected =>
      match Unprotect protected w with
      | (Err _, w) => (Err (EWrap ErrCorruptIdentity), w)
      | (Ok privateKey, w) =>
        match publicKeyForPrivate privateKey with
        | Err _ => (Err ErrCorruptIdentity, w)
        | Ok publicKey =>
          if negb (bool_decide (encodeKey publicKey = rd_PublicKey saved)) then (Err ErrCorruptIdentity, w)
          else (Ok {| id_PublicKey := rd_PublicKey saved; id_privateKey := privateKey |}, w)
        end
      end
    end
  end.

(** The steps between the creation of the temporary file and the rename; a step
    that fails closes the file. *)
Definition closing (name : string) (m : M W unit) : M W unit := λ w,
  match m w with (Err err, w) => (Err err, (os_Close name w).2) | ok => ok end.
Definition write (data : list ascii) : M W unit :=
  os_MkdirAll (Dir path);;
  os_secure (Dir path);;
  let! name := os_CreateTemp (Dir path) in
  λ w,
    let '(r, w) :=
      (closing name (os_Chmod name);;
       closing name (os_secure name);;
       closing name (os_Write name data);;
       closing name (os_Sync name);;
       os_Close name;;
       os_Rename name path;;
       os_secure path) w in
    (r, os_Remove name w).

(** [random] is what is read for the key. *)
Definition create (random : result (list Z)) : M W Identity :=
  let! privateKey := lift random in
  let publicKey := x25519 privateKey in
  let! protected := Protect privateKey in
  let saved := {| rd_Version := 1; rd_PublicKey := encodeKey publicKey; rd_ProtectedPrivateKey := StdEncode protected |} in
  write (encode_record saved);;
  ret {| id_PublicKey := rd_PublicKey saved; id_privateKey := privateKey |}.

Definition LoadOrCreate (random : result (list Z)) : M W Identity := λ w,
  if bool_decide (path = "") then (Err ErrInvalidIdentity, w)
  else match (if injected then Ok tt else newDefaultProtector) with
  | Err err => (Err err, w)
  | Ok _ =>
    match os_ReadFile path w with
    | (Contents data, w) => load data w
    | (NotExist, w) => create random w
    | (ReadFailed err, w) => (Err err, w)
    end
  end.
End Store.
