(* ===== verification/IdentityThm.v ===== *)
(** * The identity of a device: properties

    The file of an identity is read back as it was written, and a device keeps its
    identity once it has one. *)

From Stdlib Require Import Ascii.
From S2P Require Import Prelude GoStd Crypto NetIP Wgnt Json TimeFmt Wire WireThm Identity.

Open Scope Z_scope.

(** ** The text of a record *)
Lemma parse_value_space fuel depth c l : is_space c = true → parse_value fuel depth (c :: l) = parse_value fuel depth l.
Proof. intros Hc. destruct fuel as [|fuel]; [done|]. cbn [parse_value skip_space]. by rewrite Hc. Qed.

Lemma indent_member_read kv depth fuel rest :
  json_ok kv.2 → depth + height kv.2 ≤ maxNestingDepth → (length (print kv.2) ≤ fuel)%nat → number_end rest = true →
  ∃ l1, skip_space (indent_member kv ++ rest) = quote_char :: l1 ∧
    ∃ l2, parse_string l1 = Some (clean_string kv.1, l2) ∧ is_char ":"%char (skip_space l2) = true ∧
      parse_value fuel depth (drop 1 (skip_space l2)) = Some (clean kv.2, rest).
Proof.
  intros Hok Hd Hf Hr. unfold indent_member, indent. rewrite <- !app_assoc.
  destruct (parse_quote kv.1 (bytes ": " ++ print kv.2 ++ rest)) as (l1 & -> & Hp). exists l1. split; [done|].
  eexists. split; [done|]. split; [done|]. change (bytes ": ") with [":"; " "]%char. cbn [app]. rewrite skip_space_char by done.
  change (drop 1 (":"%char :: ?k)) with k. rewrite parse_value_space by done. by apply print_reads.
Qed.

Lemma indent_members_read l depth :
  Forall (λ kv, json_ok kv.2) l → Forall (λ kv, depth + height kv.2 ≤ maxNestingDepth) l → l ≠ [] →
  ∀ fuel rest, (length (separated (List.map indent_member l)) < fuel)%nat →
  parse_members fuel depth (separated (List.map indent_member l) ++ "010"%char :: "}"%char :: rest) = Some (List.map clean_member l, rest).
Proof.
  assert (∀ kv, (length (print kv.2) < length (indent_member kv))%nat) as Hlen.
  { intros kv. unfold indent_member, indent. rewrite !length_app. cbn [length]. lia. }
  induction l as [|kv l IH]; [done|]. intros [Hok Hoks]%Forall_cons [Hd Hds]%Forall_cons _ [|fuel] rest Hf;
    [lia|]. specialize (Hlen kv). cbn [parse_members]. destruct (decide (l = [])) as [->|Hne].
  - cbn [List.map separated] in *.
    destruct (indent_member_read kv depth fuel ("010"%char :: "}"%char :: rest)) as (l1 & -> & l2 & Hp & Hc & Hpv); [done..|lia|done|].
    rewrite bool_decide_eq_true_2 by done. cbn [negb]. by rewrite Hp, Hc, Hpv.
  - cbn [List.map] in *. rewrite separated_cons in * by (by destruct l). rewrite length_app in Hf. cbn [length] in Hf.
    rewrite <- app_assoc, <- app_comm_cons. match goal with |- context [indent_member kv ++ ?r] => set (tail := r) end.
    destruct (indent_member_read kv depth fuel tail) as (l1 & -> & l2 & Hp & Hc & Hpv); [done..|lia|done|].
    rewrite bool_decide_eq_true_2 by done. cbn [negb]. rewrite Hp, Hc, Hpv. cbn [negb]. unfold tail.
    rewrite skip_space_char, is_char_same by done. change (drop 1 (","%char :: ?k)) with k. rewrite IH by (done || lia). done.
Qed.

Lemma decode_MarshalIndent l : l ≠ [] → Forall (λ kv, json_ok kv.2) l → Forall (λ kv, 1 + height kv.2 ≤ maxNestingDepth) l →
  decode_text (MarshalIndent l) = Some (JObject (List.map clean_member l)).
Proof.
  intros Hne Hok Hh. unfold decode_text, decode_one, MarshalIndent. cbn [parse_value length]. rewrite skip_space_char by done.
  cbv beta iota. rewrite (bool_decide_eq_false_2 ("{"%char = quote_char)), bool_decide_eq_true_2 by done.
  rewrite (proj2 (Z.ltb_ge _ _)) by (unfold maxNestingDepth; lia).
  assert (is_char "}"%char (skip_space (separated (List.map indent_member l) ++ ["010"; "}"]%char)) = false) as ->.
  { destruct l as [|kv l]; [done|]. destruct (decide (l = [])) as [->|Hl]; cbn [List.map];
      [|rewrite separated_cons by (by destruct l)]; done. }
  change (["010"; "}"]%char) with ("010"%char :: "}"%char :: @nil ascii). rewrite indent_members_read; [|done|done|done|rewrite length_app; cbn [length]; lia].
  by rewrite bool_decide_eq_true_2.
Qed.

Lemma StdEncode_utf8 l : Forall is_byte l → utf8 (StdEncode l) = true.
Proof.
  intros Hl. unfold utf8, clean_string. apply bool_decide_eq_true_2. unfold StdEncode. rewrite bytes_of_bytes, sanitize_ascii; [done|].
  apply encode_quanta_Forall; [|done|done]. intros v Hv. unfold is_ascii, std_char.
  repeat case_match; try (rewrite code_chr by lia; lia); done.
Qed.

Lemma decode_encode_record r : int64 (rd_Version r) → utf8 (rd_PublicKey r) = true → utf8 (rd_ProtectedPrivateKey r) = true →
  decode_record (encode_record r) = Some r.
Proof.
  intros Hv Hp%utf8_clean Hk%utf8_clean. unfold decode_record, encode_record. rewrite decode_MarshalIndent;
    [|done|repeat constructor; by eexists|repeat constructor; done].
  unfold record_members, clean_member. cbn [List.map fst snd clean]. rewrite Hp, Hk.
  change (clean_string "version") with "version". change (clean_string "public_key") with "public_key".
  change (clean_string "protected_private_key") with "protected_private_key". unfold record_names.
  assert (into c_int64 (JNumber (FormatInt (rd_Version r))) 0 = Some (rd_Version r)) by (cbn; by apply ParseInt_FormatInt).
  assert (into c_string (JString (rd_PublicKey r)) "" = Some (rd_PublicKey r)) by done.
  assert (into c_string (JString (rd_ProtectedPrivateKey r)) "" = Some (rd_ProtectedPrivateKey r)) by done.
  read_fields. cbn. by destruct r.
Qed.

(** ** The system

    What the calls do to the files, and a protector that gives back what it was
    given or fails.  A temporary file is new, its name is of a kind of its own, a
    failed write may leave a part, and a removal may fail. *)
Class IdentityLaws (W : Type) `{Protector W} `{IdentityFiles W} := {
  id_files : W → gmap string (list ascii);
  temporary_name : string → Prop;
  law_read p w r w' : os_ReadFile p w = (r, w') → id_files w' = id_files w ∧
    match r with Contents d => id_files w !! p = Some d | NotExist => id_files w !! p = None | ReadFailed _ => True end;
  law_mkdir d w r w' : os_MkdirAll d w = (r, w') → id_files w' = id_files w;
  law_secure d w r w' : os_secure d w = (r, w') → id_files w' = id_files w;
  law_chmod d w r w' : os_Chmod d w = (r, w') → id_files w' = id_files w;
  law_sync d w r w' : os_Sync d w = (r, w') → id_files w' = id_files w;
  law_close d w r w' : os_Close d w = (r, w') → id_files w' = id_files w;
  law_create_temp d w r w' : os_CreateTemp d w = (r, w') →
    match r with
    | Ok name => temporary_name name ∧ id_files w !! name = None ∧ id_files w' = <[name := []]> (id_files w)
    | Err _ => id_files w' = id_files w
    end;
  law_write name data w r w' : os_Write name data w = (r, w') →
    ∃ text, id_files w' = <[name := text]> (id_files w) ∧ (r = Ok tt → text = default [] (id_files w !! name) ++ data);
  law_rename a b w r w' : os_Rename a b w = (r, w') →
    match r with
    | Ok _ => ∃ text, id_files w !! a = Some text ∧ id_files w' = <[b := text]> (delete a (id_files w))
    | Err _ => id_files w' = id_files w
    end;
  law_remove name w : id_files (os_Remove name w) = delete name (id_files w) ∨ id_files (os_Remove name w) = id_files w;
  law_protect key w r w' : Forall is_byte key → Protect key w = (r, w') → id_files w' = id_files w ∧
    match r with
    | Ok p => p ≠ [] ∧ Forall is_byte p ∧ ∀ w1 k w2, Unprotect p w1 = (Ok k, w2) → k = key
    | Err _ => True
    end;
  law_unprotect p w r w' : Unprotect p w = (r, w') → id_files w' = id_files w
}.

Section Laws.
Context {W : Type} `{IdentityLaws W}.
Variable x25519 : list Z → list Z.
Hypothesis x25519_bytes : ∀ k, length k = 32%nat → length (x25519 k) = 32%nat ∧ Forall is_byte (x25519 k).
Variable Dir : string → string.
Variable path : string.
Hypothesis path_plain : ¬ temporary_name path.
Variable injected : bool.
Variable newDefaultProtector : result unit.

Definition key_ok (random : result (list Z)) : Prop := ∀ k, random = Ok k → length k = 32%nat ∧ Forall is_byte k.

(** A key pair. *)
Definition identity_ok (id : Identity) : Prop :=
  length (id_privateKey id) = 32%nat ∧ id_PublicKey id = encodeKey (x25519 (id_privateKey id)).

(** A text that is read back as the identity whenever the protector opens it. *)
Definition seals (data : list ascii) (id : Identity) : Prop :=
  identity_ok id ∧ ∃ p, ∀ w, load x25519 data w =
    match Unprotect p w with (Ok _, w) => (Ok id, w) | (Err _, w) => (Err (EWrap ErrCorruptIdentity), w) end.

Lemma record_seals key p : length key = 32%nat → p ≠ [] → Forall is_byte p →
  (∀ w1 k w2, Unprotect p w1 = (Ok k, w2) → k = key) →
  seals (encode_record {| rd_Version := 1; rd_PublicKey := encodeKey (x25519 key); rd_ProtectedPrivateKey := StdEncode p |})
    {| id_PublicKey := encodeKey (x25519 key); id_privateKey := key |}.
Proof.
  intros Hk Hp Hb Hu. destruct (x25519_bytes key Hk) as [Hxl Hx]. split; [done|]. exists p. intros w. unfold load.
  rewrite decode_encode_record; cbn [rd_Version rd_PublicKey rd_ProtectedPrivateKey];
    [|done|by apply StdEncode_utf8|by apply StdEncode_utf8].
  rewrite !bool_decide_eq_false_2. 2:{ intros E. assert (StdDecode (StdEncode p) = Some []) as E' by (by rewrite E).
    rewrite StdDecode_StdEncode in E' by done. congruence. }
  2:{ intros E. assert (StdDecode (encodeKey (x25519 key)) = Some []) as E' by (by rewrite E). unfold encodeKey in E'.
    rewrite StdDecode_StdEncode in E' by done. injection E' as E'. by rewrite E' in Hxl. }
  cbn [orb negb]. rewrite StdDecode_StdEncode by done. destruct (Unprotect p w) as [[k|e] w'] eqn:E; [|done].
  apply Hu in E as ->. unfold publicKeyForPrivate. rewrite bool_decide_eq_true_2 by done. cbn [negb].
  by rewrite bool_decide_eq_true_2.
Qed.

(** ** Writing

    From the files [F], writing [data] changes [path] alone, all at once, but may
    leave a new temporary file when it fails. *)
Definition written (F F' : gmap string (list ascii)) (data : list ascii) (ok : Prop) : Prop :=
  (∀ p, p ≠ path → ¬ (temporary_name p ∧ F !! p = None) → F' !! p = F !! p) ∧
  (F' !! path = F !! path ∨ F' !! path = Some data) ∧
  (ok → F' = <[path := data]> F).

Lemma written_same F data : written F F data False.
Proof. split_and!; auto. done. Qed.

Lemma leftover F name text w data : temporary_name name → F !! name = None → id_files w = <[name := text]> F →
  written F (id_files (os_Remove name w)) data False.
Proof.
  intros Hn HF Hw. assert (path ≠ name) by (by intros ->). destruct (law_remove name w) as [->| ->]; rewrite Hw.
  - rewrite delete_insert_id by done. apply written_same.
  - split_and!; [|left; by rewrite lookup_insert_ne|done]. intros p Hp Hnew.
    destruct (decide (p = name)) as [->|]; [by destruct Hnew|]. by rewrite lookup_insert_ne.
Qed.

Lemma delivered F name w data ok : F !! name = None → temporary_name name → id_files w = <[path := data]> F →
  written F (id_files (os_Remove name w)) data ok.
Proof.
  intros HF Hn Hw. assert (path ≠ name) by (by intros ->).
  assert (id_files (os_Remove name w) = <[path := data]> F) as ->.
  { destruct (law_remove name w) as [->| ->]; [|done]. rewrite Hw, delete_id; [done|]. by rewrite lookup_insert_ne. }
  split_and!; [|right; by rewrite lookup_insert_eq|done]. intros p Hp _. by rewrite lookup_insert_ne.
Qed.

Lemma closing_keeps (G : gmap string (list ascii) → Prop) name m w r w' :
  (∀ r w', m w = (r, w') → G (id_files w')) → closing name m w = (r, w') → G (id_files w').
Proof.
  intros Hm. unfold closing. destruct (m w) as [[[]|e] w1] eqn:E.
  - intros [= <- <-]. by eapply Hm.
  - intros [= <- <-]. destruct (os_Close name w1) as [r2 w2] eqn:E2. cbn [snd]. rewrite (law_close _ _ _ _ E2). by eapply Hm.
Qed.

Lemma closing_Ok name m w w' : closing name m w = (Ok tt, w') → m w = (Ok tt, w').
Proof. unfold closing. by destruct (m w) as [[[]|e] w1] eqn:E. Qed.

(** The body of [write] between the creation of the temporary file and its
    removal. *)
Lemma bind_cases {A B} (m : M W A) (k : A → M W B) w r w' : bind m k w = (r, w') →
  (∃ e, m w = (Err e, w') ∧ r = Err e) ∨ ∃ a w1, m w = (Ok a, w1) ∧ k a w1 = (r, w').
Proof. unfold bind. destruct (m w) as [[a|e] w1]; [eauto|]. intros [= <- <-]. eauto. Qed.

Lemma write_spec data w r w' : write Dir path data w = (r, w') → written (id_files w) (id_files w') data (r = Ok tt).
Proof.
  assert (∀ F F' (r : result unit) e, r = Err e → written F F' data False → written F F' data (r = Ok tt)) as Herr.
  { intros F F' r0 e -> (?&?&_). by split_and!. }
  unfold write. intros [(e & E & ->)|(? & w1 & E & Hr)]%bind_cases; rewrite <- (law_mkdir _ _ _ _ E); clear E;
    [by eapply Herr, written_same|].
  apply bind_cases in Hr as [(e & E & ->)|(? & w2 & E & Hr)]; rewrite <- (law_secure _ _ _ _ E); clear E;
    [by eapply Herr, written_same|].
  apply bind_cases in Hr as [(e & E & ->)|(name & w3 & E & Hr)]; apply law_create_temp in E;
    [rewrite <- E; by eapply Herr, written_same|]. destruct E as (Hn & HF & Hw3).
  set (F := id_files w2) in *. clearbody F. clear w w1 w2.
  match type of Hr with (let '(_, _) := ?body w3 in _) = _ => destruct (body w3) as [r0 w4] eqn:Hb end. injection Hr as <- <-.
  (* A step that keeps the files, with the temporary file holding [text]. *)
  assert (∀ (m : M W unit) (k : unit → M W unit) text wa rz wz,
    (∀ r w, m wa = (r, w) → id_files w = id_files wa) → id_files wa = <[name := text]> F → bind (closing name m) k wa = (rz, wz) →
    written F (id_files (os_Remove name wz)) data (rz = Ok tt) ∨ ∃ wb, id_files wb = <[name := text]> F ∧ k tt wb = (rz, wz)) as Hstep.
  { intros m k text wa rz wz Hm Ha [(e & E & ->)|([] & wb & E & Hk)]%bind_cases.
    - left. eapply Herr; [done|]. eapply leftover; [done..|]. eapply (closing_keeps (λ G, G = _)); [|exact E].
      intros r1 w1 E1. by rewrite (Hm _ _ E1).
    - right. exists wb. split; [|done]. apply closing_Ok, Hm in E. congruence. }
  apply (Hstep _ _ [] w3) in Hb as [?|(wb & Hwb & Hb)]; [done| |intros ? ? ?; by eapply law_chmod|done]. clear w3 Hw3.
  apply (Hstep _ _ [] wb) in Hb as [?|(wc & Hwc & Hb)]; [done| |intros ? ? ?; by eapply law_secure|done]. clear wb Hwb.
  apply bind_cases in Hb as [(e & E & ->)|([] & wd & E & Hb)].
  { eapply Herr; [done|]. destruct (os_Write name data wc) as [r1 w1] eqn:Ew.
    apply (closing_keeps (λ G, ∃ text, G = <[name := text]> F)) in E as [text E]; [by eapply leftover|].
    intros ?? (text & E' & _)%law_write. exists text. by rewrite E', Hwc, insert_insert_eq. }
  apply closing_Ok, law_write in E as (text & Ewd & Et). rewrite Et in Ewd by done. clear text Et.
  rewrite Hwc, lookup_insert_eq, insert_insert_eq in Ewd. cbn [default app] in Ewd. clear wc Hwc.
  apply (Hstep _ _ data wd) in Hb as [?|(we & Hwe & Hb)]; [done| |intros ? ? ?; by eapply law_sync|done]. clear wd Ewd.
  apply bind_cases in Hb as [(e & E & ->)|([] & wf & E & Hb)]; apply law_close in E; rewrite Hwe in E;
    [eapply Herr; [done|]; by eapply leftover|].
  apply bind_cases in Hb as [(e & E2 & ->)|([] & wg & E2 & Hb)]; apply law_rename in E2;
    [eapply Herr; [done|]; eapply leftover; [done..|]; by rewrite E2|].
  destruct E2 as (text & Ht & E2). rewrite E, lookup_insert_eq in Ht. injection Ht as <-.
  rewrite E, delete_insert_id in E2 by done. apply law_secure in Hb. eapply delivered; [done..|]. congruence.
Qed.

(** ** Opening *)
Lemma load_spec data w r w' : load x25519 data w = (r, w') → id_files w' = id_files w ∧ ∀ id, r = Ok id → identity_ok id.
Proof.
  unfold load, publicKeyForPrivate, identity_ok. intros Hl.
  repeat (case_match; simplify_eq; try done);
    repeat match goal with
    | E : Unprotect _ _ = _ |- _ => apply law_unprotect in E
    | E : negb (bool_decide _) = false |- _ => apply negb_false_iff, bool_decide_eq_true_1 in E
    end; (split; [done|]); intros id E0; simplify_eq; cbn [id_privateKey id_PublicKey]; try done; congruence.
Qed.

Lemma create_spec random w r w' : key_ok random → create x25519 Dir path random w = (r, w') →
  (∀ p, p ≠ path → ¬ (temporary_name p ∧ id_files w !! p = None) → id_files w' !! p = id_files w !! p) ∧
  (id_files w' !! path = id_files w !! path ∧ is_ok r = false ∨
   ∃ data id, id_files w' !! path = Some data ∧ seals data id ∧ (r = Ok id ∨ is_ok r = false)).
Proof.
  intros Hrnd. unfold create. intros [(e & E & ->)|(key & w1 & E & Hr)]%bind_cases.
  { destruct random as [k|e']; cbn in E; [done|]. injection E as -> ->. auto. }
  destruct random as [k|e']; cbn in E; [|done]. injection E as -> ->. destruct (Hrnd key eq_refl) as [Hk Hkb].
  apply bind_cases in Hr as [(e & E & ->)|(p & w2 & E & Hr)]; apply (law_protect _ _ _ _ Hkb) in E as [Ew E];
    rewrite <- Ew; [by auto|].
  destruct E as (Hp & Hb & Hu). apply bind_cases in Hr as [(e & E & ->)|([] & w3 & E & Hr)].
  - apply write_spec in E as (Hother & Hpath & _). split; [done|].
    destruct Hpath as [?|?]; [by left|]. right. eexists _, _. split_and!; [done|by apply record_seals|by right].
  - apply write_spec in E as (Hother & _ & HF). specialize (HF eq_refl). injection Hr as <- <-. split; [done|].
    right. eexists _, _. split_and!; [by rewrite HF, lookup_insert_eq|by apply record_seals|by left].
Qed.

(** A call with a file at [path] changes no file; without one it adds at most the
    file, holding what it returns. *)
Lemma LoadOrCreate_spec random w r w' : key_ok random →
  LoadOrCreate x25519 Dir path injected newDefaultProtector random w = (r, w') →
  (∀ p, p ≠ path → ¬ (temporary_name p ∧ id_files w !! p = None) → id_files w' !! p = id_files w !! p) ∧
  (∀ id, r = Ok id → identity_ok id) ∧
  ((is_ok r = false ∧ id_files w' !! path = id_files w !! path) ∨
   (∃ data w1, id_files w !! path = Some data ∧ load x25519 data w1 = (r, w') ∧ id_files w' = id_files w) ∨
   (id_files w !! path = None ∧ ∃ data id, id_files w' !! path = Some data ∧ seals data id ∧ (r = Ok id ∨ is_ok r = false))).
Proof.
  intros Hrnd. unfold LoadOrCreate. case_bool_decide as Hpath; [intros [= <- <-]; split_and!; [done|done|by left]|].
  destruct (if injected then _ else _) as [[]|e]; [|intros [= <- <-]; split_and!; [done|done|by left]].
  destruct (os_ReadFile path w) as [o w1] eqn:E. apply law_read in E as [Ew Ho]. rewrite <- Ew in *. destruct o as [data| |e].
  - intros Hl. pose proof (load_spec _ _ _ _ Hl) as [Hw Hid]. rewrite Hw. split_and!; [done|done|].
    right. left. exists data, w1. by split_and!.
  - intros (Hother & Hc)%create_spec; [|done]. split; [done|]. destruct Hc as [[Hp Hr]|(data & id & Hd & Hs & Hr)].
    + split; [|by left]. intros id ->. done.
    + split; [|right; right; split; [done|]; eauto 6]. intros id' ->. destruct Hr as [[= ->]|?]; [apply Hs|done].
  - intros [= <- <-]. split_and!; [done|done|by left].
Qed.

(** ** A device over time

    Calls, each with its own random bytes, and what happens elsewhere between
    them. *)
Inductive session : W → list Identity → W → Prop :=
  | session_nil w : session w [] w
  | session_call random w r w1 ids w2 : key_ok random →
      LoadOrCreate x25519 Dir path injected newDefaultProtector random w = (r, w1) → session w1 ids w2 →
      session w (match r with Ok id => id :: ids | Err _ => ids end) w2
  | session_other w w1 ids w2 : id_files w1 !! path = id_files w !! path → session w1 ids w2 → session w ids w2.

Lemma session_existing w ids w' data : session w ids w' → id_files w !! path = Some data →
  id_files w' !! path = Some data ∧ ∀ id, seals data id → Forall (eq id) ids.
Proof.
  induction 1 as [w|random w r w1 ids w2 Hrnd Hl _ IH|w w1 ids w2 Hw _ IH]; intros Hd; [done| |apply IH; congruence].
  apply LoadOrCreate_spec in Hl as (_ & _ & [[Hr Hp]|[(d & w0 & Hd' & Hl & Hp)|[Hn _]]]); [..|congruence|done].
  - destruct r; [done|]. apply IH. congruence.
  - rewrite Hp in IH. destruct (IH Hd) as [Hd2 Hids]. split; [done|]. intros id Hs. assert (d = data) as -> by congruence.
    destruct r as [id'|e]; [|by apply Hids]. constructor; [|by apply Hids].
    destruct Hs as (_ & p & Hs). rewrite Hs in Hl. destruct (Unprotect p w0) as [[k|e] w3]; congruence.
Qed.

(** C22: whatever calls of LoadOrCreate fail and whatever happens to other files
    between them, an identity file, even a corrupt one, is never changed or
    replaced; a device that starts without one has no identity, or one file that
    the next calls open as the one identity every successful call returned; and an
    identity is always a 32-byte key with its public key. *)
Theorem identity_kept w ids w' : session w ids w' →
  Forall identity_ok ids ∧
  match id_files w !! path with
  | Some data => id_files w' !! path = Some data
  | None =>
    match id_files w' !! path with
    | Some data => ∃ id, seals data id ∧ Forall (eq id) ids
    | None => ids = []
    end
  end.
Proof.
  induction 1 as [w|random w r w1 ids w2 Hrnd Hl Hs IH|w w1 ids w2 Hw _ IH]; [|destruct IH as [Hok IH]|by rewrite <- Hw].
  { split; [done|]. by destruct (id_files w !! path) eqn:E; rewrite ?E. }
  apply LoadOrCreate_spec in Hl as (_ & Hid & Hl); [|done].
  split; [destruct r; [constructor; auto|done]|].
  destruct Hl as [[Hr Hp]|[(d & w0 & Hd & Hl & Hp)|(Hn & data & id & Hd & Hseal & Hr)]].
  - rewrite <- Hp. by destruct r.
  - rewrite Hp, Hd in IH. by rewrite Hd.
  - rewrite Hn. destruct (session_existing _ _ _ _ Hs Hd) as [-> Hids]. exists id. split; [done|]. specialize (Hids id Hseal).
    destruct Hr as [->|Hr]; [by constructor|by destruct r].
Qed.
End Laws.

(** ** A system of files in memory *)
Module IdentityDemo.
Definition temporary : string := "/data/.identity-0".
#[export] Instance demo_protector : Protector (gmap string (list ascii)) := {
  Protect key w := (Ok (1 :: key), w);
  Unprotect p w := (match p with 1 :: key => Ok key | _ => Err (EForeign 1) end, w)
}.
#[export] Instance demo_files : IdentityFiles (gmap string (list ascii)) := {
  os_ReadFile p w := (match w !! p with Some d => Contents d | None => NotExist end, w);
  os_MkdirAll d w := (Ok tt, w);
  os_secure d w := (Ok tt, w);
  os_CreateTemp d w := match w !! temporary with None => (Ok temporary, <[temporary := []]> w) | Some _ => (Err (EForeign 2), w) end;
  os_Chmod d w := (Ok tt, w);
  os_Write n data w := (Ok tt, <[n := default [] (w !! n) ++ data]> w);
  os_Sync d w := (Ok tt, w);
  os_Close d w := (Ok tt, w);
  os_Rename a b w := match w !! a with Some d => (Ok tt, <[b := d]> (delete a w)) | None => (Err (EForeign 3), w) end;
  os_Remove n w := delete n w
}.
#[export] Instance demo_laws : IdentityLaws (gmap string (list ascii)).
Proof.
  refine {| id_files := λ w, w; temporary_name := λ p, p = temporary |}; cbn.
  - intros p w r w' [= <- <-]. by destruct (w !! p).
  - by intros d w r w' [= <- <-].
  - by intros d w r w' [= <- <-].
  - by intros d w r w' [= <- <-].
  - by intros d w r w' [= <- <-].
  - by intros d w r w' [= <- <-].
  - intros d w r w'. case_match; by intros [= <- <-].
  - intros n data w r w' [= <- <-]. eauto.
  - intros a b w r w'. case_match; intros [= <- <-]; eauto.
  - auto.
  - intros key w r w' Hb [= <- <-]. split; [done|]. split_and!; [done|by constructor|]. by intros w1 k w2 [= <- <-].
  - by intros p w r w' [= <- <-].
Defined.

Definition demo_curve (k : list Z) : list Z := replicate 32 9.
Definition demo_key (z : Z) : result (list Z) := Ok (replicate 32 z).
Definition demo_Dir (p : string) : string := "/data".
Definition first : result Identity * gmap string (list ascii) :=
  LoadOrCreate demo_curve demo_Dir "/data/identity.json" true (Err ErrUnsupportedPlatform) (demo_key 5) ∅.
Definition second : result Identity * gmap string (list ascii) :=
  LoadOrCreate demo_curve demo_Dir "/data/identity.json" true (Err ErrUnsupportedPlatform) (demo_key 7) first.2.
Definition demo_identity : Identity := {| id_PublicKey := encodeKey (replicate 32 9); id_privateKey := replicate 32 5 |}.

Lemma demo_key_ok z : is_byte z → key_ok (demo_key z).
Proof. intros Hz k [= <-]. split; [done|]. by repeat constructor; apply Hz. Qed.

(** A first start creates the identity, the second one opens it. *)
Lemma identity_kept_witness :
  Forall (identity_ok demo_curve) [demo_identity; demo_identity] ∧
  match id_files (∅ : gmap string (list ascii)) !! "/data/identity.json" with
  | Some data => id_files second.2 !! "/data/identity.json" = Some data
  | None =>
    match id_files second.2 !! "/data/identity.json" with
    | Some data => ∃ id, seals demo_curve data id ∧ Forall (eq id) [demo_identity; demo_identity]
    | None => [demo_identity; demo_identity] = []
    end
  end.
Proof.
  apply (identity_kept (W := gmap string (list ascii)) demo_curve) with (Dir := demo_Dir) (path := "/data/identity.json")
    (injected := true) (newDefaultProtector := Err ErrUnsupportedPlatform) (w := ∅)
    (ids := [demo_identity; demo_identity]) (w' := second.2).
  - intros k _. split; [done|]. apply Forall_replicate. by split.
  - done.
  - apply (session_call _ _ _ _ _ (demo_key 5) ∅ (Ok demo_identity) first.2); [by apply demo_key_ok|by vm_compute|].
    apply (session_call _ _ _ _ _ (demo_key 7) first.2 (Ok demo_identity) second.2); [by apply demo_key_ok|by vm_compute|].
    apply session_nil.
Defined.
End IdentityDemo.
