(* ===== verification/Sockaddr.v ===== *)
(** * Socket addresses in memory

    The Windows packages hand addresses to the operating system as [SOCKADDR_INET]
    structures of 28 bytes.  The machine is little endian; the port and the address
    are in network order. *)

From S2P Require Import Prelude GoStd.

Open Scope Z_scope.

Definition put_le (n : nat) (v : Z) : list Z := reverse (put_be n v).
Definition le_value (l : list Z) : Z := be_value (reverse l).

Lemma put_le_length n v : length (put_le n v) = n.
Proof. unfold put_le. by rewrite length_reverse, put_be_length. Qed.
Lemma put_le_byte n v : Forall is_byte (put_le n v).
Proof. unfold put_le. apply Forall_reverse, put_be_byte. Qed.
Lemma le_value_put_le n v : le_value (put_le n v) = v mod 2 ^ (8 * Z.of_nat n).
Proof. unfold le_value, put_le. by rewrite reverse_involutive, be_value_put_be. Qed.
Lemma le_value_small n v : 0 ≤ v < 2 ^ (8 * Z.of_nat n) → le_value (put_le n v) = v.
Proof. intros Hv. by rewrite le_value_put_le, Z.mod_small. Qed.
Lemma le_value_bound l : Forall is_byte l → 0 ≤ le_value l < 2 ^ (8 * Z.of_nat (length l)).
Proof. intros Hl. unfold le_value. rewrite <- (length_reverse l). by apply be_value_bound, Forall_reverse. Qed.

(** ** Fields of a structure *)
Definition slice (off n : nat) (l : list Z) : list Z := take n (drop off l).

Lemma slice_here n a b : length a = n → slice 0 n (a ++ b) = a.
Proof. intros <-. unfold slice. rewrite drop_0. by apply take_app_length. Qed.
Lemma slice_all n a : length a = n → slice 0 n a = a.
Proof. intros <-. unfold slice. rewrite drop_0. by apply take_ge. Qed.
Lemma slice_skip off n k a b : length a = k → (k ≤ off)%nat → slice off n (a ++ b) = slice (off - k) n b.
Proof. intros <- H. unfold slice. by rewrite drop_app_ge. Qed.
Lemma slice_length off n l : (off + n ≤ length l)%nat → length (slice off n l) = n.
Proof. intros H. unfold slice. rewrite length_take, length_drop. lia. Qed.
Lemma slice_byte off n l : Forall is_byte l → Forall is_byte (slice off n l).
Proof. intros H. unfold slice. by apply Forall_take, Forall_drop. Qed.
Lemma slice_slice off n off' n' l : (off' + n' ≤ n)%nat → slice off' n' (slice off n l) = slice (off + off') n' l.
Proof. intros H. unfold slice. rewrite skipn_firstn_comm, drop_drop, take_take. f_equal. lia. Qed.

Ltac slice_len := first [eassumption | rewrite ?put_le_length, ?put_be_length, ?length_replicate; reflexivity].
(** Finds a field in a concatenation of fields of known length. *)
Ltac slices :=
  repeat first [rewrite slice_here by slice_len | rewrite slice_all by slice_len
               | erewrite slice_skip; [cbn [Nat.sub]|slice_len|lia]].

(** ** Addresses *)
Definition AF_INET : Z := 2.
Definition AF_INET6 : Z := 23.
Definition htons (value : Z) : Z := Z.lor (Z.land (Z.shiftl value 8) 65535) (Z.shiftr value 8).

Lemma htons_swap value : 0 ≤ value < 65536 → htons value = 256 * (value mod 256) + value / 256.
Proof.
  intros Hv. unfold htons. change 65535 with (Z.ones 16). rewrite Z.land_ones, Z.shiftl_mul_pow2, Z.shiftr_div_pow2 by lia.
  replace (value * 2 ^ 8 mod 2 ^ 16) with (Z.shiftl (value mod 256) 8) by (rewrite Z.shiftl_mul_pow2 by lia; divlia).
  rewrite lor_shiftl_add by (try apply Z.div_pos; try (split; [apply Z.div_pos|apply Z.div_lt_upper_bound]); lia).
  change (2 ^ 8) with 256. lia.
Qed.
Lemma htons_range value : 0 ≤ value < 65536 → 0 ≤ htons value < 65536.
Proof. intros Hv. rewrite htons_swap by done. divlia. Qed.
Lemma ntohs_htons value : 0 ≤ value < 65536 → htons (htons value) = value.
Proof. intros Hv. rewrite htons_swap, htons_swap by (try apply htons_range; done). divlia. Qed.

(** [RawSockaddrInet4] and [RawSockaddrInet6]. *)
Definition sockaddr4 (port : Z) (addr : list Z) : list Z :=
  put_le 2 AF_INET ++ put_le 2 (htons port) ++ addr ++ replicate 20 0.
Definition sockaddr6 (port : Z) (addr : list Z) (scope : Z) : list Z :=
  put_le 2 AF_INET6 ++ put_le 2 (htons port) ++ put_le 4 0 ++ addr ++ put_le 4 scope.

Definition sa_family (raw : list Z) : Z := le_value (slice 0 2 raw).
Definition sa_port (raw : list Z) : Z := htons (le_value (slice 2 2 raw)).
Definition sa_addr4 (raw : list Z) : list Z := slice 4 4 raw.
Definition sa_addr6 (raw : list Z) : list Z := slice 8 16 raw.
Definition sa_scope (raw : list Z) : Z := le_value (slice 24 4 raw).

Lemma sockaddr4_length port addr : length addr = 4%nat → length (sockaddr4 port addr) = 28%nat.
Proof. intros H. unfold sockaddr4. rewrite !length_app, H, !put_le_length, length_replicate. done. Qed.
Lemma sockaddr6_length port addr scope : length addr = 16%nat → length (sockaddr6 port addr scope) = 28%nat.
Proof. intros H. unfold sockaddr6. rewrite !length_app, H, !put_le_length. done. Qed.

Lemma sockaddr4_read port addr : 0 ≤ port < 65536 → length addr = 4%nat →
  let raw := sockaddr4 port addr in sa_family raw = AF_INET ∧ sa_port raw = port ∧ sa_addr4 raw = addr.
Proof.
  intros Hp Ha raw. unfold raw, sockaddr4, sa_family, sa_port, sa_addr4. slices.
  rewrite le_value_small by done. rewrite le_value_small by (by apply htons_range). by rewrite ntohs_htons.
Qed.
Lemma sockaddr6_read port addr scope : 0 ≤ port < 65536 → length addr = 16%nat → 0 ≤ scope < 2 ^ 32 →
  let raw := sockaddr6 port addr scope in
  sa_family raw = AF_INET6 ∧ sa_port raw = port ∧ sa_addr6 raw = addr ∧ sa_scope raw = scope.
Proof.
  intros Hp Ha Hs raw. unfold raw, sockaddr6, sa_family, sa_port, sa_addr6, sa_scope. slices.
  rewrite !le_value_small by first [exact Hs | by apply htons_range | done]. by rewrite ntohs_htons.
Qed.
