(* ===== verification/Native.v ===== *)
(** * The WireGuardNT adapter

    [internal/wgnt/adapter_windows.go]: configurations and statuses as the memory
    that the driver's library reads and writes, and the client that keeps the
    adapters it opened.  The library is a class of operations on an arbitrary
    system; a call gives a value and the last error, [None] for [Errno(0)]. *)

From Stdlib Require Import Ascii.
From S2P Require Import Prelude GoStd NetIP Wgnt Json Sockaddr.

Open Scope Z_scope.

Definition interfaceHasPublicKey : Z := Z.shiftl 1 0.
Definition interfaceHasPrivateKey : Z := Z.shiftl 1 1.
Definition interfaceHasListenPort : Z := Z.shiftl 1 2.
Definition interfaceReplacePeers : Z := Z.shiftl 1 3.
Definition peerHasPublicKey : Z := Z.shiftl 1 0.
Definition peerHasPersistent : Z := Z.shiftl 1 2.
Definition peerHasEndpoint : Z := Z.shiftl 1 3.
Definition peerReplaceAllowedIPs : Z := Z.shiftl 1 5.
Definition maxConfigurationBytes : Z := Z.shiftl 16 20.

(** ** Structures and their layout

    The bytes of a structure, with its padding, and the structure at the front of
    some bytes. *)
Record wireguardInterface := {
  wi_Flags : Z; wi_ListenPort : Z; wi_PrivateKey : list Z; wi_PublicKey : list Z; wi_PeersCount : Z
}.
Definition interfaceSize : nat := 80.
Definition interface_bytes (i : wireguardInterface) : list Z :=
  put_le 4 (wi_Flags i) ++ put_le 2 (wi_ListenPort i) ++ wi_PrivateKey i ++ wi_PublicKey i ++ replicate 2 0
  ++ put_le 4 (wi_PeersCount i) ++ replicate 4 0.
Definition interface_at (b : list Z) : wireguardInterface := {|
  wi_Flags := le_value (slice 0 4 b); wi_ListenPort := le_value (slice 4 2 b); wi_PrivateKey := slice 6 32 b;
  wi_PublicKey := slice 38 32 b; wi_PeersCount := le_value (slice 72 4 b)
|}.

Record wireguardAllowedIP := { wa_Address : list Z; wa_AddressFamily : Z; wa_Cidr : Z; wa_Flags : Z }.
Definition allowedSize : nat := 24.
Definition allowed_bytes (a : wireguardAllowedIP) : list Z :=
  wa_Address a ++ put_le 2 (wa_AddressFamily a) ++ put_le 1 (wa_Cidr a) ++ replicate 1 0 ++ put_le 4 (wa_Flags a).
Definition allowed_at (b : list Z) : wireguardAllowedIP := {|
  wa_Address := slice 0 16 b; wa_AddressFamily := le_value (slice 16 2 b); wa_Cidr := le_value (slice 18 1 b);
  wa_Flags := le_value (slice 20 4 b)
|}.

Record wireguardPeer := {
  nw_Flags : Z; nw_PublicKey : list Z; nw_PresharedKey : list Z; nw_PersistentKeepalive : Z; nw_Endpoint : list Z;
  nw_TxBytes : Z; nw_RxBytes : Z; nw_LastHandshake : Z; nw_AllowedIPsCount : Z
}.
Definition peerSize : nat := 136.
Definition peer_bytes (p : wireguardPeer) : list Z :=
  put_le 4 (nw_Flags p) ++ replicate 4 0 ++ nw_PublicKey p ++ nw_PresharedKey p ++ put_le 2 (nw_PersistentKeepalive p)
  ++ replicate 2 0 ++ nw_Endpoint p ++ put_le 8 (nw_TxBytes p) ++ put_le 8 (nw_RxBytes p) ++ put_le 8 (nw_LastHandshake p)
  ++ put_le 4 (nw_AllowedIPsCount p) ++ replicate 4 0.
Definition peer_at (b : list Z) : wireguardPeer := {|
  nw_Flags := le_value (slice 0 4 b); nw_PublicKey := slice 8 32 b; nw_PresharedKey := slice 40 32 b;
  nw_PersistentKeepalive := le_value (slice 72 2 b); nw_Endpoint := slice 76 28 b; nw_TxBytes := le_value (slice 104 8 b);
  nw_RxBytes := le_value (slice 112 8 b); nw_LastHandshake := le_value (slice 120 8 b);
  nw_AllowedIPsCount := le_value (slice 128 4 b)
|}.

(** ** Building *)
Definition ParseUint32 (s : string) : option Z :=
  match parse_digits (bytes s) with Some v => if v <=? 2 ^ 32 - 1 then Some v else None | None => None end.

Definition setEndpoint (address : AddrPort) : option (list Z) :=
  match ap_ip address with
  | Addr4 _ => Some (sockaddr4 (ap_port address) (As4 (ap_ip address)))
  | Addr6 _ zone =>
    if bool_decide (zone = "") then Some (sockaddr6 (ap_port address) (As16 (ap_ip address)) 0)
    else scope ← ParseUint32 zone; Some (sockaddr6 (ap_port address) (As16 (ap_ip address)) scope)
  | AddrZero => None
  end.

Definition makeAllowedIP (prefix : Prefix) : option wireguardAllowedIP :=
  if negb (Prefix_IsValid prefix) then None
  else match pf_Addr prefix with
  | Addr4 _ => Some {| wa_Address := As4 (pf_Addr prefix) ++ replicate 12 0; wa_AddressFamily := AF_INET;
                       wa_Cidr := Prefix_Bits prefix; wa_Flags := 0 |}
  | Addr6 _ _ => Some {| wa_Address := As16 (pf_Addr prefix); wa_AddressFamily := AF_INET6;
                         wa_Cidr := Prefix_Bits prefix; wa_Flags := 0 |}
  | AddrZero => None
  end.

Fixpoint build_allowed (prefixes : list Prefix) : option (list Z) :=
  match prefixes with
  | [] => Some []
  | allowed :: prefixes => native ← makeAllowedIP allowed; rest ← build_allowed prefixes; Some (allowed_bytes native ++ rest)
  end.

Definition native_peer (peer : Wgnt.Peer) (endpoint : list Z) : wireguardPeer :=
  let keepalive := 0 <? wp_PersistentKeepalive peer in
  let flags := Z.lor peerHasPublicKey peerReplaceAllowedIPs in
  let flags := if keepalive then Z.lor flags peerHasPersistent else flags in
  let flags := if AddrPort_IsValid (wp_Endpoint peer) then Z.lor flags peerHasEndpoint else flags in
  {| nw_Flags := flags; nw_PublicKey := wp_PublicKey peer; nw_PresharedKey := zeroKey;
     nw_PersistentKeepalive := if keepalive then Z.quot (wp_PersistentKeepalive peer) Second mod 2 ^ 16 else 0;
     nw_Endpoint := endpoint; nw_TxBytes := 0; nw_RxBytes := 0; nw_LastHandshake := 0;
     nw_AllowedIPsCount := Z.of_nat (length (wp_AllowedIPs peer)) mod 2 ^ 32 |}.

Definition build_peer (peer : Wgnt.Peer) : option (list Z) :=
  if 2 ^ 32 - 1 <? Z.of_nat (length (wp_AllowedIPs peer)) then None
  else
    endpoint ← (if AddrPort_IsValid (wp_Endpoint peer) then setEndpoint (wp_Endpoint peer) else Some (replicate 28 0));
    allowed ← build_allowed (wp_AllowedIPs peer);
    Some (peer_bytes (native_peer peer endpoint) ++ allowed).

Fixpoint build_peers (peers : list Wgnt.Peer) : option (list Z) :=
  match peers with
  | [] => Some []
  | peer :: peers => native ← build_peer peer; rest ← build_peers peers; Some (native ++ rest)
  end.

Definition native_interface (c : Configuration) : wireguardInterface :=
  let flags := Z.lor interfaceHasPrivateKey interfaceHasListenPort in
  {| wi_Flags := if cf_ReplacePeers c then Z.lor flags interfaceReplacePeers else flags;
     wi_ListenPort := cf_ListenPort c; wi_PrivateKey := cf_PrivateKey c; wi_PublicKey := zeroKey;
     wi_PeersCount := Z.of_nat (length (cf_Peers c)) mod 2 ^ 32 |}.

Definition buildConfiguration (c : Configuration) : result (list Z) :=
  match build_peers (cf_Peers c) with
  | Some peers => Ok (interface_bytes (native_interface c) ++ peers)
  | None => Err (EWrap wgnt_ErrInvalidConfig)
  end.

(** ** Parsing

    The parser reads through pointers: [read_at] is [None] where it would leave the
    buffer. *)
Definition read_at (buffer : list Z) (offset size : nat) : option (list Z) :=
  if bool_decide (offset + size ≤ length buffer)%nat then Some (slice offset size buffer) else None.

Definition parseEndpoint (endpoint : list Z) : AddrPort :=
  if sa_family endpoint =? AF_INET then {| ap_ip := AddrFrom4 (sa_addr4 endpoint); ap_port := sa_port endpoint |}
  else if sa_family endpoint =? AF_INET6 then
    {| ap_ip := Addr6 (be_value (sa_addr6 endpoint)) (if sa_scope endpoint =? 0 then "" else Itoa (sa_scope endpoint));
       ap_port := sa_port endpoint |}
  else AddrPort_zero.

Definition parseAllowedIP (allowed : wireguardAllowedIP) : option Prefix :=
  if wa_AddressFamily allowed =? AF_INET then Some (PrefixFrom (AddrFrom4 (slice 0 4 (wa_Address allowed))) (wa_Cidr allowed))
  else if wa_AddressFamily allowed =? AF_INET6 then Some (PrefixFrom (AddrFrom16 (wa_Address allowed)) (wa_Cidr allowed))
  else None.

(** The epoch of Windows is 1601; times are counted from year 1. *)
Definition unixSeconds : Z := 62135596800.
Definition wireguardTime (value : Z) : Time :=
  if value =? 0 then 0
  else (value / 10000000 - 11644473600 + unixSeconds) * Second + value mod 10000000 * 100.

(** [None] for a read outside the buffer. *)
Fixpoint parse_allowed (buffer : list Z) (offset : nat) (count : nat) : option (list Prefix) :=
  match count with
  | O => Some []
  | S count =>
    bytes ← read_at buffer offset allowedSize;
    rest ← parse_allowed buffer (offset + allowedSize) count;
    Some (match parseAllowedIP (allowed_at bytes) with Some prefix => prefix :: rest | None => rest end)
  end.

Definition truncated {A} : result A := Err (EForeign 0).

(** [index] of [count] peers have been read. *)
Fixpoint parse_status_peers (fuel : nat) (buffer : list Z) (offset : nat) (index count : Z) : option (result (list PeerStatus)) :=
  match fuel with
  | O => None
  | S fuel =>
    if count <=? index then Some (Ok [])
    else if bool_decide (length buffer < offset + peerSize)%nat then Some truncated
    else
      bytes ← read_at buffer offset peerSize;
      let peer := peer_at bytes in
      let endpoint := if negb (Z.land (nw_Flags peer) peerHasEndpoint =? 0) then parseEndpoint (nw_Endpoint peer) else AddrPort_zero in
      let offset := (offset + peerSize)%nat in
      if Z.of_nat (length buffer - offset) / Z.of_nat allowedSize <? nw_AllowedIPsCount peer then Some truncated
      else
        allowed ← parse_allowed buffer offset (Z.to_nat (nw_AllowedIPsCount peer));
        rest ← parse_status_peers fuel buffer (offset + Z.to_nat (nw_AllowedIPsCount peer) * allowedSize) (index + 1) count;
        Some (match rest with
              | Ok peers => Ok ({| ps_PublicKey := nw_PublicKey peer; ps_Endpoint := endpoint; ps_AllowedIPs := allowed;
                                   ps_TxBytes := nw_TxBytes peer; ps_RxBytes := nw_RxBytes peer;
                                   ps_LastHandshake := wireguardTime (nw_LastHandshake peer) |} :: peers)
              | Err err => Err err
              end)
  end.

Record nativeAdapter := { nv_handle : Z; nv_name : string; nv_luid : Z }.

Definition parseStatus (native : nativeAdapter) (up : bool) (buffer : list Z) : option (result Status) :=
  if bool_decide (length buffer < interfaceSize)%nat then Some truncated
  else
    bytes ← read_at buffer 0 interfaceSize;
    let iface := interface_at bytes in
    peers ← parse_status_peers (S (length buffer)) buffer interfaceSize 0 (wi_PeersCount iface);
    Some (match peers with
          | Ok peers => Ok {| st_Name := nv_name native; st_LUID := nv_luid native; st_Up := up;
              st_PublicKey := if negb (Z.land (wi_Flags iface) interfaceHasPublicKey =? 0) then wi_PublicKey iface else zeroKey;
              st_ListenPort := wi_ListenPort iface; st_Peers := peers |}
          | Err err => Err err
          end).

(** ** The library

    The handle of an adapter is zero when a call fails, and so are identifiers and
    booleans. *)
Definition Call (W A : Type) : Type := W → (A * option error) * W.
Class WireGuardNT (W : Type) := {
  nt_find : M W unit;
  nt_openAdapter : string → Call W Z;
  nt_createAdapter : string → string → Call W Z;
  nt_closeAdapter : Z → Call W unit;
  nt_getAdapterLUID : Z → Call W Z;
  nt_setConfiguration : Z → list Z → Call W Z;
  nt_getConfiguration : Z → Z → Call W (Z * list Z * Z);
  nt_setAdapterState : Z → Z → Call W Z;
  nt_getAdapterState : Z → Call W (Z * Z);
  nt_getLastError : W → option error
}.

Definition ERROR_MORE_DATA : error := EForeign 234.
(** An error number of Go's own. *)
Definition EINVAL : error := EForeign 536.
Definition TunnelType : string := "WireGuard".

(** ** The client *)
Record Client := { cl_next : Handle; cl_adapters : gmap Handle nativeAdapter; cl_byName : gmap string Handle }.
Definition NewClient : Client := {| cl_next := 1; cl_adapters := ∅; cl_byName := ∅ |}.

Definition nativeLocked (client : Client) (handle : Handle) : result nativeAdapter :=
  if negb (Handle_Valid handle) then Err wgnt_ErrInvalidHandle
  else match cl_adapters client !! handle with
  | Some native => if nv_handle native =? 0 then Err wgnt_ErrInvalidHandle else Ok native
  | None => Err wgnt_ErrInvalidHandle
  end.

Section Client.
Context {W : Type} `{WireGuardNT W}.

Definition callError (err : option error) (w : W) : error :=
  match err with
  | Some err => err
  | None => match nt_getLastError w with Some last => last | None => EINVAL end
  end.

Definition has_nul (s : string) : bool := bool_decide ("000"%char ∈ bytes s).

Definition Ensure (name : string) : M (Client * W) Handle := λ '(client, w),
  let name := TrimSpace name in
  if bool_decide (name = "") || bool_decide (255 < length (runes (bytes name)))%nat
  then (Err (EWrap wgnt_ErrInvalidConfig), (client, w))
  else
    let known := cl_byName client !! name in
    let live := known ≫= λ identifier, match cl_adapters client !! identifier with
                                       | Some native => if nv_handle native =? 0 then None else Some identifier
                                       | None => None
                                       end in
    match live with
    | Some identifier => (Ok identifier, (client, w))
    | None =>
      let client := match known with
                    | Some _ => {| cl_next := cl_next client; cl_adapters := cl_adapters client; cl_byName := delete name (cl_byName client) |}
                    | None => client
                    end in
      match nt_find w with
      | (Err err, w) => (Err (EWrap err), (client, w))
      | (Ok _, w) =>
        if has_nul name then (Err (EWrap (EForeign 0)), (client, w))
        else
          let '((opened, openErr), w) := nt_openAdapter name w in
          let '((nativeHandle, openErr), w) := if opened =? 0 then nt_createAdapter name TunnelType w else ((opened, openErr), w) in
          if nativeHandle =? 0 then (Err (EWrap (callError openErr w)), (client, w))
          else
            let '((luid, luidErr), w) := nt_getAdapterLUID nativeHandle w in
            if luid =? 0 then
              let w := (nt_closeAdapter nativeHandle w).2 in (Err (EWrap (callError luidErr w)), (client, w))
            else
              let identifier := cl_next client in
              (Ok identifier,
               ({| cl_next := (identifier + 1) mod 2 ^ 64;
                   cl_adapters := <[identifier := {| nv_handle := nativeHandle; nv_name := name; nv_luid := luid |}]> (cl_adapters client);
                   cl_byName := <[name := identifier]> (cl_byName client) |}, w))
      end
    end.

(** The checks at the start of every operation on a handle. *)
Definition on_native {A} (handle : Handle) (body : nativeAdapter → M (Client * W) A) : M (Client * W) A := λ '(client, w),
  match nativeLocked client handle with
  | Err err => (Err err, (client, w))
  | Ok native =>
    match nt_find w with
    | (Err err, w) => (Err (EWrap err), (client, w))
    | (Ok _, w) => body native (client, w)
    end
  end.

Definition Configure (ctx : Context) (handle : Handle) (configuration : Configuration) : M (Client * W) unit :=
  check (checkContext ctx);;
  check (Validate configuration);;
  on_native handle (λ native '(client, w),
    match buildConfiguration configuration with
    | Err err => (Err err, (client, w))
    | Ok buffer =>
      let '((res, callErr), w) := nt_setConfiguration (nv_handle native) buffer w in
      if res =? 0 then (Err (EWrap (callError callErr w)), (client, w)) else (Ok tt, (client, w))
    end).

Definition setState (ctx : Context) (handle : Handle) (state : Z) : M (Client * W) unit :=
  check (checkContext ctx);;
  on_native handle (λ native '(client, w),
    let '((res, callErr), w) := nt_setAdapterState (nv_handle native) state w in
    if res =? 0 then (Err (EWrap (callError callErr w)), (client, w)) else (Ok tt, (client, w))).
Definition SetUp (ctx : Context) (handle : Handle) : M (Client * W) unit := setState ctx handle 1.
Definition SetDown (ctx : Context) (handle : Handle) : M (Client * W) unit := setState ctx handle 0.

Definition Delete (ctx : Context) (handle : Handle) : M (Client * W) unit :=
  check (checkContext ctx);;
  on_native handle (λ native '(client, w),
    let '((_, callErr), w) := nt_closeAdapter (nv_handle native) w in
    match callErr with
    | Some err => (Err (EWrap err), (client, w))
    | None => (Ok tt, ({| cl_next := cl_next client; cl_adapters := delete handle (cl_adapters client);
                          cl_byName := delete (nv_name native) (cl_byName client) |}, w))
    end).

(** One round of the loop: another size, or an answer. *)
Definition get_round (nativeHandle : Z) (size : Z) (w : W) : (Z + result (list Z)) * W :=
  if (size =? 0) || (maxConfigurationBytes <? size) then (inr (Err (EForeign 0)), w)
  else
    let '(((res, buffer, size'), callErr), w) := nt_getConfiguration nativeHandle size w in
    if negb (res =? 0) then
      (inr (if size <? size' then Err (EForeign 0) else Ok (take (Z.to_nat size') buffer)), w)
    else if negb (bool_decide (callErr = Some ERROR_MORE_DATA)) then (inr (Err (EWrap (callError callErr w))), w)
    else (inl (if size' <=? size then size * 2 mod 2 ^ 32 else size'), w).

(** At most [2 ^ depth] rounds; [inl] when they do not suffice. *)
Fixpoint get_rounds (depth : nat) (nativeHandle : Z) (size : Z) (w : W) : (Z + result (list Z)) * W :=
  match depth with
  | O => get_round nativeHandle size w
  | S depth =>
    match get_rounds depth nativeHandle size w with
    | (inl size, w) => get_rounds depth nativeHandle size w
    | answer => answer
    end
  end.
Definition getConfigurationLocked (nativeHandle : Z) (w : W) : (Z + result (list Z)) * W := get_rounds 25 nativeHandle 1024 w.

(** [None] for a read outside the buffer, or for a loop that did not end. *)
Definition Status (ctx : Context) (handle : Handle) (s : Client * W) : option (result Wgnt.Status) * (Client * W) :=
  let '(client, w) := s in
  match checkContext ctx with
  | Some err => (Some (Err err), s)
  | None =>
    match nativeLocked client handle with
    | Err err => (Some (Err err), s)
    | Ok native =>
      match nt_find w with
      | (Err err, w) => (Some (Err (EWrap err)), (client, w))
      | (Ok _, w) =>
        let '(((res, adapterState), callErr), w) := nt_getAdapterState (nv_handle native) w in
        if res =? 0 then (Some (Err (EWrap (callError callErr w))), (client, w))
        else match getConfigurationLocked (nv_handle native) w with
        | (inl _, w) => (None, (client, w))
        | (inr (Err err), w) => (Some (Err err), (client, w))
        | (inr (Ok configuration), w) => (parseStatus native (negb (adapterState =? 0)) configuration, (client, w))
        end
      end
    end
  end.
End Client.
