(* ===== verification/NativeThm.v ===== *)
(** * The WireGuardNT adapter: memory

    Configurations survive their way through the driver's structures, and statuses
    are read without leaving the buffer. *)

From Stdlib Require Import Ascii.
From S2P Require Import Prelude GoStd NetIP Wgnt Json Sockaddr Native.

Open Scope Z_scope.

(** ** Layout *)
Lemma interface_read i rest : length (wi_PrivateKey i) = 32%nat → length (wi_PublicKey i) = 32%nat →
  0 ≤ wi_Flags i < 2 ^ 32 → 0 ≤ wi_ListenPort i < 65536 → 0 ≤ wi_PeersCount i < 2 ^ 32 →
  length (interface_bytes i) = interfaceSize ∧ interface_at (interface_bytes i ++ rest) = i.
Proof.
  intros H1 H2 Hf Hp Hc. split.
  { unfold interface_bytes. rewrite !length_app, !put_le_length, !length_replicate, H1, H2. done. }
  unfold interface_at, interface_bytes. rewrite <- !app_assoc. slices. rewrite !le_value_small by assumption. by destruct i.
Qed.

Lemma peer_read p rest : length (nw_PublicKey p) = 32%nat → length (nw_PresharedKey p) = 32%nat → length (nw_Endpoint p) = 28%nat →
  0 ≤ nw_Flags p < 2 ^ 32 → 0 ≤ nw_PersistentKeepalive p < 65536 → 0 ≤ nw_TxBytes p < 2 ^ 64 → 0 ≤ nw_RxBytes p < 2 ^ 64 →
  0 ≤ nw_LastHandshake p < 2 ^ 64 → 0 ≤ nw_AllowedIPsCount p < 2 ^ 32 →
  length (peer_bytes p) = peerSize ∧ peer_at (peer_bytes p ++ rest) = p.
Proof.
  intros H1 H2 H3 Hf Hk Ht Hr Hl Hc. split.
  { unfold peer_bytes. rewrite !length_app, !put_le_length, !length_replicate, H1, H2, H3. done. }
  unfold peer_at, peer_bytes. rewrite <- !app_assoc. slices. rewrite !le_value_small by assumption. by destruct p.
Qed.

Lemma allowed_read a rest : length (wa_Address a) = 16%nat → 0 ≤ wa_AddressFamily a < 65536 → 0 ≤ wa_Cidr a < 256 →
  0 ≤ wa_Flags a < 2 ^ 32 →
  length (allowed_bytes a) = allowedSize ∧ allowed_at (allowed_bytes a ++ rest) = a.
Proof.
  intros H1 Hf Hc Hg. split.
  { unfold allowed_bytes. rewrite !length_app, !put_le_length, length_replicate, H1. done. }
  unfold allowed_at, allowed_bytes. rewrite <- !app_assoc. slices. rewrite !le_value_small by assumption. by destruct a.
Qed.

(** ** Addresses

    What package [netip] produces: values in range; a zone that names an interface
    by its number. *)
Definition addr_ok (a : Addr) : Prop :=
  match a with AddrZero => True | Addr4 v => 0 ≤ v < 2 ^ 32 | Addr6 v _ => 0 ≤ v < 2 ^ 128 end.
Definition prefix_ok (p : Prefix) : Prop := ∃ a bits, p = PrefixFrom a bits ∧ addr_ok a.
Definition zone_ok (a : Addr) : Prop :=
  match a with Addr6 _ zone => zone = "" ∨ ∃ n, 0 < n < 2 ^ 32 ∧ zone = Itoa n | _ => True end.
Definition endpoint_ok (e : AddrPort) : Prop := addr_ok (ap_ip e) ∧ zone_ok (ap_ip e) ∧ 0 ≤ ap_port e < 65536.

Lemma be_value_small n v : 0 ≤ v < 2 ^ (8 * Z.of_nat n) → be_value (put_be n v) = v.
Proof. intros Hv. by rewrite be_value_put_be, Z.mod_small. Qed.

Lemma ParseUint32_Itoa n : 0 ≤ n < 2 ^ 32 → ParseUint32 (Itoa n) = Some n.
Proof. intros Hn. unfold ParseUint32. rewrite Itoa_digits_value by lia. by rewrite (proj2 (Z.leb_le _ _)) by lia. Qed.
Lemma Itoa_nonempty n : 0 ≤ n < 2 ^ 32 → Itoa n ≠ "".
Proof. intros Hn E. apply ParseUint32_Itoa in Hn. by rewrite E in Hn. Qed.

Lemma setEndpoint_read e : endpoint_ok e → AddrPort_IsValid e = true →
  ∃ raw, setEndpoint e = Some raw ∧ length raw = 28%nat ∧ parseEndpoint raw = e.
Proof.
  destruct e as [[|v|v zone] port]; intros (Ha & Hz & Hp) Hv; cbn [ap_ip ap_port addr_ok zone_ok] in *; [done|..]; unfold setEndpoint;
    cbn [ap_ip ap_port As4 As16].
  - eexists. split; [done|]. split; [apply sockaddr4_length, put_be_length|]. unfold parseEndpoint.
    destruct (sockaddr4_read port (put_be 4 v)) as (-> & -> & ->); [done|apply put_be_length|].
    unfold AddrFrom4. by rewrite be_value_small.
  - assert (∃ scope, 0 ≤ scope < 2 ^ 32 ∧ (if scope =? 0 then "" else Itoa scope) = zone ∧
      (if bool_decide (zone = "") then Some (sockaddr6 port (put_be 16 v) 0)
       else scope ← ParseUint32 zone; Some (sockaddr6 port (put_be 16 v) scope)) = Some (sockaddr6 port (put_be 16 v) scope))
      as (scope & Hs & Hzone & ->).
    { destruct Hz as [->|(n & Hn & ->)]; [by exists 0|]. exists n. rewrite bool_decide_eq_false_2 by (apply Itoa_nonempty; lia).
      rewrite ParseUint32_Itoa by lia. split; [lia|]. by destruct (Z.eqb_spec n 0); [lia|]. }
    eexists. split; [done|]. split; [apply sockaddr6_length, put_be_length|]. unfold parseEndpoint.
    destruct (sockaddr6_read port (put_be 16 v) scope) as (-> & -> & -> & ->); [done|apply put_be_length|done|].
    rewrite Hzone. by rewrite be_value_small.
Qed.

Lemma makeAllowedIP_read p : prefix_ok p → Prefix_IsValid p = true →
  ∃ a, makeAllowedIP p = Some a ∧ length (allowed_bytes a) = allowedSize ∧ parseAllowedIP (allowed_at (allowed_bytes a)) = Some p.
Proof.
  intros (a & bits & -> & Ha) Hv. unfold makeAllowedIP. rewrite Hv. cbn [negb].
  unfold Prefix_IsValid, PrefixFrom in Hv. cbn [pf_bitsPlusOne] in Hv. destruct (Addr_IsValid a) eqn:Ea; [|done].
  destruct ((0 <=? bits) && (bits <=? BitLen a)) eqn:Eb.
  2:{ cbn [andb] in Hv. by rewrite Eb in Hv. } 
  assert (Prefix_Bits (PrefixFrom a bits) = bits) as Hbits.
  { unfold Prefix_Bits, PrefixFrom. cbn [pf_bitsPlusOne]. rewrite Ea. cbn [andb]. rewrite Eb. lia. }
  apply andb_true_iff in Eb as [E1 E2]. rewrite Hbits.
  destruct a as [|v|v z]; [done|..]; cbn [PrefixFrom without_zone pf_Addr BitLen As4 As16 addr_ok] in *; eexists; (split; [done|]).
  - destruct (allowed_read {| wa_Address := put_be 4 v ++ replicate 12 0; wa_AddressFamily := AF_INET; wa_Cidr := bits; wa_Flags := 0 |} [])
      as [Hl Hr]; cbn [wa_Address wa_AddressFamily wa_Cidr wa_Flags]; try (unfold AF_INET; lia);
      [by rewrite length_app, put_be_length|]. split; [done|]. rewrite app_nil_r in Hr. rewrite Hr.
    unfold parseAllowedIP. cbn [wa_AddressFamily wa_Address wa_Cidr]. rewrite Z.eqb_refl. slices. unfold AddrFrom4.
    rewrite be_value_small by done. done.
  - destruct (allowed_read {| wa_Address := put_be 16 v; wa_AddressFamily := AF_INET6; wa_Cidr := bits; wa_Flags := 0 |} [])
      as [Hl Hr]; cbn [wa_Address wa_AddressFamily wa_Cidr wa_Flags]; try (unfold AF_INET6; lia); [by rewrite put_be_length|]. split; [done|]. rewrite app_nil_r in Hr. rewrite Hr.
    unfold parseAllowedIP. cbn [wa_AddressFamily wa_Address wa_Cidr]. change (AF_INET6 =? AF_INET) with false. rewrite Z.eqb_refl.
    unfold AddrFrom16. by rewrite be_value_small.
Qed.

(** ** Round trip *)
Lemma read_app pre x post n : length x = n → read_at (pre ++ x ++ post) (length pre) n = Some x.
Proof.
  intros <-. unfold read_at. rewrite bool_decide_eq_true_2 by (rewrite !length_app; lia). f_equal.
  erewrite slice_skip by done. rewrite Nat.sub_diag. by apply slice_here.
Qed.

Lemma allowed_roundtrip l : Forall (λ p, prefix_ok p ∧ Prefix_IsValid p = true) l →
  ∃ bs, build_allowed l = Some bs ∧ length bs = (length l * allowedSize)%nat ∧
    ∀ pre post, parse_allowed (pre ++ bs ++ post) (length pre) (length l) = Some l.
Proof.
  induction 1 as [|p l [Hp Hv] Hl (bs & E & Hlen & IH)]; [by exists []|].
  destruct (makeAllowedIP_read p Hp Hv) as (a & Ea & Hla & Hpa). exists (allowed_bytes a ++ bs). cbn [build_allowed]. rewrite Ea, E.
  split; [done|]. split; [rewrite length_app, Hla, Hlen; cbn; lia|]. intros pre post. cbn [length parse_allowed].
  rewrite <- app_assoc. rewrite read_app by done. cbn [mbind option_bind]. rewrite Hpa.
  specialize (IH (pre ++ allowed_bytes a) post). rewrite length_app, Hla, <- app_assoc in IH. by rewrite IH.
Qed.

(** A peer of a configuration that fits the driver's structures, and what its
    status says before any traffic. *)
Record native_peer_ok (p : Wgnt.Peer) : Prop := {
  np_key : length (wp_PublicKey p) = 32%nat;
  np_endpoint : endpoint_ok (wp_Endpoint p);
  np_allowed : Forall prefix_ok (wp_AllowedIPs p);
  np_count : Z.of_nat (length (wp_AllowedIPs p)) < 2 ^ 32
}.
Definition configured (p : Wgnt.Peer) : PeerStatus := {|
  ps_PublicKey := wp_PublicKey p;
  ps_Endpoint := if AddrPort_IsValid (wp_Endpoint p) then wp_Endpoint p else AddrPort_zero;
  ps_AllowedIPs := wp_AllowedIPs p; ps_TxBytes := 0; ps_RxBytes := 0; ps_LastHandshake := 0
|}.

Lemma native_flags keepalive endpoint :
  let flags := Z.lor peerHasPublicKey peerReplaceAllowedIPs in
  let flags := if keepalive : bool then Z.lor flags peerHasPersistent else flags in
  let flags := if endpoint : bool then Z.lor flags peerHasEndpoint else flags in
  0 ≤ flags < 2 ^ 32 ∧ negb (Z.land flags peerHasEndpoint =? 0) = endpoint.
Proof. by destruct keepalive, endpoint. Qed.

(** The bytes of one peer: its structure, then its allowed addresses. *)
Lemma peer_roundtrip p : native_peer_ok p → Forall (λ a, Prefix_IsValid a = true) (wp_AllowedIPs p) →
  ∃ np bs, build_peer p = Some (peer_bytes np ++ bs) ∧ length (peer_bytes np) = peerSize ∧
    length bs = (length (wp_AllowedIPs p) * allowedSize)%nat ∧ peer_at (peer_bytes np) = np ∧
    nw_PublicKey np = wp_PublicKey p ∧ nw_TxBytes np = 0 ∧ nw_RxBytes np = 0 ∧ nw_LastHandshake np = 0 ∧
    nw_AllowedIPsCount np = Z.of_nat (length (wp_AllowedIPs p)) ∧
    (if negb (Z.land (nw_Flags np) peerHasEndpoint =? 0) then parseEndpoint (nw_Endpoint np) else AddrPort_zero) = ps_Endpoint (configured p) ∧
    ∀ pre post, parse_allowed (pre ++ bs ++ post) (length pre) (length (wp_AllowedIPs p)) = Some (wp_AllowedIPs p).
Proof.
  intros [Hk He Ha Hc] Hv. destruct (allowed_roundtrip (wp_AllowedIPs p)) as (bs & Eb & Hlen & Hparse); [by apply Forall_and|].
  assert (∃ raw, (if AddrPort_IsValid (wp_Endpoint p) then setEndpoint (wp_Endpoint p) else Some (replicate 28 0)) = Some raw ∧
    length raw = 28%nat ∧ (AddrPort_IsValid (wp_Endpoint p) = true → parseEndpoint raw = wp_Endpoint p)) as (raw & Er & Hraw & Hpe).
  { destruct (AddrPort_IsValid _) eqn:E; [|by eexists]. destruct (setEndpoint_read _ He E) as (raw & ? & ? & ?). by exists raw. }
  exists (native_peer p raw), bs. unfold build_peer. rewrite (proj2 (Z.ltb_ge _ _)), Er, Eb by lia.
  destruct (native_flags (0 <? wp_PersistentKeepalive p) (AddrPort_IsValid (wp_Endpoint p))) as [Hf Hfe].
  destruct (peer_read (native_peer p raw) []) as [Hl Hr]; try done; cbn [native_peer nw_PersistentKeepalive nw_AllowedIPsCount];
    [destruct (0 <? _); [change 65536 with (2 ^ 16); apply Z.mod_pos_bound|]; lia|apply Z.mod_pos_bound; lia|].
  rewrite app_nil_r in Hr. split_and!; try done.
  - cbn [native_peer nw_AllowedIPsCount]. apply Z.mod_small. lia.
  - unfold native_peer. cbn [nw_Flags nw_Endpoint]. rewrite Hfe. cbn [configured ps_Endpoint].
    destruct (AddrPort_IsValid _); [by apply Hpe|done].
Qed.

Lemma peers_roundtrip l : Forall native_peer_ok l → Forall (λ p, Forall (λ a, Prefix_IsValid a = true) (wp_AllowedIPs p)) l →
  ∃ bs, build_peers l = Some bs ∧ (length l ≤ length bs)%nat ∧
    ∀ fuel pre index count, (length l < fuel)%nat → count = index + Z.of_nat (length l) →
    parse_status_peers fuel (pre ++ bs) (length pre) index count = Some (Ok (configured <$> l)).
Proof.
  intros Hl. induction Hl as [|p l Hp Hl IH]; intros Hv.
  { exists []. split; [done|]. split; [done|]. intros [|fuel] pre index count Hf ->; [lia|]. cbn [parse_status_peers].
    by rewrite (proj2 (Z.leb_le _ _)) by (cbn; lia). }
  apply Forall_cons in Hv as [Hvp Hv]. destruct (IH Hv) as (bs & E & Hlen & Hparse). clear IH.
  destruct (peer_roundtrip p Hp Hvp) as (np & ab & Ep & Hsize & Hab & Hat & Hkey & Htx & Hrx & Hlh & Hcount & Hend & Hall).
  exists ((peer_bytes np ++ ab) ++ bs). cbn [build_peers]. rewrite Ep, E. split; [done|]. split.
  { rewrite !length_app, Hsize. unfold peerSize. cbn [length]. lia. }
  intros [|fuel] pre index count Hf ->; [lia|]. cbn [parse_status_peers]. cbn [length] in Hf |- *.
  rewrite (proj2 (Z.leb_gt _ _)) by lia. rewrite <- !app_assoc.
  rewrite bool_decide_eq_false_2 by (rewrite !length_app, Hsize; lia). rewrite read_app by done. cbn [mbind option_bind].
  rewrite Hat, Hend, Hkey, Htx, Hrx, Hlh, Hcount.
  rewrite (proj2 (Z.ltb_ge _ _)).
  2:{ rewrite !length_app, Hsize, Hab. apply Z.div_le_lower_bound; unfold allowedSize; lia. }
  rewrite Nat2Z.id. specialize (Hall (pre ++ peer_bytes np) bs). rewrite length_app, Hsize, <- app_assoc in Hall. rewrite Hall.
  cbn [mbind option_bind]. specialize (Hparse fuel (pre ++ peer_bytes np ++ ab) (index + 1)).
  rewrite !length_app, Hsize, Hab, <- !app_assoc in Hparse. rewrite Nat.add_assoc in Hparse. rewrite Hparse by lia. done.
Qed.

(** ** Claims *)

(** C27: what the driver is told is what its status says.  A configuration that
    the contract accepts, with addresses of package [netip] and numeric zones, is
    written as memory that the parser of statuses reads back as the port and
    exactly the configured peers, in order, with their keys, endpoints and allowed
    addresses. *)
Theorem configuration_roundtrip native up c : Validate c = None →
  length (cf_PrivateKey c) = 32%nat → 0 ≤ cf_ListenPort c < 65536 → Z.of_nat (length (cf_Peers c)) < 2 ^ 32 →
  Forall native_peer_ok (cf_Peers c) →
  ∃ buffer, buildConfiguration c = Ok buffer ∧
    parseStatus native up buffer =
    Some (Ok {| st_Name := nv_name native; st_LUID := nv_luid native; st_Up := up; st_PublicKey := zeroKey;
                st_ListenPort := cf_ListenPort c; st_Peers := configured <$> cf_Peers c |}).
Proof.
  intros Hval Hkey Hport Hcount Hpeers. unfold Validate in Hval. destruct (Key_IsZero _); [done|].
  apply validate_peers_spec in Hval as (Hok & _).
  destruct (peers_roundtrip (cf_Peers c) Hpeers) as (bs & E & Hlen & Hparse).
  { eapply Forall_impl; [exact Hok|]. intros p [_ _ _ Ha]. eapply Forall_impl; [exact Ha|]. by intros a [? _]. }
  unfold buildConfiguration. rewrite E. eexists. split; [done|].
  assert (0 ≤ wi_Flags (native_interface c) < 2 ^ 32 ∧ Z.land (wi_Flags (native_interface c)) interfaceHasPublicKey = 0) as [Hf Hfp].
  { unfold native_interface. cbn [wi_Flags]. by destruct (cf_ReplacePeers c). }
  destruct (interface_read (native_interface c) []) as [Hsize Hat]; [done..|cbn [native_interface wi_PeersCount]; apply Z.mod_pos_bound; lia|].
  rewrite app_nil_r in Hat. unfold parseStatus. rewrite bool_decide_eq_false_2 by (rewrite length_app, Hsize; lia).
  pose proof (read_app [] (interface_bytes (native_interface c)) bs _ Hsize) as Hread. cbn [app length] in Hread. rewrite Hread.
  cbn [mbind option_bind]. rewrite Hat, Hfp. specialize (Hparse (S (length (interface_bytes (native_interface c) ++ bs)))
    (interface_bytes (native_interface c)) 0 (wi_PeersCount (native_interface c))). rewrite Hsize in Hparse. rewrite Hparse; [done|..].
  - rewrite length_app. lia.
  - cbn [native_interface wi_PeersCount]. rewrite Z.mod_small; lia.
Qed.

Definition demo_peer : Wgnt.Peer := {|
  wp_PublicKey := replicate 32 7; wp_Endpoint := {| ap_ip := Addr6 (2 ^ 125 + 1) "12"; ap_port := 51820 |};
  wp_PersistentKeepalive := 25 * Second; wp_AllowedIPs := [PrefixFrom (Addr4 (10 * 2 ^ 24 + 2)) 32; PrefixFrom (Addr6 5 "") 128]
|}.
Definition demo_configuration : Configuration := {|
  cf_PrivateKey := replicate 32 9; cf_ListenPort := 51820; cf_Peers := [demo_peer]; cf_ReplacePeers := true
|}.
Lemma configuration_roundtrip_witness : ∃ buffer, buildConfiguration demo_configuration = Ok buffer ∧ length buffer = 264%nat ∧
  parseStatus {| nv_handle := 3; nv_name := "mesh"; nv_luid := 8 |} true buffer =
  Some (Ok {| st_Name := "mesh"; st_LUID := 8; st_Up := true; st_PublicKey := zeroKey; st_ListenPort := 51820;
              st_Peers := configured <$> [demo_peer] |}).
Proof.
  destruct (configuration_roundtrip {| nv_handle := 3; nv_name := "mesh"; nv_luid := 8 |} true demo_configuration) as (buffer & E & Hp);
    [by vm_compute|done|done|done| |].
  - apply Forall_singleton. split; [done| |repeat constructor; by eexists _, _|done].
    split_and!; [done| |done|done]. right. by exists 12.
  - exists buffer. split; [done|]. split; [|done]. vm_compute in E. by injection E as <-.
Defined.

(** ** Reading stays inside the buffer *)
Lemma parse_allowed_total buffer count offset : (offset + count * allowedSize ≤ length buffer)%nat →
  is_Some (parse_allowed buffer offset count).
Proof.
  revert offset. induction count as [|count IH]; intros offset Hle; [done|]. cbn [parse_allowed]. unfold read_at.
  rewrite bool_decide_eq_true_2 by lia. cbn [mbind option_bind]. destruct (IH (offset + allowedSize)%nat) as [rest ->]; [lia|]. by eexists.
Qed.

Lemma parse_status_peers_total fuel buffer offset index count : (offset ≤ length buffer)%nat → (length buffer - offset < fuel)%nat →
  ∃ r, parse_status_peers fuel buffer offset index count = Some r ∧
    ∀ peers, r = Ok peers → Z.of_nat (length peers) = Z.max 0 (count - index).
Proof.
  revert offset index. induction fuel as [|fuel IH]; intros offset index Ho Hf; [lia|]. cbn [parse_status_peers].
  destruct (Z.leb_spec count index); [eexists; split; [done|]; intros peers [= <-]; cbn; lia|].
  case_bool_decide as Hsize; [by eexists|]. unfold read_at. rewrite bool_decide_eq_true_2 by lia. cbn [mbind option_bind].
  set (peer := peer_at _). destruct (Z.ltb_spec (Z.of_nat (length buffer - (offset + peerSize)) / Z.of_nat allowedSize) (nw_AllowedIPsCount peer)) as [|Hc];
    [by eexists|].
  assert (Z.to_nat (nw_AllowedIPsCount peer) * allowedSize ≤ length buffer - (offset + peerSize))%nat as Hroom.
  { pose proof (Z.mul_div_le (Z.of_nat (length buffer - (offset + peerSize))) (Z.of_nat allowedSize)) as Hm. unfold allowedSize in *. lia. }
  destruct (parse_allowed_total buffer (Z.to_nat (nw_AllowedIPsCount peer)) (offset + peerSize)) as [allowed ->]; [lia|]. cbn [mbind option_bind].
  destruct (IH (offset + peerSize + Z.to_nat (nw_AllowedIPsCount peer) * allowedSize)%nat (index + 1)) as (r & -> & Hr); [lia|unfold peerSize in *; lia|].
  cbn [mbind option_bind]. eexists. split; [done|]. destruct r as [peers|e]; [|done]. intros l [= <-]. cbn [length].
  specialize (Hr peers eq_refl). lia.
Qed.

Lemma parseStatus_total native up buffer : ∃ r, parseStatus native up buffer = Some r ∧
  ∀ st, r = Ok st → st_Name st = nv_name native ∧ st_LUID st = nv_luid native ∧ st_Up st = up ∧
    Z.of_nat (length (st_Peers st)) = Z.max 0 (wi_PeersCount (interface_at (slice 0 interfaceSize buffer))).
Proof.
  unfold parseStatus. case_bool_decide as Hs; [by eexists|]. unfold read_at. rewrite bool_decide_eq_true_2 by lia. cbn [mbind option_bind].
  destruct (parse_status_peers_total (S (length buffer)) buffer interfaceSize 0 (wi_PeersCount (interface_at (slice 0 interfaceSize buffer))))
    as (r & -> & Hr); [lia|lia|]. cbn [mbind option_bind]. eexists. split; [done|]. destruct r as [peers|e]; [|done].
  intros st [= <-]. specialize (Hr peers eq_refl). rewrite Z.sub_0_r in Hr. by split_and!.
Qed.

Section Status.
Context {W : Type} `{WireGuardNT W}.

Lemma get_rounds_grow depth h size w size' w' : 0 ≤ size → get_rounds depth h size w = (inl size', w') →
  size + 2 ^ Z.of_nat depth ≤ size' ∧ size + 2 ^ Z.of_nat depth - 1 ≤ maxConfigurationBytes.
Proof.
  revert size w size' w'. induction depth as [|depth IH]; intros size w size' w' Hs; cbn [get_rounds].
  - unfold get_round. destruct ((size =? 0) || _) eqn:E; [done|].
    apply orb_false_iff in E as [E1%Z.eqb_neq E2%Z.ltb_ge]. destruct (nt_getConfiguration h size w) as [[[[res buffer] sz] err] w1].
    destruct (negb (res =? 0)); [done|]. destruct (negb _); [done|]. intros [= <- <-]. unfold maxConfigurationBytes in *.
    change (Z.shiftl 16 20) with (2 ^ 24) in *. destruct (Z.leb_spec sz size); [rewrite Z.mod_small by lia|]; lia.
  - destruct (get_rounds depth h size w) as [[s1|r] w1] eqn:E1; [|done]. intros E2.
    apply IH in E1 as [G1 _]; [|done]. apply IH in E2 as [G2 G3]; [|lia].
    rewrite Nat2Z.inj_succ, Z.pow_succ_r by lia. lia.
Qed.

(** The loop that asks for the configuration ends. *)
Lemma getConfigurationLocked_ends h w : ∃ r w', getConfigurationLocked h w = (inr r, w').
Proof.
  unfold getConfigurationLocked. destruct (get_rounds 25 h 1024 w) as [[size|r] w'] eqn:E; [|eauto].
  apply get_rounds_grow in E as [_ E]; [|done]. by vm_compute in E.
Qed.

(** C33: asking for the status of an adapter is memory safe and ends.  Whatever the
    library answers and whatever bytes it writes, Status returns, no read leaves
    the buffer, the client's tables are unchanged, and a status is given only for
    an adapter in the tables, with its name and identifier. *)
Theorem Status_total ctx handle client w :
  ∃ r w', Status ctx handle (client, w) = (Some r, (client, w')) ∧
    ∀ st, r = Ok st → ∃ native, nativeLocked client handle = Ok native ∧ st_Name st = nv_name native ∧ st_LUID st = nv_luid native.
Proof.
  unfold Status. destruct (checkContext ctx); [by eexists _, _|].
  destruct (nativeLocked client handle) as [native|e] eqn:En; [|by eexists _, _].
  destruct (nt_find w) as [[[]|e] w1]; [|by eexists _, _].
  destruct (nt_getAdapterState _ _) as [[[res state] err] w2]. destruct (res =? 0); [by eexists _, _|].
  destruct (getConfigurationLocked_ends (nv_handle native) w2) as ([buffer|e] & w3 & ->); [|by eexists _, _].
  destruct (parseStatus_total native (negb (state =? 0)) buffer) as (r & -> & Hr). exists r, w3. split; [done|].
  intros st ->. destruct (Hr st eq_refl) as (? & ? & _). by exists native.
Qed.
End Status.
