(* ===== verification/NativeHandles.v ===== *)
(** * The WireGuardNT adapter: handles

    The tables of the client and the handles that the library has open, over any
    sequence of operations. *)

From Stdlib Require Import Ascii.
From S2P Require Import Prelude GoStd NetIP Wgnt Json Sockaddr Native NativeThm.

Open Scope Z_scope.

(** ** Handles

    The handles the library has open.  The laws of calls on a handle hold while it
    is open; opening gives a new one, and closing always closes. *)
Class NTLaws (W : Type) `{WireGuardNT W} := {
  nt_live : W → gset Z;
  law_nt_find w r w' : nt_find w = (r, w') → nt_live w' = nt_live w;
  law_nt_open name w h e w' : nt_openAdapter name w = ((h, e), w') →
    (h = 0 ∧ nt_live w' = nt_live w) ∨ (h ≠ 0 ∧ h ∉ nt_live w ∧ nt_live w' = {[h]} ∪ nt_live w);
  law_nt_create name kind w h e w' : nt_createAdapter name kind w = ((h, e), w') →
    (h = 0 ∧ nt_live w' = nt_live w) ∨ (h ≠ 0 ∧ h ∉ nt_live w ∧ nt_live w' = {[h]} ∪ nt_live w);
  law_nt_close h w e w' : h ∈ nt_live w → nt_closeAdapter h w = ((tt, e), w') → nt_live w' = nt_live w ∖ {[h]};
  law_nt_luid h w r w' : h ∈ nt_live w → nt_getAdapterLUID h w = (r, w') → nt_live w' = nt_live w;
  law_nt_set h b w r w' : h ∈ nt_live w → nt_setConfiguration h b w = (r, w') → nt_live w' = nt_live w;
  law_nt_get h z w r w' : h ∈ nt_live w → nt_getConfiguration h z w = (r, w') → nt_live w' = nt_live w;
  law_nt_state h z w r w' : h ∈ nt_live w → nt_setAdapterState h z w = (r, w') → nt_live w' = nt_live w;
  law_nt_read h w r w' : h ∈ nt_live w → nt_getAdapterState h w = (r, w') → nt_live w' = nt_live w
}.

(** The tables of a client that was given identifiers below [bound], over a library
    that had [L0] open before. *)
Record tables (L0 : gset Z) (bound : Z) (client : Client) (live : gset Z) : Prop := {
  tb_next : 1 ≤ cl_next client ≤ bound;
  tb_below i n : cl_adapters client !! i = Some n → 0 < i < cl_next client;
  tb_name name i : cl_byName client !! name = Some i ↔ ∃ n, cl_adapters client !! i = Some n ∧ nv_name n = name;
  tb_new i n : cl_adapters client !! i = Some n → nv_handle n ≠ 0 ∧ nv_handle n ∉ L0;
  tb_live h : h ∈ live ↔ h ∈ L0 ∨ ∃ i n, cl_adapters client !! i = Some n ∧ nv_handle n = h;
  tb_inj i j n m : cl_adapters client !! i = Some n → cl_adapters client !! j = Some m → nv_handle n = nv_handle m → i = j
}.

Lemma tables_new L0 : tables L0 1 NewClient L0.
Proof. split; try done; cbn; intros *; try (by rewrite lookup_empty); rewrite ?lookup_empty; split; naive_solver. Qed.

Lemma tables_bound L0 bound bound' client live : tables L0 bound client live → bound ≤ bound' → tables L0 bound' client live.
Proof. intros [? ? ? ? ? ?] ?. split; try done. lia. Qed.

Lemma tables_open L0 bound client live name h luid :
  tables L0 bound client live → cl_byName client !! name = None → h ≠ 0 → h ∉ live → bound + 1 < 2 ^ 64 →
  tables L0 (bound + 1)
    {| cl_next := (cl_next client + 1) mod 2 ^ 64;
       cl_adapters := <[cl_next client := {| nv_handle := h; nv_name := name; nv_luid := luid |}]> (cl_adapters client);
       cl_byName := <[name := cl_next client]> (cl_byName client) |} ({[h]} ∪ live).
Proof.
  intros [Hn Hb Hname Hnew Hlive Hinj] Hfree Hh Hl Hbound.
  assert (cl_adapters client !! cl_next client = None) as Hnone.
  { destruct (cl_adapters client !! cl_next client) eqn:E; [|done]. apply Hb in E. lia. }
  assert (∀ n, (∃ i, cl_adapters client !! i = Some n) → nv_handle n ≠ h) as Hne.
  { intros n [i E] <-. apply Hl, Hlive. eauto. }
  split; cbn [cl_next cl_adapters cl_byName].
  - rewrite Z.mod_small; lia.
  - intros i n. rewrite Z.mod_small, lookup_insert_Some by lia. intros [[<- _]|[_ E%Hb]]; lia.
  - intros x i. rewrite lookup_insert_Some. split.
    + intros [[<- <-]|[Hx E]]; [rewrite lookup_insert_eq; by eexists|]. apply Hname in E as (n & E & Hxn). exists n.
      rewrite lookup_insert_ne; [done|]. intros <-. congruence.
    + intros (n & [[<- <-]|[Hi E]]%lookup_insert_Some & Hx); [by left|]. right. split; [|apply Hname; by eexists].
      intros <-. assert (cl_byName client !! name = Some i) by (apply Hname; by eexists). congruence.
  - intros i n [[<- <-]|[_ E]]%lookup_insert_Some; [|by eapply Hnew]. cbn. split; [done|]. intros HL. apply Hl, Hlive. by left.
  - intros x. rewrite elem_of_union, elem_of_singleton, Hlive. split.
    + intros [->|[?|(i & n & E & <-)]]; [right; eexists _, _; by rewrite lookup_insert_eq|by left|].
      right. exists i, n. rewrite lookup_insert_ne; [done|]. intros <-. congruence.
    + intros [?|(i & n & [[<- <-]|[Hi E]]%lookup_insert_Some & <-)]; [by right; left|by left|]. right. right. eauto.
  - intros i j n m [[<- <-]|[Hi E1]]%lookup_insert_Some [[<- <-]|[Hj E2]]%lookup_insert_Some; cbn; try done.
    + intros Heq. destruct (Hne m); eauto.
    + intros Heq. destruct (Hne n); eauto.
    + by apply Hinj.
Qed.

Lemma tables_delete L0 bound client live handle native :
  tables L0 bound client live → cl_adapters client !! handle = Some native →
  tables L0 bound {| cl_next := cl_next client; cl_adapters := delete handle (cl_adapters client);
                     cl_byName := delete (nv_name native) (cl_byName client) |} (live ∖ {[nv_handle native]}).
Proof.
  intros [Hn Hb Hname Hnew Hlive Hinj] Hh. split; cbn [cl_next cl_adapters cl_byName]; [done|..].
  - intros i n [_ E]%lookup_delete_Some. by eapply Hb.
  - intros x i. rewrite lookup_delete_Some. split.
    + intros [Hx (n & E & Hxn)%Hname]. exists n. rewrite lookup_delete_ne; [done|]. intros <-. congruence.
    + intros (n & [Hi E]%lookup_delete_Some & Hx). split; [|apply Hname; by eexists]. intros Heq. apply Hi.
      assert (cl_byName client !! x = Some i) by (apply Hname; by eexists).
      assert (cl_byName client !! x = Some handle) by (apply Hname; by eexists). congruence.
  - intros i n [_ E]%lookup_delete_Some. by eapply Hnew.
  - intros x. rewrite elem_of_difference, elem_of_singleton, Hlive. split.
    + intros [[?|(i & n & E & <-)] Hx]; [by left|]. right. exists i, n. rewrite lookup_delete_ne; [done|]. intros <-. congruence.
    + intros [HL|(i & n & [Hi E]%lookup_delete_Some & <-)].
      * split; [by left|]. intros ->. by apply Hnew in Hh as [_ ?].
      * split; [right; eauto|]. intros Heq. apply Hi. symmetry. by eapply Hinj.
  - intros i j n m [_ E1]%lookup_delete_Some [_ E2]%lookup_delete_Some. by apply Hinj.
Qed.

Section Handles.
Context {W : Type} `{NTLaws W}.

Lemma nativeLocked_Ok L0 bound client live handle native : tables L0 bound client live → nativeLocked client handle = Ok native →
  cl_adapters client !! handle = Some native ∧ nv_handle native ∈ live.
Proof.
  intros Ht. unfold nativeLocked. destruct (negb _); [done|]. destruct (cl_adapters client !! handle) as [n|] eqn:E; [|done].
  destruct (nv_handle n =? 0); [done|]. intros [= <-]. split; [done|]. apply Ht. right. eauto.
Qed.

Lemma Ensure_tables L0 bound name client w r client' w' : tables L0 bound client (nt_live w) → bound + 1 < 2 ^ 64 →
  Ensure name (client, w) = (r, (client', w')) → tables L0 (bound + 1) client' (nt_live w').
Proof.
  intros Ht Hb. pose proof (tables_bound L0 bound (bound + 1) client (nt_live w) Ht) as Hkeep. unfold Ensure.
  destruct (bool_decide _ || _); [intros [= <- <- <-]; apply Hkeep; lia|]. set (trimmed := TrimSpace name).
  destruct (cl_byName client !! trimmed) as [i|] eqn:Ei; cbn [mbind option_bind].
  { apply (tb_name _ _ _ _ Ht) in Ei as (n & E & _). rewrite E. destruct (tb_new _ _ _ _ Ht _ _ E) as [Hn _].
    apply Z.eqb_neq in Hn. rewrite Hn. intros [= <- <- <-]. apply Hkeep. lia. }
  destruct (nt_find w) as [rf w1] eqn:Ef. apply law_nt_find in Ef. rewrite <- Ef in Ht, Hkeep. clear w Ef.
  destruct rf as [[]|e]; [|intros [= <- <- <-]; apply Hkeep; lia]. destruct (has_nul trimmed); [intros [= <- <- <-]; apply Hkeep; lia|].
  destruct (nt_openAdapter trimmed w1) as [[h1 e1] w2] eqn:Eo. apply law_nt_open in Eo.
  destruct (if h1 =? 0 then _ else _) as [[h2 e2] w3] eqn:Ec.
  assert (h2 = 0 ∧ nt_live w3 = nt_live w1 ∨ h2 ≠ 0 ∧ h2 ∉ nt_live w1 ∧ nt_live w3 = {[h2]} ∪ nt_live w1) as Hopen.
  { destruct Eo as [[-> Hsame]|(Hne & Hnew & Hlive)]; [|apply Z.eqb_neq in Hne as Hf; rewrite Hf in Ec; injection Ec as <- <- <-; by right].
    cbn in Ec. apply law_nt_create in Ec. by rewrite Hsame in Ec. }
  clear Eo Ec. destruct Hopen as [[-> Hsame]|(Hne & Hnew & Hlive)].
  { cbn. intros [= <- <- <-]. rewrite Hsame. apply Hkeep. lia. }
  rewrite (proj2 (Z.eqb_neq h2 0)) by done.
  destruct (nt_getAdapterLUID h2 w3) as [[luid e3] w4] eqn:El. apply law_nt_luid in El; [|set_solver].
  destruct (luid =? 0).
  - destruct (nt_closeAdapter h2 w4) as [[[] e4] w5] eqn:Ex. apply law_nt_close in Ex; [|set_solver]. cbn [snd].
    intros [= <- <- <-]. rewrite Ex, El, Hlive. assert (({[h2]} ∪ nt_live w1) ∖ {[h2]} = nt_live w1) as -> by set_solver. apply Hkeep. lia.
  - intros [= <- <- <-]. rewrite El, Hlive. by apply tables_open.
Qed.

(** An operation on a handle keeps the tables if its body does. *)
Lemma on_native_tables L0 bound {A} handle (body : nativeAdapter → M (Client * W) A) client w r client' w' :
  tables L0 bound client (nt_live w) →
  (∀ native w r client' w', nativeLocked client handle = Ok native → tables L0 bound client (nt_live w) → body native (client, w) = (r, (client', w')) →
    tables L0 bound client' (nt_live w')) →
  on_native handle body (client, w) = (r, (client', w')) → tables L0 bound client' (nt_live w').
Proof.
  intros Ht Hbody. unfold on_native. destruct (nativeLocked client handle) as [native|e] eqn:En; [|by intros [= <- <- <-]].
  destruct (nt_find w) as [[[]|e] w1] eqn:Ef; apply law_nt_find in Ef; rewrite <- Ef in Ht; [by apply Hbody|by intros [= <- <- <-]].
Qed.

Lemma check_tables L0 bound {A} e (m : M (Client * W) A) client w r client' w' : tables L0 bound client (nt_live w) →
  (m (client, w) = (r, (client', w')) → tables L0 bound client' (nt_live w')) →
  bind (check e) (λ _, m) (client, w) = (r, (client', w')) → tables L0 bound client' (nt_live w').
Proof. intros Ht Hm. rewrite bind_check. destruct e; [by intros [= <- <- <-]|done]. Qed.

Lemma Configure_tables L0 bound ctx handle c client w r client' w' : tables L0 bound client (nt_live w) →
  Configure ctx handle c (client, w) = (r, (client', w')) → tables L0 bound client' (nt_live w').
Proof.
  intros Ht. unfold Configure. apply check_tables; [done|]. apply check_tables; [done|]. apply on_native_tables; [done|].
  intros native w1 r1 client1 w2 En Ht1. destruct (buildConfiguration c) as [buffer|e]; [|by intros [= <- <- <-]].
  destruct (nt_setConfiguration _ _ _) as [[res e] w3] eqn:E. apply law_nt_set in E; [|by eapply nativeLocked_Ok].
  rewrite <- E in Ht1. by destruct (res =? 0); intros [= <- <- <-].
Qed.

Lemma setState_tables L0 bound ctx handle state client w r client' w' : tables L0 bound client (nt_live w) →
  setState ctx handle state (client, w) = (r, (client', w')) → tables L0 bound client' (nt_live w').
Proof.
  intros Ht. unfold setState. apply check_tables; [done|]. apply on_native_tables; [done|].
  intros native w1 r1 client1 w2 En Ht1. destruct (nt_setAdapterState _ _ _) as [[res e] w3] eqn:E.
  apply law_nt_state in E; [|by eapply nativeLocked_Ok]. rewrite <- E in Ht1. by destruct (res =? 0); intros [= <- <- <-].
Qed.

Lemma Delete_tables L0 bound ctx handle client w r client' w' : (∀ h w, (nt_closeAdapter h w).1.2 = None) →
  tables L0 bound client (nt_live w) → Delete ctx handle (client, w) = (r, (client', w')) → tables L0 bound client' (nt_live w').
Proof.
  intros Hquiet Ht. unfold Delete. apply check_tables; [done|]. apply on_native_tables; [done|].
  intros native w1 r1 client1 w2 En Ht1. destruct (nativeLocked_Ok _ _ _ _ _ _ Ht1 En) as [Ha Hl].
  destruct (nt_closeAdapter _ _) as [[[] e] w3] eqn:E. specialize (Hquiet (nv_handle native) w1). rewrite E in Hquiet. cbn in Hquiet. subst e.
  apply law_nt_close in E; [|done]. intros [= <- <- <-]. rewrite E. by apply tables_delete.
Qed.

Lemma get_rounds_live depth h size w r w' : h ∈ nt_live w → get_rounds depth h size w = (r, w') → nt_live w' = nt_live w.
Proof.
  revert size w r w'. induction depth as [|depth IH]; intros size w r w' Hl; cbn [get_rounds].
  - unfold get_round. destruct (_ || _); [by intros [= <- <-]|]. destruct (nt_getConfiguration h size w) as [[[[res buffer] sz] err] w1] eqn:E.
    apply law_nt_get in E; [|done]. by repeat case_match; intros [= <- <-].
  - destruct (get_rounds depth h size w) as [[s1|r1] w1] eqn:E1; apply IH in E1; try done; [|by intros [= <- <-]].
    intros E2. apply IH in E2; [congruence|by rewrite E1].
Qed.

Lemma Status_tables L0 bound ctx handle client w r client' w' : tables L0 bound client (nt_live w) →
  Status ctx handle (client, w) = (r, (client', w')) → tables L0 bound client' (nt_live w').
Proof.
  intros Ht. unfold Status. destruct (checkContext ctx); [by intros [= <- <- <-]|].
  destruct (nativeLocked client handle) as [native|e] eqn:En; [|by intros [= <- <- <-]].
  destruct (nt_find w) as [rf w1] eqn:Ef. apply law_nt_find in Ef. rewrite <- Ef in Ht. destruct (nativeLocked_Ok _ _ _ _ _ _ Ht En) as [_ Hl].
  destruct rf as [[]|e]; [|by intros [= <- <- <-]].
  destruct (nt_getAdapterState _ _) as [[[res state] err] w2] eqn:Es. apply law_nt_read in Es; [|done]. rewrite <- Es in Ht, Hl.
  destruct (res =? 0); [by intros [= <- <- <-]|]. unfold getConfigurationLocked. destruct (get_rounds _ _ _ _) as [o w3] eqn:Eg.
  apply get_rounds_live in Eg; [|done]. rewrite <- Eg in Ht. by repeat case_match; intros [= <- <- <-].
Qed.

(** ** A client over time *)
Inductive native_op :=
  | OpEnsure (name : string)
  | OpConfigure (ctx : Context) (handle : Handle) (c : Configuration)
  | OpSetUp (ctx : Context) (handle : Handle)
  | OpSetDown (ctx : Context) (handle : Handle)
  | OpDelete (ctx : Context) (handle : Handle)
  | OpStatus (ctx : Context) (handle : Handle).
Definition do_native (s : Client * W) (op : native_op) : Client * W :=
  match op with
  | OpEnsure name => (Ensure name s).2
  | OpConfigure ctx handle c => (Configure ctx handle c s).2
  | OpSetUp ctx handle => (SetUp ctx handle s).2
  | OpSetDown ctx handle => (SetDown ctx handle s).2
  | OpDelete ctx handle => (Delete ctx handle s).2
  | OpStatus ctx handle => (Status ctx handle s).2
  end.

Lemma do_native_tables L0 bound op client w client' w' : (∀ h w, (nt_closeAdapter h w).1.2 = None) → bound + 1 < 2 ^ 64 →
  tables L0 bound client (nt_live w) → do_native (client, w) op = (client', w') → tables L0 (bound + 1) client' (nt_live w').
Proof.
  intros Hquiet Hb Ht Hop.
  assert (tables L0 bound client' (nt_live w') → tables L0 (bound + 1) client' (nt_live w')) as Hmore
    by (intros; eapply tables_bound; [done|lia]).
  destruct op as [name|ctx handle c|ctx handle|ctx handle|ctx handle|ctx handle]; cbn [do_native] in Hop;
    match type of Hop with (?e).2 = _ => destruct e as [r [c1 w1]] eqn:E end; injection Hop as -> ->.
  - by eapply Ensure_tables.
  - by eapply Hmore, Configure_tables.
  - by eapply Hmore, setState_tables.
  - by eapply Hmore, setState_tables.
  - by eapply Hmore, Delete_tables.
  - by eapply Hmore, Status_tables.
Qed.


(** A close that reports an error leaves a dangling handle: Delete fails and
    keeps the adapter in the tables although the library has closed it, so that
    every later operation on the identifier, and Ensure of the name, uses the
    closed handle. *)
Theorem failed_close_dangles L0 bound client w ctx handle native w1 err w' :
  tables L0 bound client (nt_live w) → checkContext ctx = None → nativeLocked client handle = Ok native → nt_find w = (Ok tt, w1) →
  nt_closeAdapter (nv_handle native) w1 = ((tt, Some err), w') →
  Delete ctx handle (client, w) = (Err (EWrap err), (client, w')) ∧ nv_handle native ∉ nt_live w' ∧
  cl_byName client !! nv_name native = Some handle.
Proof.
  intros Ht Hctx Hn Hf Hc. destruct (nativeLocked_Ok _ _ _ _ _ _ Ht Hn) as [Ha Hl]. apply law_nt_find in Hf as Hlive. split_and!.
  - unfold Delete. rewrite bind_check, Hctx. unfold on_native. by rewrite Hn, Hf, Hc.
  - apply law_nt_close in Hc; [|by rewrite Hlive]. rewrite Hc. set_solver.
  - apply (tb_name _ _ _ _ Ht). eauto.
Qed.
End Handles.

(** ** A library in memory

    The open handles and the next one; closing reports [e]. *)
Module NativeDemo.
Record library (e : option error) := { lb_live : gset Z; lb_next : Z }.
Arguments lb_live {e}.
Arguments lb_next {e}.
Definition with_live {e} (l : gset Z) (w : library e) : library e := {| lb_live := l; lb_next := lb_next w + 1 |}.
Definition create {e} (w : library e) : (Z * option error) * library e :=
  if bool_decide (lb_next w = 0) || bool_decide (lb_next w ∈ lb_live w) then ((0, Some (EForeign 5)), w)
  else ((lb_next w, None), with_live ({[lb_next w]} ∪ lb_live w) w).
#[export] Instance demo_nt e : WireGuardNT (library e) := {
  nt_find w := (Ok tt, w);
  nt_openAdapter name w := ((0, Some (EForeign 2)), w);
  nt_createAdapter name kind w := create w;
  nt_closeAdapter h w := ((tt, e), with_live (lb_live w ∖ {[h]}) w);
  nt_getAdapterLUID h w := ((h + 100, None), w);
  nt_setConfiguration h b w := ((1, None), w);
  nt_getConfiguration h size w := ((if size <? 2048 then ((0, replicate (Z.to_nat size) 0, 1500), Some ERROR_MORE_DATA)
                                    else ((1, replicate (Z.to_nat size) 0, 80), None)), w);
  nt_setAdapterState h z w := ((1, None), w);
  nt_getAdapterState h w := ((1, 1, None), w);
  nt_getLastError w := None
}.
#[export] Instance demo_nt_laws e : NTLaws (library e).
Proof.
  refine {| nt_live := lb_live |}; cbn; try (by intros; simplify_eq).
  - intros name w h e' w' [= <- <- <-]. by left.
  - intros name kind w h e' w'. unfold create. destruct (bool_decide _ || bool_decide _) eqn:E; intros [= <- <- <-]; [by left|right].
    apply orb_false_iff in E as [?%bool_decide_eq_false ?%bool_decide_eq_false]. done.
Defined.

Definition library0 (e : option error) : library e := {| lb_live := {[77]}; lb_next := 1 |}.
Definition demo_ops : list native_op :=
  [OpEnsure "mesh"; OpConfigure liveContext 1 demo_configuration; OpSetUp liveContext 1; OpStatus liveContext 1; OpEnsure "other"; OpDelete liveContext 1].
Definition demo_run : Client * library None := fold_left do_native demo_ops (NewClient, library0 None).


Definition noisy : option error := Some (EForeign 6).
Definition noisy_open : Client * library noisy := do_native (NewClient, library0 noisy) (OpEnsure "mesh").
Lemma failed_close_dangles_witness :
  (Delete liveContext 1 noisy_open).1 = Err (EWrap (EForeign 6)) ∧ 1 ∉ lb_live (Delete liveContext 1 noisy_open).2.2 ∧
  (Ensure "mesh" (Delete liveContext 1 noisy_open).2).1 = Ok 1.
Proof.
  destruct noisy_open as [client w] eqn:E.
  assert (tables {[77]} 2 client (nt_live w)) as Ht.
  { eapply (Ensure_tables {[77]} 1 "mesh" NewClient (library0 noisy) (Ensure "mesh" (NewClient, library0 noisy)).1 client w);
      [apply tables_new|done|]. rewrite <- E. apply surjective_pairing. }
  destruct (failed_close_dangles {[77]} 2 client w liveContext 1 {| nv_handle := 1; nv_name := "mesh"; nv_luid := 101 |} w (EForeign 6)
    (with_live (lb_live w ∖ {[1]}) w)) as (Hd & Hl & _); [exact Ht|done| |done|done|].
  - vm_compute in E. injection E as <- <-. by vm_compute.
  - rewrite Hd. cbn [fst snd]. split; [done|]. split; [exact Hl|]. vm_compute in E. injection E as <- <-. by vm_compute.
Defined.
End NativeDemo.
