(* ===== verification/IPHelper.v ===== *)
(** * The Windows IP helper

    [internal/netwin/iphelper_windows.go]: the backend of the route reconciler on
    Windows.  The procedures of the library are a class of operations on an
    arbitrary system: a call gives its result code and the last error, [None] for
    [Errno(0)]. *)

From S2P Require Import Prelude GoStd NetIP Wgnt Routes Sockaddr.

Open Scope Z_scope.

Record ipAddressPrefix := { ip_Prefix : list Z; ip_PrefixLength : Z }.
Record unicastIPAddressRow := {
  ua_Address : list Z; ua_InterfaceLUID : Z; ua_InterfaceIndex : Z; ua_PrefixOrigin : Z; ua_SuffixOrigin : Z;
  ua_ValidLifetime : Z; ua_PreferredLifetime : Z; ua_OnLinkPrefixLength : Z; ua_SkipAsSource : bool; ua_DadState : Z;
  ua_ScopeID : Z; ua_CreationTimeStamp : Z
}.
Record ipForwardRow2 := {
  fr_InterfaceLUID : Z; fr_InterfaceIndex : Z; fr_DestinationPrefix : ipAddressPrefix; fr_NextHop : list Z;
  fr_SitePrefixLength : Z; fr_ValidLifetime : Z; fr_PreferredLifetime : Z; fr_Metric : Z; fr_Protocol : Z; fr_Loopback : bool;
  fr_AutoconfigureAddress : bool; fr_Publish : bool; fr_Immortal : bool; fr_Age : Z; fr_Origin : Z
}.
Definition zero_sockaddr : list Z := replicate 28 0.
Definition zero_unicast : unicastIPAddressRow := {|
  ua_Address := zero_sockaddr; ua_InterfaceLUID := 0; ua_InterfaceIndex := 0; ua_PrefixOrigin := 0; ua_SuffixOrigin := 0;
  ua_ValidLifetime := 0; ua_PreferredLifetime := 0; ua_OnLinkPrefixLength := 0; ua_SkipAsSource := false; ua_DadState := 0;
  ua_ScopeID := 0; ua_CreationTimeStamp := 0
|}.
Definition zero_forward : ipForwardRow2 := {|
  fr_InterfaceLUID := 0; fr_InterfaceIndex := 0; fr_DestinationPrefix := {| ip_Prefix := zero_sockaddr; ip_PrefixLength := 0 |};
  fr_NextHop := zero_sockaddr; fr_SitePrefixLength := 0; fr_ValidLifetime := 0; fr_PreferredLifetime := 0; fr_Metric := 0;
  fr_Protocol := 0; fr_Loopback := false; fr_AutoconfigureAddress := false; fr_Publish := false; fr_Immortal := false; fr_Age := 0;
  fr_Origin := 0
|}.

(** The library; [ih_find] says which of the named procedures are missing. *)
Class IPHelperAPI (W : Type) := {
  ih_find : list string → M W unit;
  ih_initializeUnicast : unicastIPAddressRow → W → unicastIPAddressRow * W;
  ih_createUnicast : unicastIPAddressRow → W → (Z * option error) * W;
  ih_deleteUnicast : unicastIPAddressRow → W → (Z * option error) * W;
  ih_initializeRoute : ipForwardRow2 → W → ipForwardRow2 * W;
  ih_createRoute : ipForwardRow2 → W → (Z * option error) * W;
  ih_deleteRoute : ipForwardRow2 → W → (Z * option error) * W
}.

Definition ERROR_FILE_NOT_FOUND : error := EForeign 2.
Definition ERROR_ALREADY_EXISTS : error := EForeign 183.
Definition ERROR_NOT_FOUND : error := EForeign 1168.
Definition ERROR_OBJECT_ALREADY_EXISTS : error := EForeign 5010.

Definition isMissing (err : error) : bool := bool_decide (err = ERROR_NOT_FOUND) || bool_decide (err = ERROR_FILE_NOT_FOUND).
Definition already_exists (err : error) : bool :=
  bool_decide (err = ERROR_OBJECT_ALREADY_EXISTS) || bool_decide (err = ERROR_ALREADY_EXISTS).

Definition setRawAddress (address : Addr) (port : Z) : option (list Z) :=
  match address with
  | Addr4 _ => Some (sockaddr4 port (As4 address))
  | Addr6 _ _ => Some (sockaddr6 port (As16 address) 0)
  | AddrZero => None
  end.
Definition setPrefix (value : Prefix) : option ipAddressPrefix :=
  raw ← setRawAddress (pf_Addr value) 0; Some {| ip_Prefix := raw; ip_PrefixLength := Prefix_Bits value mod 2 ^ 8 |}.

(** A direct route has the zero IPv4 address as its next hop. *)
Definition next_hop (route : Route) : option (list Z) :=
  if Addr_IsValid (rt_NextHop route) then setRawAddress (rt_NextHop route) 0
  else
    raw ← setRawAddress (pf_Addr (rt_Destination route)) 0;
    Some (if Is4 (pf_Addr (rt_Destination route)) then take 4 raw ++ replicate 4 0 ++ drop 8 raw else raw).

Section IPHelper.
Context {W : Type} `{IPHelperAPI W}.

Definition callWin32 {R} (procedure : R → W → (Z * option error) * W) (row : R) : M W unit := λ w,
  let '((res, callErr), w) := procedure row w in
  if negb (res =? 0) then (Err (EForeign (Z.to_nat res)), w)
  else match callErr with Some err => (Err err, w) | None => (Ok tt, w) end.

Definition find (procedures : list string) : M W unit := λ w,
  match ih_find procedures w with (Err err, w) => (Err (EWrap err), w) | ok => ok end.

Definition set_unicast (row : unicastIPAddressRow) (address : Address) (raw : list Z) : unicastIPAddressRow := {|
  ua_Address := raw; ua_InterfaceLUID := na_InterfaceLUID address; ua_InterfaceIndex := ua_InterfaceIndex row;
  ua_PrefixOrigin := ua_PrefixOrigin row; ua_SuffixOrigin := ua_SuffixOrigin row; ua_ValidLifetime := ua_ValidLifetime row;
  ua_PreferredLifetime := ua_PreferredLifetime row; ua_OnLinkPrefixLength := na_PrefixLength address; ua_SkipAsSource := ua_SkipAsSource row;
  ua_DadState := ua_DadState row; ua_ScopeID := ua_ScopeID row; ua_CreationTimeStamp := ua_CreationTimeStamp row
|}.

Definition EnsureAddress (ctx : Context) (address : Address) : M W bool :=
  check (checkContext ctx);;
  check (validateAddress address);;
  find ["InitializeUnicastIpAddressEntry"; "CreateUnicastIpAddressEntry"; "DeleteUnicastIpAddressEntry"];;
  λ w,
    let '(row, w) := ih_initializeUnicast zero_unicast w in
    match setRawAddress (na_IP address) 0 with
    | None => (Err (EForeign 0), w)
    | Some raw =>
      match callWin32 ih_createUnicast (set_unicast row address raw) w with
      | (Err err, w) => if already_exists err then (Ok false, w) else (Err (EWrap err), w)
      | (Ok _, w) => (Ok true, w)
      end
    end.

Definition RemoveAddress (ctx : Context) (address : Address) : M W unit :=
  check (checkContext ctx);;
  check (validateAddress address);;
  find ["DeleteUnicastIpAddressEntry"];;
  λ w,
    match setRawAddress (na_IP address) 0 with
    | None => (Err (EForeign 0), w)
    | Some raw =>
      match callWin32 ih_deleteUnicast (set_unicast zero_unicast address raw) w with
      | (Err err, w) => if isMissing err then (Ok tt, w) else (Err (EWrap err), w)
      | (Ok _, w) => (Ok tt, w)
      end
    end.

Definition makeRouteRow (route : Route) : M W ipForwardRow2 := λ w,
  let '(row, w) := ih_initializeRoute zero_forward w in
  match setPrefix (rt_Destination route), next_hop route with
  | Some prefix, Some hop =>
    (Ok {| fr_InterfaceLUID := rt_InterfaceLUID route; fr_InterfaceIndex := fr_InterfaceIndex row; fr_DestinationPrefix := prefix;
           fr_NextHop := hop; fr_SitePrefixLength := fr_SitePrefixLength row; fr_ValidLifetime := 2 ^ 32 - 1;
           fr_PreferredLifetime := 2 ^ 32 - 1; fr_Metric := if rt_Metric route =? 0 then 1 else rt_Metric route; fr_Protocol := 10006;
           fr_Loopback := fr_Loopback row; fr_AutoconfigureAddress := fr_AutoconfigureAddress row; fr_Publish := fr_Publish row;
           fr_Immortal := fr_Immortal row; fr_Age := fr_Age row; fr_Origin := 0 |}, w)
  | _, _ => (Err (EForeign 0), w)
  end.

Definition EnsureRoute (ctx : Context) (route : Route) : M W bool :=
  check (checkContext ctx);;
  check (validateRoute route);;
  find ["InitializeIpForwardEntry"; "CreateIpForwardEntry2"; "DeleteIpForwardEntry2"];;
  let! row := makeRouteRow route in
  λ w,
    match callWin32 ih_createRoute row w with
    | (Err err, w) => if already_exists err then (Ok false, w) else (Err (EWrap err), w)
    | (Ok _, w) => (Ok true, w)
    end.

Definition RemoveRoute (ctx : Context) (route : Route) : M W unit :=
  check (checkContext ctx);;
  check (validateRoute route);;
  find ["InitializeIpForwardEntry"; "DeleteIpForwardEntry2"];;
  let! row := makeRouteRow route in
  λ w,
    match callWin32 ih_deleteRoute row w with
    | (Err err, w) => if isMissing err then (Ok tt, w) else (Err (EWrap err), w)
    | (Ok _, w) => (Ok tt, w)
    end.

#[global] Instance IPHelper_Backend : Backend W := {
  be_EnsureAddress := EnsureAddress; be_RemoveAddress := RemoveAddress; be_EnsureRoute := EnsureRoute; be_RemoveRoute := RemoveRoute
}.
End IPHelper.
