(* ===== verification/IPHelperThm.v ===== *)
(** * The Windows IP helper: properties

    What the procedures of Windows do to the tables of addresses and routes, and
    that the helper keeps the promises of a backend of the route reconciler. *)

From S2P Require Import Prelude GoStd NetIP Wgnt Routes Sockaddr Native NativeThm IPHelper.

Open Scope Z_scope.

(** ** The tables

    An address is known by its bytes and its interface; a route by its destination,
    its interface and its next hop.  A procedure that fails changes nothing; the
    codes for entries that exist, or do not, say the truth. *)
Definition unicast_key (row : unicastIPAddressRow) : list Z * Z := (ua_Address row, ua_InterfaceLUID row).
Definition route_entry (row : ipForwardRow2) : list Z * Z * Z * list Z :=
  (ip_Prefix (fr_DestinationPrefix row), ip_PrefixLength (fr_DestinationPrefix row), fr_InterfaceLUID row, fr_NextHop row).

Definition creates {K} `{Countable K} (key : K) (before after : gset K) (code : Z) : Prop :=
  (code = 0 ∧ key ∉ before ∧ after = {[key]} ∪ before) ∨
  (code = 5010 ∨ code = 183) ∧ key ∈ before ∧ after = before ∨
  (0 < code ∧ code ≠ 5010 ∧ code ≠ 183 ∧ after = before).
Definition deletes {K} `{Countable K} (key : K) (before after : gset K) (code : Z) : Prop :=
  (code = 0 ∧ key ∈ before ∧ after = before ∖ {[key]}) ∨
  (code = 1168 ∨ code = 2) ∧ key ∉ before ∧ after = before ∨
  (0 < code ∧ code ≠ 1168 ∧ code ≠ 2 ∧ after = before).

Class IPTables (W : Type) `{IPHelperAPI W} := {
  ip_addresses : W → gset (list Z * Z);
  ip_routes : W → gset (list Z * Z * Z * list Z);
  ip_same (w w' : W) : Prop := ip_addresses w' = ip_addresses w ∧ ip_routes w' = ip_routes w;
  law_ih_find names w r w' : ih_find names w = (r, w') → ip_same w w';
  law_ih_initializeUnicast row w row' w' : ih_initializeUnicast row w = (row', w') → ip_same w w';
  law_ih_initializeRoute row w row' w' : ih_initializeRoute row w = (row', w') → ip_same w w';
  law_ih_createUnicast row w code e w' : ih_createUnicast row w = ((code, e), w') →
    creates (unicast_key row) (ip_addresses w) (ip_addresses w') code ∧ ip_routes w' = ip_routes w;
  law_ih_deleteUnicast row w code e w' : ih_deleteUnicast row w = ((code, e), w') →
    deletes (unicast_key row) (ip_addresses w) (ip_addresses w') code ∧ ip_routes w' = ip_routes w;
  law_ih_createRoute row w code e w' : ih_createRoute row w = ((code, e), w') →
    creates (route_entry row) (ip_routes w) (ip_routes w') code ∧ ip_addresses w' = ip_addresses w;
  law_ih_deleteRoute row w code e w' : ih_deleteRoute row w = ((code, e), w') →
    deletes (route_entry row) (ip_routes w) (ip_routes w') code ∧ ip_addresses w' = ip_addresses w
}.

(** ** Keys *)
Definition address_ok (a : Address) : Prop := validateAddress a = None ∧ addr_ok (na_IP a).
Definition address_key (a : Address) : list Z * Z := (sockaddr4 0 (As4 (na_IP a)), na_InterfaceLUID a).

Lemma sockaddr4_inj port a b : length a = 4%nat → length b = 4%nat → sockaddr4 port a = sockaddr4 port b → a = b.
Proof. intros Ha Hb. unfold sockaddr4. intros E%app_inv_head%app_inv_head. by apply app_inj_1 in E as [? _]; [|congruence]. Qed.

Lemma put_be_inj n v u : 0 ≤ v < 2 ^ (8 * Z.of_nat n) → 0 ≤ u < 2 ^ (8 * Z.of_nat n) → put_be n v = put_be n u → v = u.
Proof. intros Hv Hu E. rewrite <- (be_value_small n v Hv), <- (be_value_small n u Hu). congruence. Qed.

Lemma address_shape a : address_ok a → ∃ v, na_IP a = Addr4 v ∧ 0 ≤ v < 2 ^ 32 ∧ na_PrefixLength a = 32.
Proof.
  intros [Hv Ha]. unfold validateAddress in Hv. case_match eqn:E; [done|]. rewrite !orb_false_iff, !negb_false_iff, Z.eqb_eq in E.
  destruct E as [[[_ E4] E32] _]. destruct (na_IP a) as [|v|v z]; try done. by exists v.
Qed.
Lemma address_key_inj a b : address_ok a → address_ok b → address_key a = address_key b → a = b.
Proof.
  intros (v & Ea & Hv & Hp)%address_shape (u & Eb & Hu & Hq)%address_shape. destruct a as [ipa pa la], b as [ipb pb lb]. cbn in *. subst. unfold address_key. cbn [na_IP na_InterfaceLUID As4].
  intros [E ->]%pair_equal_spec. apply sockaddr4_inj in E; [|apply put_be_length..]. by apply put_be_inj in E as ->.
Qed.

(** Routes of one metric, whose next hop, if any, is not the zero address. *)
Definition route_plain (metric : Z) (r : Route) : Prop := route_ok r ∧ rt_Metric r = metric ∧ rt_NextHop r ≠ Addr4 0.
Definition route_id (r : Route) : list Z * Z * Z * list Z :=
  (sockaddr4 0 (As4 (pf_Addr (rt_Destination r))), 32, rt_InterfaceLUID r,
   sockaddr4 0 (match rt_NextHop r with Addr4 v => put_be 4 v | _ => put_be 4 0 end)).

Lemma route_shape metric r : route_plain metric r →
  ∃ v hop, r = {| rt_Destination := {| pf_Addr := Addr4 v; pf_bitsPlusOne := 33 |}; rt_InterfaceLUID := rt_InterfaceLUID r;
                  rt_NextHop := if hop =? 0 then AddrZero else Addr4 hop; rt_Metric := metric |} ∧
    0 ≤ v < 2 ^ 32 ∧ 0 ≤ hop < 2 ^ 32 ∧
    route_id r = (sockaddr4 0 (put_be 4 v), 32, rt_InterfaceLUID r, sockaddr4 0 (put_be 4 hop)).
Proof.
  intros ([Hv (_ & _ & Hd & Hh)] & Hm & Hz). apply validateRoute_shape in Hv as ([v Ev] & _ & Hop).
  destruct r as [dest luid hop m]. cbn in *. subst dest m. specialize (Hd v eq_refl). unfold route_id. cbn [rt_Destination pf_Addr As4 rt_InterfaceLUID rt_NextHop].
  destruct Hop as [->|[u ->]]; [by exists v, 0|]. exists v, u. specialize (Hh u eq_refl).
  destruct (Z.eqb_spec u 0) as [->|]; [done|]. done.
Qed.
Lemma route_id_inj metric r x : route_plain metric r → route_plain metric x → route_id r = route_id x → r = x.
Proof.
  intros (v & hop & Er & Hv & Hh & ->)%route_shape (v' & hop' & Ex & Hv' & Hh' & ->)%route_shape. intros [[[E1 _]%pair_equal_spec E2]%pair_equal_spec E3]%pair_equal_spec.
  apply sockaddr4_inj in E1; [|apply put_be_length..]. apply sockaddr4_inj in E3; [|apply put_be_length..].
  apply put_be_inj in E1 as ->; [|done..]. apply put_be_inj in E3 as ->; [|done..]. rewrite Er, Ex, E2. done.
Qed.

(** ** The procedures through [callWin32]

    [quiet]: a procedure that succeeds leaves no last error behind. *)
Definition quiet {R W} (procedure : R → W → (Z * option error) * W) : Prop :=
  ∀ row w, (procedure row w).1.1 = 0 → (procedure row w).1.2 = None.

Lemma foreign_code code n : 0 ≤ code → EForeign (Z.to_nat code) = EForeign n ↔ code = Z.of_nat n.
Proof. intros Hc. split; [intros [= <-]; lia|]. intros ->. by rewrite Nat2Z.id. Qed.

Section Calls.
Context {W R K : Type} `{Countable K}.
Variable procedure : R → W → (Z * option error) * W.
Hypothesis procedure_quiet : quiet procedure.
Variable view : W → gset K.

Lemma create_call key row w :
  (∀ code e w', procedure row w = ((code, e), w') → creates key (view w) (view w') code) →
  match callWin32 procedure row w with
  | (Ok _, w') => key ∉ view w ∧ view w' = {[key]} ∪ view w
  | (Err err, w') => view w' = view w ∧ (already_exists err = true → key ∈ view w)
  end.
Proof.
  intros Hc. unfold callWin32. pose proof (procedure_quiet row w) as Hq. destruct (procedure row w) as [[code e] w'] eqn:E.
  specialize (Hc code e w' eq_refl). cbn in Hq. destruct (Z.eqb_spec code 0) as [->|Hne]; cbn [negb].
  { rewrite Hq by done. destruct Hc as [(_ & ? & ?)|[([?|?] & _)|(? & _)]]; [done|lia..]. }
  unfold already_exists, ERROR_OBJECT_ALREADY_EXISTS, ERROR_ALREADY_EXISTS. rewrite orb_true_iff, !bool_decide_eq_true.
  destruct Hc as [(? & _)|[(? & ? & ?)|(? & ? & ? & ?)]]; [lia|done|]. split; [done|].
  rewrite !foreign_code by lia. cbn. lia.
Qed.

Lemma delete_call key row w :
  (∀ code e w', procedure row w = ((code, e), w') → deletes key (view w) (view w') code) →
  match callWin32 procedure row w with
  | (Ok _, w') => view w' = view w ∖ {[key]}
  | (Err err, w') => view w' = view w ∧ (isMissing err = true → key ∉ view w)
  end.
Proof.
  intros Hc. unfold callWin32. pose proof (procedure_quiet row w) as Hq. destruct (procedure row w) as [[code e] w'] eqn:E.
  specialize (Hc code e w' eq_refl). cbn in Hq. destruct (Z.eqb_spec code 0) as [->|Hne]; cbn [negb].
  { rewrite Hq by done. destruct Hc as [(_ & ? & ?)|[([?|?] & _)|(? & _)]]; [done|lia..]. }
  unfold isMissing, ERROR_NOT_FOUND, ERROR_FILE_NOT_FOUND. rewrite orb_true_iff, !bool_decide_eq_true.
  destruct Hc as [(? & _)|[(? & ? & ?)|(? & ? & ? & ?)]]; [lia|done|]. split; [done|].
  rewrite !foreign_code by lia. cbn. lia.
Qed.

Lemma callWin32_frame {X} (f : W → X) row w r w' : (∀ code e w', procedure row w = ((code, e), w') → f w' = f w) →
  callWin32 procedure row w = (r, w') → f w' = f w.
Proof.
  intros Hf. unfold callWin32. destruct (procedure row w) as [[code e] w1] eqn:E. specialize (Hf code e w1 eq_refl).
  by repeat case_match; intros [= <- <-].
Qed.
End Calls.

(** ** The operations *)
Section Helper.
Context {W : Type} `{IPTables W}.

Definition has_address (w : W) (a : Address) : Prop := address_ok a ∧ address_key a ∈ ip_addresses w.
Definition has_route (metric : Z) (w : W) (r : Route) : Prop := route_plain metric r ∧ route_id r ∈ ip_routes w.

Lemma ip_same_refl (w : W) : ip_same w w.
Proof. done. Qed.

Lemma find_same names w r w' : find names w = (r, w') → ip_same w w'.
Proof. unfold find. destruct (ih_find names w) as [[[]|e] w1] eqn:E; intros [= <- <-]; by eapply law_ih_find. Qed.

(** The checks before the body of an operation. *)
Lemma guarded {A} ctx v names (body : M W A) (P : result A → W → Prop) w r w' :
  (∀ e w1, ip_same w w1 → P (Err e) w1) → (v = None → ∀ w1 r w', ip_same w w1 → body w1 = (r, w') → P r w') →
  (check (checkContext ctx);; check v;; find names;; body) w = (r, w') → P r w'.
Proof.
  intros He Hb. rewrite bind_check. destruct (checkContext ctx); [intros [= <- <-]; by apply He|].
  rewrite bind_check. destruct v; [intros [= <- <-]; by apply He|]. unfold bind.
  destruct (find names w) as [[[]|e] w1] eqn:E; apply find_same in E; [by apply Hb|]. intros [= <- <-]. by apply He.
Qed.

(** The address of a row that the helper builds. *)
Lemma unicast_key_set row a raw : address_ok a → setRawAddress (na_IP a) 0 = Some raw → unicast_key (set_unicast row a raw) = address_key a.
Proof. intros (v & Ea & _)%address_shape. unfold address_key. rewrite Ea. cbn [setRawAddress As4]. by intros [= <-]. Qed.

(** What the reconciler relies on, operation by operation. *)
Definition address_ensured (a : Address) (w : W) (r : result bool) (w' : W) : Prop :=
  match r with
  | Ok created => (∀ b, has_address w' b ↔ has_address w b ∨ b = a) ∧ ip_routes w' = ip_routes w ∧ (created = true ↔ ¬ has_address w a)
  | Err _ => ip_same w w'
  end.
Definition address_removed (a : Address) (w : W) (r : result unit) (w' : W) : Prop :=
  match r with
  | Ok _ => (∀ b, has_address w' b ↔ has_address w b ∧ b ≠ a) ∧ ip_routes w' = ip_routes w
  | Err _ => ip_same w w'
  end.
Definition route_ensured (metric : Z) (x : Route) (w : W) (r : result bool) (w' : W) : Prop :=
  match r with
  | Ok created => (∀ y, has_route metric w' y ↔ has_route metric w y ∨ y = x) ∧ ip_addresses w' = ip_addresses w ∧
      (created = true ↔ ¬ has_route metric w x)
  | Err _ => ip_same w w'
  end.
Definition route_removed (metric : Z) (x : Route) (w : W) (r : result unit) (w' : W) : Prop :=
  match r with
  | Ok _ => (∀ y, has_route metric w' y ↔ has_route metric w y ∧ y ≠ x) ∧ ip_addresses w' = ip_addresses w
  | Err _ => ip_same w w'
  end.

Lemma EnsureAddress_spec ctx a w r w' : quiet ih_createUnicast → addr_ok (na_IP a) → EnsureAddress ctx a w = (r, w') →
  address_ensured a w r w'.
Proof.
  intros Hq Ha. unfold EnsureAddress. apply (guarded _ _ _ _ (address_ensured a w)); [done|]. intros Hv w1 r1 w2 Hs.
  assert (address_ok a) as Hok by done. destruct (ih_initializeUnicast zero_unicast w1) as [row w3] eqn:Ei.
  apply law_ih_initializeUnicast in Ei. assert (ip_same w w3) as [Hs1 Hs2] by (destruct Hs, Ei; split; congruence). clear Hs Ei.
  destruct (setRawAddress (na_IP a) 0) as [raw|] eqn:Er; [|intros [= <- <-]; done].
  pose proof (create_call ih_createUnicast Hq ip_addresses _ _ _ (λ code e w' E, proj1 (law_ih_createUnicast (set_unicast row a raw) w3 code e w' E))) as Hc.
  rewrite (unicast_key_set row a raw Hok Er) in Hc.
  destruct (callWin32 _ _ w3) as [o w4] eqn:Ec.
  apply (callWin32_frame _ ip_routes) in Ec; [|intros code e w5 E; by apply law_ih_createUnicast in E as [_ ?]].
  rewrite Hs1 in Hc. rewrite Hs2 in Ec. unfold address_ensured, address_removed, has_address. destruct o as [[]|e].
  - intros [= <- <-]. destruct Hc as [Hnot ->]. split_and!; [|done|split; [intros _ [_ ?]|]; done].
    intros b. rewrite elem_of_union, elem_of_singleton. split; [intros [Hb [Hk|Hk]]; [right; by apply address_key_inj|by left]|].
    intros [[Hb Hk]| ->]; [by split; [|right]|by split; [|left]].
  - destruct Hc as [Hc Hex]. destruct (already_exists e); [|intros [= <- <-]; done]. intros [= <- <-]. specialize (Hex eq_refl).
    rewrite Hc. split_and!; [|done|split; [done|intros Hn; by destruct Hn]]. intros b. split; [by left|]. by intros [?| ->].
Qed.

Lemma RemoveAddress_spec ctx a w r w' : quiet ih_deleteUnicast → addr_ok (na_IP a) → RemoveAddress ctx a w = (r, w') →
  address_removed a w r w'.
Proof.
  intros Hq Ha. unfold RemoveAddress. apply (guarded _ _ _ _ (address_removed a w)); [done|]. intros Hv w1 r1 w2 [Hs1 Hs2]. assert (address_ok a) as Hok by done.
  destruct (setRawAddress (na_IP a) 0) as [raw|] eqn:Er; [|intros [= <- <-]; done].
  pose proof (delete_call ih_deleteUnicast Hq ip_addresses _ _ _ (λ code e w' E, proj1 (law_ih_deleteUnicast (set_unicast zero_unicast a raw) w1 code e w' E))) as Hc.
  rewrite (unicast_key_set zero_unicast a raw Hok Er) in Hc.
  destruct (callWin32 _ _ w1) as [o w4] eqn:Ec.
  apply (callWin32_frame _ ip_routes) in Ec; [|intros code e w5 E; by apply law_ih_deleteUnicast in E as [_ ?]].
  rewrite Hs1 in Hc. rewrite Hs2 in Ec. unfold address_ensured, address_removed, has_address. destruct o as [[]|e].
  - intros [= <- <-]. rewrite Hc. split; [|done]. intros b. rewrite elem_of_difference, elem_of_singleton. split.
    + intros (Hb & Hk & Hne). split; [done|]. by intros ->.
    + intros [[Hb Hk] Hne]. split_and!; try done. intros E. by apply address_key_inj in E.
  - destruct Hc as [Hc Hex]. destruct (isMissing e); [|intros [= <- <-]; done]. intros [= <- <-]. specialize (Hex eq_refl). rewrite Hc.
    split; [|done]. intros b. split; [|by intros [? _]]. intros [Hb Hk]. split; [done|]. intros ->. done.
Qed.

(** The row of a route. *)
Lemma next_hop_plain metric x : route_plain metric x →
  next_hop x = Some (sockaddr4 0 (match rt_NextHop x with Addr4 v => put_be 4 v | _ => put_be 4 0 end)).
Proof.
  intros (v & hop & -> & Hv & Hh & _)%route_shape. unfold next_hop. cbn [rt_NextHop rt_Destination pf_Addr].
  by destruct (hop =? 0).
Qed.

Lemma makeRouteRow_spec metric x w r w' : route_plain metric x → makeRouteRow x w = (r, w') →
  ip_same w w' ∧ ∃ row, r = Ok row ∧ route_entry row = route_id x.
Proof.
  intros Hx. unfold makeRouteRow. destruct (ih_initializeRoute zero_forward w) as [row w1] eqn:Ei.
  apply law_ih_initializeRoute in Ei. rewrite (next_hop_plain metric x Hx).
  destruct (route_shape metric x Hx) as (v & hop & Ex & Hv & _). assert (rt_Destination x = {| pf_Addr := Addr4 v; pf_bitsPlusOne := 33 |}) as Ed
    by (by rewrite Ex). unfold setPrefix, route_id. rewrite Ed. cbn [pf_Addr setRawAddress mbind option_bind].
  intros [= <- <-]. split; [done|]. eexists. split; [done|]. done.
Qed.

Lemma EnsureRoute_spec metric ctx x w r w' : quiet ih_createRoute → route_plain metric x → EnsureRoute ctx x w = (r, w') →
  route_ensured metric x w r w'.
Proof.
  intros Hq Hx. unfold EnsureRoute. apply (guarded _ _ _ _ (route_ensured metric x w)); [done|]. intros Hv w1 r1 w2 Hs.
  unfold bind. destruct (makeRouteRow x w1) as [r3 w3] eqn:Em. apply (makeRouteRow_spec metric) in Em as (Hm & row & -> & Hrow); [|done].
  assert (ip_same w w3) as [Hs1 Hs2] by (destruct Hs, Hm; split; congruence). clear Hs Hm.
  pose proof (create_call ih_createRoute Hq ip_routes _ _ _ (λ code e w' E, proj1 (law_ih_createRoute row w3 code e w' E))) as Hc.
  rewrite Hrow in Hc. destruct (callWin32 _ _ w3) as [o w4] eqn:Ec.
  apply (callWin32_frame _ ip_addresses) in Ec; [|intros code e w5 E; by apply law_ih_createRoute in E as [_ ?]].
  rewrite Hs2 in Hc. rewrite Hs1 in Ec. unfold route_ensured, has_route. destruct o as [[]|e].
  - intros [= <- <-]. destruct Hc as [Hnot ->]. split_and!; [|done|split; [intros _ [_ ?]|]; done].
    intros y. rewrite elem_of_union, elem_of_singleton. split; [intros [Hy [Hk|Hk]]; [right; by eapply route_id_inj|by left]|].
    intros [[Hy Hk]| ->]; [by split; [|right]|by split; [|left]].
  - destruct Hc as [Hc Hex]. destruct (already_exists e); [|intros [= <- <-]; done]. intros [= <- <-]. specialize (Hex eq_refl).
    rewrite Hc. split_and!; [|done|split; [done|intros Hn; by destruct Hn]]. intros b. split; [by left|]. by intros [?| ->].
Qed.

Lemma RemoveRoute_spec metric ctx x w r w' : quiet ih_deleteRoute → route_plain metric x → RemoveRoute ctx x w = (r, w') →
  route_removed metric x w r w'.
Proof.
  intros Hq Hx. unfold RemoveRoute. apply (guarded _ _ _ _ (route_removed metric x w)); [done|]. intros Hv w1 r1 w2 Hs.
  unfold bind. destruct (makeRouteRow x w1) as [r3 w3] eqn:Em. apply (makeRouteRow_spec metric) in Em as (Hm & row & -> & Hrow); [|done].
  assert (ip_same w w3) as [Hs1 Hs2] by (destruct Hs, Hm; split; congruence). clear Hs Hm.
  pose proof (delete_call ih_deleteRoute Hq ip_routes _ _ _ (λ code e w' E, proj1 (law_ih_deleteRoute row w3 code e w' E))) as Hc.
  rewrite Hrow in Hc. destruct (callWin32 _ _ w3) as [o w4] eqn:Ec.
  apply (callWin32_frame _ ip_addresses) in Ec; [|intros code e w5 E; by apply law_ih_deleteRoute in E as [_ ?]].
  rewrite Hs2 in Hc. rewrite Hs1 in Ec. unfold route_removed, has_route. destruct o as [[]|e].
  - intros [= <- <-]. rewrite Hc. split; [|done]. intros y. rewrite elem_of_difference, elem_of_singleton. split.
    + intros (Hy & Hk & Hne). split; [done|]. by intros ->.
    + intros [[Hy Hk] Hne]. split_and!; try done. intros E. by apply (route_id_inj metric) in E.
  - destruct Hc as [Hc Hex]. destruct (isMissing e); [|intros [= <- <-]; done]. intros [= <- <-]. specialize (Hex eq_refl). rewrite Hc.
    split; [|done]. intros b. split; [|by intros [? _]]. intros [Hb Hk]. split; [done|]. intros ->. done.
Qed.
End Helper.

(** ** Claims *)


(** A success with a last error is reported as a failure, although the address was
    added. *)
Lemma noisy_success {W} `{IPTables W} ctx a (w : W) r w' err : addr_ok (na_IP a) →
  (∀ row w, ∃ w', ih_createUnicast row w = ((0, Some err), w')) → already_exists err = false → checkContext ctx = None →
  validateAddress a = None → (∀ names w, ∃ w', ih_find names w = (Ok tt, w')) →
  EnsureAddress ctx a w = (r, w') → r = Err (EWrap err) ∧ has_address w' a.
Proof.
  intros Ha Hnoisy Hex Hctx Hv Hfind. assert (address_ok a) as Hok by done. unfold EnsureAddress. rewrite bind_check, Hctx, bind_check, Hv.
  unfold bind, find. destruct (Hfind ["InitializeUnicastIpAddressEntry"; "CreateUnicastIpAddressEntry"; "DeleteUnicastIpAddressEntry"] w) as [w1 ->].
  destruct (ih_initializeUnicast zero_unicast w1) as [row w2]. destruct (address_shape a Hok) as (v & Ea & _).
  destruct (setRawAddress (na_IP a) 0) as [raw|] eqn:Er; [|by rewrite Ea in Er]. unfold callWin32.
  destruct (Hnoisy (set_unicast row a raw) w2) as [w3 E]. rewrite E. cbn [negb Z.eqb]. rewrite Hex. intros [= <- <-]. split; [done|].
  apply law_ih_createUnicast in E as [[(_ & _ & E)|[([?|?] & _)|(? & _)]] _]; [|lia..]. split; [done|]. rewrite E, (unicast_key_set row a raw Hok Er).
  set_solver.
Qed.

(** ** Tables in memory *)
Module HelperDemo.
Record tables := { tt_addresses : gset (list Z * Z); tt_routes : gset (list Z * Z * Z * list Z) }.
Definition demo_create {K} `{Countable K} (key : K) (l : gset K) : Z * gset K :=
  if bool_decide (key ∈ l) then (5010, l) else (0, {[key]} ∪ l).
Definition demo_delete {K} `{Countable K} (key : K) (l : gset K) : Z * gset K :=
  if bool_decide (key ∈ l) then (0, l ∖ {[key]}) else (1168, l).
Definition on_addresses (f : gset (list Z * Z) → Z * gset (list Z * Z)) (w : tables) : (Z * option error) * tables :=
  ((f (tt_addresses w)).1, None, {| tt_addresses := (f (tt_addresses w)).2; tt_routes := tt_routes w |}).
Definition on_routes (f : gset (list Z * Z * Z * list Z) → Z * gset (list Z * Z * Z * list Z)) (w : tables) : (Z * option error) * tables :=
  ((f (tt_routes w)).1, None, {| tt_addresses := tt_addresses w; tt_routes := (f (tt_routes w)).2 |}).

#[export] Instance demo_api : IPHelperAPI tables := {
  ih_find names w := (Ok tt, w);
  ih_initializeUnicast row w := (row, w);
  ih_createUnicast row := on_addresses (demo_create (unicast_key row));
  ih_deleteUnicast row := on_addresses (demo_delete (unicast_key row));
  ih_initializeRoute row w := (row, w);
  ih_createRoute row := on_routes (demo_create (route_entry row));
  ih_deleteRoute row := on_routes (demo_delete (route_entry row))
}.

Lemma demo_creates {K} `{Countable K} (key : K) l : creates key l (demo_create key l).2 (demo_create key l).1.
Proof. unfold demo_create, creates. case_bool_decide; [by right; left; auto|by left]. Qed.
Lemma demo_deletes {K} `{Countable K} (key : K) l : deletes key l (demo_delete key l).2 (demo_delete key l).1.
Proof. unfold demo_delete, deletes. case_bool_decide; [by left|by right; left; auto]. Qed.

#[export] Instance demo_tables : IPTables tables.
Proof.
  refine {| ip_addresses := tt_addresses; ip_routes := tt_routes |}; cbn; try (by intros; simplify_eq).
  - intros row w code e w' [= <- <- <-]. split; [apply demo_creates|done].
  - intros row w code e w' [= <- <- <-]. split; [apply demo_deletes|done].
  - intros row w code e w' [= <- <- <-]. split; [apply demo_creates|done].
  - intros row w code e w' [= <- <- <-]. split; [apply demo_deletes|done].
Defined.

Definition demo_address : Address := {| na_IP := Addr4 (10 * 2 ^ 24 + 1); na_PrefixLength := 32; na_InterfaceLUID := 7 |}.
Definition demo_direct : Route :=
  {| rt_Destination := PrefixFrom (Addr4 (10 * 2 ^ 24 + 2)) 32; rt_InterfaceLUID := 7; rt_NextHop := AddrZero; rt_Metric := 0 |}.
Definition empty_tables : tables := {| tt_addresses := ∅; tt_routes := ∅ |}.

Lemma demo_plain : route_plain 0 demo_direct.
Proof.
  split; [|done]. split; [by vm_compute|]. split_and!; try done; cbn -[Z.pow]; intros v [= <-]; done.
Qed.

End HelperDemo.
