(* ===== verification/Vpnctl.v ===== *)
(** * The command line client

    [cmd/vpnctl]: the commands, their options, and what is done for each kind of
    command.  The service's pipe, the control client, and the output are classes
    of operations on an arbitrary system.  Errors that are only a text are
    [EForeign 0]. *)

From Stdlib Require Import Ascii.
From S2P Require Import Prelude GoStd Json Model Handler Wire Ipc IpcCodec Client RoomURL.

Open Scope Z_scope.

Inductive commandKind := serviceCommand | controlCommand | localCommand.
#[global] Instance commandKind_eq_dec : EqDecision commandKind.
Proof. solve_decision. Defined.

Definition no_request : Request :=
  {| ipq_Type := ""; ipq_Invite := ""; ipq_DisplayName := ""; ipq_ControlURL := ""; ipq_NetworkID := "" |}.
Record command := {
  co_Kind : commandKind; co_Service : Request; co_NetworkName : string; co_Pool : string; co_NetworkID : string;
  co_Expires : string; co_ControlURL : string; co_RoomCreate : bool; co_RoomEndpoint : bool
}.
Definition service_command (request : Request) (url : string) : command := {|
  co_Kind := serviceCommand; co_Service := request; co_NetworkName := ""; co_Pool := ""; co_NetworkID := ""; co_Expires := "";
  co_ControlURL := url; co_RoomCreate := false; co_RoomEndpoint := false
|}.

Definition usage {A} : result A := Err (EForeign 0).

(** ** Options *)
Fixpoint options_loop (allowed : list string) (values : gmap string string) (args : list string) : result (gmap string string) :=
  match args with
  | [] => Ok values
  | name :: rest =>
    if negb (HasPrefix name "--") then usage
    else if negb (bool_decide (name ∈ allowed)) then usage
    else if bool_decide (is_Some (values !! name)) then usage
    else match rest with
    | [] => usage
    | value :: rest => if HasPrefix value "--" || blank value then usage else options_loop allowed (<[name := value]> values) rest
    end
  end.

Definition value_of (values : gmap string string) (name : string) : string := default "" (values !! name).

(** No required options means all the allowed ones. *)
Definition parseOptions (args allowed required : list string) : result (gmap string string) :=
  values ← options_loop allowed ∅ args;
  let required := match required with [] => allowed | _ => required end in
  if forallb (λ name, bool_decide (name ∈ allowed) && negb (blank (value_of values name))) required then Ok values else usage.

(** ** Commands *)
Definition checked (request : Request) (url : string) : result command :=
  match MarshalRequest request with Ok _ => Ok (service_command request url) | Err err => Err err end.

Definition parse_member (type : string) (args : list string) : result command :=
  values ← parseOptions args ["--network"] [];
  checked {| ipq_Type := type; ipq_Invite := ""; ipq_DisplayName := ""; ipq_ControlURL := "";
             ipq_NetworkID := value_of values "--network" |} "".

Definition parse_room (args : list string) : result command :=
  match args with
  | [] => usage
  | what :: rest =>
    if bool_decide (what = "create") then
      values ← parseOptions rest ["--name"; "--pool"] ["--name"; "--pool"];
      Ok {| co_Kind := controlCommand; co_Service := no_request; co_NetworkName := value_of values "--name";
            co_Pool := value_of values "--pool"; co_NetworkID := ""; co_Expires := ""; co_ControlURL := ""; co_RoomCreate := true;
            co_RoomEndpoint := false |}
    else if bool_decide (what = "endpoint") then
      values ← parseOptions rest ["--host-ipv6"] ["--host-ipv6"];
      url ← ControlURL (value_of values "--host-ipv6");
      Ok {| co_Kind := localCommand; co_Service := no_request; co_NetworkName := ""; co_Pool := ""; co_NetworkID := "";
            co_Expires := ""; co_ControlURL := url; co_RoomCreate := false; co_RoomEndpoint := true |}
    else if bool_decide (what = "join") then
      values ← parseOptions rest ["--host-ipv6"; "--name"] ["--host-ipv6"; "--name"];
      url ← ControlURL (value_of values "--host-ipv6");
      checked {| ipq_Type := CommandJoinRoom; ipq_Invite := ""; ipq_DisplayName := value_of values "--name"; ipq_ControlURL := url;
                 ipq_NetworkID := "" |} url
    else if bool_decide (what = "members") then
      match rest with
      | [] => Ok (service_command {| ipq_Type := CommandRoomMembers; ipq_Invite := ""; ipq_DisplayName := ""; ipq_ControlURL := "";
                                     ipq_NetworkID := "" |} "")
      | _ => usage
      end
    else usage
  end.

Definition parseCommand (args : list string) : result command :=
  match args with
  | [] => usage
  | name :: rest =>
    if bool_decide (name = "status") then
      match rest with
      | [] => Ok (service_command {| ipq_Type := CommandStatus; ipq_Invite := ""; ipq_DisplayName := ""; ipq_ControlURL := "";
                                     ipq_NetworkID := "" |} "")
      | _ => usage
      end
    else if bool_decide (name = "join") then
      values ← parseOptions rest ["--invite"; "--name"] [];
      checked {| ipq_Type := CommandJoin; ipq_Invite := value_of values "--invite"; ipq_DisplayName := value_of values "--name";
                 ipq_ControlURL := ""; ipq_NetworkID := "" |} ""
    else if bool_decide (name = "leave") then parse_member CommandLeave rest
    else if bool_decide (name = "connect") then parse_member CommandConnect rest
    else if bool_decide (name = "disconnect") then parse_member CommandDisconnect rest
    else if bool_decide (name = "network") then
      match rest with
      | what :: rest =>
        if negb (bool_decide (what = "create")) then usage
        else
          values ← parseOptions rest ["--name"; "--pool"; "--id"] ["--name"; "--pool"];
          Ok {| co_Kind := controlCommand; co_Service := no_request; co_NetworkName := value_of values "--name";
                co_Pool := value_of values "--pool"; co_NetworkID := value_of values "--id"; co_Expires := ""; co_ControlURL := "";
                co_RoomCreate := false; co_RoomEndpoint := false |}
      | [] => usage
      end
    else if bool_decide (name = "invite") then
      match rest with
      | what :: rest =>
        if negb (bool_decide (what = "create")) then usage
        else
          values ← parseOptions rest ["--network"; "--expires"] [];
          Ok {| co_Kind := controlCommand; co_Service := no_request; co_NetworkName := ""; co_Pool := "";
                co_NetworkID := value_of values "--network"; co_Expires := value_of values "--expires"; co_ControlURL := "";
                co_RoomCreate := false; co_RoomEndpoint := false |}
      | [] => usage
      end
    else if bool_decide (name = "room") then parse_room rest
    else usage
  end.

Definition parseArgs (args : list string) : result Request :=
  match parseCommand args with
  | Err err => Err err
  | Ok parsed => if bool_decide (co_Kind parsed = serviceCommand) then Ok (co_Service parsed) else Err ErrControlCommand
  end.

(** ** Running *)
Class Console (W : Type) := { cn_Write : list ascii → M W unit }.
Class ServicePipe (W : Type) := { sp_Call : Request → M W Response }.
Class controlAdminClient (W : Type) := {
  ca_CreateNetworkWithID : Context → string → string → string → string → M W Network;
  ca_CreateNetwork : Context → string → string → string → M W Network;
  ca_CreateRoom : Context → string → string → string → M W Network;
  ca_CreateInvite : Context → string → string → string → M W inviteResponse
}.

Definition newline : list ascii := ["010"%char].

Section Run.
Context {W : Type} `{Console W}.

Definition writeJSONOutput (value : option json) : M W unit :=
  match value with Some j => cn_Write (print j ++ newline) | None => throw (EForeign 0) end.
Definition writeNetworkOutput (network : Network) : M W unit :=
  writeJSONOutput (encode_object
    [("id", to_json c_string (nw_ID network)); ("name", to_json c_string (nw_Name network));
     ("ipv4_pool", to_json c_string (nw_IPv4Pool network)); ("owner_id", to_json c_string (nw_OwnerID network));
     ("config_version", to_json c_int64 (nw_ConfigVersion network))]).
Definition writeInviteOutput (lenient : string → option Time) (invite : inviteResponse) : M W unit :=
  writeJSONOutput (to_json (c_invite lenient) invite).
Definition writeRoomEndpointOutput (controlURL : string) : M W unit :=
  writeJSONOutput (encode_object [("control_url", to_json c_string controlURL)]).

Definition runServiceRequest `{ServicePipe W} (request : Request) : M W unit :=
  let! response := sp_Call request in
  let! encoded := lift (MarshalResponse response) in
  cn_Write (encoded ++ newline);;
  if ipr_OK response then ret tt else throw (EForeign 0).

Definition run `{ServicePipe W} (args : list string) : M W unit :=
  let! request := lift (parseArgs args) in runServiceRequest request.

Definition runLocalCommand (parsed : command) : M W unit :=
  if negb (bool_decide (co_Kind parsed = localCommand)) || negb (co_RoomEndpoint parsed) || bool_decide (co_ControlURL parsed = "")
  then throw (EForeign 0)
  else writeRoomEndpointOutput (co_ControlURL parsed).

Definition runControlCommand `{controlAdminClient W} (lenient : string → option Time) (ctx : Context) (parsed : command) : M W unit :=
  if negb (bool_decide (co_Kind parsed = controlCommand)) then throw ErrControlCommand
  else if co_RoomCreate parsed then
    let! network := ca_CreateRoom ctx (co_NetworkName parsed) (co_Pool parsed) "" in writeNetworkOutput network
  else if negb (bool_decide (co_NetworkName parsed = "")) then
    let! network :=
      if negb (bool_decide (co_NetworkID parsed = ""))
      then ca_CreateNetworkWithID ctx (co_NetworkName parsed) (co_Pool parsed) (co_NetworkID parsed) ""
      else ca_CreateNetwork ctx (co_NetworkName parsed) (co_Pool parsed) "" in
    writeNetworkOutput network
  else
    let! invite := ca_CreateInvite ctx (co_NetworkID parsed) (co_Expires parsed) "" in writeInviteOutput lenient invite.
End Run.
