(* ===== verification/VpnctlThm.v ===== *)
(** * The command line client: properties *)

From Stdlib Require Import Ascii.
From S2P Require Import Prelude GoStd NetIP NetIP6 Json TimeFmt Model Handler Wire Ipc IpcCodec IpcThm Client RoomURL Vpnctl.

Open Scope Z_scope.

(** ** Options as pairs *)
Definition flat (opts : list (string * string)) : list string := opts ≫= λ o, [o.1; o.2].
Definition value_ok (v : string) : Prop := HasPrefix v "--" = false ∧ blank v = false.
Definition option_ok (allowed : list string) (o : string * string) : Prop :=
  HasPrefix o.1 "--" = true ∧ o.1 ∈ allowed ∧ value_ok o.2.

Lemma options_loop_spec allowed args values v :
  options_loop allowed values args = Ok v ↔
  ∃ opts, args = flat opts ∧ Forall (option_ok allowed) opts ∧ NoDup opts.*1 ∧ Forall (λ n, values !! n = None) opts.*1 ∧
    v = list_to_map opts ∪ values.
Proof.
  revert values. induction args as [args IH] using (well_founded_induction (well_founded_ltof _ (@length string))). intros values.
  destruct args as [|name rest].
  { cbn. split; [intros [= <-]; exists []; split_and!; try done; [apply NoDup_nil_2|by rewrite list_to_map_nil, (left_id_L ∅ (∪))]|].
    intros ([|[n x] opts] & E & _ & _ & _ & ->); [by rewrite list_to_map_nil, (left_id_L ∅ (∪))|done]. }
  cbn [options_loop].
  assert (∀ opts, name :: rest = flat opts → ∃ x opts', opts = (name, x) :: opts' ∧ rest = x :: flat opts') as Hflat.
  { intros [|[n x] opts]; [done|]. cbn. intros [= -> ->]. by eexists _, _. }
  destruct (HasPrefix name "--") eqn:Ep; cbn [negb].
  2:{ split; [done|]. intros (opts & E & Hok & _). apply Hflat in E as (x & opts' & -> & _). apply Forall_cons in Hok as [[? _] _]. cbn [fst] in *. congruence. }
  case_bool_decide as Ha; cbn [negb].
  2:{ split; [done|]. intros (opts & E & Hok & _). apply Hflat in E as (x & opts' & -> & _). by apply Forall_cons in Hok as [(_ & ? & _) _]. }
  case_bool_decide as Hs.
  { split; [done|]. intros (opts & E & _ & _ & Hn & _). apply Hflat in E as (x & opts' & -> & _). apply Forall_cons in Hn as [Hn _].
    cbn [fst] in Hn. rewrite Hn in Hs. by destruct Hs. }
  apply eq_None_not_Some in Hs. destruct rest as [|x rest].
  { split; [done|]. intros (opts & E & _). by apply Hflat in E as (? & ? & _ & ?). }
  destruct (HasPrefix x "--" || blank x) eqn:Ev.
  { split; [done|]. intros (opts & E & Hok & _). apply Hflat in E as (x' & opts' & -> & [= <- _]).
    apply Forall_cons in Hok as [(_ & _ & H1 & H2) _]. cbn [snd] in *. by rewrite H1, H2 in Ev. }
  apply orb_false_iff in Ev as [Ev1 Ev2]. rewrite IH by (unfold ltof; cbn; lia). split.
  - intros (opts & -> & Hok & Hnd & Hn & ->). exists ((name, x) :: opts). rewrite fmap_cons. cbn [fst].
    assert (name ∉ opts.*1) as Hnot.
    { intros Hin. rewrite Forall_forall in Hn. specialize (Hn name Hin). by rewrite lookup_insert_eq in Hn. }
    split_and!; [done|by constructor|by constructor| |].
    + constructor; [done|]. eapply Forall_impl; [exact Hn|]. cbn beta. by intros n [? _]%lookup_insert_None.
    + rewrite list_to_map_cons, <- insert_union_l, insert_union_r; [done|]. by apply not_elem_of_list_to_map_1.
  - intros (opts & E & Hok & Hnd & Hn & ->). apply Hflat in E as (x' & opts' & -> & [= <- ->]). rewrite fmap_cons in Hnd, Hn. cbn [fst] in Hnd, Hn.
    apply NoDup_cons in Hnd as [Hnot Hnd]. apply Forall_cons in Hok as [_ Hok]. apply Forall_cons in Hn as [_ Hn]. exists opts'. split_and!; try done.
    + rewrite Forall_forall in Hn |- *. intros n Hin. rewrite lookup_insert_ne by (by intros ->). by apply Hn.
    + rewrite list_to_map_cons, <- insert_union_l, insert_union_r; [done|]. by apply not_elem_of_list_to_map_1.
Qed.

(** All of the allowed options are required. *)
Lemma parseOptions_spec allowed required args v : NoDup allowed → Forall (λ n, HasPrefix n "--" = true) allowed → required = [] ∨ required = allowed →
  parseOptions args allowed required = Ok v ↔
  ∃ opts, args = flat opts ∧ opts.*1 ≡ₚ allowed ∧ Forall value_ok opts.*2 ∧ v = list_to_map opts.
Proof.
  intros Hnd Hp Hreq. unfold parseOptions.
  assert (match required with [] => allowed | _ => required end = allowed) as -> by (destruct Hreq as [->| ->]; [done|by destruct allowed]).
  assert (∀ opts, Forall (option_ok allowed) opts ↔ opts.*1 ⊆ allowed ∧ Forall value_ok opts.*2) as Hopts.
  { intros opts. rewrite Forall_fmap. rewrite !Forall_forall in *. split.
    - intros Ho. split; [|intros o Hin; by apply Ho]. intros n (o & -> & Hin)%list_elem_of_fmap. by apply Ho.
    - intros [Hs Hv] o Hin. split_and!; [apply Hp|..]; try (by apply Hs, list_elem_of_fmap_2). by apply Hv. }
  assert (∀ opts : list (string * string), NoDup opts.*1 → ∀ n x, (n, x) ∈ opts → (list_to_map opts : gmap string string) !! n = Some x) as Hlook
    by (intros; by apply elem_of_list_to_map_1).
  split.
  - destruct (options_loop allowed ∅ args) as [values|e] eqn:E; cbn [mbind result_bind]; [|done].
    apply options_loop_spec in E as (opts & -> & Hok & Hn & _ & Hval). rewrite (right_id_L ∅ (∪)) in Hval. subst values.
    apply Hopts in Hok as [Hs Hv]. destruct (forallb _ allowed) eqn:Ef; [|done]. intros [= <-]. exists opts. split_and!; try done.
    apply list.NoDup_Permutation; [done..|]. intros n. split; [apply Hs|]. intros Hin. rewrite forallb_forall in Ef.
    specialize (Ef n (proj1 (list_elem_of_In _ _) Hin)). apply andb_true_iff in Ef as [_ Ef]. unfold value_of in Ef.
    destruct (list_to_map opts !! n) as [x|] eqn:El; [|done]. apply elem_of_list_to_map_2 in El. apply list_elem_of_fmap. by exists (n, x).
  - intros (opts & -> & Hperm & Hv & ->). assert (NoDup opts.*1) as Hn by (by rewrite Hperm).
    assert (options_loop allowed ∅ (flat opts) = Ok (list_to_map opts)) as ->.
    { apply options_loop_spec. exists opts. split_and!; try done; [apply Hopts; split; [by rewrite Hperm|done]|by apply Forall_true|].
      by rewrite (right_id_L ∅ (∪)). }
    cbn [mbind result_bind]. replace (forallb _ allowed) with true; [done|]. symmetry. apply forallb_forall. intros n Hin%list_elem_of_In.
    rewrite <- Hperm in Hin. apply list_elem_of_fmap in Hin as ([n' x] & -> & Hin). cbn [fst]. apply andb_true_iff. split.
    + apply bool_decide_eq_true_2. rewrite <- Hperm. by apply (list_elem_of_fmap_2 fst _ (n', x)).
    + unfold value_of. rewrite (Hlook opts Hn n' x Hin). rewrite Forall_fmap, Forall_forall in Hv. destruct (Hv _ Hin) as [_ Hb]. cbn in Hb |- *. by rewrite Hb.
Qed.

Ltac as_map := rewrite ?list_to_map_cons, ?list_to_map_nil, ?insert_empty.

Lemma parse_one a args v : HasPrefix a "--" = true →
  parseOptions args [a] [] = Ok v ↔ ∃ x, args = [a; x] ∧ value_ok x ∧ v = {[a := x]}.
Proof.
  intros Ha. rewrite parseOptions_spec; [|apply NoDup_singleton|by constructor|by left]. split.
  - intros (opts & -> & Hp & Hv & ->). apply Permutation_singleton_r in Hp. destruct opts as [|[n x] [|]]; try done. injection Hp as ->.
    rewrite Forall_fmap in Hv. apply Forall_cons in Hv as [Hv _]. exists x. as_map. done.
  - intros (x & -> & Hx & ->). exists [(a, x)]. as_map. split_and!; [done|done|by repeat constructor; apply Hx|done].
Qed.

Lemma parse_two a b required args v : a ≠ b → HasPrefix a "--" = true → HasPrefix b "--" = true → required = [] ∨ required = [a; b] →
  parseOptions args [a; b] required = Ok v ↔
  ∃ x y, (args = [a; x; b; y] ∨ args = [b; y; a; x]) ∧ value_ok x ∧ value_ok y ∧ v = <[a := x]> {[b := y]}.
Proof.
  intros Hab Ha Hb Hr. rewrite parseOptions_spec; [| |by repeat constructor|done].
  2:{ apply NoDup_cons. split; [by intros ->%list_elem_of_singleton|apply NoDup_singleton]. }
  split.
  - intros (opts & -> & Hp & Hv & ->). rewrite Forall_fmap in Hv. symmetry in Hp. apply Permutation_length_2_inv in Hp as [Hp|Hp];
      destruct opts as [|[n x] [|[n' y] [|]]]; try done; injection Hp as -> ->; apply Forall_cons in Hv as [Hx [Hy _]%Forall_cons].
    + exists x, y. as_map. split; [by left|]. done.
    + exists y, x. split; [by right|]. as_map. split_and!; try done. rewrite <- !insert_empty. apply insert_insert_ne. congruence.
  - intros (x & y & [->| ->] & Hx & Hy & ->).
    + exists [(a, x); (b, y)]. as_map. split_and!; [done|done|by repeat constructor; (apply Hx || apply Hy)|done].
    + exists [(b, y); (a, x)]. as_map. split_and!; [done|apply Permutation_swap|by repeat constructor; (apply Hx || apply Hy)|]. rewrite <- !insert_empty. by apply insert_insert_ne.
Qed.

(** ** The grammar of requests *)
Definition simple (type : string) : Request :=
  {| ipq_Type := type; ipq_Invite := ""; ipq_DisplayName := ""; ipq_ControlURL := ""; ipq_NetworkID := "" |}.

Inductive requested : list string → Request → Prop :=
  | requested_status : requested ["status"] (simple CommandStatus)
  | requested_members : requested ["room"; "members"] (simple CommandRoomMembers)
  | requested_join args invite name : args = ["--invite"; invite; "--name"; name] ∨ args = ["--name"; name; "--invite"; invite] →
      value_ok invite → value_ok name →
      requested ("join" :: args)
        {| ipq_Type := CommandJoin; ipq_Invite := invite; ipq_DisplayName := name; ipq_ControlURL := ""; ipq_NetworkID := "" |}
  | requested_room args host url name : args = ["--host-ipv6"; host; "--name"; name] ∨ args = ["--name"; name; "--host-ipv6"; host] →
      value_ok host → value_ok name → ControlURL host = Ok url →
      requested ("room" :: "join" :: args)
        {| ipq_Type := CommandJoinRoom; ipq_Invite := ""; ipq_DisplayName := name; ipq_ControlURL := url; ipq_NetworkID := "" |}
  | requested_member verb type id : (verb, type) ∈ [("leave", CommandLeave); ("connect", CommandConnect); ("disconnect", CommandDisconnect)] →
      value_ok id →
      requested [verb; "--network"; id]
        {| ipq_Type := type; ipq_Invite := ""; ipq_DisplayName := ""; ipq_ControlURL := ""; ipq_NetworkID := id |}.

Lemma url_facts host url : ControlURL host = Ok url → blank url = false ∧ utf8 url = true.
Proof.
  intros (v & _ & _ & _ & -> & _)%ControlURL_spec. split.
  - unfold blank. rewrite room_trimmed. apply bool_decide_eq_false_2. intros E. apply (f_equal bytes) in E. by rewrite room_text_bytes in E.
  - unfold utf8, clean_string. rewrite sanitize_ascii; [by apply bool_decide_eq_true_2, of_bytes_bytes|]. rewrite room_text_bytes.
    apply Forall_app. split; [by repeat constructor|]. apply Forall_app. split; [by repeat constructor|].
    eapply Forall_impl; [apply (room_host_all (λ c, code c <? 128)); reflexivity|]. intros c Hc%Z.ltb_lt. done.
Qed.

(** What the grammar asks for is a request that the protocol accepts. *)
Lemma requested_valid args r : requested args r → validateRequest r = true ∧ arguments_only r = true.
Proof.
  intros [| |? invite name _ [_ H1] [_ H2]|? host url name _ _ [_ H2] [H1 _]%url_facts|verb type id Hv [_ H1]]; try done;
    unfold validateRequest, arguments_only; cbn [ipq_Type ipq_Invite ipq_DisplayName ipq_ControlURL ipq_NetworkID]; rewrite ?H1, ?H2; try done.
  rewrite !elem_of_cons, elem_of_nil in Hv. by destruct Hv as [[= -> ->]|[[= -> ->]|[[= -> ->]|[]]]].
Qed.
Lemma checked_valid r url : validateRequest r = true → checked r url = Ok (service_command r url).
Proof. intros Hr. unfold checked, MarshalRequest. by rewrite Hr. Qed.
Lemma checked_Ok r url c : checked r url = Ok c → c = service_command r url.
Proof. unfold checked. destruct (MarshalRequest r); [|done]. by intros [= <-]. Qed.

Ltac split_options E :=
  match type of E with
  | context [parseOptions ?args ?allowed ?required] =>
    let values := fresh "values" in let Eo := fresh "Eo" in
    destruct (parseOptions args allowed required) as [values|?] eqn:Eo; cbn [mbind result_bind] in E; [|done]
  end.
Ltac next_word E := lazymatch type of E with context [bool_decide ?P] => destruct (bool_decide_reflect P); cbn [negb] in E end.

Lemma parse_member_requested verb type args c :
  (verb, type) ∈ [("leave", CommandLeave); ("connect", CommandConnect); ("disconnect", CommandDisconnect)] →
  parse_member type args = Ok c → requested (verb :: args) (co_Service c).
Proof.
  intros Hv. unfold parse_member. intros E. split_options E. apply parse_one in Eo as (x & -> & Hx & ->); [|done].
  apply checked_Ok in E as ->. unfold value_of. rewrite lookup_singleton_eq. by apply requested_member.
Qed.

Lemma parse_room_requested args c : parse_room args = Ok c → co_Kind c = serviceCommand → requested ("room" :: args) (co_Service c).
Proof.
  unfold parse_room. destruct args as [|what rest]; [done|]. intros E.
  next_word E. { split_options E. injection E as <-. done. }
  next_word E. { split_options E. destruct (ControlURL _); [|done]. injection E as <-. done. }
  next_word E.
  { subst what. split_options E. destruct (ControlURL _) as [url|] eqn:Eu; [|done]. cbn [mbind result_bind] in E. apply checked_Ok in E as ->.
    apply parse_two in Eo as (x & y & Hargs & Hx & Hy & ->); [|done|done|done|by right].
    unfold value_of in *. rewrite lookup_insert_eq in Eu. rewrite lookup_insert_ne, lookup_singleton_eq by done. intros _. by eapply requested_room. }
  next_word E; [|done]. subst what. destruct rest; [|done]. injection E as <-. intros _. apply requested_members.
Qed.

Lemma parseArgs_requested args r : parseArgs args = Ok r → requested args r.
Proof.
  unfold parseArgs. destruct (parseCommand args) as [c|] eqn:E; [|done]. case_bool_decide as Hk; [|done]. intros [= <-].
  unfold parseCommand in E. destruct args as [|name rest]; [done|].
  next_word E. { subst name. destruct rest; [|done]. injection E as <-. apply requested_status. }
  next_word E.
  { subst name. split_options E. apply checked_Ok in E as ->. apply parse_two in Eo as (x & y & Hargs & Hx & Hy & ->); [|done|done|done|by left].
    unfold value_of. rewrite lookup_insert_eq, lookup_insert_ne, lookup_singleton_eq by done. by apply requested_join. }
  next_word E. { subst name. eapply parse_member_requested; [|done]. by left. }
  next_word E. { subst name. eapply parse_member_requested; [|done]. by right; left. }
  next_word E. { subst name. eapply parse_member_requested; [|done]. by right; right; left. }
  next_word E. { destruct rest as [|what rest]; [done|]. next_word E; [|done]. split_options E. injection E as <-. done. }
  next_word E. { destruct rest as [|what rest]; [done|]. next_word E; [|done]. split_options E. injection E as <-. done. }
  next_word E; [|done]. subst name. by apply parse_room_requested.
Qed.

Lemma requested_parseArgs args r : requested args r → parseArgs args = Ok r.
Proof.
  intros Hr. pose proof (requested_valid args r Hr) as [Hv _]. unfold parseArgs. destruct Hr as [| |args invite name Ha Hi Hn|args host url name Ha Hh Hn Hu|verb type id Ht Hi].
  - done.
  - done.
  - assert (parseOptions args ["--invite"; "--name"] [] = Ok (<["--invite" := invite]> {["--name" := name]})) as E
      by (apply parse_two; eauto 8). unfold parseCommand. cbn [bool_decide]. rewrite bool_decide_eq_false_2, bool_decide_eq_true_2 by done. rewrite E.
    cbn [mbind result_bind]. unfold value_of. rewrite lookup_insert_eq, lookup_insert_ne, lookup_singleton_eq by done. cbn [from_option id].
    by rewrite checked_valid.
  - assert (parseOptions args ["--host-ipv6"; "--name"] ["--host-ipv6"; "--name"] = Ok (<["--host-ipv6" := host]> {["--name" := name]})) as E
      by (apply parse_two; eauto 8).
    change (parseCommand ("room" :: "join" :: args)) with (parse_room ("join" :: args)). unfold parse_room.
    rewrite !bool_decide_eq_false_2, bool_decide_eq_true_2 by done. rewrite E. cbn [mbind result_bind]. unfold value_of.
    rewrite lookup_insert_eq, lookup_insert_ne, lookup_singleton_eq by done. cbn [from_option id]. rewrite Hu. cbn [mbind result_bind]. by rewrite checked_valid.
  - assert (parseOptions ["--network"; id] ["--network"] [] = Ok {["--network" := id]}) as E by (apply parse_one; eauto).
    assert (parse_member type ["--network"; id] = Ok (service_command {| ipq_Type := type; ipq_Invite := ""; ipq_DisplayName := "";
      ipq_ControlURL := ""; ipq_NetworkID := id |} "")) as Em.
    { unfold parse_member. rewrite E. cbn [mbind result_bind]. unfold value_of. rewrite lookup_singleton_eq. by rewrite checked_valid. }
    rewrite !elem_of_cons, elem_of_nil in Ht. destruct Ht as [[= -> ->]|[[= -> ->]|[[= -> ->]|[]]]]; unfold parseCommand;
      rewrite ?bool_decide_eq_false_2 by done; rewrite ?bool_decide_eq_true_2 by done; by rewrite Em.
Qed.

(** C30: the command line asks the service for exactly what the grammar says: the
    commands with their options in any order, each once, none left out, no value
    empty or like an option.  A request that it accepts is encoded, and the service
    decodes it to the same request. *)
Theorem command_line args : Forall (λ a, utf8 a = true) args → ∀ r,
  (parseArgs args = Ok r ↔ requested args r) ∧
  (parseArgs args = Ok r → ∃ data, MarshalRequest r = Ok data ∧ (Z.of_nat (length data) ≤ MaxMessageSize → DecodeRequest data = Ok r)).
Proof.
  intros Hu r. assert (parseArgs args = Ok r ↔ requested args r) as Hg by (split; [apply parseArgs_requested|apply requested_parseArgs]).
  split; [done|]. intros Hr%Hg. pose proof (requested_valid args r Hr) as [Hv Ha].
  assert (MarshalRequest r = Ok (print (JObject (request_fields r)))) as Hm by (unfold MarshalRequest; by rewrite Hv).
  eexists. split; [exact Hm|]. apply DecodeRequest_Marshal; [|done]. unfold canonical_request. rewrite Hv, Ha. rewrite Forall_forall in Hu.
  assert (utf8 "" = true) as H0 by done. assert (∀ host url, ControlURL host = Ok url → utf8 url = true) as Hurl by (intros h u Hh; by destruct (url_facts h u Hh)).
  destruct Hr as [| |? invite name [->| ->]|? host url name [->| ->] _ _ Hc%Hurl|verb type id]; cbn [simple ipq_Type ipq_Invite ipq_DisplayName ipq_ControlURL ipq_NetworkID];
    try done; rewrite ?Hc, ?H0, ?Hu by set_solver; done.
Qed.

Lemma command_line_witness : requested ["join"; "--name"; "laptop"; "--invite"; "abc"]
  {| ipq_Type := CommandJoin; ipq_Invite := "abc"; ipq_DisplayName := "laptop"; ipq_ControlURL := ""; ipq_NetworkID := "" |}.
Proof. apply (command_line ["join"; "--name"; "laptop"; "--invite"; "abc"]); [repeat constructor|vm_compute; reflexivity]. Defined.
