(* ===== verification/Server.v ===== *)
(** * The control server's start-up

    [cmd/control-server]: the configuration from the environment, the choice of the
    repository, and the handler they make.  [time.ParseDuration] and the opening of
    a database are arguments. *)

From Stdlib Require Import Ascii.
From S2P Require Import Prelude GoStd Json Model Repository RepositoryInv RepositoryThm Interface Auth Handler HandlerThm.

Open Scope Z_scope.

Record server_Config := {
  sc_ListenAddress : string; sc_BootstrapToken : string; sc_SessionTTL : Duration; sc_InviteTTL : Duration;
  sc_RepositoryMode : string; sc_DatabaseDSN : string; sc_DatabaseEndpoint : string; sc_DBDSN : string; sc_DBEndpoint : string;
  sc_MaxBodyBytes : Z; sc_RoomMode : bool
}.
Definition defaultListenAddress : string := "127.0.0.1:8080".
Definition defaultMaxBodyBytes : Z := Z.shiftl 1 20.
(** [configError] unwraps to [ErrInvalidConfig]. *)
Definition configError {A} : result A := Err (EWrap server_ErrInvalidConfig).

Definition ParseBool (s : string) : option bool :=
  if bool_decide (s ∈ ["1"; "t"; "T"; "true"; "TRUE"; "True"]) then Some true
  else if bool_decide (s ∈ ["0"; "f"; "F"; "false"; "FALSE"; "False"]) then Some false
  else None.

Section Config.
Variable ParseDuration : string → option Duration.
Variable getenv : string → string.

Fixpoint firstEnv (names : list string) : string :=
  match names with
  | [] => ""
  | name :: names => if bool_decide (getenv name = "") then firstEnv names else getenv name
  end.

Definition parsePositiveDuration (names : list string) : result Duration :=
  let raw := firstEnv names in
  if bool_decide (raw = "") then configError
  else match ParseDuration raw with
  | Some duration => if duration <=? 0 then configError else Ok duration
  | None => configError
  end.

Definition LoadConfigFrom : result server_Config :=
  let listen := firstEnv ["CONTROL_LISTEN_ADDRESS"; "CONTROL_SERVER_LISTEN_ADDRESS"; "LISTEN_ADDRESS"] in
  let token := firstEnv ["CONTROL_BOOTSTRAP_TOKEN"; "CONTROL_SERVER_BOOTSTRAP_TOKEN"; "BOOTSTRAP_TOKEN"] in
  let mode := firstEnv ["CONTROL_REPOSITORY_MODE"; "CONTROL_DB_MODE"; "REPOSITORY_MODE"] in
  let dsn := firstEnv ["CONTROL_DB_DSN"; "CONTROL_SERVER_DB_DSN"; "DB_DSN"; "DATABASE_URL"] in
  let endpoint := firstEnv ["CONTROL_DB_ENDPOINT"; "CONTROL_SERVER_DB_ENDPOINT"; "DB_ENDPOINT"] in
  let listen := if bool_decide (listen = "") then defaultListenAddress else listen in
  let mode := if bool_decide (mode = "") then if negb (blank dsn) then "postgres" else "memory" else mode in
  if negb (bool_decide (mode = "memory")) && negb (bool_decide (mode = "postgres")) then configError
  else
    let raw := TrimSpace (firstEnv ["CONTROL_ROOM_MODE"]) in
    room ← (if bool_decide (raw = "") then Ok false else match ParseBool raw with Some b => Ok b | None => configError end);
    if blank token then configError
    else
      sessionTTL ← parsePositiveDuration ["CONTROL_SESSION_TTL"; "SESSION_TTL"];
      inviteTTL ← parsePositiveDuration ["CONTROL_INVITE_TTL"; "INVITE_TTL"];
      let raw := firstEnv ["CONTROL_MAX_BODY_BYTES"; "MAX_BODY_BYTES"] in
      limit ← (if bool_decide (raw = "") then Ok defaultMaxBodyBytes
               else match ParseInt raw with Some v => if v <=? 0 then configError else Ok v | None => configError end);
      Ok {| sc_ListenAddress := listen; sc_BootstrapToken := token; sc_SessionTTL := sessionTTL; sc_InviteTTL := inviteTTL;
            sc_RepositoryMode := mode; sc_DatabaseDSN := dsn; sc_DatabaseEndpoint := endpoint; sc_DBDSN := dsn;
            sc_DBEndpoint := endpoint; sc_MaxBodyBytes := limit; sc_RoomMode := room |}.
End Config.

(** ** The repository

    [DB] is a database that was opened and answered a ping. *)
Definition openRepository {DB} (open : string → result DB) (config : server_Config) : result (MemoryRepository + DB) :=
  if bool_decide (sc_RepositoryMode config ∈ [""; "memory"]) then Ok (inl NewMemoryRepository)
  else if bool_decide (sc_RepositoryMode config = "postgres") then
    if bool_decide (sc_DatabaseDSN config = "") then Err (EJoin ErrRepositoryUnavailable (EForeign 0))
    else match open (sc_DatabaseDSN config) with
    | Ok database => Ok (inr database)
    | Err err => Err (EJoin ErrRepositoryUnavailable err)
    end
  else Err (EJoin ErrRepositoryUnavailable (EForeign 0)).

(** ** The handler of the server

    The server also answers [/healthz] and sets its timeouts; that part is the
    library's and is left out. *)
Definition server_options (config : server_Config) : HandlerOptions := {|
  ho_BootstrapToken := sc_BootstrapToken config; ho_BootstrapSubject := ""; ho_SessionTTL := sc_SessionTTL config;
  ho_InviteTTL := sc_InviteTTL config; ho_SessionStore := None; ho_MaxBodyBytes := sc_MaxBodyBytes config;
  ho_EnrollmentRecoveryAttempts := 0; ho_RoomMode := sc_RoomMode config; ho_RoomJoinPerIP := 0; ho_RoomJoinGlobal := 0
|}.
Definition newHTTPServer {R} (config : server_Config) (repository : R) : Handler * HState R := NewHandler repository (server_options config).

(** ** Properties *)
Record config_ok (ParseDuration : string → option Duration) (getenv : string → string) (c : server_Config) : Prop := {
  ck_listen : sc_ListenAddress c ≠ "";
  ck_token : blank (sc_BootstrapToken c) = false;
  ck_mode : sc_RepositoryMode c = "memory" ∨ sc_RepositoryMode c = "postgres";
  ck_session : 0 < sc_SessionTTL c ∧ ParseDuration (firstEnv getenv ["CONTROL_SESSION_TTL"; "SESSION_TTL"]) = Some (sc_SessionTTL c);
  ck_invite : 0 < sc_InviteTTL c ∧ ParseDuration (firstEnv getenv ["CONTROL_INVITE_TTL"; "INVITE_TTL"]) = Some (sc_InviteTTL c);
  ck_limit : 0 < sc_MaxBodyBytes c;
  ck_database : firstEnv getenv ["CONTROL_REPOSITORY_MODE"; "CONTROL_DB_MODE"; "REPOSITORY_MODE"] = "" →
    sc_RepositoryMode c = "postgres" → sc_DatabaseDSN c ≠ ""
}.

Lemma parsePositiveDuration_Ok PD getenv names d : parsePositiveDuration PD getenv names = Ok d → 0 < d ∧ PD (firstEnv getenv names) = Some d.
Proof.
  unfold parsePositiveDuration. case_bool_decide; [done|]. destruct (PD _) as [x|]; [|done].
  destruct (Z.leb_spec x 0); [done|]. by intros [= <-].
Qed.

Lemma default_nonempty (s d : string) : d ≠ "" → (if bool_decide (s = "") then d else s) ≠ "".
Proof. by case_bool_decide. Qed.

Lemma LoadConfigFrom_ok PD getenv c : LoadConfigFrom PD getenv = Ok c → config_ok PD getenv c.
Proof.
  unfold LoadConfigFrom, configError. set (mode := firstEnv getenv ["CONTROL_REPOSITORY_MODE"; "CONTROL_DB_MODE"; "REPOSITORY_MODE"]).
  set (dsn := firstEnv getenv ["CONTROL_DB_DSN"; _; _; _]). set (listen := if bool_decide _ then defaultListenAddress else _).
  set (mode' := if bool_decide (mode = "") then _ else _).
  destruct (negb _ && negb _) eqn:Em; [done|]. destruct (if bool_decide (TrimSpace _ = "") then _ else _) as [room|]; [|done].
  cbn [mbind result_bind]. destruct (blank (firstEnv getenv ["CONTROL_BOOTSTRAP_TOKEN"; _; _])) eqn:Et; [done|].
  destruct (parsePositiveDuration PD getenv ["CONTROL_SESSION_TTL"; "SESSION_TTL"]) as [st|] eqn:Es; [|done]. cbn [mbind result_bind].
  destruct (parsePositiveDuration PD getenv ["CONTROL_INVITE_TTL"; "INVITE_TTL"]) as [it|] eqn:Ei; [|done]. cbn [mbind result_bind].
  destruct (if bool_decide (firstEnv getenv ["CONTROL_MAX_BODY_BYTES"; "MAX_BODY_BYTES"] = "") then _ else _) as [limit|] eqn:El; [|done].
  cbn [mbind result_bind]. intros [= <-]. apply parsePositiveDuration_Ok in Es, Ei. split; cbn [sc_ListenAddress sc_BootstrapToken sc_RepositoryMode
    sc_SessionTTL sc_InviteTTL sc_MaxBodyBytes sc_DatabaseDSN]; try done.
  - by apply default_nonempty.
  - rewrite andb_false_iff, !negb_false_iff, !bool_decide_eq_true in Em. done.
  - revert El. clear Em. case_bool_decide; [by intros [= <-]|]. destruct (ParseInt _) as [v|]; [|done]. destruct (Z.leb_spec v 0); [done|]. by intros [= <-].
  - fold mode. intros Hm Hp Hd. unfold mode' in Hp. rewrite bool_decide_eq_true_2 in Hp by done. rewrite Hd in Hp. done.
Qed.

Lemma LoadConfigFrom_Err PD getenv e : LoadConfigFrom PD getenv = Err e → error_is e server_ErrInvalidConfig = true.
Proof.
  unfold LoadConfigFrom, parsePositiveDuration, configError. cbn zeta. intros H.
  repeat (case_match; cbn [mbind result_bind] in *; simplify_eq; try done).
Qed.

