(* ===== verification/Installer.v ===== *)
(** * The installer

    [cmd/ipv6mesh-installer/main_windows.go]: the run of the installer, the
    arguments it hands to the installation scripts, and the wizard that joins and
    connects the device through the local service.  The terminal, the pipe, the
    clock and the host are classes on an arbitrary system; unpacking the payload
    is one of the host's operations, and [join_path] is [filepath.Join]. *)

From Stdlib Require Import Ascii.
From S2P Require Import Prelude GoStd NetURL Ipc.

Open Scope Z_scope.

Record installerOptions := {
  io_controlURL : string; io_invite : string; io_deviceName : string; io_networkID : string; io_installDirectory : string;
  io_dataDirectory : string; io_serviceName : string; io_startService : bool; io_connect : bool; io_keepTemp : bool;
  io_nonInteractive : bool; io_showVersion : bool; io_verifyPayload : bool
}.

(** How reading a line ended. *)
Inductive line_end := LineRead | LineEOF | LineFailed (e : error).

Class Terminal (W : Type) := {
  tm_Print : string → W → W;
  tm_ReadString : W → (string * line_end) * W
}.

(** [pc_Call] is a call of the pipe client in a context with a deadline, [pc_Wait]
    the [select] between the end of this context ([true]) and half a second. *)
Class PipeClient (W : Type) := {
  pc_Now : W → Time;
  pc_Call : Time → Request → M W Response;
  pc_Wait : Time → W → bool * W
}.

Class InstallerHost (W : Type) := {
  ih_isAdministrator : W → bool;
  ih_relaunchElevated : M W unit;
  ih_MkdirTemp : M W string;
  ih_RemoveAll : string → W → W;
  ih_extractPayload : string → M W unit;
  ih_findPowerShell : W → string;
  ih_Run : string → list string → M W unit
}.

Definition errRelaunched : error := EForeign 1.
Definition flag_argument (flag value : string) : list string := if bool_decide (value = "") then [] else [flag; value].

Section Arguments.
Variable join_path : string → string → string.

Definition buildGraphicalArguments (options : installerOptions) (tempDirectory installerVersion : string) : list string :=
  ["-NoLogo"; "-NoProfile"; "-NonInteractive"; "-ExecutionPolicy"; "Bypass"; "-STA"; "-WindowStyle"; "Hidden"; "-File";
   join_path tempDirectory "ui.ps1"; "-PackageDirectory"; tempDirectory; "-Version"; installerVersion]
  ++ flag_argument "-ControlUrl" (io_controlURL options) ++ flag_argument "-Invite" (io_invite options)
  ++ flag_argument "-DeviceName" (io_deviceName options) ++ flag_argument "-Network" (io_networkID options)
  ++ flag_argument "-InstallDirectory" (io_installDirectory options) ++ flag_argument "-DataDirectory" (io_dataDirectory options)
  ++ flag_argument "-ServiceName" (io_serviceName options).

Definition buildInstallArguments (options : installerOptions) (tempDirectory controlURL : string) : list string :=
  ["-NoLogo"; "-NoProfile"; "-NonInteractive"; "-ExecutionPolicy"; "Bypass"; "-File"; join_path tempDirectory "install.ps1";
   "-PackageDirectory"; tempDirectory; "-ControlUrl"; controlURL]
  ++ flag_argument "-InstallDirectory" (io_installDirectory options) ++ flag_argument "-DataDirectory" (io_dataDirectory options)
  ++ flag_argument "-ServiceName" (io_serviceName options) ++ (if io_startService options then ["-StartService"] else []).
End Arguments.

Definition defaultDeviceName (hostname : result string) (getenv : string → string) : string :=
  let environment := TrimSpace (getenv "COMPUTERNAME") in
  let otherwise := if bool_decide (environment = "") then "ipv6mesh-device" else environment in
  match hostname with
  | Ok name => if blank name then otherwise else TrimSpace name
  | Err _ => otherwise
  end.

Section Wizard.
Context {W : Type} `{Terminal W} `{PipeClient W}.

Definition print (s : string) : M W unit := λ w, (Ok tt, tm_Print s w).
Definition line_feed : string := String "010"%char "".
Definition Println (words : list string) : M W unit := print (String.concat " " words ++ line_feed)%string.

Definition read_line : M W string := λ w,
  let '((line, ended), w) := tm_ReadString w in
  match ended with LineFailed e => (Err (EWrap e), w) | _ => (Ok (TrimSpace line), w) end.

Definition promptValue (label value fallback : string) (nonInteractive : bool) : M W string :=
  let value := TrimSpace value in
  if negb (bool_decide (value = "")) then ret value
  else if nonInteractive then throw (EForeign 0)
  else
    print (if bool_decide (fallback = "") then label ++ ": " else label ++ " [" ++ fallback ++ "]: ")%string;;
    let! line := read_line in
    let value := if bool_decide (line = "") then TrimSpace fallback else line in
    if bool_decide (value = "") then throw (EForeign 0) else ret value.

Definition waitForExit (nonInteractive : bool) : M W unit :=
  if nonInteractive then ret tt
  else Println ["Press Enter to close this window."];; λ w, (Ok tt, (tm_ReadString w).2).

Definition resolveControlURL (value : string) : M W string :=
  let value := TrimSpace value in
  let! value := if bool_decide (value = "") then print "Control-plane URL: ";; read_line else ret value in
  match url_Parse value with
  | None => throw (EForeign 0)
  | Some parsed =>
    if bool_decide (u_Host parsed = "") || negb (bool_decide (u_Scheme parsed = "http")) && negb (bool_decide (u_Scheme parsed = "https"))
    then throw (EForeign 0) else ret value
  end.

(** ** Calls of the service

    The loop runs for thirty seconds with pauses of half a second, so at most
    [callRounds] times. *)
Definition callTimeout : Duration := 30 * 1000000000.
Definition callPause : Duration := 500 * 1000000.
Definition callRounds : nat := 61.

Fixpoint call_loop (rounds : nat) (deadline : Time) (request : Request) (w : W) : option (result Response) * W :=
  match rounds with
  | O => (None, w)
  | S rounds =>
    match pc_Call deadline request w with
    | (Ok response, w) => (Some (Ok response), w)
    | (Err _, w) =>
      match pc_Wait deadline w with
      | (true, w) => (Some (Err (EWrap (ESentinel DeadlineExceeded))), w)
      | (false, w) => call_loop rounds deadline request w
      end
    end
  end.

Definition callService (request : Request) : M W Response := λ w,
  match call_loop callRounds (pc_Now w + callTimeout) request w with
  | (Some r, w) => (r, w)
  | (None, w) => (Err (EForeign 0), w)
  end.

(** A call whose failure ends the wizard, as does an answer that is not OK. *)
Definition asked (request : Request) : M W Response :=
  let! response := (λ w, match callService request w with (Err e, w) => (Err (EWrap e), w) | x => x end) in
  if ipr_OK response then ret response else throw (EForeign 0).

Definition status_request : Request := {| ipq_Type := CommandStatus; ipq_Invite := ""; ipq_DisplayName := ""; ipq_ControlURL := ""; ipq_NetworkID := "" |}.
Definition join_request (invite deviceName : string) : Request :=
  {| ipq_Type := CommandJoin; ipq_Invite := invite; ipq_DisplayName := deviceName; ipq_ControlURL := ""; ipq_NetworkID := "" |}.
Definition connect_request (networkID : string) : Request :=
  {| ipq_Type := CommandConnect; ipq_Invite := ""; ipq_DisplayName := ""; ipq_ControlURL := ""; ipq_NetworkID := networkID |}.

Definition existing_network (networkID : string) (status : Status) : M W string :=
  Println ["This device is already joined to network:"; ss_NetworkID status];;
  let networkID := if bool_decide (networkID = "") then ss_NetworkID status else networkID in
  if bool_decide (ss_VirtualIPv4 status = "") then ret networkID
  else Println ["Current virtual IPv4:"; ss_VirtualIPv4 status];; ret networkID.

Definition join_network (options : installerOptions) (deviceDefault : string) : M W string :=
  let! invite := promptValue "One-time invite token" (io_invite options) "" (io_nonInteractive options) in
  let! deviceName := promptValue "Device name" (io_deviceName options) deviceDefault (io_nonInteractive options) in
  Println ["Joining the IPv6Mesh network..."];;
  let! joined := asked (join_request invite deviceName) in
  Println ["Joined network:"; ss_NetworkID (ipr_Status joined)];;
  Println ["Virtual IPv4:"; ss_VirtualIPv4 (ipr_Status joined)];;
  ret (ss_NetworkID (ipr_Status joined)).

Definition connect_network (options : installerOptions) (networkID : string) : M W unit :=
  if bool_decide (networkID = "") then throw (EForeign 0)
  else
    Println ["Connecting the virtual adapter..."];;
    asked (connect_request networkID);;
    let! final := asked status_request in
    Println ["IPv6Mesh is connected."];;
    Println ["Network:"; ss_NetworkID (ipr_Status final)];;
    Println ["Virtual IPv4:"; ss_VirtualIPv4 (ipr_Status final)];;
    Println ["Path:"; ss_PathState (ipr_Status final)];;
    waitForExit (io_nonInteractive options).

Definition runConnectionWizard (options : installerOptions) (deviceDefault : string) : M W unit :=
  let! status := asked status_request in
  let! networkID :=
    if bool_decide (ss_NetworkID (ipr_Status status) = "") then join_network options deviceDefault
    else existing_network (TrimSpace (io_networkID options)) (ipr_Status status) in
  if negb (io_connect options) then
    Println ["Connection step skipped because -connect=false was supplied."];; waitForExit (io_nonInteractive options)
  else connect_network options networkID.
End Wizard.

(** ** The run

    [payload] is what the installer was built with, [version] its version and
    [deviceDefault] the name the host has. *)
Section Run.
Context {W : Type} `{Terminal W} `{PipeClient W} `{InstallerHost W}.
Variable join_path : string → string → string.
Variable payload : list ascii.
Variable version deviceDefault : string.

(** The deferred removal of the temporary directory. *)
Definition leaving {A} (preserveTemp : bool) (tempDirectory : string) (x : result A * W) : result A * W :=
  if preserveTemp then x else (x.1, ih_RemoveAll tempDirectory x.2).

Definition kept_at (tempDirectory : string) : W → W := λ w, (Println ["Temporary payload kept at:"; tempDirectory] w).2.

Definition runGraphical (options : installerOptions) : M W unit :=
  let! tempDirectory := (λ w, match ih_MkdirTemp w with (Err e, w) => (Err (EWrap e), w) | x => x end) in
  λ w, match ih_extractPayload tempDirectory w with
  | (Err e, w) => (Err e, w)
  | (Ok _, w) =>
    match ih_Run (ih_findPowerShell w) (buildGraphicalArguments join_path options tempDirectory version) w with
    | (Err e, w) => (Err (EWrap e), w)
    | (Ok _, w) => leaving (io_keepTemp options) tempDirectory (Ok tt, w)
    end
  end.

Definition installed (options : installerOptions) : M W unit :=
  Println ["IPv6Mesh installation completed."];;
  if negb (io_startService options) then
    Println ["The service was not started because -start-service=false was supplied."];; waitForExit (io_nonInteractive options)
  else runConnectionWizard options deviceDefault.

Definition run_install (options : installerOptions) (controlURL tempDirectory : string) : M W unit := λ w,
  match ih_extractPayload tempDirectory w with
  | (Err e, w) => (Err e, kept_at tempDirectory w)
  | (Ok _, w) =>
    let powershell := ih_findPowerShell w in
    let arguments := buildInstallArguments join_path options tempDirectory controlURL in
    let '(_, w) := (print ("IPv6Mesh installer " ++ version ++ line_feed)%string;; Println ["Control URL:"; controlURL];;
                    Println ["Extracted payload:"; tempDirectory]) w in
    match ih_Run powershell arguments w with
    | (Err e, w) => (Err (EWrap e), kept_at tempDirectory w)
    | (Ok _, w) => leaving (io_keepTemp options) tempDirectory (installed options w)
    end
  end.

Definition installer_run (options : installerOptions) : M W unit := λ w,
  if bool_decide (payload = []) then (Err (EForeign 0), w)
  else if negb (ih_isAdministrator w) then (ih_relaunchElevated;; throw errRelaunched) w
  else if negb (io_nonInteractive options) then runGraphical options w
  else if io_nonInteractive options && blank (io_controlURL options) then (Err (EForeign 0), w)
  else
    (let! controlURL := resolveControlURL (io_controlURL options) in
     let! tempDirectory := (λ w, match ih_MkdirTemp w with (Err e, w) => (Err (EWrap e), w) | x => x end) in
     run_install options controlURL tempDirectory) w.
End Run.
