(* ===== verification/InstallerThm.v ===== *)
(** * The installer: what its wizard achieves

    The wizard over any terminal and any pipe to the local service, where calls
    and answers may be lost, and the service itself behind such a pipe. *)

From Stdlib Require Import Ascii.
From stdpp Require Import relations.
From S2P Require Import Prelude GoStd NetURL Ipc IpcCodec Service ServiceThm IpcThm Installer.

Open Scope Z_scope.

(** ** A pipe to the service *)

(** The service answers a request as its abstract machine does. *)
Inductive serves (request : Request) : phase → Response → phase → Prop :=
| serves_refused p c : refusal liveContext p request = Some c → serves request p (ErrorResponse c) p
| serves_command p r p' : refusal liveContext p request = None → command_step request p r p' → serves request p r p'.

(** The phase of the service behind the pipe; [pl_inv] holds of the systems that
    occur.  A call that fails may or may not have been served; time goes on; a
    context that is over is seen. *)
Class PipeLaws (W : Type) `{Terminal W, PipeClient W} := {
  pl_phase : W → phase;
  pl_inv : W → Prop;
  law_print s w : pl_inv w → pl_inv (tm_Print s w) ∧ pl_phase (tm_Print s w) = pl_phase w;
  law_read w x w' : pl_inv w → tm_ReadString w = (x, w') → pl_inv w' ∧ pl_phase w' = pl_phase w;
  law_wait d w b w' : pl_inv w → pc_Wait d w = (b, w') →
    pl_inv w' ∧ pl_phase w' = pl_phase w ∧ (d ≤ pc_Now w → b = true) ∧ (b = false → pc_Now w + callPause ≤ pc_Now w');
  law_call d q w r w' : pl_inv w → pc_Call d q w = (r, w') →
    pl_inv w' ∧ pc_Now w ≤ pc_Now w' ∧
    match r with
    | Ok response => ∃ r0, response = normal_response r0 ∧ serves q (pl_phase w) r0 (pl_phase w')
    | Err _ => pl_phase w' = pl_phase w ∨ ∃ r0, serves q (pl_phase w) r0 (pl_phase w')
    end
}.

(** ** What the requests of the wizard do to the phase *)
Definition moved (request : Request) (p p' : phase) : Prop := ∃ r, serves request p r p'.

Lemma serves_status p r p' : serves status_request p r p' →
  p' = p ∧ (ipr_OK (normal_response r) = true → p ≠ Stopped ∧ ipr_Status (normal_response r) = phase_status p).
Proof.
  destruct 1 as [p c Hr|p r p' Hr Hc]; [done|]. destruct Hc; try done; [|by destruct H]. split; [done|]. intros _. by destruct p as [| |j []].
Qed.

Lemma serves_join invite name p r p' : serves (join_request invite name) p r p' →
  (p' = p ∧ ipr_OK (normal_response r) = false) ∨
  (p = Idle ∧ ∃ j, p' = Member j false ∧ jr_DisplayName j = name ∧ ss_NetworkID (ipr_Status (normal_response r)) = jr_NetworkID j).
Proof. destruct 1 as [p c Hr|p r p' Hr Hc]; [by left|]. destruct Hc; try done; [by left|]. right. split; [done|]. by exists j. Qed.

Lemma serves_connect id p r p' : serves (connect_request id) p r p' →
  (p' = p ∧ ipr_OK (normal_response r) = false) ∨ ∃ j c, p = Member j c ∧ p' = Member j true.
Proof. destruct 1 as [p c Hr|p r p' Hr Hc]; [by left|]. destruct Hc; try done; [by left|]. right. eauto. Qed.

(** Calls that were lost: the phase stays, or the request was served. *)
Definition lost (request : Request) : phase → phase → Prop := rtc (moved request).

Lemma lost_status p p' : lost status_request p p' → p' = p.
Proof. induction 1 as [|p q p' [r Hs%serves_status] _ IH]; [done|]. destruct Hs as [-> _]. done. Qed.

(** [grows p p']: the device got further on its way to be connected, or is where
    it was. *)
Definition grows (p p' : phase) : Prop :=
  p' = p ∨ match p with Stopped => False | Idle => ∃ j c, p' = Member j c | Member j _ => p' = Member j true end.

#[global] Instance grows_preorder : PreOrder grows.
Proof.
  split; [by left|]. intros p q r [->|H] [->|H']; [by left|by right|by right|]. right. destruct p as [| |j c]; [done| |].
  - destruct H as (j & c & ->). eauto.
  - by subst.
Qed.

Lemma lost_join invite name p p' : lost (join_request invite name) p p' →
  p' = p ∨ (p = Idle ∧ ∃ j, p' = Member j false ∧ jr_DisplayName j = name).
Proof.
  induction 1 as [|p q p' [r Hs%serves_join] _ IH]; [by left|]. destruct Hs as [[-> _]|(-> & j & -> & Hj & _)]; [done|].
  right. split; [done|]. destruct IH as [->|[? _]]; [by exists j|done].
Qed.

Lemma lost_connect id p p' : lost (connect_request id) p p' → p' = p ∨ ∃ j c, p = Member j c ∧ p' = Member j true.
Proof.
  induction 1 as [|p q p' [r Hs%serves_connect] _ IH]; [by left|]. destruct Hs as [[-> _]|(j & c & -> & ->)]; [done|].
  right. exists j, c. split; [done|]. destruct IH as [->|(j' & c' & [= <- _] & ->)]; done.
Qed.

Create HintDb installer.

(** ** Triples

    [triple p m Q E]: run in phase [p], [m] ends in a phase that fits its result,
    or fails in a phase in [E]. *)
Section Wizard.
Context {W : Type} `{PipeLaws W}.

Definition triple {A} (p : phase) (m : M W A) (Q : A → phase → Prop) (E : phase → Prop) : Prop :=
  ∀ w, pl_inv w → pl_phase w = p →
  match m w with
  | (Ok a, w') => pl_inv w' ∧ Q a (pl_phase w')
  | (Err _, w') => pl_inv w' ∧ E (pl_phase w')
  end.

Lemma triple_bind {A B} p (m : M W A) (k : A → M W B) Q R E :
  triple p m Q E → (∀ a p', Q a p' → triple p' (k a) R E) → triple p (bind m k) R E.
Proof.
  intros Hm Hk w Hw Hp. specialize (Hm w Hw Hp). unfold bind. destruct (m w) as [[a|e] w1]; [|done]. destruct Hm as [Hw1 HQ]. by apply (Hk a _ HQ).
Qed.
Lemma triple_ret {A} p (a : A) (Q : A → phase → Prop) (E : phase → Prop) : Q a p → triple p (ret a) Q E.
Proof. intros HQ w Hw <-. done. Qed.
Lemma triple_throw {A} p e (Q : A → phase → Prop) (E : phase → Prop) : E p → triple p (throw e) Q E.
Proof. intros HE w Hw <-. done. Qed.
Lemma triple_mono {A} p (m : M W A) (Q Q' : A → phase → Prop) (E E' : phase → Prop) :
  triple p m Q E → (∀ a p', Q a p' → Q' a p') → (∀ p', E p' → E' p') → triple p m Q' E'.
Proof. intros Hm HQ HE w Hw Hp. specialize (Hm w Hw Hp). destruct (m w) as [[a|e] w1]; naive_solver. Qed.

(** Steps that say or read something. *)
Definition silent {A} (m : M W A) : Prop := ∀ p, triple p m (λ _ p', p' = p) (λ p', p' = p).

Lemma triple_silent {A B} p (m : M W A) (k : A → M W B) R (E : phase → Prop) :
  silent m → E p → (∀ a, triple p (k a) R E) → triple p (bind m k) R E.
Proof.
  intros Hm HE Hk. eapply triple_bind; [eapply triple_mono; [apply Hm|done|]|].
  - by intros p' ->.
  - intros a p' ->. apply Hk.
Qed.
Lemma silent_bind {A B} (m : M W A) (k : A → M W B) : silent m → (∀ a, silent (k a)) → silent (bind m k).
Proof. intros Hm Hk p. apply triple_silent; [done|done|]. intros a. apply Hk. Qed.
Lemma silent_ret {A} (a : A) : silent (ret a).
Proof. intros p. by apply triple_ret. Qed.
Lemma silent_throw {A} e : silent (throw (A := A) e).
Proof. intros p. by apply triple_throw. Qed.
Lemma silent_Println words : silent (Println words).
Proof. intros p w Hw Hp. unfold Println, print. by destruct (law_print (String.concat " " words ++ line_feed)%string w Hw) as [? ->]. Qed.
Lemma silent_print s : silent (print s).
Proof. intros p w Hw Hp. unfold print. by destruct (law_print s w Hw) as [? ->]. Qed.
Lemma silent_read : silent read_line.
Proof.
  intros p w Hw Hp. unfold read_line. destruct (tm_ReadString w) as [[line ended] w1] eqn:E. destruct (law_read _ _ _ Hw E) as [Hw1 Hp1].
  destruct ended; (split; [done|congruence]).
Qed.
Lemma silent_waitForExit b : silent (waitForExit b).
Proof.
  unfold waitForExit. destruct b; [apply silent_ret|]. apply silent_bind; [apply silent_Println|]. intros _ p w Hw Hp.
  destruct (tm_ReadString w) as [x w1] eqn:E. destruct (law_read _ _ _ Hw E) as [Hw1 Hp1]. split; [done|]. cbn [snd]. congruence.
Qed.
#[local] Hint Resolve silent_bind silent_ret silent_throw silent_Println silent_print silent_read silent_waitForExit : installer.

Lemma silent_promptValue label value fallback b : silent (promptValue label value fallback b).
Proof.
  unfold promptValue. destruct (negb _); [auto with installer|]. destruct b; [auto with installer|]. apply silent_bind; [auto with installer|].
  intros _. apply silent_bind; [auto with installer|]. intros line. destruct (bool_decide (_ = "")); auto with installer.
Qed.
Lemma silent_existing id status : silent (existing_network id status).
Proof. unfold existing_network. apply silent_bind; [auto with installer|]. intros _. destruct (bool_decide (ss_VirtualIPv4 _ = "")); auto with installer. Qed.

(** ** Calls *)

(** With the rounds that its time allows, a call ends. *)
Lemma call_loop_ends n d q w : pl_inv w → d - pc_Now w ≤ Z.of_nat n * callPause →
  ∃ r w', call_loop (S n) d q w = (Some r, w') ∧ pl_inv w' ∧
  match r with
  | Ok response => ∃ p r0, lost q (pl_phase w) p ∧ response = normal_response r0 ∧ serves q p r0 (pl_phase w')
  | Err _ => lost q (pl_phase w) (pl_phase w')
  end.
Proof.
  revert w. induction n as [|n IH]; intros w Hw Ht; cbn [call_loop];
    (destruct (pc_Call d q w) as [r w1] eqn:Ec; destruct (law_call _ _ _ _ _ Hw Ec) as (Hw1 & Hn1 & Hr);
     destruct r as [response|e]; [destruct Hr as (r0 & -> & Hs); eexists _, _; split_and!; [done|done|]; exists (pl_phase w), r0; split_and!; [apply rtc_refl|done|done]|];
     assert (lost q (pl_phase w) (pl_phase w1)) as Hl by (destruct Hr as [->|[r0 Hs]]; [apply rtc_refl|apply rtc_once; by exists r0]);
     destruct (pc_Wait d w1) as [b w2] eqn:Ew; destruct (law_wait _ _ _ _ Hw1 Ew) as (Hw2 & Hp2 & Hd & Hnd);
     destruct b; [eexists _, _; split_and!; [done|done|]; by rewrite Hp2|]).
  - exfalso. discriminate Hd. lia.
  - destruct (IH w2 Hw2) as (r & w' & Er & Hw' & Hr'); [specialize (Hnd eq_refl); lia|]. exists r, w'. split_and!; [done|done|].
    destruct r as [response|e'].
    + destruct Hr' as (p & r0 & Hl' & ? & ?). exists p, r0. split_and!; [|done|done]. rewrite Hp2 in Hl'. by etrans.
    + rewrite Hp2 in Hr'. by etrans.
Qed.

Lemma asked_spec q p : triple p (asked q)
  (λ response p', ∃ p1 r0, lost q p p1 ∧ response = normal_response r0 ∧ ipr_OK response = true ∧ serves q p1 r0 p')
  (λ p', lost q p p').
Proof.
  intros w Hw Hp. destruct (call_loop_ends 60 (pc_Now w + callTimeout) q w Hw) as (r & w' & Er & Hw' & Hr).
  { unfold callTimeout, callPause. lia. }
  unfold asked, bind, callService, callRounds. rewrite Er, <-Hp. destruct r as [response|e]; [|done].
  destruct Hr as (p1 & r0 & Hl & -> & Hs). destruct (ipr_OK (normal_response r0)) eqn:Eo; [split; [done|]; by exists p1, r0|].
  split; [done|]. cbn. etrans; [done|]. apply rtc_once. by exists r0.
Qed.

Lemma asked_status p : triple p (asked status_request)
  (λ response p', p' = p ∧ p ≠ Stopped ∧ ipr_Status response = phase_status p) (λ p', p' = p).
Proof.
  eapply triple_mono; [apply asked_spec| |].
  - intros a p' (p1 & r0 & ->%lost_status & -> & Ho & Hs%serves_status). naive_solver.
  - apply lost_status.
Qed.

Lemma asked_join invite name p : triple p (asked (join_request invite name))
  (λ response p', p = Idle ∧ ∃ j, p' = Member j false ∧ jr_DisplayName j = name ∧ ss_NetworkID (ipr_Status response) = jr_NetworkID j)
  (grows p).
Proof.
  eapply triple_mono; [apply asked_spec| |].
  - intros a p' (p1 & r0 & Hl%lost_join & -> & Ho & Hs%serves_join). destruct Hs as [[_ Hn]|(-> & j & -> & Hj & Hid)]; [congruence|].
    destruct Hl as [<-|(_ & j' & [=] & _)]. split; [done|]. by exists j.
  - intros p' Hl%lost_join. destruct Hl as [->|(-> & j & -> & _)]; [by left|right; eauto].
Qed.

Lemma asked_connect id p : triple p (asked (connect_request id)) (λ _ p', ∃ j c, p = Member j c ∧ p' = Member j true) (grows p).
Proof.
  eapply triple_mono; [apply asked_spec| |].
  - intros a p' (p1 & r0 & Hl%lost_connect & -> & Ho & Hs%serves_connect). destruct Hs as [[_ Hn]|(j & c & -> & ->)]; [congruence|].
    destruct Hl as [<-|(j' & c' & -> & [= -> ->])]; eauto.
  - intros p' Hl%lost_connect. destruct Hl as [->|(j & c & -> & ->)]; [by left|by right].
Qed.

(** ** The wizard *)
Variable options : installerOptions.
Variable deviceDefault : string.

(** A device that was set up from phase [p]: it is a member, connected when that
    was asked for and else as connected as before, of the network it was in or
    under the name that was given. *)
Definition set_up (p p' : phase) : Prop :=
  grows p p' ∧ ∃ j c, p' = Member j c ∧ (io_connect options = true → c = true) ∧
  (io_connect options = false → c = match p with Member _ c0 => c0 | _ => false end) ∧
  (p = Idle → io_nonInteractive options = true → jr_DisplayName j = TrimSpace (io_deviceName options)).

Lemma promptValue_given label value fallback p : triple p (promptValue label value fallback (io_nonInteractive options))
  (λ a p', p' = p ∧ (io_nonInteractive options = true → a = TrimSpace value)) (λ p', p' = p).
Proof.
  unfold promptValue. destruct (bool_decide (TrimSpace value = "")) eqn:E; cbn [negb]; [|by apply triple_ret].
  destruct (io_nonInteractive options) eqn:En; [by apply triple_throw|]. pose proof (silent_promptValue label value fallback false p) as Hs.
  unfold promptValue in Hs. rewrite E in Hs. eapply triple_mono; [exact Hs|done|done].
Qed.

Lemma join_network_spec p : triple p (join_network options deviceDefault)
  (λ id p', p = Idle ∧ ∃ j, p' = Member j false ∧ id = jr_NetworkID j ∧
     (io_nonInteractive options = true → jr_DisplayName j = TrimSpace (io_deviceName options))) (grows p).
Proof.
  unfold join_network. apply triple_silent; [apply silent_promptValue|by left|]. intros invite.
  eapply triple_bind; [eapply triple_mono; [apply promptValue_given|done|intros p' ->; by left]|].
  intros name p' [-> Hn]. apply triple_silent; [auto with installer|by left|]. intros _. eapply triple_bind; [apply asked_join|].
  intros joined p' (-> & j & -> & Hj & Hid). assert (grows Idle (Member j false)) by (right; eauto).
  apply triple_silent; [auto with installer|done|]. intros _. apply triple_silent; [auto with installer|done|]. intros _. apply triple_ret.
  split; [done|]. exists j. split_and!; [done|done|]. intros Hi. by rewrite Hj, Hn.
Qed.

Lemma connect_network_spec id p : triple p (connect_network options id) (λ _ p', ∃ j c, p = Member j c ∧ p' = Member j true) (grows p).
Proof.
  unfold connect_network. destruct (bool_decide _); [apply triple_throw; by left|]. apply triple_silent; [auto with installer|by left|].
  intros _. eapply triple_bind; [apply asked_connect|]. intros _ p' (j & c & -> & ->). assert (grows (Member j c) (Member j true)) by by right.
  eapply triple_bind; [eapply triple_mono; [apply asked_status|done|by intros p' ->]|]. intros final p' [-> _].
  assert (silent (Println (W := W) ["IPv6Mesh is connected."];; Println ["Network:"; ss_NetworkID (ipr_Status final)];;
    Println ["Virtual IPv4:"; ss_VirtualIPv4 (ipr_Status final)];; Println ["Path:"; ss_PathState (ipr_Status final)];;
    waitForExit (io_nonInteractive options))) as Hs by auto 10 with installer.
  eapply triple_mono; [apply Hs|intros _ p' ->; by exists j, c|by intros p' ->].
Qed.

Lemma wizard_spec p : triple p (runConnectionWizard options deviceDefault) (λ _ p', set_up p p') (grows p).
Proof.
  unfold runConnectionWizard. eapply triple_bind; [eapply triple_mono; [apply asked_status|done|intros p' ->; by left]|].
  intros status p' (-> & Hstop & ->).
  assert (∀ p1 j c id, p1 = Member j c → grows p p1 → c = (match p with Member _ c0 => c0 | _ => false end) →
      (p = Idle → io_nonInteractive options = true → jr_DisplayName j = TrimSpace (io_deviceName options)) →
      triple p1 (if negb (io_connect options)
        then Println ["Connection step skipped because -connect=false was supplied."];; waitForExit (io_nonInteractive options)
        else connect_network options id) (λ _ p', set_up p p') (grows p)) as Hrest.
  { intros p1 j c id -> Hg Hc Hn. destruct (io_connect options) eqn:Eo; cbn [negb].
    - eapply triple_mono; [apply connect_network_spec| |intros p' Hp'; by etrans].
      intros _ p' (j' & c' & [= <- <-] & ->). split; [etrans; [exact Hg|by right]|]. exists j, true. rewrite Eo. done.
    - apply triple_silent; [auto with installer|done|]. intros _.
      eapply triple_mono; [apply silent_waitForExit| |by intros p' ->]. intros _ p' ->. split; [done|]. exists j, c. rewrite Eo. done. }
  case_bool_decide as Eid.
  - eapply triple_bind; [apply join_network_spec|]. intros id p' (-> & j & -> & _ & Hn).
    by eapply (Hrest _ j false id); [done|right; eauto|done|].
  - apply triple_silent; [apply silent_existing|by left|]. intros id. destruct p as [| |j c]; [done|done|].
    by eapply (Hrest _ j c id); [done|by left|done|].
Qed.
End Wizard.

(** ** The run *)
Class HostLaws (W : Type) `{PipeLaws W, InstallerHost W} := {
  law_relaunch w r w' : pl_inv w → ih_relaunchElevated w = (r, w') → pl_inv w';
  law_mkdir w r w' : pl_inv w → ih_MkdirTemp w = (r, w') → pl_inv w';
  law_extract d w r w' : pl_inv w → ih_extractPayload d w = (r, w') → pl_inv w';
  law_run program arguments w r w' : pl_inv w → ih_Run program arguments w = (r, w') → pl_inv w';
  law_remove d w : pl_inv w → pl_inv (ih_RemoveAll d w) ∧ pl_phase (ih_RemoveAll d w) = pl_phase w
}.

Section Run.
Context {W : Type} `{HostLaws W} (join_path : string → string → string) (version deviceDefault : string) (options : installerOptions).

Lemma kept_at_inv d w : pl_inv w → pl_inv (kept_at d w).
Proof. intros Hw. unfold kept_at, Println, print. by apply law_print. Qed.

Lemma run_install_spec url d p : io_startService options = true →
  triple p (run_install join_path version deviceDefault options url d) (λ _ p', ∃ p0, set_up options p0 p') (λ _, True).
Proof.
  intros Hstart w Hw Hp. unfold run_install. destruct (ih_extractPayload d w) as [x w1] eqn:E1.
  pose proof (law_extract _ _ _ _ Hw E1) as Hw1. destruct x as [[]|e]; [|auto using kept_at_inv].
  cbv zeta. destruct ((print _;; _) w1) as [[?|?] w2] eqn:E2; [|by cbn in E2].
  assert (pl_inv w2) as Hw2 by (injection E2 as _ <-; by repeat apply law_print).
  destruct (ih_Run _ _ w2) as [y w3] eqn:E3. pose proof (law_run _ _ _ _ _ Hw2 E3) as Hw3. destruct y as [[]|e]; [|auto using kept_at_inv].
  assert (triple (pl_phase w3) (installed deviceDefault options) (λ _ p', ∃ p0, set_up options p0 p') (λ _, True)) as Hi.
  { unfold installed. rewrite Hstart. cbn [negb]. apply triple_silent; [apply silent_Println|done|]. intros _.
    eapply triple_mono; [apply wizard_spec|intros ?? Hx; exists (pl_phase w3); exact Hx|done]. }
  specialize (Hi w3 Hw3 eq_refl). unfold leaving. destruct (io_keepTemp options); [done|].
  destruct (installed _ _ w3) as [[?|e] w4]; cbn [fst snd]; destruct Hi as [Hw4 Hi]; destruct (law_remove d w4 Hw4) as [? Hr]; [by rewrite Hr|done].
Qed.

Lemma installer_run_spec payload p : io_nonInteractive options = true → io_startService options = true →
  triple p (installer_run join_path payload version deviceDefault options) (λ _ p', ∃ p0, set_up options p0 p') (λ _, True).
Proof.
  intros Hn Hstart w Hw Hp. unfold installer_run. rewrite Hn. cbn [negb andb]. case_bool_decide; [done|]. destruct (ih_isAdministrator w); cbn [negb].
  - destruct (blank _); [done|]. assert (silent (W := W) (resolveControlURL (io_controlURL options))) as Hs.
    { unfold resolveControlURL. apply silent_bind.
      - destruct (bool_decide _); [apply silent_bind; [apply silent_print|intros; apply silent_read]|apply silent_ret].
      - intros v. destruct (url_Parse v); [|apply silent_throw]. destruct (_ || _); [apply silent_throw|apply silent_ret]. }
    refine (triple_silent p _ _ (λ _ p', ∃ p0, set_up options p0 p') (λ _, True) Hs I _ w Hw Hp). intros url.
    apply (triple_bind _ _ _ (λ _ _, True)).
    + intros w0 Hw0 Hp0. destruct (ih_MkdirTemp w0) as [x w1] eqn:E. pose proof (law_mkdir _ _ _ Hw0 E). by destruct x.
    + intros d p' _. by apply run_install_spec.
  - unfold bind, throw. destruct (ih_relaunchElevated w) as [x w1] eqn:E. pose proof (law_relaunch _ _ _ Hw E). by destruct x.
Qed.
End Run.

(** C31: the installer gets the device where it says.  The loop around every call
    of the service ends within its rounds.  Over any pipe, with calls and answers
    lost in any places, a wizard that succeeds leaves the device a member: of the
    network it was in, or under the given name; connected unless that was declined.
    A wizard that fails has never taken back what was reached, and an unattended
    run that succeeds ends with such a device whatever state the script left. *)
Theorem installer_sets_up {W} `{HostLaws W} join_path payload version deviceDefault options p :
  (∀ q (w : W), pl_inv w → ∃ r w', call_loop callRounds (pc_Now w + callTimeout) q w = (Some r, w')) ∧
  triple (W := W) p (runConnectionWizard options deviceDefault) (λ _ p', set_up options p p') (grows p) ∧
  (io_nonInteractive options = true → io_startService options = true →
   triple (W := W) p (installer_run join_path payload version deviceDefault options) (λ _ p', ∃ p0, set_up options p0 p') (λ _, True)).
Proof.
  split_and!.
  - intros q w Hw. destruct (call_loop_ends 60 (pc_Now w + callTimeout) q w Hw) as (r & w' & Er & _); [unfold callTimeout, callPause; lia|]. eauto.
  - apply wizard_spec.
  - apply installer_run_spec.
Qed.

(** ** The service behind a pipe

    A host on which the script starts the service, and whose pipe loses calls and
    answers on a schedule. *)
Inductive fate := Answered | NotServed | AnswerLost.
Record piped {W0} (lower : string → string) (so : Service.Options W0) := {
  pi_service : Service; pi_world : W0; pi_fate : list fate; pi_clock : Time; pi_input : list string; pi_output : list string
}.
Arguments pi_service {W0 lower so}. Arguments pi_world {W0 lower so}. Arguments pi_fate {W0 lower so}. Arguments pi_clock {W0 lower so}.
Arguments pi_input {W0 lower so}. Arguments pi_output {W0 lower so}.

Section Piped.
Context {W0 : Type} (lower : string → string) (so : Service.Options W0).
Notation W := (piped lower so).
Implicit Types h : W.

Definition at_state h (st : Service * W0) (fates : list fate) (clock : Time) : W :=
  {| pi_service := st.1; pi_world := st.2; pi_fate := fates; pi_clock := clock; pi_input := pi_input h; pi_output := pi_output h |}.

#[global] Instance piped_terminal : Terminal W := {
  tm_Print s h := {| pi_service := pi_service h; pi_world := pi_world h; pi_fate := pi_fate h; pi_clock := pi_clock h;
                     pi_input := pi_input h; pi_output := pi_output h ++ [s] |};
  tm_ReadString h :=
    match pi_input h with
    | [] => (("", LineEOF), h)
    | line :: rest => ((line, LineRead), {| pi_service := pi_service h; pi_world := pi_world h; pi_fate := pi_fate h;
                         pi_clock := pi_clock h; pi_input := rest; pi_output := pi_output h |})
    end
}.

#[global] Instance piped_client : PipeClient W := {
  pc_Now := pi_clock;
  pc_Call _ q h :=
    let st := (pi_service h, pi_world h) in
    let '(r, st') := Service.Handle lower so liveContext q st in
    match pi_fate h with
    | [] | Answered :: _ => (Ok (normal_response r), at_state h st' (tail (pi_fate h)) (pi_clock h + 1))
    | NotServed :: fates => (Err (EForeign 0), at_state h st fates (pi_clock h + 1))
    | AnswerLost :: fates => (Err (EForeign 0), at_state h st' fates (pi_clock h + 1))
    end;
  pc_Wait d h :=
    if d <=? pi_clock h + callPause then (true, h)
    else (false, at_state h (pi_service h, pi_world h) (pi_fate h) (pi_clock h + callPause))
}.

Lemma Handle_serves q s (w : W0) : service_wf s →
  let '(r, (s', w')) := Service.Handle lower so liveContext q (s, w) in service_wf s' ∧ serves q (phase_of s) r (phase_of s').
Proof.
  intros Hwf. pose proof (do_event_refines lower so (EHandle liveContext q) s w Hwf) as Hd. unfold do_event in Hd.
  destruct (Service.Handle lower so liveContext q (s, w)) as [r [s' w']]. destruct Hd as [Hwf' Hd]. split; [done|].
  inversion Hd; subst; by constructor.
Qed.

#[global] Program Instance piped_laws : PipeLaws W := {
  pl_phase h := phase_of (pi_service h);
  pl_inv h := service_wf (pi_service h)
}.
Next Obligation. done. Qed.
Next Obligation. intros h x h' Hw. cbn. destruct (pi_input h); by intros [= _ <-]. Qed.
Next Obligation.
  intros d h b h' Hw. cbn [pc_Wait piped_client]. destruct (Z.leb_spec d (pi_clock h + callPause)) as [Hd|Hd]; intros [= <- <-]; [done|].
  split_and!; [done|done| |done]. cbn. unfold callPause in *. lia.
Qed.
Next Obligation.
  intros d q h r h' Hw. cbn [pc_Call pc_Now piped_client]. pose proof (Handle_serves q (pi_service h) (pi_world h) Hw) as Hs.
  destruct (Service.Handle lower so liveContext q (pi_service h, pi_world h)) as [r0 [s' w']]. destruct Hs as [Hw' Hs].
  destruct (pi_fate h) as [|[] fates]; intros [= <- <-]; cbn; (split_and!; [done|lia|eauto]).
Qed.

#[global] Instance piped_host : InstallerHost W := {
  ih_isAdministrator _ := true;
  ih_relaunchElevated := throw (EForeign 0);
  ih_MkdirTemp := ret "C:\Temp\ipv6mesh-installer-1";
  ih_RemoveAll _ h := h;
  ih_extractPayload _ := ret tt;
  ih_findPowerShell _ := "powershell.exe";
  ih_Run _ _ h := let '(r, st) := Start so liveContext (pi_service h, pi_world h) in (r, at_state h st (pi_fate h) (pi_clock h))
}.

#[global] Instance piped_host_laws : HostLaws W.
Proof.
  split; [intros; cbn in *; unfold throw, ret in *; by simplify_eq..| |done]. intros program arguments h r h' Hw. cbn [ih_Run piped_host pl_inv piped_laws] in *.
  pose proof (do_event_refines lower so (EStart liveContext) (pi_service h) (pi_world h) Hw) as Hd. unfold do_event in Hd.
  destruct (Start so liveContext _) as [x [s' w']]. destruct Hd as [Hwf' _]. intros; by simplify_eq.
Qed.
End Piped.

Definition demo_service : Service.Options unit := {|
  so_Identity := Some (ret "public-key");
  so_Control := Some {| cc_Join := λ _ r, ret {| jr_DisplayName := ""; jr_NetworkID := "net-1"; jr_VirtualIPv4 := "10.77.0.2"; jr_ConfigGeneration := 3 |};
                        cc_Leave := λ _ _, ret tt; cc_JoinRoom := None; cc_Snapshot := None |};
  so_ControlURL := ""; so_Adapter := Some {| da_Connect := λ _ _, ret tt; da_Disconnect := λ _ _, ret tt |}; so_Reconciler := None
|}.
Definition demo_install (fates : list fate) : piped ToLower demo_service :=
  {| pi_service := New; pi_world := tt; pi_fate := fates; pi_clock := 0; pi_input := []; pi_output := [] |}.
Definition demo_options (name : string) : installerOptions := {|
  io_controlURL := "http://[2001:db8::1]:8080"; io_invite := "id.secret"; io_deviceName := name; io_networkID := ""; io_installDirectory := "";
  io_dataDirectory := ""; io_serviceName := ""; io_startService := true; io_connect := true; io_keepTemp := false; io_nonInteractive := true;
  io_showVersion := false; io_verifyPayload := false
|}.
Definition demo_run (name : string) (fates : list fate) : result unit * piped ToLower demo_service :=
  installer_run (λ d f, (d ++ "\" ++ f)%string) ["a"%char] "1.0" "host" (demo_options name) (demo_install fates).

Definition demo_fates : list fate := [NotServed; Answered; NotServed; Answered; AnswerLost].

Lemma installer_sets_up_witness :
  match demo_run " laptop " demo_fates with
  | (Ok _, h) => ∃ j, phase_of (pi_service h) = Member j true ∧ jr_DisplayName j = "laptop"
  | (Err _, _) => False
  end.
Proof.
  pose proof (proj2 (proj2 (installer_sets_up (W := piped ToLower demo_service) (λ d f, (d ++ "\" ++ f)%string) ["a"%char] "1.0" "host"
    (demo_options " laptop ") Stopped)) eq_refl eq_refl (demo_install demo_fates) New_wf eq_refl
    : match demo_run " laptop " demo_fates with
      | (Ok _, h) => service_wf (pi_service h) ∧ ∃ p0, set_up (demo_options " laptop ") p0 (phase_of (pi_service h))
      | (Err _, h) => service_wf (pi_service h) ∧ True
      end) as Hrun.
  destruct (demo_run " laptop " demo_fates) as [r h] eqn:E. destruct r as [u|e].
  - destruct Hrun as (_ & p0 & _ & j & c & Hj & Hc & _). exists j. rewrite (Hc eq_refl) in Hj. split; [exact Hj|].
    vm_compute in E. injection E as _ <-. vm_compute in Hj. injection Hj as <-. reflexivity.
  - vm_compute in E. discriminate E.
Defined.

(** An answer that is lost after the service has joined: the call is repeated,
    the service refuses to join twice, and the installer reports a failure. *)
Example join_answer_lost :
  let '(r, h) := demo_run "laptop" [Answered; AnswerLost] in
  is_ok r = false ∧ ss_NetworkID (sv_status (pi_service h)) = "net-1".
Proof. vm_compute. done. Qed.

(** The name of the computer does not stand in for a device name that is not given
    in an unattended run. *)
Example device_name_required : is_ok (demo_run "" []).1 = false.
Proof. by vm_compute. Qed.
