(* ===== verification/Pipe.v ===== *)
(** * The named pipe

    [internal/ipc/client_windows.go] and [server_windows.go].  The client is a
    function over the operations of a connection.  The server is a machine: the
    loop that accepts, a thread for every connection, and the closing of the
    server run in any order, one atomic action at a time; a schedule is a list of
    such actions, with what the environment answers to each.  A call of the request
    handler is one action, since the service makes its operations sequential. *)

From Stdlib Require Import Ascii.
From S2P Require Import Prelude GoStd Ipc IpcCodec.

Open Scope Z_scope.

Definition DefaultPipeName : string := "\\.\pipe\ipv6mesh".
Definition ErrUnsupported : error := EForeign 0.

(** ** The client *)
Record pipe_Client := { ic_Path : string; ic_Timeout : Duration; ic_NetworkTimeout : Duration }.
Definition pipe_NewClient (path : string) : pipe_Client := {|
  ic_Path := if bool_decide (path = "") then DefaultPipeName else path;
  ic_Timeout := 5 * 1000000000; ic_NetworkTimeout := 45 * 1000000000
|}.

Definition timeoutFor (client : pipe_Client) (command : string) : Duration :=
  match commandTimeoutClass command with
  | networkCommandTimeout => if 0 <? ic_NetworkTimeout client then ic_NetworkTimeout client else ic_Timeout client
  | localCommandTimeout => ic_Timeout client
  end.

(** [deadline] is the one of the context, if it has one. *)
Definition callDeadline (client : pipe_Client) (deadline : option Time) (command : string) (now : Time) : option Time :=
  let timeout := timeoutFor client command in
  if 0 <? timeout then
    let budgetDeadline := now + timeout in
    match deadline with
    | None => Some budgetDeadline
    | Some d => if budgetDeadline <? d then Some budgetDeadline else Some d
    end
  else deadline.

(** [cx_CloseWrite] is [None] for a connection that cannot be closed half.  The
    reader stops after its limit. *)
Class Connection (W : Type) := {
  cx_Dial : option Time → string → M W N;
  cx_SetDeadline : N → option Time → W → W;
  cx_Write : N → list ascii → M W unit;
  cx_CloseWrite : option (N → M W unit);
  cx_ReadAll : N → Z → M W (list ascii);
  cx_Close : N → W → W
}.

Section Call.
Context {W : Type} `{Connection W}.

(** What happens on the connection, which is closed in the end. *)
Definition exchange (connection : N) (payload : list ascii) : M W (list ascii) :=
  cx_Write connection payload;;
  match cx_CloseWrite with Some close_write => close_write connection | None => ret tt end;;
  cx_ReadAll connection (MaxMessageSize + 1).

Definition Call (lenient : string → option Time) (client : pipe_Client) (deadline : option Time) (now : Time) (request : Request) : M W Response :=
  if bool_decide (ic_Path client = "") then throw ErrUnsupported
  else
    let! payload := lift (MarshalRequest request) in
    let deadline := callDeadline client deadline (ipq_Type request) now in
    let! connection := cx_Dial deadline (ic_Path client) in λ w,
    let w := match deadline with Some _ => cx_SetDeadline connection deadline w | None => w end in
    let '(r, w) := exchange connection payload w in
    (match r with
     | Err e => Err e
     | Ok responseBytes =>
       if MaxMessageSize <? Z.of_nat (length responseBytes) then Err ErrMessageTooLarge else DecodeResponse lenient responseBytes
     end, cx_Close connection w).
End Call.

(** ** The server

    A thread of [handleConnection] stands before: the call of the authorizer, the
    reading, the handler, the writing, [untrack], the closing of the connection. *)
Inductive thread := TAuthorize | TRead | THandle (data : list ascii) | TWrite (response : list ascii) | TUntrack | TClose.
Inductive closing := NotClosed | ClosingListener | ListenerClosed.

(** [sr_pending] is the connection that [Serve] has accepted and not yet tracked,
    [sr_open] the connections that are not closed, [sr_handler] the state of the
    request handler, [sr_written] what was written.  [sr_log] is a history: the
    requests that were handled, with their contexts and answers, the last first. *)
Record entry := { en_connection : N; en_context : Context; en_data : list ascii; en_reply : result (list ascii) }.
Record Server (S : Type) := {
  sr_serving : bool; sr_pending : option N; sr_next : N; sr_closed : bool; sr_closing : closing; sr_active : gset N; sr_open : gset N;
  sr_threads : gmap N thread; sr_handler : S; sr_written : gmap N (list ascii); sr_log : list entry
}.
Arguments sr_serving {S}. Arguments sr_pending {S}. Arguments sr_next {S}. Arguments sr_closed {S}. Arguments sr_closing {S}.
Arguments sr_active {S}. Arguments sr_open {S}. Arguments sr_threads {S}. Arguments sr_handler {S}. Arguments sr_written {S}. Arguments sr_log {S}.

Inductive action :=
| AAccept | AAcceptFails | ATrack
| AAuthorize (c : N) (ok : bool) | ARead (c : N) (read : result (list ascii)) | AHandle (c : N) (ctx : Context)
| AWrite (c : N) (ok : bool) | AUntrack (c : N) | AClose (c : N)
| AServerClose | AListenerClose.

Section Server.
Context {S : Type}.

(** [RequestHandler]. *)
Variable HandleJSON : Context → list ascii → S → result (list ascii) * S.

Definition newServer (handler : S) : Server S := {|
  sr_serving := true; sr_pending := None; sr_next := 0; sr_closed := false; sr_closing := NotClosed; sr_active := ∅; sr_open := ∅;
  sr_threads := ∅; sr_handler := handler; sr_written := ∅; sr_log := []
|}.

(** The tables of connections, the thread of one, and the rest unchanged. *)
Definition with_tables (s : Server S) (pending : option N) (active open : gset N) (threads : gmap N thread) : Server S := {|
  sr_serving := sr_serving s; sr_pending := pending; sr_next := sr_next s; sr_closed := sr_closed s; sr_closing := sr_closing s;
  sr_active := active; sr_open := open; sr_threads := threads; sr_handler := sr_handler s; sr_written := sr_written s; sr_log := sr_log s
|}.
Definition goes (s : Server S) (c : N) (t : thread) : Server S :=
  with_tables s (sr_pending s) (sr_active s) (sr_open s) (<[c := t]> (sr_threads s)).

(** [Serve]: one round of the loop in two actions. *)
Definition accept (s : Server S) : Server S := {|
  sr_serving := sr_serving s; sr_pending := Some (sr_next s); sr_next := sr_next s + 1; sr_closed := sr_closed s; sr_closing := sr_closing s;
  sr_active := sr_active s; sr_open := {[sr_next s]} ∪ sr_open s; sr_threads := sr_threads s; sr_handler := sr_handler s;
  sr_written := sr_written s; sr_log := sr_log s
|}.
Definition stop_serving (s : Server S) : Server S := {|
  sr_serving := false; sr_pending := sr_pending s; sr_next := sr_next s; sr_closed := sr_closed s; sr_closing := sr_closing s;
  sr_active := sr_active s; sr_open := sr_open s; sr_threads := sr_threads s; sr_handler := sr_handler s; sr_written := sr_written s; sr_log := sr_log s
|}.
Definition track (c : N) (s : Server S) : Server S :=
  if sr_closed s then with_tables s None (sr_active s) (sr_open s ∖ {[c]}) (sr_threads s)
  else with_tables s None ({[c]} ∪ sr_active s) (sr_open s) (<[c := TAuthorize]> (sr_threads s)).
Definition untrack (c : N) (s : Server S) : Server S :=
  with_tables s (sr_pending s) (sr_active s ∖ {[c]}) (sr_open s) (<[c := TClose]> (sr_threads s)).

(** [handleConnection]: what follows each answer. *)
Definition after_authorize (ok : bool) : thread := if ok then TRead else TUntrack.
Definition after_read (read : result (list ascii)) : thread :=
  match read with
  | Ok data => if MaxMessageSize <? Z.of_nat (length data) then TUntrack else THandle data
  | Err _ => TUntrack
  end.
Definition after_handle (reply : result (list ascii)) : thread :=
  match reply with
  | Ok response => if MaxMessageSize <? Z.of_nat (length response) then TUntrack else TWrite response
  | Err _ => TUntrack
  end.
Definition handle (c : N) (ctx : Context) (data : list ascii) (s : Server S) : Server S :=
  let '(reply, handler) := HandleJSON ctx data (sr_handler s) in {|
    sr_serving := sr_serving s; sr_pending := sr_pending s; sr_next := sr_next s; sr_closed := sr_closed s; sr_closing := sr_closing s;
    sr_active := sr_active s; sr_open := sr_open s; sr_threads := <[c := after_handle reply]> (sr_threads s); sr_handler := handler;
    sr_written := sr_written s; sr_log := {| en_connection := c; en_context := ctx; en_data := data; en_reply := reply |} :: sr_log s
  |}.
(** A write reaches the caller only on an open connection, and may fail; the error
    is dropped. *)
Definition write (c : N) (ok : bool) (response : list ascii) (s : Server S) : Server S :=
  let s := goes s c TUntrack in
  if ok && bool_decide (c ∈ sr_open s) then {|
    sr_serving := sr_serving s; sr_pending := sr_pending s; sr_next := sr_next s; sr_closed := sr_closed s; sr_closing := sr_closing s;
    sr_active := sr_active s; sr_open := sr_open s; sr_threads := sr_threads s; sr_handler := sr_handler s;
    sr_written := <[c := response]> (sr_written s); sr_log := sr_log s
  |} else s.

(** [Close]: the tracked connections under the lock, then the listener. *)
Definition close_server (s : Server S) (closed : bool) (c : closing) (open : gset N) : Server S := {|
  sr_serving := sr_serving s; sr_pending := sr_pending s; sr_next := sr_next s; sr_closed := closed; sr_closing := c;
  sr_active := sr_active s; sr_open := open; sr_threads := sr_threads s; sr_handler := sr_handler s; sr_written := sr_written s; sr_log := sr_log s
|}.

(** One action, where it can happen. *)
Definition act (a : action) (s : Server S) : option (Server S) :=
  match a with
  | AAccept =>
    match sr_serving s, sr_pending s, sr_closing s with
    | true, None, NotClosed | true, None, ClosingListener => Some (accept s)
    | _, _, _ => None
    end
  | AAcceptFails => match sr_serving s, sr_pending s with true, None => Some (stop_serving s) | _, _ => None end
  | ATrack => c ← sr_pending s; Some (track c s)
  | AAuthorize c ok => match sr_threads s !! c with Some TAuthorize => Some (goes s c (after_authorize ok)) | _ => None end
  | ARead c read => match sr_threads s !! c with Some TRead => Some (goes s c (after_read read)) | _ => None end
  | AHandle c ctx => match sr_threads s !! c with Some (THandle data) => Some (handle c ctx data s) | _ => None end
  | AWrite c ok => match sr_threads s !! c with Some (TWrite response) => Some (write c ok response s) | _ => None end
  | AUntrack c => match sr_threads s !! c with Some TUntrack => Some (untrack c s) | _ => None end
  | AClose c =>
    match sr_threads s !! c with
    | Some TClose => Some (with_tables s (sr_pending s) (sr_active s) (sr_open s ∖ {[c]}) (delete c (sr_threads s)))
    | _ => None
    end
  | AServerClose => match sr_closing s with NotClosed => Some (close_server s true ClosingListener (sr_open s ∖ sr_active s)) | _ => None end
  | AListenerClose => match sr_closing s with ClosingListener => Some (close_server s (sr_closed s) ListenerClosed (sr_open s)) | _ => None end
  end.

Fixpoint acts (l : list action) (s : Server S) : option (Server S) :=
  match l with [] => Some s | a :: l => s ← act a s; acts l s end.
End Server.
