(* ===== verification/PipeThm.v ===== *)
(** * The named pipe: connections and answers under every schedule *)

From Stdlib Require Import Ascii.
From S2P Require Import Prelude GoStd Ipc IpcCodec Service IpcThm Pipe.

Open Scope Z_scope.

(** ** The deadline of a call *)
Lemma callDeadline_min client deadline command now d : callDeadline client deadline command now = Some d →
  (∀ d0, deadline = Some d0 → d ≤ d0) ∧ (0 < timeoutFor client command → d ≤ now + timeoutFor client command) ∧
  (deadline = Some d ∨ d = now + timeoutFor client command).
Proof.
  unfold callDeadline. destruct (Z.ltb_spec 0 (timeoutFor client command)) as [Ht|Ht].
  - destruct deadline as [d0|]; [destruct (Z.ltb_spec (now + timeoutFor client command) d0)|]; intros [= <-]; naive_solver lia.
  - intros ->. naive_solver lia.
Qed.

Section Server.
Context {S : Type} (HandleJSON : Context → list ascii → S → result (list ascii) * S) (init : S).
Notation act := (act HandleJSON).
Notation acts := (acts HandleJSON).
Implicit Types s : Server S.

(** ** What holds under every schedule *)

(** The handled requests, one after the other. *)
Inductive sequential : list entry → S → Prop :=
| sequential_nil : sequential [] init
| sequential_cons log st st' e : sequential log st → HandleJSON (en_context e) (en_data e) st = (en_reply e, st') → sequential (e :: log) st'.

Definition handled (s : Server S) (c : N) : Prop := c ∈ en_connection <$> sr_log s.
Definition answered (s : Server S) (c : N) (response : list ascii) : Prop := ∃ e, e ∈ sr_log s ∧ en_connection e = c ∧ en_reply e = Ok response.

(** Where a thread stands says what was done on its connection. *)
Definition thread_ok (l : list action) s (c : N) (t : thread) : Prop :=
  match t with
  | TAuthorize => ¬ handled s c
  | TRead => ¬ handled s c ∧ AAuthorize c true ∈ l
  | THandle data => ¬ handled s c ∧ AAuthorize c true ∈ l ∧ ARead c (Ok data) ∈ l
  | TWrite response => answered s c response
  | _ => True
  end.

Record sound (l : list action) s : Prop := {
  so_owner c : c ∈ sr_open s → sr_pending s = Some c ∨ is_Some (sr_threads s !! c);
  so_active c : c ∈ sr_active s ↔ ∃ t, sr_threads s !! c = Some t ∧ t ≠ TClose;
  so_closed c : sr_closed s = true → c ∈ sr_open s → sr_pending s = Some c ∨ sr_threads s !! c = Some TClose;
  so_fresh c : sr_pending s = Some c ∨ is_Some (sr_threads s !! c) ∨ handled s c → (c < sr_next s)%N;
  so_pending c : sr_pending s = Some c → sr_threads s !! c = None ∧ ¬ handled s c;
  so_threads c t : sr_threads s !! c = Some t → thread_ok l s c t;
  so_log : sequential (sr_log s) (sr_handler s);
  so_once : NoDup (en_connection <$> sr_log s);
  so_authorized e : e ∈ sr_log s → AAuthorize (en_connection e) true ∈ l ∧ ARead (en_connection e) (Ok (en_data e)) ∈ l;
  so_written c response : sr_written s !! c = Some response → answered s c response
}.

#[global] Instance thread_eq_dec : EqDecision thread.
Proof. solve_decision. Defined.

Lemma newServer_sound : sound [] (newServer init).
Proof.
  split; cbn; try done; try (intros c; set_solver).
  - intros c [?|[[t Ht]|Hh]]; [done|by rewrite lookup_empty in Ht|by apply elem_of_nil in Hh].
  - constructor.
  - constructor.
Qed.

(** Lookups in a map that was changed at one connection. *)
Ltac at_connection c c' :=
  destruct (decide (c = c')) as [->|]; rewrite ?lookup_insert_eq, ?lookup_delete_eq, ?lookup_insert_ne, ?lookup_delete_ne in * by done.

Lemma thread_ok_later l a s c t : thread_ok l s c t → thread_ok (l ++ [a]) s c t.
Proof. destruct t; cbn; set_solver. Qed.

Lemma sound_later l a s : sound l s → sound (l ++ [a]) s.
Proof.
  intros [Ho Ha Hc Hf Hp Ht Hl Hn Hu Hw]. split; try done; [by intros; apply thread_ok_later, Ht|].
  intros e He%Hu. set_solver.
Qed.

(** A thread that goes on and has not let go of its connection. *)
Lemma goes_sound l s c t t' : sound l s → sr_threads s !! c = Some t → t ≠ TClose → t' ≠ TClose → thread_ok l s c t' → sound l (goes s c t').
Proof.
  intros [Ho Ha Hc Hf Hp Ht Hl Hn Hu Hw] Hct Hne Hne' Hok. split; cbn; try done; intros c'.
  - intros Hin%Ho. at_connection c c'; [right; eauto|done].
  - rewrite Ha. at_connection c c'; [|done]. split; intros _; eauto.
  - intros Hcl Hin. destruct (Hc _ Hcl Hin) as [?|Htc]; [by left|]. at_connection c c'; [congruence|by right].
  - intros Hx. apply Hf. at_connection c c'; [|done]. right; left; eauto.
  - intros Hx%Hp. at_connection c c'; [|done]. destruct Hx. congruence.
  - intros t0. at_connection c c'; [by intros [= <-]|apply Ht].
Qed.

Lemma accept_sound l s : sound l s → sr_pending s = None → sound l (accept s).
Proof.
  intros [Ho Ha Hc Hf Hp Ht Hl Hn Hu Hw] Hnone. split; cbn; try done; intros c.
  - intros [->%elem_of_singleton|Hin%Ho]%elem_of_union; [by left|]. destruct Hin; [congruence|by right].
  - intros Hcl [->%elem_of_singleton|Hin]%elem_of_union; [by left|]. destruct (Hc _ Hcl Hin); [congruence|by right].
  - intros [[= <-]|Hx]; [lia|]. assert (c < sr_next s)%N by (apply Hf; by right). lia.
  - intros [= <-]. split.
    + destruct (sr_threads s !! sr_next s) eqn:E; [|done]. assert (sr_next s < sr_next s)%N by (apply Hf; rewrite E; eauto). lia.
    + intros Hh. assert (sr_next s < sr_next s)%N by (apply Hf; by do 2 right). lia.
Qed.

Lemma track_sound l s c : sound l s → sr_pending s = Some c → sound l (track c s).
Proof.
  intros [Ho Ha Hc Hf Hp Ht Hl Hn Hu Hw] Hpc. destruct (Hp c Hpc) as [Hnt Hnh]. unfold track. destruct (sr_closed s) eqn:Ecl; split; cbn; try done; intros c'.
  - intros [Hin%Ho Hne%not_elem_of_singleton]%elem_of_difference. destruct Hin; [congruence|by right].
  - intros _ [Hin Hne%not_elem_of_singleton]%elem_of_difference. destruct (Hc _ eq_refl Hin); [congruence|by right].
  - intros [?|Hx]; [done|]. apply Hf. by right.
  - intros Hin%Ho. right. at_connection c c'; [eauto|]. destruct Hin; [congruence|done].
  - rewrite elem_of_union, elem_of_singleton, Ha. at_connection c c'; [|naive_solver]. split; [|by left]. eexists. split; [done|done].
  - congruence.
  - intros [?|Hx]; [done|]. apply Hf. at_connection c c'; [by left|by right].
  - intros t. at_connection c c'; [by intros [= <-]|apply Ht].
Qed.

Lemma untrack_sound l s c : sound l s → sr_threads s !! c = Some TUntrack → sound l (untrack c s).
Proof.
  intros [Ho Ha Hc Hf Hp Ht Hl Hn Hu Hw] Hct. split; cbn; try done; intros c'.
  - intros Hin%Ho. at_connection c c'; [right; eauto|done].
  - rewrite elem_of_difference, not_elem_of_singleton, Ha. at_connection c c'; naive_solver.
  - intros Hcl Hin. at_connection c c'; [by right|auto].
  - intros Hx. apply Hf. at_connection c c'; [right; left; eauto|done].
  - intros Hx%Hp. at_connection c c'; [|done]. destruct Hx. congruence.
  - intros t. at_connection c c'; [by intros [= <-]|apply Ht].
Qed.

Lemma close_sound l s c : sound l s → sr_threads s !! c = Some TClose →
  sound l (with_tables s (sr_pending s) (sr_active s) (sr_open s ∖ {[c]}) (delete c (sr_threads s))).
Proof.
  intros [Ho Ha Hc Hf Hp Ht Hl Hn Hu Hw] Hct. split; cbn; try done; intros c'.
  - intros [Hin%Ho Hne%not_elem_of_singleton]%elem_of_difference. by rewrite lookup_delete_ne.
  - rewrite Ha. at_connection c c'; naive_solver.
  - intros Hcl [Hin Hne%not_elem_of_singleton]%elem_of_difference. rewrite lookup_delete_ne by done. auto.
  - intros Hx. apply Hf. at_connection c c'; [right; left; eauto|done].
  - intros Hx%Hp. at_connection c c'; [by destruct Hx|done].
  - intros t. at_connection c c'; [done|apply Ht].
Qed.

Lemma close_server_sound l s k : sound l s → sound l (close_server s true k (sr_open s ∖ sr_active s)).
Proof.
  intros [Ho Ha Hc Hf Hp Ht Hl Hn Hu Hw]. split; cbn; try done; intros c.
  - intros [Hin%Ho _]%elem_of_difference. done.
  - intros _ [Hin Hna]%elem_of_difference. destruct (Ho c Hin) as [?|[t E]]; [by left|right]. rewrite E. destruct (decide (t = TClose)) as [->|Hne]; [done|].
    destruct Hna. apply Ha. eauto.
Qed.

Lemma handle_sound l s c ctx data : sound l s → sr_threads s !! c = Some (THandle data) → sound l (handle HandleJSON c ctx data s).
Proof.
  intros [Ho Ha Hc Hf Hp Ht Hl Hn Hu Hw] Hct. destruct (Ht _ _ Hct) as (Hnh & Hau & Hre). unfold handle.
  destruct (HandleJSON ctx data (sr_handler s)) as [reply st'] eqn:E. assert (after_handle reply ≠ TClose) as Hne by (destruct reply; cbn; by repeat case_match).
  split; cbn; try done.
  - intros c' Hin%Ho. at_connection c c'; [right; eauto|done].
  - intros c'. rewrite Ha. at_connection c c'; [|done]. split; intros _; eauto.
  - intros c' Hcl Hin. destruct (Hc _ Hcl Hin) as [?|Htc]; [by left|]. at_connection c c'; [congruence|by right].
  - intros c' Hx. apply Hf. unfold handled in Hx. cbn in Hx. rewrite elem_of_cons in Hx. at_connection c c'; [right; left; eauto|naive_solver].
  - intros c' Hx%Hp. unfold handled. cbn. rewrite elem_of_cons. at_connection c c'; [destruct Hx; congruence|]. unfold handled in Hx. naive_solver.
  - intros c' t. at_connection c c'.
    + intros [= <-]. destruct reply as [response|e]; cbn; [|done]. destruct (MaxMessageSize <? _); [done|]. eexists. split; [by left|done].
    + intros Htc%Ht. destruct t; cbn in *; unfold handled, answered in *; cbn; rewrite ?elem_of_cons; set_solver.
  - by eapply sequential_cons.
  - by apply NoDup_cons.
  - intros e [->|He]%elem_of_cons; [done|auto].
  - intros c' r (e & He & Hr)%Hw. exists e. split; [by right|done].
Qed.

Lemma write_sound l s c ok response : sound l s → sr_threads s !! c = Some (TWrite response) → sound l (write c ok response s).
Proof.
  intros Hs Hct. pose proof (so_threads _ _ Hs _ _ Hct) as Hans. unfold write.
  assert (sound l (goes s c TUntrack)) as [Ho Ha Hc Hf Hp Ht Hl Hn Hu Hw] by by eapply goes_sound.
  destruct (ok && _); [|by split]. split; try done. cbn. intros c' r. at_connection c c'; [by intros [= <-]|apply Hw].
Qed.

Lemma act_sound l s a s' : sound l s → act a s = Some s' → sound (l ++ [a]) s'.
Proof.
  intros Hs%(sound_later _ a). destruct a; cbn [Pipe.act].
  - destruct (sr_serving s), (sr_pending s) eqn:E, (sr_closing s); intros [= <-]; by apply accept_sound.
  - destruct (sr_serving s), (sr_pending s) eqn:E; intros [= <-]. by destruct Hs.
  - destruct (sr_pending s) as [c|] eqn:E; intros [= <-]. by apply track_sound.
  - destruct (sr_threads s !! c) as [[]|] eqn:E; intros [= <-]. pose proof (so_threads _ _ Hs _ _ E) as Hnh.
    eapply goes_sound; [done|done|done|by destruct ok|]. destruct ok; cbn in *; set_solver.
  - destruct (sr_threads s !! c) as [[]|] eqn:E; intros [= <-]. pose proof (so_threads _ _ Hs _ _ E) as [Hnh Hau].
    eapply goes_sound; [done|done|done|destruct read; cbn; by repeat case_match|]. destruct read as [data|]; cbn; [|done].
    destruct (MaxMessageSize <? _); cbn; [done|]. set_solver.
  - destruct (sr_threads s !! c) as [[]|] eqn:E; intros [= <-]. by apply handle_sound.
  - destruct (sr_threads s !! c) as [[]|] eqn:E; intros [= <-]. by apply write_sound.
  - destruct (sr_threads s !! c) as [[]|] eqn:E; intros [= <-]. by apply untrack_sound.
  - destruct (sr_threads s !! c) as [[]|] eqn:E; intros [= <-]. by apply close_sound.
  - destruct (sr_closing s); intros [= <-]. by apply close_server_sound.
  - destruct (sr_closing s); intros [= <-]. by destruct Hs.
Qed.

Lemma acts_sound l0 l s s' : sound l0 s → acts l s = Some s' → sound (l0 ++ l) s'.
Proof.
  revert l0 s. induction l as [|a l IH]; intros l0 s Hs; cbn [Pipe.acts]; [intros [= <-]; by rewrite app_nil_r|].
  destruct (act a s) as [s1|] eqn:E; [|done]. cbn. intros Hl. replace (l0 ++ a :: l) with ((l0 ++ [a]) ++ l) by by rewrite <-app_assoc.
  eapply IH; [|done]. by eapply act_sound.
Qed.
Lemma acts_app l1 l2 s : acts (l1 ++ l2) s = s1 ← acts l1 s; acts l2 s1.
Proof. revert s. induction l1 as [|a l1 IH]; intros s; cbn; [done|]. destruct (act a s); cbn; [apply IH|done]. Qed.

(** ** Everything is closed in the end *)

(** What is left to a thread, when its reads fail. *)
Definition finish (c : N) (t : thread) : list action :=
  match t with
  | TAuthorize => [AAuthorize c false] | TRead => [ARead c (Err (EForeign 0))] | TWrite _ => [AWrite c false] | _ => []
  end ++ match t with TClose => [] | _ => [AUntrack c] end ++ [AClose c].

Lemma finish_acts s c t : sr_threads s !! c = Some t → (∀ data, t ≠ THandle data) →
  ∃ s', acts (finish c t) s = Some s' ∧ sr_threads s' = delete c (sr_threads s) ∧ sr_pending s' = sr_pending s.
Proof.
  intros Hct Hh. destruct t; try (by destruct (Hh data)); unfold finish; cbn; rewrite Hct; cbn; rewrite ?lookup_insert_eq; cbn; rewrite ?lookup_insert_eq; cbn;
    rewrite ?delete_insert_eq; eauto.
Qed.

Lemma finish_quiet c t : AAccept ∉ finish c t.
Proof. unfold finish. destruct t; cbn; rewrite ?elem_of_cons, elem_of_nil; naive_solver. Qed.

Lemma finish_thread s c t : sr_threads s !! c = Some t →
  ∃ l s', acts l s = Some s' ∧ AAccept ∉ l ∧ sr_threads s' = delete c (sr_threads s) ∧ sr_pending s' = sr_pending s.
Proof.
  intros Hct. assert ((∃ data, t = THandle data) ∨ ∀ data, t ≠ THandle data) as [[data ->]|Hno] by (destruct t; eauto).
  - set (s1 := handle HandleJSON c liveContext data s).
    assert (∃ t', sr_threads s1 = <[c := t']> (sr_threads s) ∧ (∀ d, t' ≠ THandle d) ∧ sr_pending s1 = sr_pending s) as (t' & Et & Hno & Ep).
    { unfold s1, handle. destruct (HandleJSON liveContext data (sr_handler s)) as [reply st]. exists (after_handle reply). split_and!; [done| |done].
      intros d. destruct reply; cbn; by repeat case_match. }
    destruct (finish_acts s1 c t') as (s' & Ha & Ht & Hp); [by rewrite Et, lookup_insert_eq|done|].
    exists (AHandle c liveContext :: finish c t'), s'. split_and!.
    + cbn [Pipe.acts Pipe.act]. rewrite Hct. exact Ha.
    + rewrite elem_of_cons. intros [?|?]; [done|by eapply finish_quiet].
    + by rewrite Ht, Et, delete_insert_eq.
    + congruence.
  - destruct (finish_acts s c t) as (s' & Ha & Ht & Hp); [done|done|]. exists (finish c t), s'. split_and!; [done|apply finish_quiet|done|done].
Qed.

Lemma drain_threads n s : (size (sr_threads s) ≤ n)%nat → sr_pending s = None →
  ∃ l s', acts l s = Some s' ∧ AAccept ∉ l ∧ sr_threads s' = ∅ ∧ sr_pending s' = None.
Proof.
  revert s. induction n as [|n IH]; intros s Hn Hp.
  - exists [], s. split_and!; [done|set_solver|apply map_size_empty_inv; lia|done].
  - destruct (decide (sr_threads s = ∅)) as [?|Hne]; [exists [], s; split_and!; [done|set_solver|done|done]|].
    apply map_choose in Hne as (c & t & Hct). destruct (finish_thread s c t Hct) as (l1 & s1 & Ha1 & Hq1 & Ht1 & Hp1).
    destruct (IH s1) as (l2 & s2 & Ha2 & Hq2 & Ht2 & Hp2).
    { rewrite Ht1, map_size_delete_Some by eauto. lia. }
    { congruence. }
    exists (l1 ++ l2), s2. split_and!; [by rewrite acts_app, Ha1|set_solver|done|done].
Qed.

Lemma drain s : ∃ l s', acts l s = Some s' ∧ AAccept ∉ l ∧ sr_threads s' = ∅ ∧ sr_pending s' = None.
Proof.
  destruct (sr_pending s) as [c|] eqn:Ep; [|by eapply drain_threads].
  destruct (drain_threads (size (sr_threads (track c s))) (track c s)) as (l & s' & Ha & Hq & Hr); [done|unfold track; by destruct (sr_closed s)|].
  exists (ATrack :: l), s'. split_and!; [|set_solver|apply Hr..]. cbn [Pipe.acts Pipe.act]. by rewrite Ep.
Qed.
End Server.

(** C18: the pipe server under every interleaving of its accept loop, its
    connections and its closing.  The requests reach the handler one after the
    other, at most one for each connection, and only from callers that were
    authorized; what a caller gets is the answer to the request it sent.  Once the
    server was closed, no connection that a thread still works on is open; and
    from every state the actions that are left close every connection. *)
Theorem pipe_server {S} HandleJSON (init : S) l s : acts HandleJSON l (newServer init) = Some s →
  (sequential HandleJSON init (sr_log s) (sr_handler s) ∧ NoDup (en_connection <$> sr_log s)) ∧
  (∀ e, e ∈ sr_log s → AAuthorize (en_connection e) true ∈ l ∧ ARead (en_connection e) (Ok (en_data e)) ∈ l) ∧
  (∀ c response, sr_written s !! c = Some response → ∃ e, e ∈ sr_log s ∧ en_connection e = c ∧ en_reply e = Ok response) ∧
  (∀ c, sr_closed s = true → c ∈ sr_open s → sr_pending s = Some c ∨ sr_threads s !! c = Some TClose) ∧
  ∃ l' s', acts HandleJSON l' s = Some s' ∧ AAccept ∉ l' ∧ sr_threads s' = ∅ ∧ sr_open s' = ∅.
Proof.
  intros Hl. pose proof (acts_sound HandleJSON init [] l _ _ (newServer_sound HandleJSON init) Hl) as Hs. cbn [app] in Hs.
  split_and!; try apply Hs. destruct (drain HandleJSON s) as (l' & s' & Ha & Hq & Ht & Hp). exists l', s'. split_and!; [done..|].
  pose proof (acts_sound HandleJSON init l l' _ _ Hs Ha) as Hs'. apply elem_of_equiv_empty_L. intros c [Hc|[t Hc]]%(so_owner _ _ _ _ Hs'); [congruence|].
  by rewrite Ht, lookup_empty in Hc.
Qed.

(** Two callers whose connections interleave, and a third that comes while the
    server is closed. *)
Definition pipe_service : Context → list ascii → Service * unit → result (list ascii) * (Service * unit) :=
  Service.HandleJSON ToLower bare_options (Some anyone).
Definition pipe_schedule : list action :=
  [AAccept; ATrack; AAuthorize 0 true; AAccept; ARead 0 (Ok status_data); ATrack; AAuthorize 1 true; ARead 1 (Ok status_data);
   AHandle 1 liveContext; AHandle 0 liveContext; AWrite 0 true; AAccept; AServerClose; AWrite 1 true; AUntrack 1; AListenerClose; ATrack; AUntrack 0].

Lemma pipe_server_witness :
  match acts pipe_service pipe_schedule (newServer (idle_service, tt)) with
  | Some s =>
    en_connection <$> sr_log s = [0; 1]%N ∧ NoDup (en_connection <$> sr_log s) ∧
    sr_written s !! 1%N = None ∧ is_Some (sr_written s !! 0%N) ∧ (∀ c, c ∈ sr_open s → sr_pending s = Some c ∨ sr_threads s !! c = Some TClose)
  | None => False
  end.
Proof.
  pose proof (pipe_server pipe_service (idle_service, tt) pipe_schedule) as H. destruct (acts pipe_service pipe_schedule _) as [s|] eqn:E.
  - specialize (H s eq_refl) as ([_ Hn] & _ & _ & Hc & _). vm_compute in E. injection E as <-. split; [reflexivity|]. split; [exact Hn|].
    split; [reflexivity|]. split; [eexists; reflexivity|]. intros c. by apply Hc.
  - vm_compute in E. discriminate E.
Defined.

(** ** The client closes its connection *)
Class ConnectionLaws (W : Type) `{Connection W} := {
  cl_open : W → gset N;
  law_dial d path w r w' : cx_Dial d path w = (r, w') →
    match r with Ok c => c ∉ cl_open w ∧ cl_open w' = {[c]} ∪ cl_open w | Err _ => cl_open w' = cl_open w end;
  law_deadline c d w : cl_open (cx_SetDeadline c d w) = cl_open w;
  law_write c data w r w' : cx_Write c data w = (r, w') → cl_open w' = cl_open w;
  law_close_write f c w r w' : cx_CloseWrite = Some f → f c w = (r, w') → cl_open w' = cl_open w;
  law_read_all c n w r w' : cx_ReadAll c n w = (r, w') → cl_open w' = cl_open w;
  law_close c w : cl_open (cx_Close c w) = cl_open w ∖ {[c]}
}.

(** Whatever fails, a call leaves the connections as they were. *)
Lemma Call_closes {W} `{ConnectionLaws W} lenient client deadline now request (w w' : W) r :
  Call lenient client deadline now request w = (r, w') → cl_open w' = cl_open w.
Proof.
  unfold Call. case_bool_decide; [by intros [= _ <-]|]. rewrite bind_lift. destruct (MarshalRequest request) as [payload|e]; [|by intros [= _ <-]].
  cbv zeta. unfold bind at 1. destruct (cx_Dial _ _ w) as [[c|e] w1] eqn:Ed; apply law_dial in Ed; [|by intros [= _ <-]]. destruct Ed as [Hc Ho].
  destruct (exchange c payload _) as [x w2] eqn:Ee. intros [= _ <-]. rewrite law_close.
  assert (cl_open w2 = cl_open w1) as ->; [|set_solver].
  assert (∀ w0 x w2, exchange c payload w0 = (x, w2) → cl_open w2 = cl_open w0) as Hx.
  { clear. intros w0 x w2. unfold exchange, bind. destruct (cx_Write c payload w0) as [[[]|?] w1] eqn:Ew; apply law_write in Ew; [|by intros [= _ <-]].
    destruct cx_CloseWrite as [f|] eqn:Ef; cbn.
    - destruct (f c w1) as [[[]|?] w3] eqn:Ec; apply (law_close_write f) in Ec; [|done|intros [= _ <-]; congruence|done].
      intros Er%law_read_all. congruence.
    - intros Er%law_read_all. congruence. }
  apply Hx in Ee. rewrite Ee. destruct (callDeadline _ _ _ _); [apply law_deadline|done].
Qed.
